(** * storage1d: a 1D multi-node stratified storage tank

    A shallow embedding of [storage1d.py] ([TankConfig.validate] and
    [simulate_stratified_tank]) together with the properties its
    specification states about it.

    Conventions of the embedding:
    - Python [int] is [Z]; Python/NumPy [float] is modelled by the exact
      rationals [Q] (the properties below are the exact-arithmetic ones;
      rounding, infinities and NaN are outside the model).  Numbers are
      compared with [==] ([Qeq]) wherever arithmetic is involved.  What
      rounding does to the properties that bound or order temperatures is
      shown on the same code over binary64 (module [Binary64], on the
      kernel's floating-point numbers);
    - a 1D [ndarray] is a [list Q], a 2D one a list of rows; the inputs
      are lists, so [_ensure_1d] and [_as_scalar] have nothing to do
      (the call on arrays of any shape, with these two utilities, is
      [simulate_arrays] further down);
    - an exception is a value of [error]; code that can raise lives in the
      [result] monad;
    - [exec_time_s] (wall-clock time) is not part of the model. *)

From Stdlib Require Import ZArith QArith Qabs Qminmax Qround Lqa Lia String.
From Stdlib Require PrimFloat.
From stdpp Require Import base list.

Local Open Scope Q_scope.

(** ** Python and NumPy primitives *)

Module Py.

(** The source raises [ValueError] from three places; the constructors
    record which one, following the taxonomy of the specification:
    [TankConfig.validate] ([InvalidConfiguration]), [_check_len] and the
    shape test on [T_init] ([DimensionMismatch]), and NumPy's own shape
    check on an assignment ([BroadcastError]).  [IndexError] is Python's. *)
Inductive error :=
| InvalidConfiguration (msg : string)
| DimensionMismatch (name : string) (expected got : Z)
| BroadcastError
| IndexError.

Inductive result (A : Type) :=
| Ok (a : A)
| Err (e : error).
#[global] Arguments Ok {A} a.
#[global] Arguments Err {A} e.

#[global] Instance result_ret : MRet result := fun A a => Ok a.
#[global] Instance result_bind : MBind result := fun A B f m =>
  match m with Ok a => f a | Err e => Err e end.

Definition is_Ok {A} (r : result A) : bool :=
  match r with Ok _ => true | Err _ => false end.

(** [x < y] on floats. *)
Definition Qltb (x y : Q) : bool := negb (Qle_bool y x).

(** [min(a, b)]: Python returns [b] only when [b < a]. *)
Definition py_min (a b : Q) : Q := if Qltb b a then b else a.

(** [len(l)] *)
Definition len {A} (l : list A) : Z := Z.of_nat (length l).

(** An index as Python resolves it: a negative one counts from the end. *)
Definition norm_index (n i : Z) : Z := if (i <? 0)%Z then (i + n)%Z else i.

Definition in_bounds (n j : Z) : bool := ((0 <=? j) && (j <? n))%Z.

(** [l[i]] *)
Definition getitem {A} (l : list A) (i : Z) : result A :=
  let j := norm_index (len l) i in
  if in_bounds (len l) j then
    match l !! Z.to_nat j with
    | Some x => Ok x
    | None => Err IndexError
    end
  else Err IndexError.

(** [l[i] = v] *)
Definition setitem {A} (l : list A) (i : Z) (v : A) : result (list A) :=
  let j := norm_index (len l) i in
  if in_bounds (len l) j then Ok (<[Z.to_nat j := v]> l)
  else Err IndexError.

(** A slice bound as Python clips it. *)
Definition clip_index (n i : Z) : Z :=
  if (i <? 0)%Z then Z.max (i + n) 0 else Z.min i n.

(** [l[start:stop]]; [stop = None] is an omitted bound. *)
Definition slice {A} (l : list A) (start : Z) (stop : option Z) : list A :=
  let a := clip_index (len l) start in
  let b := from_option (clip_index (len l)) (len l) stop in
  take (Z.to_nat (b - a)) (drop (Z.to_nat a) l).

(** [l[start:stop] = vs] for an array [vs] of the slice's shape. *)
Definition set_slice {A} (l : list A) (start : Z) (stop : option Z)
    (vs : list A) : result (list A) :=
  let a := clip_index (len l) start in
  let b := Z.max a (from_option (clip_index (len l)) (len l) stop) in
  if (len vs =? b - a)%Z then
    Ok (take (Z.to_nat a) l ++ vs ++ drop (Z.to_nat b) l)
  else Err BroadcastError.

(** [T[i, :] = row] on a 2D array. *)
Definition set_row (T : list (list Q)) (i : Z) (row : list Q)
    : result (list (list Q)) :=
  old ← getitem T i;
  if (len row =? len old)%Z then setitem T i row else Err BroadcastError.

(** [np.zeros(n)] and [np.empty((rows, cols))].  NumPy leaves the
    contents of the latter unspecified; zero stands for them here, and
    [simulate_stratified_tank] overwrites every row before reading it. *)
Definition np_zeros (n : Z) : list Q := replicate (Z.to_nat n) 0.
Definition np_empty (rows cols : Z) : list (list Q) :=
  replicate (Z.to_nat rows) (replicate (Z.to_nat cols) 0).

(** [np.sum] *)
Definition np_sum (l : list Q) : Q := foldr Qplus 0 l.

(** [range(a, b)] and [range(a, b, -1)] *)
Definition range (a b : Z) : list Z := seqZ a (b - a).
Definition range_down (a b : Z) : list Z :=
  (fun k => (a - k)%Z) <$> seqZ 0 (a - b).

(** [for x in xs: s = body(x, s)] *)
Fixpoint for_ {S} (xs : list Z) (body : Z -> S -> result S) (s : S)
    : result S :=
  match xs with
  | [] => Ok s
  | x :: xs' => s' ← body x s; for_ xs' body s'
  end.

End Py.
Import Py.

(** ** Configuration *)

Record TankConfig := {
  n_nodes : Z;
  height : Q;
  volume : Q;
  rho : Q;
  cp : Q;
  ua_loss : Q;
  k_cond : Q;
  dt : Q;
  n_steps : Z;
  charge_inlet : Z;
  discharge_outlet : Z
}.

(** [self.discharge_outlet = v] *)
Definition set_discharge_outlet (self : TankConfig) (v : Z) : TankConfig :=
  {| n_nodes := n_nodes self; height := height self; volume := volume self;
     rho := rho self; cp := cp self; ua_loss := ua_loss self;
     k_cond := k_cond self; dt := dt self; n_steps := n_steps self;
     charge_inlet := charge_inlet self; discharge_outlet := v |}.

(** [TankConfig.validate].  The method mutates [self], so the embedding
    returns the configuration as the call leaves it next to the outcome. *)
Definition validate (self : TankConfig) : TankConfig * result unit :=
  if (n_nodes self <? 2)%Z then
    (self, Err (InvalidConfiguration "n_nodes must be >= 2."))
  else if Qle_bool (height self) 0 then
    (self, Err (InvalidConfiguration "height must be > 0."))
  else if Qle_bool (volume self) 0 then
    (self, Err (InvalidConfiguration "volume must be > 0."))
  else if Qle_bool (rho self) 0 || Qle_bool (cp self) 0 then
    (self, Err (InvalidConfiguration "rho and cp must be > 0."))
  else if Qle_bool (dt self) 0 then
    (self, Err (InvalidConfiguration "dt must be > 0."))
  else if (n_steps self <? 1)%Z then
    (self, Err (InvalidConfiguration "n_steps must be >= 1."))
  else if negb ((0 <=? charge_inlet self) && (charge_inlet self <? n_nodes self))%Z then
    (self, Err (InvalidConfiguration "charge_inlet index out of range."))
  else
    let self :=
      if (discharge_outlet self =? -1)%Z
      then set_discharge_outlet self (n_nodes self - 1)
      else self in
    if negb ((0 <=? discharge_outlet self)
             && (discharge_outlet self <? n_nodes self))%Z then
      (self, Err (InvalidConfiguration "discharge_outlet index out of range."))
    else (self, Ok tt).

(** ** Core model *)

(** [_check_len] *)
Definition _check_len (name : string) (arr : list Q) (n : Z) : result unit :=
  if negb (len arr =? n)%Z then Err (DimensionMismatch name n (len arr))
  else Ok tt.

(** Geometry, computed once per run (constant properties). *)
Definition dz (cfg : TankConfig) : Q := height cfg / inject_Z (n_nodes cfg).
Definition area_cross (cfg : TankConfig) : Q := volume cfg / height cfg.
Definition vol_node (cfg : TankConfig) : Q := area_cross cfg * dz cfg.
Definition mass_node (cfg : TankConfig) : Q := rho cfg * vol_node cfg.
Definition ua_node (cfg : TankConfig) : Q :=
  if Qltb 0 (ua_loss cfg) then ua_loss cfg / inject_Z (n_nodes cfg) else 0.
Definition G_cond (cfg : TankConfig) : Q :=
  if Qltb 0 (k_cond cfg) then k_cond cfg * area_cross cfg / dz cfg else 0.

(** The state of the time march: the field [T] and the series [Q_loss]. *)
Definition state : Type := list (list Q) * list Q.

Section Step.

Variable cfg : TankConfig.
(** the values of the locals [mass_node], [ua_node] and [G_cond] *)
Variables mass_node_ ua_node_ G_cond_ : Q.

(** 1) Side losses (explicit Euler), inside [if ua_node > 0.0]:
    [dT_loss] and [Tn - dT_loss] for the ambient temperature [Tamb]. *)
Definition side_losses (Tamb : Q) (Tn : list Q) : list Q :=
  let dT_loss :=
    (fun x => (ua_node_ * (x - Tamb) * dt cfg) / (mass_node_ * cp cfg)) <$> Tn in
  zip_with Qminus Tn dT_loss.

(** The value stored in [Q_loss[t]]; [row] is [T[t, :]]. *)
Definition loss_power (Tamb : Q) (row : list Q) : Q :=
  np_sum ((fun x => ua_node_ * (x - Tamb)) <$> row).

(** 2) Axial conduction (explicit Euler): the body of [if G_cond > 0.0].
    The operands of every elementwise operation are slices of one length,
    so NumPy never broadcasts here. *)
Definition axial_conduction (Tn : list Q) : result (list Q) :=
  let dT_cond := np_zeros (len Tn) in
  (* bottom *)
  a ← getitem Tn 1; b ← getitem Tn 0;
  dT_cond ← setitem dT_cond 0
    ((G_cond_ * (a - b) * dt cfg) / (mass_node_ * cp cfg));
  (* interior *)
  let lo := slice Tn 0 (Some (-2)%Z) in
  let mid := slice Tn 1 (Some (-1)%Z) in
  let hi := slice Tn 2 None in
  let interior :=
    (fun x => (G_cond_ * x * dt cfg) / (mass_node_ * cp cfg)) <$>
      zip_with Qplus (zip_with Qminus lo mid) (zip_with Qminus hi mid) in
  dT_cond ← set_slice dT_cond 1 (Some (-1)%Z) interior;
  (* top *)
  a ← getitem Tn (-2); b ← getitem Tn (-1);
  dT_cond ← setitem dT_cond (-1)
    ((G_cond_ * (a - b) * dt cfg) / (mass_node_ * cp cfg));
  Ok (zip_with Qplus Tn dT_cond).

(** CHARGING at the inlet node, then the upward advection proxy: the
    body of [if mf > 0.0]. *)
Definition charging (Tin_charge : list Q) (t : Z) (mf : Q) (Tn : list Q)
    : result (list Q) :=
  let i_in := charge_inlet cfg in
  let alpha := (mf * dt cfg) / (mass_node_ + mf * dt cfg) in
  x ← getitem Tn i_in;
  Tin ← getitem Tin_charge t;
  Tn ← setitem Tn i_in ((1 - alpha) * x + alpha * Tin);
  if (i_in <? n_nodes cfg - 1)%Z then
    let frac := py_min 1 ((mf * dt cfg) / mass_node_) in
    for_ (range i_in (n_nodes cfg - 1))
      (fun i Tn =>
         a ← getitem Tn (i + 1); b ← getitem Tn i;
         setitem Tn (i + 1) ((1 - frac) * a + frac * b))
      Tn
  else Ok Tn.

(** DISCHARGING at the outlet node: the body of [elif mf < 0.0]. *)
Definition discharging (mf : Q) (Tn : list Q) : result (list Q) :=
  let i_out := discharge_outlet cfg in
  let m_out := Qabs mf in
  let frac := py_min 1 ((m_out * dt cfg) / mass_node_) in
  if (0 <? i_out)%Z then
    (* top outlet: pull from below upward *)
    a ← getitem Tn i_out; b ← getitem Tn (i_out - 1);
    Tn ← setitem Tn i_out ((1 - frac) * a + frac * b);
    for_ (range_down (i_out - 1) 0)
      (fun i Tn =>
         a ← getitem Tn i; b ← getitem Tn (i - 1);
         setitem Tn i ((1 - frac) * a + frac * b))
      Tn
  else
    (* bottom outlet: pull from above downward *)
    if (1 <? n_nodes cfg)%Z then
      a ← getitem Tn i_out; b ← getitem Tn (i_out + 1);
      Tn ← setitem Tn i_out ((1 - frac) * a + frac * b);
      for_ (range 0 (n_nodes cfg - 2))
        (fun i Tn =>
           a ← getitem Tn i; b ← getitem Tn (i + 1);
           setitem Tn i ((1 - frac) * a + frac * b))
        Tn
    else Ok Tn.

(** 3) Charging (+) / Discharging (-) / Idle (0) *)
Definition advection (Tin_charge : list Q) (t : Z) (mf : Q) (Tn : list Q)
    : result (list Q) :=
  if Qltb 0 mf then charging Tin_charge t mf Tn
  else if Qltb mf 0 then discharging mf Tn
  else Ok Tn.

(** The body of the time-marching loop [for t in range(n)]. *)
Definition time_step (Tin_charge m_flow T_amb : list Q) (t : Z) (st : state)
    : result state :=
  let '(T, Q_loss) := st in
  Tn ← getitem T t;
  '(Tn, Q_loss) ←
    (if Qltb 0 ua_node_ then
       Tamb ← getitem T_amb t;
       let Tn := side_losses Tamb Tn in
       row ← getitem T t;
       Tamb ← getitem T_amb t;
       Q_loss ← setitem Q_loss t (loss_power Tamb row);
       Ok (Tn, Q_loss)
     else Ok (Tn, Q_loss));
  Tn ← (if Qltb 0 G_cond_ then axial_conduction Tn else Ok Tn);
  mf ← getitem m_flow t;
  Tn ← advection Tin_charge t mf Tn;
  T ← set_row T (t + 1) Tn;
  Ok (T, Q_loss).

End Step.

(** The dictionary [simulate_stratified_tank] returns. *)
Record output := {
  T : list (list Q);
  T_top : list Q;
  T_bot : list Q;
  Q_loss : list Q
}.

(** The time march from an already validated configuration: the state
    arrays and the loop. *)
Definition time_marching (cfg : TankConfig)
    (Tin_charge m_flow T_amb T_init : list Q) : result state :=
  let n := n_steps cfg in
  let T := np_empty (n + 1) (n_nodes cfg) in
  T ← set_row T 0 T_init;
  let Q_loss := np_zeros n in
  for_ (range 0 n)
    (time_step cfg (mass_node cfg) (ua_node cfg) (G_cond cfg)
       Tin_charge m_flow T_amb)
    (T, Q_loss).

Definition simulate_stratified_tank (cfg : TankConfig)
    (Tin_charge m_flow T_amb T_init : list Q) : result output :=
  (* validate config and inputs *)
  let '(cfg, valid) := validate cfg in
  _ ← valid;
  let n := n_steps cfg in
  _ ← _check_len "Tin_charge" Tin_charge n;
  _ ← _check_len "m_flow" m_flow n;
  _ ← _check_len "T_amb" T_amb n;
  if negb (len T_init =? n_nodes cfg)%Z then
    Err (DimensionMismatch "T_init" (n_nodes cfg) (len T_init))
  else
    '(T, Q_loss) ← time_marching cfg Tin_charge m_flow T_amb T_init;
    T_top ← mapM (fun row => getitem row (-1)) T;
    T_bot ← mapM (fun row => getitem row 0) T;
    Ok {| T := T; T_top := T_top; T_bot := T_bot; Q_loss := Q_loss |}.

(** * Vocabulary of the properties *)

(** ** Reading arrays *)

#[global] Instance Q_inhabited : Inhabited Q := populate 0.

(** [node l i] is the temperature [l[i]] of node [i], for [0 <= i < len l]. *)
Definition node (l : list Q) (i : Z) : Q := l !!! Z.to_nat i.

(** [row_at T t] is the row [T[t, :]], for [0 <= t < len T]. *)
Definition row_at (T : list (list Q)) (t : Z) : list Q := T !!! Z.to_nat t.

(** ** Validation *)

(** The discharge outlet once the sentinel [-1] is resolved. *)
Definition normalized_outlet (c : TankConfig) : Z :=
  if (discharge_outlet c =? -1)%Z then (n_nodes c - 1)%Z else discharge_outlet c.

(** The conditions under which the specification says validation fails. *)
Definition invalid (c : TankConfig) : Prop :=
  (n_nodes c < 2)%Z \/ height c <= 0 \/ volume c <= 0 \/ rho c <= 0 \/
  cp c <= 0 \/ dt c <= 0 \/ (n_steps c < 1)%Z \/
  ~ (0 <= charge_inlet c < n_nodes c)%Z \/
  ~ (0 <= normalized_outlet c < n_nodes c)%Z.

(** What a successful validation establishes about the configuration it
    leaves behind. *)
Record validated (c : TankConfig) : Prop := {
  v_nodes : (2 <= n_nodes c)%Z;
  v_height : 0 < height c;
  v_volume : 0 < volume c;
  v_rho : 0 < rho c;
  v_cp : 0 < cp c;
  v_dt : 0 < dt c;
  v_steps : (1 <= n_steps c)%Z;
  v_inlet : (0 <= charge_inlet c < n_nodes c)%Z;
  v_outlet : (0 <= discharge_outlet c < n_nodes c)%Z
}.

(** The configuration with a negative [ua_loss] or [k_cond] replaced by 0. *)
Definition zeroed (c : TankConfig) : TankConfig :=
  {| n_nodes := n_nodes c; height := height c; volume := volume c;
     rho := rho c; cp := cp c;
     ua_loss := if Qltb (ua_loss c) 0 then 0 else ua_loss c;
     k_cond := if Qltb (k_cond c) 0 then 0 else k_cond c;
     dt := dt c; n_steps := n_steps c;
     charge_inlet := charge_inlet c; discharge_outlet := discharge_outlet c |}.

(** ** Inputs and errors *)

(** The inputs [simulate_stratified_tank] accepts. *)
Record well_formed (cfg : TankConfig) (Tin_charge m_flow T_amb T_init : list Q)
    : Prop := {
  wf_valid : snd (validate cfg) = Ok tt;
  wf_Tin : len Tin_charge = n_steps cfg;
  wf_m_flow : len m_flow = n_steps cfg;
  wf_T_amb : len T_amb = n_steps cfg;
  wf_T_init : len T_init = n_nodes cfg
}.

(** The validation and the four length checks, in the order the source
    makes them, as a function of the lengths alone: the error the
    simulation raises before the time march, if any. *)
Definition rejected (cfg : TankConfig) (nTin nm nTa nTi : Z) : option error :=
  match snd (validate cfg) with
  | Err e => Some e
  | Ok _ =>
      if negb (nTin =? n_steps cfg)%Z then
        Some (DimensionMismatch "Tin_charge" (n_steps cfg) nTin)
      else if negb (nm =? n_steps cfg)%Z then
        Some (DimensionMismatch "m_flow" (n_steps cfg) nm)
      else if negb (nTa =? n_steps cfg)%Z then
        Some (DimensionMismatch "T_amb" (n_steps cfg) nTa)
      else if negb (nTi =? n_nodes cfg)%Z then
        Some (DimensionMismatch "T_init" (n_nodes cfg) nTi)
      else None
  end.

(** ** The phases of a step *)

(** The temperature change a difference [x] of neighbours causes. *)
Definition conducted (cfg : TankConfig) (mass_node_ G_cond_ x : Q) : Q :=
  (G_cond_ * x * dt cfg) / (mass_node_ * cp cfg).

(** [dT_cond] as the three assignments leave it. *)
Definition dT_cond (cfg : TankConfig) (mass_node_ G_cond_ : Q) (Tn : list Q)
    : list Q :=
  let k := (length Tn - 2)%nat in
  conducted cfg mass_node_ G_cond_ (Tn !!! 1%nat - Tn !!! 0%nat) ::
  (conducted cfg mass_node_ G_cond_ <$>
     zip_with Qplus
       (zip_with Qminus (take k Tn) (take k (drop 1 Tn)))
       (zip_with Qminus (take k (drop 2 Tn)) (take k (drop 1 Tn)))) ++
  [conducted cfg mass_node_ G_cond_ (Tn !!! k - Tn !!! S k)].

(** The assignment [l[i] = (1 - f) * l[i] + f * l[j]] every sweep is made of. *)
Definition mix_item (f : Q) (i j : Z) (l : list Q) : result (list Q) :=
  a ← getitem l i; b ← getitem l j; setitem l i ((1 - f) * a + f * b).

(** A property of temperatures that mixing with weight [f] keeps. *)
Definition mixes (f : Q) (P : Q -> Prop) : Prop :=
  forall x y, P x -> P y -> P ((1 - f) * x + f * y).

(** [x] lies between [lo] and [hi]. *)
Definition between (lo hi x : Q) : Prop := lo <= x <= hi.

(** The mixing weights of a step with mass flow [mf]. *)
Definition alpha_of (cfg : TankConfig) (m mf : Q) : Q :=
  (mf * dt cfg) / (m + mf * dt cfg).

Definition frac_of (cfg : TankConfig) (m mf : Q) : Q :=
  py_min 1 ((mf * dt cfg) / m).

(** The propagation the specification describes for an outlet at the
    bottom: [T[i] <- (1 - frac) * T[i] + frac * T[i + 1]] for [i] from [0]
    to [n_nodes - 3], each node mixed once. *)
Definition mirror_propagation (frac : Q) (n : Z) (Tn : list Q) : result (list Q) :=
  for_ (range 0 (n - 2)) (fun i Tn => mix_item frac i (i + 1) Tn) Tn.

(** The share of the ambient temperature in a node after the loss phase,
    and the share of each neighbour after the conduction phase. *)
Definition loss_weight (cfg : TankConfig) (m u : Q) : Q :=
  (u * dt cfg) / (m * cp cfg).

Definition cond_weight (cfg : TankConfig) (m G : Q) : Q :=
  (G * dt cfg) / (m * cp cfg).

(** The row after the loss and the conduction phase of step [t]. *)
Definition before_advection (cfg : TankConfig) (m u G : Q) (T_amb : list Q)
    (t : Z) (row : list Q) : list Q :=
  let Tn := if Qltb 0 u then side_losses cfg m u (node T_amb t) row else row in
  if Qltb 0 G then zip_with Qplus Tn (dT_cond cfg m G Tn) else Tn.

(** The three phases of a step, applied to the row [T[t, :]]. *)
Definition next_row (cfg : TankConfig) (m u G : Q)
    (Tin_charge m_flow T_amb : list Q) (t : Z) (row : list Q)
    : result (list Q) :=
  Tn ← (if Qltb 0 u then
          Tamb ← getitem T_amb t; Ok (side_losses cfg m u Tamb row)
        else Ok row);
  Tn ← (if Qltb 0 G then axial_conduction cfg m G Tn else Ok Tn);
  mf ← getitem m_flow t;
  advection cfg m Tin_charge t mf Tn.

(** The loss power a step records, [0.0] where the loss phase is skipped. *)
Definition recorded_loss (u : Q) (T_amb : list Q) (t : Z) (row : list Q) : Q :=
  if Qltb 0 u then loss_power u (node T_amb t) row else 0.

(** ** Runs *)

(** What a completed run has computed: every row follows from the one
    before it, and every entry of the loss series from the row of its step. *)
Record run_of (cfg : TankConfig) (Tin_charge m_flow T_amb T_init : list Q)
    (T : list (list Q)) (Q_loss : list Q) : Prop := {
  run_len_T : len T = (n_steps cfg + 1)%Z;
  run_rows : forall t, (0 <= t <= n_steps cfg)%Z -> len (row_at T t) = n_nodes cfg;
  run_init : row_at T 0 = T_init;
  run_step : forall t, (0 <= t < n_steps cfg)%Z ->
    next_row cfg (mass_node cfg) (ua_node cfg) (G_cond cfg)
      Tin_charge m_flow T_amb t (row_at T t) = Ok (row_at T (t + 1));
  run_len_Q : len Q_loss = n_steps cfg;
  run_loss : forall t, (0 <= t < n_steps cfg)%Z ->
    node Q_loss t = recorded_loss (ua_node cfg) T_amb t (row_at T t)
}.

(** The derived series: the last and the first column of the field. *)
Definition column_top (cfg : TankConfig) (T : list (list Q)) : list Q :=
  (fun row => node row (n_nodes cfg - 1)) <$> T.

Definition column_bot (T : list (list Q)) : list Q :=
  (fun row => node row 0) <$> T.

(** The thermal energy content of a row, up to the constant factor [cp]:
    the sum over the nodes of [mass_node * T[node]]. *)
Definition energy (cfg : TankConfig) (row : list Q) : Q :=
  np_sum (Qmult (mass_node cfg) <$> row).

(** The least and the greatest temperature of a row. *)
Definition row_min (l : list Q) : Q := foldr Qmin (hd 0 l) l.

Definition row_max (l : list Q) : Q := foldr Qmax (hd 0 l) l.

(** Row [a] is nowhere warmer than row [b]. *)
Definition rows_le (a b : list Q) : Prop :=
  len a = len b /\ forall j, (0 <= j < len a)%Z -> node a j <= node b j.

(** An ambient series that stays between [lo] and [hi] and never falls. *)
Definition ambient_rising (lo hi : Q) (T_amb : list Q) : Prop :=
  (forall t, (0 <= t < len T_amb)%Z -> lo <= node T_amb t <= hi) /\
  (forall t, (0 <= t)%Z -> (t + 1 < len T_amb)%Z ->
     node T_amb t <= node T_amb (t + 1)).

(** ** Concrete configurations *)

(** A three-node tank discharged through an outlet at the bottom:
    [mass_node = 2], so a flow of [-1] for [dt = 1] gives [frac = 1/2]. *)
Definition bottom_cfg : TankConfig :=
  {| n_nodes := 3; height := 3; volume := 3; rho := 2; cp := 1;
     ua_loss := 0; k_cond := 0; dt := 1; n_steps := 1;
     charge_inlet := 0; discharge_outlet := 0 |}.

(** A two-litre vessel ([mass_node = 1] kg of water per node) with a loss
    conductance of 50 W/K and the conductivity of water, charged at
    1/60 kg/s for steps of 60 s: [ua_node * dt = 1500] and
    [2 * G_cond * dt = 0.288], against [mass_node * cp = 4180]. *)
Definition vessel_cfg : TankConfig :=
  {| n_nodes := 2; height := 1; volume := 2 # 1000; rho := 1000; cp := 4180;
     ua_loss := 50; k_cond := 6 # 10; dt := 60; n_steps := 2;
     charge_inlet := 0; discharge_outlet := -1 |}.

(** The vessel with a loss conductance for which the loss phase is not
    stable ([ua_node * dt = 15000]), and without losses but with a
    conductivity for which the conduction phase is not
    ([2 * G_cond * dt = 24000]). *)
Definition lossy_cfg : TankConfig :=
  {| n_nodes := 2; height := 1; volume := 2 # 1000; rho := 1000; cp := 4180;
     ua_loss := 500; k_cond := 0; dt := 60; n_steps := 2;
     charge_inlet := 0; discharge_outlet := -1 |}.

Definition conductive_cfg : TankConfig :=
  {| n_nodes := 2; height := 1; volume := 2 # 1000; rho := 1000; cp := 4180;
     ua_loss := 0; k_cond := 50000; dt := 60; n_steps := 2;
     charge_inlet := 0; discharge_outlet := -1 |}.

(** A two-node tank without losses and conduction. *)
Definition plain_cfg : TankConfig :=
  {| n_nodes := 2; height := 1; volume := 1; rho := 2; cp := 1;
     ua_loss := 0; k_cond := 0; dt := 1; n_steps := 2;
     charge_inlet := 0; discharge_outlet := 1 |}.

(** The same tank with conduction only, and with both coefficients negative. *)
Definition conducting_cfg : TankConfig :=
  {| n_nodes := 2; height := 1; volume := 1; rho := 2; cp := 1;
     ua_loss := 0; k_cond := 1 # 10; dt := 1; n_steps := 2;
     charge_inlet := 0; discharge_outlet := -1 |}.

Definition negative_cfg : TankConfig :=
  {| n_nodes := 2; height := 1; volume := 1; rho := 2; cp := 1;
     ua_loss := -5; k_cond := -1; dt := 1; n_steps := 2;
     charge_inlet := 0; discharge_outlet := -1 |}.

(** ** Further vocabulary *)

(** A row whose temperatures do not fall with height. *)
Definition stratified (l : list Q) : Prop :=
  forall j, (0 <= j)%Z -> (j + 1 < len l)%Z -> node l j <= node l (j + 1).

(** [y] is the temperature [x] on another scale: [k] units per unit of the
    first scale, and [d] at its zero. *)
Definition rescaled (k d x y : Q) : Prop := y == k * x + d.

(** The configuration with another number of steps. *)
Definition with_n_steps (c : TankConfig) (n : Z) : TankConfig :=
  {| n_nodes := n_nodes c; height := height c; volume := volume c;
     rho := rho c; cp := cp c; ua_loss := ua_loss c; k_cond := k_cond c;
     dt := dt c; n_steps := n;
     charge_inlet := charge_inlet c; discharge_outlet := discharge_outlet c |}.

(** * ExampleScript.py: the scenarios that call the model *)

(** ** Further primitives *)

(** What the script can raise besides the errors of the simulation:
    NumPy's [ValueError] for a negative array length and for a negative
    number of samples, and Python's [ZeroDivisionError]. *)
Inductive exception :=
| NegativeDimensions
| NegativeSamples (num : Z)
| ZeroDivisionError
| Simulation (e : error).

Inductive outcome (A : Type) :=
| Returned (a : A)
| Raised (e : exception).
#[global] Arguments Returned {A} a.
#[global] Arguments Raised {A} e.

#[global] Instance outcome_ret : MRet outcome := fun A a => Returned a.
#[global] Instance outcome_bind : MBind outcome := fun A B f m =>
  match m with Returned a => f a | Raised e => Raised e end.

(** A call of the model from the script. *)
Definition called {A} (r : result A) : outcome A :=
  match r with Ok a => Returned a | Err e => Raised (Simulation e) end.

(** [np.full(n, v)] and [np.zeros(n)] for a length the caller chooses:
    NumPy refuses a negative one. *)
Definition np_full (n : Z) (v : Q) : outcome (list Q) :=
  if (n <? 0)%Z then Raised NegativeDimensions
  else Returned (replicate (Z.to_nat n) v).

Definition np_zeros_of (n : Z) : outcome (list Q) :=
  if (n <? 0)%Z then Raised NegativeDimensions else Returned (np_zeros n).

(** [np.arange(n)]: empty when [n] is not positive. *)
Definition np_arange (n : Z) : list Q := inject_Z <$> seqZ 0 n.

(** [np.linspace(start, stop, num)] with its defaults: [num] evenly spaced
    samples, the last of which is set to [stop] when there is more than
    one. *)
Definition np_linspace (start stop : Q) (num : Z) : outcome (list Q) :=
  if (num <? 0)%Z then Raised (NegativeSamples num)
  else
    let div := (num - 1)%Z in
    let y := np_arange num in
    let delta := stop - start in
    let y :=
      if (0 <? div)%Z then
        let step := delta / inject_Z div in
        if Qeq_bool step 0
        then (fun v => v / inject_Z div * delta) <$> y
        else (fun v => v * step) <$> y
      else (fun v => v * delta) <$> y in
    let y := (fun v => v + start) <$> y in
    Returned (if (1 <? num)%Z then <[Z.to_nat (num - 1) := stop]> y else y).




(** ** Plot helpers *)

(** [build_time_axes]: the times, in minutes, of the [n_steps + 1] rows and
    of the [n_steps] steps. *)
Definition build_time_axes (n_steps : Z) (dt : Q) : list Q * list Q :=
  let time_edges := (fun i => i * (dt / 60.0)) <$> np_arange (n_steps + 1) in
  let time_steps := (fun i => i * (dt / 60.0)) <$> np_arange n_steps in
  (time_edges, time_steps).

(** ** Scenarios *)

(** (1) Full charging from a cool initial state. *)
Definition scenario_full_charge (cfg : TankConfig)
    : outcome (output * list Q * string) :=
  let n := n_steps cfg in
  Tin_charge ← np_full n (60.0 + 273.15);
  T_amb ← np_full n (20.0 + 273.15);
  T_init ← np_full (n_nodes cfg) (20.0 + 273.15);
  m_flow ← np_full n 0.10;
  out ← called (simulate_stratified_tank cfg Tin_charge m_flow T_amb T_init);
  Returned (out, m_flow,
            "Scenario 1 — Full Charging (cool → hot, bottom inlet)"%string).

(** (2) Discharging from a charged state: from [T_init_from], or from a
    profile that rises from 55 to 65 degrees Celsius. *)
Definition scenario_discharge_from_charged (cfg : TankConfig)
    (T_init_from : option (list Q)) : outcome (output * list Q * string) :=
  let n := n_steps cfg in
  Tin_charge ← np_full n (60.0 + 273.15);
  T_amb ← np_full n (20.0 + 273.15);
  T_init ←
    match T_init_from return outcome (list Q) with
    | None =>
        (* hotter at top, cooler at bottom *)
        l ← np_linspace 55.0 65.0 (n_nodes cfg);
        Returned ((fun x => x + 273.15) <$> (l : list Q))
    | Some T_init_from => Returned T_init_from
    end;
  m_flow ← np_full n (-0.08);
  out ← called (simulate_stratified_tank cfg Tin_charge m_flow T_amb T_init);
  Returned (out, m_flow,
            "Scenario 2 — Discharging from Charged State (top outlet)"%string).

(** (3) Idle from a stratified initial profile. *)
Definition scenario_idle_stratified (cfg : TankConfig)
    : outcome (output * list Q * string) :=
  let n := n_steps cfg in
  Tin_charge ← np_full n (60.0 + 273.15);
  T_amb ← np_full n (20.0 + 273.15);
  l ← np_linspace 30.0 50.0 (n_nodes cfg);
  let T_init := (fun x => x + 273.15) <$> (l : list Q) in
  m_flow ← np_zeros_of n;
  out ← called (simulate_stratified_tank cfg Tin_charge m_flow T_amb T_init);
  Returned (out, m_flow,
            "Scenario 3 — Idle (no flow) from Stratified Profile"%string).


(** The configuration of [main]. *)
Definition main_cfg : TankConfig :=
  {| n_nodes := 20; height := 2.0; volume := 1.0; rho := 997.0; cp := 4180.0;
     ua_loss := 5.0; k_cond := 0.10; dt := 60.0; n_steps := 120;
     charge_inlet := 0; discharge_outlet := -1 |}.


(** * storage1d.py: the small utilities and the arguments as arrays *)

(** An array as NumPy holds it after [np.asarray(_, dtype=float)]: its
    shape and its entries in row-major order. *)
Record ndarray := {
  shape : list Z;
  data : list Q
}.

(** [arr.ndim] and [arr.size] *)
Definition ndim (arr : ndarray) : Z := len (shape arr).
Definition array_size (arr : ndarray) : Z := foldr Z.mul 1%Z (shape arr).

(** The arrays NumPy builds: no axis is negative, and there are as many
    entries as the shape says. *)
Definition well_shaped (arr : ndarray) : Prop :=
  Forall (fun n => (0 <= n)%Z) (shape arr) /\ len (data arr) = array_size arr.

(** An argument that may be a number (of Python or of NumPy) or an array. *)
Inductive array_like :=
| Number (x : Q)
| Array (arr : ndarray).

(** The [ValueError]s of the utilities and of the shape test on [T_init],
    next to the errors of [validate] and [_check_len]. *)
Inductive input_error :=
| Checked (e : error)
| ScalarExpected
| ItemOfSeveral
| NotOneDimensional (name : string) (got : list Z)
| InitialShape (expected : Z) (got : list Z).

Inductive accepted (A : Type) :=
| Accepted (a : A)
| Rejected (e : input_error).
#[global] Arguments Accepted {A} a.
#[global] Arguments Rejected {A} e.

#[global] Instance accepted_ret : MRet accepted := fun A a => Accepted a.
#[global] Instance accepted_bind : MBind accepted := fun A B f m =>
  match m with Accepted a => f a | Rejected e => Rejected e end.

Definition checked {A} (r : result A) : accepted A :=
  match r with Ok a => Accepted a | Err e => Rejected (Checked e) end.

(** [arr.item()]: the entry of an array that holds exactly one. *)
Definition item (arr : ndarray) : accepted Q :=
  match data arr with
  | [x] => Accepted x
  | _ => Rejected ItemOfSeveral
  end.

(** [arr.reshape(())] of an array with one entry. *)
Definition reshape_scalar (arr : ndarray) : ndarray :=
  {| shape := []; data := data arr |}.

(** [_as_scalar]: [np.isscalar(x)] holds for the numbers, and
    [np.asarray] leaves an array as it is. *)
Definition _as_scalar (x : array_like) : accepted Q :=
  match x with
  | Number x => Accepted x
  | Array arr =>
      if (ndim arr =? 0)%Z then item arr
      else if (array_size arr =? 1)%Z then item (reshape_scalar arr)
      else Rejected ScalarExpected
  end.

(** [_ensure_1d] *)
Definition _ensure_1d (arr : ndarray) (name : string) : accepted ndarray :=
  if negb (ndim arr =? 1)%Z then Rejected (NotOneDimensional name (shape arr))
  else Accepted arr.

(** [len(arr)] of an array with at least one axis: the length of the
    first. *)
Definition array_len (arr : ndarray) : Z := hd 0%Z (shape arr).

(** [_check_len] on an array. *)
Definition _check_len_array (name : string) (arr : ndarray) (n : Z)
    : result unit :=
  if negb (array_len arr =? n)%Z
  then Err (DimensionMismatch name n (array_len arr))
  else Ok tt.

(** [T_init.shape != (cfg.n_nodes,)] *)
Definition shape_is (arr : ndarray) (n : Z) : bool :=
  match shape arr with
  | [k] => (k =? n)%Z
  | _ => false
  end.

(** [simulate_stratified_tank] with its arguments as arrays: the
    validation and the checks of the inputs as the source makes them, then
    the time march over the entries. *)
Definition simulate_arrays (cfg : TankConfig)
    (Tin_charge m_flow T_amb T_init : ndarray) : accepted output :=
  (* validate config and inputs *)
  let '(cfg, valid) := validate cfg in
  _ ← checked valid;
  let n := n_steps cfg in
  Tin_charge ← _ensure_1d Tin_charge "Tin_charge";
  m_flow ← _ensure_1d m_flow "m_flow";
  T_amb ← _ensure_1d T_amb "T_amb";
  _ ← checked (_check_len_array "Tin_charge" Tin_charge n);
  _ ← checked (_check_len_array "m_flow" m_flow n);
  _ ← checked (_check_len_array "T_amb" T_amb n);
  if negb (shape_is T_init (n_nodes cfg)) then
    Rejected (InitialShape (n_nodes cfg) (shape T_init))
  else
    checked (
      '(T, Q_loss) ← time_marching cfg (data Tin_charge) (data m_flow)
                        (data T_amb) (data T_init);
      T_top ← mapM (fun row => getitem row (-1)) T;
      T_bot ← mapM (fun row => getitem row 0) T;
      Ok {| T := T; T_top := T_top; T_bot := T_bot; Q_loss := Q_loss |}).

(** A list as a one-dimensional array. *)
Definition array_of (l : list Q) : ndarray :=
  {| shape := [len l]; data := l |}.

(** The error of the list model as the call on arrays raises it: the
    shape test on [T_init] reports the shape it found. *)
Definition input_error_of (e : error) : input_error :=
  match e with
  | DimensionMismatch name expected got =>
      if String.eqb name "T_init" then InitialShape expected [got]
      else Checked e
  | _ => Checked e
  end.

(** A column of three entries, and a row of two. *)
Definition column3 : ndarray := {| shape := [3; 1]%Z; data := [20; 40; 60] |}.
Definition row2 : ndarray := {| shape := [2]%Z; data := [30; 50] |}.

(** The errors the specification calls [DimensionMismatch]: the
    [ValueError]s of [_ensure_1d], of [_check_len] and of the shape test
    on [T_init]. *)
Definition dimension_mismatch (e : input_error) : Prop :=
  match e with
  | Checked (DimensionMismatch _ _ _) => True
  | NotOneDimensional _ _ => True
  | InitialShape _ _ => True
  | _ => False
  end.

(** The validation and the checks of the four arrays, in the order the
    source makes them, as a function of the shapes alone: the error the
    call raises before the time march, if any. *)
Definition refused (cfg : TankConfig) (sTin sm sTa sTi : list Z)
    : option input_error :=
  match snd (validate cfg) with
  | Err e => Some (Checked e)
  | Ok _ =>
      if negb (len sTin =? 1)%Z then Some (NotOneDimensional "Tin_charge" sTin)
      else if negb (len sm =? 1)%Z then Some (NotOneDimensional "m_flow" sm)
      else if negb (len sTa =? 1)%Z then Some (NotOneDimensional "T_amb" sTa)
      else if negb (hd 0%Z sTin =? n_steps cfg)%Z then
        Some (Checked (DimensionMismatch "Tin_charge" (n_steps cfg) (hd 0%Z sTin)))
      else if negb (hd 0%Z sm =? n_steps cfg)%Z then
        Some (Checked (DimensionMismatch "m_flow" (n_steps cfg) (hd 0%Z sm)))
      else if negb (hd 0%Z sTa =? n_steps cfg)%Z then
        Some (Checked (DimensionMismatch "T_amb" (n_steps cfg) (hd 0%Z sTa)))
      else if bool_decide (sTi = [n_nodes cfg]) then None
      else Some (InitialShape (n_nodes cfg) sTi)
  end.

Set Warnings "-inexact-float".

(** * The time march in binary64 *)

(** The embedding above computes with exact rationals.  [Binary64] is the
    same code over the arithmetic the program runs on: IEEE 754 binary64
    with rounding to nearest, which is what Python's [float] and NumPy's
    [float64] are.  It covers the temperatures: the constants of lines
    136-141 and the three phases of the loop body.  The loss series is left
    out (the order in which [np.sum] adds is NumPy's own, and no
    temperature depends on it), and so are the checks of the arguments,
    which compare lengths only. *)
Module Binary64.

Import PrimFloat.
Local Open Scope float_scope.

(** Python's [int] as a [float], exact below [2^53]. *)
Fixpoint of_pos (p : positive) : float :=
  match p with
  | xH => 1
  | xO p => 2 * of_pos p
  | xI p => 2 * of_pos p + 1
  end.

Definition of_int (n : Z) : float :=
  match n with
  | Z0 => 0
  | Zpos p => of_pos p
  | Zneg p => - of_pos p
  end.

(** [a / b] on Python floats: a zero divisor raises.  On NumPy's arrays
    and scalars the division is [/] itself, which returns an infinity or
    a NaN instead. *)
Definition truediv (a b : float) : outcome float :=
  if b =? 0 then Raised ZeroDivisionError else Returned (a / b).

(** [min(a, b)]: Python returns [b] only when [b < a]. *)
Definition py_min (a b : float) : float := if b <? a then b else a.

Record TankConfig := {
  n_nodes : Z;
  height : float;
  volume : float;
  rho : float;
  cp : float;
  ua_loss : float;
  k_cond : float;
  dt : float;
  n_steps : Z;
  charge_inlet : Z;
  discharge_outlet : Z
}.

(** [self.discharge_outlet = v] *)
Definition set_discharge_outlet (self : TankConfig) (v : Z) : TankConfig :=
  {| n_nodes := n_nodes self; height := height self; volume := volume self;
     rho := rho self; cp := cp self; ua_loss := ua_loss self;
     k_cond := k_cond self; dt := dt self; n_steps := n_steps self;
     charge_inlet := charge_inlet self; discharge_outlet := v |}.

(** [TankConfig.validate] *)
Definition validate (self : TankConfig) : TankConfig * result unit :=
  if (n_nodes self <? 2)%Z then
    (self, Err (InvalidConfiguration "n_nodes must be >= 2."))
  else if height self <=? 0 then
    (self, Err (InvalidConfiguration "height must be > 0."))
  else if volume self <=? 0 then
    (self, Err (InvalidConfiguration "volume must be > 0."))
  else if (rho self <=? 0) || (cp self <=? 0) then
    (self, Err (InvalidConfiguration "rho and cp must be > 0."))
  else if dt self <=? 0 then
    (self, Err (InvalidConfiguration "dt must be > 0."))
  else if (n_steps self <? 1)%Z then
    (self, Err (InvalidConfiguration "n_steps must be >= 1."))
  else if negb ((0 <=? charge_inlet self) && (charge_inlet self <? n_nodes self))%Z then
    (self, Err (InvalidConfiguration "charge_inlet index out of range."))
  else
    let self :=
      if (discharge_outlet self =? -1)%Z
      then set_discharge_outlet self (n_nodes self - 1)
      else self in
    if negb ((0 <=? discharge_outlet self)
             && (discharge_outlet self <? n_nodes self))%Z then
      (self, Err (InvalidConfiguration "discharge_outlet index out of range."))
    else (self, Ok tt).

(** Geometry (constant properties): the locals [mass_node], [ua_node] and
    [G_cond]. *)
Definition constants (cfg : TankConfig) : outcome (float * float * float) :=
  dz ← truediv (height cfg) (of_int (n_nodes cfg));
  area_cross ← truediv (volume cfg) (height cfg);
  let vol_node := area_cross * dz in
  let mass_node := rho cfg * vol_node in
  ua_node ← (if 0 <? ua_loss cfg
             then truediv (ua_loss cfg) (of_int (n_nodes cfg))
             else Returned 0);
  G_cond ← (if 0 <? k_cond cfg
            then truediv (k_cond cfg * area_cross) dz
            else Returned 0);
  Returned (mass_node, ua_node, G_cond).

Definition np_zeros (n : Z) : list float := replicate (Z.to_nat n) 0.
Definition np_empty (rows cols : Z) : list (list float) :=
  replicate (Z.to_nat rows) (replicate (Z.to_nat cols) 0).

(** [T[i, :] = row] on a 2D array. *)
Definition set_row (T : list (list float)) (i : Z) (row : list float)
    : result (list (list float)) :=
  old ← getitem T i;
  if (len row =? len old)%Z then setitem T i row else Err BroadcastError.

Section Step.

Variable cfg : TankConfig.
Variables mass_node ua_node G_cond : float.

(** 1) Side losses (explicit Euler) *)
Definition side_losses (Tamb : float) (Tn : list float) : list float :=
  let dT_loss :=
    (fun x => (ua_node * (x - Tamb) * dt cfg) / (mass_node * cp cfg)) <$> Tn in
  zip_with sub Tn dT_loss.

(** 2) Axial conduction (explicit Euler) *)
Definition axial_conduction (Tn : list float) : result (list float) :=
  let dT_cond := np_zeros (len Tn) in
  (* bottom *)
  a ← getitem Tn 1; b ← getitem Tn 0;
  dT_cond ← setitem dT_cond 0
    ((G_cond * (a - b) * dt cfg) / (mass_node * cp cfg));
  (* interior *)
  let lo := slice Tn 0 (Some (-2)%Z) in
  let mid := slice Tn 1 (Some (-1)%Z) in
  let hi := slice Tn 2 None in
  let interior :=
    (fun x => (G_cond * x * dt cfg) / (mass_node * cp cfg)) <$>
      zip_with add (zip_with sub lo mid) (zip_with sub hi mid) in
  dT_cond ← set_slice dT_cond 1 (Some (-1)%Z) interior;
  (* top *)
  a ← getitem Tn (-2); b ← getitem Tn (-1);
  dT_cond ← setitem dT_cond (-1)
    ((G_cond * (a - b) * dt cfg) / (mass_node * cp cfg));
  Ok (zip_with add Tn dT_cond).

(** CHARGING at the inlet node, then the upward advection proxy *)
Definition charging (Tin_charge : list float) (t : Z) (mf : float)
    (Tn : list float) : outcome (list float) :=
  let i_in := charge_inlet cfg in
  alpha ← truediv (mf * dt cfg) (mass_node + mf * dt cfg);
  x ← called (getitem Tn i_in);
  Tin ← called (getitem Tin_charge t);
  Tn ← called (setitem Tn i_in ((1 - alpha) * x + alpha * Tin));
  if (i_in <? n_nodes cfg - 1)%Z then
    q ← truediv (mf * dt cfg) mass_node;
    let frac := py_min 1 q in
    called
      (for_ (range i_in (n_nodes cfg - 1))
         (fun i Tn =>
            a ← getitem Tn (i + 1); b ← getitem Tn i;
            setitem Tn (i + 1) ((1 - frac) * a + frac * b))
         Tn)
  else Returned Tn.

(** DISCHARGING at the outlet node *)
Definition discharging (mf : float) (Tn : list float) : outcome (list float) :=
  let i_out := discharge_outlet cfg in
  let m_out := abs mf in
  q ← truediv (m_out * dt cfg) mass_node;
  let frac := py_min 1 q in
  if (0 <? i_out)%Z then
    (* top outlet: pull from below upward *)
    called
      (a ← getitem Tn i_out; b ← getitem Tn (i_out - 1);
       Tn ← setitem Tn i_out ((1 - frac) * a + frac * b);
       for_ (range_down (i_out - 1) 0)
         (fun i Tn =>
            a ← getitem Tn i; b ← getitem Tn (i - 1);
            setitem Tn i ((1 - frac) * a + frac * b))
         Tn)
  else
    (* bottom outlet: pull from above downward *)
    if (1 <? n_nodes cfg)%Z then
      called
        (a ← getitem Tn i_out; b ← getitem Tn (i_out + 1);
         Tn ← setitem Tn i_out ((1 - frac) * a + frac * b);
         for_ (range 0 (n_nodes cfg - 2))
           (fun i Tn =>
              a ← getitem Tn i; b ← getitem Tn (i + 1);
              setitem Tn i ((1 - frac) * a + frac * b))
           Tn)
    else Returned Tn.

(** 3) Charging (+) / Discharging (-) / Idle (0) *)
Definition advection (Tin_charge : list float) (t : Z) (mf : float)
    (Tn : list float) : outcome (list float) :=
  if 0 <? mf then charging Tin_charge t mf Tn
  else if mf <? 0 then discharging mf Tn
  else Returned Tn.

(** The body of the time-marching loop, without the loss power of
    line 156. *)
Definition time_step (Tin_charge m_flow T_amb : list float) (t : Z)
    (T : list (list float)) : outcome (list (list float)) :=
  Tn ← called (getitem T t);
  Tn ← (if 0 <? ua_node then
          Tamb ← called (getitem T_amb t);
          Returned (side_losses Tamb Tn)
        else Returned Tn);
  Tn ← (if 0 <? G_cond then called (axial_conduction Tn) else Returned Tn);
  mf ← called (getitem m_flow t);
  Tn ← advection Tin_charge t mf Tn;
  called (set_row T (t + 1) Tn).

End Step.

(** [for t in range(n): T = body(t, T)] *)
Fixpoint for_steps (ts : list Z)
    (body : Z -> list (list float) -> outcome (list (list float)))
    (T : list (list float)) : outcome (list (list float)) :=
  match ts with
  | [] => Returned T
  | t :: ts' => T' ← body t T; for_steps ts' body T'
  end.

(** The constants, the field [T] and the loop: what the call computes
    after its checks, for a configuration as [validate] has left it. *)
Definition time_marching (cfg : TankConfig)
    (Tin_charge m_flow T_amb T_init : list float)
    : outcome (list (list float)) :=
  let n := n_steps cfg in
  '(mass_node, ua_node, G_cond) ← constants cfg;
  let T := np_empty (n + 1) (n_nodes cfg) in
  T ← called (set_row T 0 T_init);
  for_steps (range 0 n)
    (time_step cfg mass_node ua_node G_cond Tin_charge m_flow T_amb) T.

(** [np.full(n, v)] *)
Definition np_full (n : Z) (v : float) : list float := replicate (Z.to_nat n) v.

(** [np.arange(n)] and [np.linspace(start, stop, num)] *)
Definition np_arange (n : Z) : list float := of_int <$> seqZ 0 n.

Definition np_linspace (start stop : float) (num : Z) : outcome (list float) :=
  if (num <? 0)%Z then Raised (NegativeSamples num)
  else
    let div := (num - 1)%Z in
    let y := np_arange num in
    let delta := stop - start in
    let y :=
      if (0 <? div)%Z then
        let step := delta / of_int div in
        if step =? 0
        then (fun v => v / of_int div * delta) <$> y
        else (fun v => v * step) <$> y
      else (fun v => v * delta) <$> y in
    let y := (fun v => v + start) <$> y in
    Returned (if (1 <? num)%Z then <[Z.to_nat (num - 1) := stop]> y else y).

(** [T[t][i]] *)
Definition entry (T : list (list float)) (t i : Z) : outcome float :=
  row ← called (getitem T t); called (getitem row i).

(** [TankConfig(n_nodes=20, height=2.0, volume=1.0, dt=dt, n_steps=n_steps)],
    the other fields at their defaults: no losses and no conduction. *)
Definition default_cfg (dt : float) (n_steps : Z) : TankConfig :=
  {| n_nodes := 20; height := 2.0; volume := 1.0; rho := 997.0; cp := 4180.0;
     ua_loss := 0.0; k_cond := 0.0; dt := dt; n_steps := n_steps;
     charge_inlet := 0; discharge_outlet := -1 |}.

(** A tank so small and so light that the mass of a node, [5e-401],
    is rounded to zero. *)
Definition underflow_cfg : TankConfig :=
  {| n_nodes := 2; height := 1.0; volume := 1e-200; rho := 1e-200; cp := 4180.0;
     ua_loss := 0.0; k_cond := 0.0; dt := 60.0; n_steps := 1;
     charge_inlet := 0; discharge_outlet := -1 |}.

(** Three nodes that lose heat with a weight of 0.95 per step
    ([ua_node * dt / (mass_node * cp)]), and five nodes that conduct with a
    weight just below one ([2 * G_cond * dt / (mass_node * cp)]). *)
Definition losing_cfg : TankConfig :=
  {| n_nodes := 3; height := 2.0; volume := 1.0; rho := 997.0; cp := 4180.0;
     ua_loss := 65984.8; k_cond := 0.0; dt := 60.0; n_steps := 2;
     charge_inlet := 0; discharge_outlet := -1 |}.

Definition conducting_cfg : TankConfig :=
  {| n_nodes := 5; height := 0.9; volume := 2.0; rho := 997.0; cp := 4180.0;
     ua_loss := 0.0; k_cond := 6751.2852; dt := 10.0; n_steps := 152;
     charge_inlet := 0; discharge_outlet := -1 |}.

(** Five nodes that lose heat with a weight of 0.98 per step while they
    are charged with 3 kg/s. *)
Definition warming_cfg : TankConfig :=
  {| n_nodes := 5; height := 1.5; volume := 0.5; rho := 997.0; cp := 4180.0;
     ua_loss := 6806.851333333334; k_cond := 0.0; dt := 300.0; n_steps := 8;
     charge_inlet := 0; discharge_outlet := -1 |}.

End Binary64.

#[global] Instance float_inhabited : Inhabited PrimFloat.float :=
  populate PrimFloat.zero.

(** An outcome without an index or a shape error: a value that meets [P],
    or the [ZeroDivisionError] of a division of Python floats. *)
Definition no_index_error {A} (P : A -> Prop) (r : outcome A) : Prop :=
  match r with
  | Returned a => P a
  | Raised ZeroDivisionError => True
  | Raised _ => False
  end.

(** The field while the loop runs: [n + 1] rows of [n_nodes] entries, the
    first of which is [T_init]. *)
Definition b64_field (cfg : Binary64.TankConfig) (n : Z)
    (T_init : list PrimFloat.float) (T : list (list PrimFloat.float)) : Prop :=
  len T = (n + 1)%Z /\
  Forall (fun row => len row = Binary64.n_nodes cfg) T /\
  getitem T 0 = Ok T_init.

(** * Properties *)

(** ** The primitives *)

Lemma bind_Ok {A B} (f : A -> result B) (a : A) : (Ok a ≫= f) = f a.
Proof. reflexivity. Qed.

Lemma bind_Err {A B} (f : A -> result B) (e : error) : (Err e ≫= f) = Err e.
Proof. reflexivity. Qed.

Lemma Qltb_true (x y : Q) : Qltb x y = true <-> x < y.
Proof.
  unfold Qltb. rewrite negb_true_iff, <- not_true_iff_false, Qle_bool_iff.
  split; [apply Qnot_le_lt | apply Qlt_not_le].
Qed.

Lemma Qltb_false (x y : Q) : Qltb x y = false <-> y <= x.
Proof. unfold Qltb. rewrite negb_false_iff. apply Qle_bool_iff. Qed.


Lemma getitem_ok {A} `{!Inhabited A} (l : list A) (i : Z) :
  (0 <= i < len l)%Z -> getitem l i = Ok (l !!! Z.to_nat i).
Proof.
  intros Hi. unfold getitem, norm_index, in_bounds.
  destruct (Z.ltb_spec i 0); [lia |].
  destruct (Z.leb_spec 0 i); [| lia].
  destruct (Z.ltb_spec i (len l)); [| lia]. cbn.
  rewrite list_lookup_lookup_total_lt; [reflexivity | unfold len in Hi; lia].
Qed.

Lemma getitem_neg_ok {A} `{!Inhabited A} (l : list A) (i : Z) :
  (- len l <= i < 0)%Z -> getitem l i = Ok (l !!! Z.to_nat (i + len l)).
Proof.
  intros Hi. unfold getitem, norm_index, in_bounds.
  destruct (Z.ltb_spec i 0); [| lia].
  destruct (Z.leb_spec 0 (i + len l)); [| lia].
  destruct (Z.ltb_spec (i + len l) (len l)); [| lia]. cbn.
  rewrite list_lookup_lookup_total_lt; [reflexivity | unfold len in *; lia].
Qed.

Lemma setitem_ok {A} (l : list A) (i : Z) (v : A) :
  (0 <= i < len l)%Z -> setitem l i v = Ok (<[Z.to_nat i := v]> l).
Proof.
  intros Hi. unfold setitem, norm_index, in_bounds.
  destruct (Z.ltb_spec i 0); [lia |].
  destruct (Z.leb_spec 0 i); [| lia].
  destruct (Z.ltb_spec i (len l)); [| lia]. reflexivity.
Qed.

Lemma setitem_neg_ok {A} (l : list A) (i : Z) (v : A) :
  (- len l <= i < 0)%Z ->
  setitem l i v = Ok (<[Z.to_nat (i + len l) := v]> l).
Proof.
  intros Hi. unfold setitem, norm_index, in_bounds.
  destruct (Z.ltb_spec i 0); [| lia].
  destruct (Z.leb_spec 0 (i + len l)); [| lia].
  destruct (Z.ltb_spec (i + len l) (len l)); [| lia]. reflexivity.
Qed.

Lemma len_insert {A} (l : list A) (i : nat) (v : A) : len (<[i := v]> l) = len l.
Proof. unfold len. now rewrite length_insert. Qed.

Lemma for_seqZ_inv {St} (P : Z -> St -> Prop) (body : Z -> St -> result St)
    (k : nat) :
  forall (a : Z) (s : St),
  P a s ->
  (forall i s, (a <= i < a + Z.of_nat k)%Z -> P i s ->
     exists s', body i s = Ok s' /\ P (i + 1)%Z s') ->
  exists s', for_ (seqZ a (Z.of_nat k)) body s = Ok s' /\ P (a + Z.of_nat k)%Z s'.
Proof.
  induction k as [| k IH]; intros a s H0 Hb.
  - exists s. split; [reflexivity |]. now replace (a + Z.of_nat 0)%Z with a by lia.
  - rewrite seqZ_cons by lia. cbn [for_].
    destruct (Hb a s ltac:(lia) H0) as (s1 & -> & H1). rewrite bind_Ok.
    replace (Z.pred (Z.of_nat (S k))) with (Z.of_nat k) by lia.
    destruct (IH (Z.succ a) s1) as (s' & Hs' & HP).
    + now replace (Z.succ a) with (a + 1)%Z by lia.
    + intros i s0 Hi. apply Hb. lia.
    + exists s'. split; [exact Hs' |].
      now replace (a + Z.of_nat (S k))%Z with (Z.succ a + Z.of_nat k)%Z by lia.
Qed.

(** A loop over [range(a, b)] establishes an invariant indexed by the loop
    variable, provided every iteration runs and maintains it. *)
Lemma for_range_inv {St} (P : Z -> St -> Prop) (body : Z -> St -> result St)
    (a b : Z) (s : St) :
  P a s ->
  (forall i s, (a <= i < b)%Z -> P i s ->
     exists s', body i s = Ok s' /\ P (i + 1)%Z s') ->
  exists s', for_ (range a b) body s = Ok s' /\ P (Z.max a b) s'.
Proof.
  unfold range. intros H0 Hstep.
  destruct (Z.le_gt_cases b a) as [Hle | Hgt].
  { replace (seqZ a (b - a)) with (@nil Z) by (symmetry; apply seqZ_nil; lia).
    exists s. split; [reflexivity |]. now replace (Z.max a b) with a by lia. }
  assert (Hk : (b - a)%Z = Z.of_nat (Z.to_nat (b - a))) by lia.
  replace (Z.max a b) with (a + Z.of_nat (Z.to_nat (b - a)))%Z by lia.
  revert Hk. generalize (Z.to_nat (b - a)) as k. intros k Hk. rewrite Hk.
  apply for_seqZ_inv; [exact H0 |].
  intros i s0 Hi. apply Hstep. lia.
Qed.

(** The same for [range(a, b, -1)]. *)
Lemma for_range_down_inv {St} (P : Z -> St -> Prop) (body : Z -> St -> result St)
    (a b : Z) (s : St) :
  P a s ->
  (forall i s, (b < i <= a)%Z -> P i s ->
     exists s', body i s = Ok s' /\ P (i - 1)%Z s') ->
  exists s', for_ (range_down a b) body s = Ok s' /\ P (Z.min a b) s'.
Proof.
  unfold range_down. intros H0 Hstep.
  destruct (Z.le_gt_cases a b) as [Hle | Hgt].
  { replace (seqZ 0 (a - b)) with (@nil Z) by (symmetry; apply seqZ_nil; lia).
    exists s. split; [reflexivity |]. now replace (Z.min a b) with a by lia. }
  assert (Hgen : forall (k : nat) (a : Z) (s : St),
    P a s ->
    (forall i s, (a - Z.of_nat k < i <= a)%Z -> P i s ->
       exists s', body i s = Ok s' /\ P (i - 1)%Z s') ->
    exists s', for_ ((fun j => (a - j)%Z) <$> seqZ 0 (Z.of_nat k)) body s = Ok s'
               /\ P (a - Z.of_nat k)%Z s').
  { clear. induction k as [| k IH]; intros a s H0 Hb.
    - exists s. split; [reflexivity |]. now replace (a - Z.of_nat 0)%Z with a by lia.
    - rewrite seqZ_cons by lia. cbn [fmap list_fmap for_].
      replace (a - 0)%Z with a by lia.
      destruct (Hb a s ltac:(lia) H0) as (s1 & -> & H1). rewrite bind_Ok.
      replace (Z.pred (Z.of_nat (S k))) with (Z.of_nat k) by lia.
      destruct (IH (a - 1)%Z s1 H1) as (s' & Hs' & HP).
      + intros i s0 Hi. apply Hb. lia.
      + exists s'. split.
        * rewrite <- Hs'. f_equal.
          change (Z.succ 0) with (1 + 0)%Z.
          rewrite <- (fmap_add_seqZ 1 0), <- list_fmap_compose.
          apply list_fmap_ext. intros _ j _. cbn. lia.
        * now replace (a - Z.of_nat (S k))%Z with (a - 1 - Z.of_nat k)%Z by lia. }
  assert (Hk : (a - b)%Z = Z.of_nat (Z.to_nat (a - b))) by lia.
  replace (Z.min a b) with (a - Z.of_nat (Z.to_nat (a - b)))%Z by lia.
  revert Hk. generalize (Z.to_nat (a - b)) as k. intros k Hk. rewrite Hk.
  apply Hgen; [exact H0 |].
  intros i s0 Hi. apply Hstep. lia.
Qed.

(** ** Configuration and validation *)

Lemma Qle_bool_false (x y : Q) : Qle_bool x y = false <-> y < x.
Proof.
  rewrite <- not_true_iff_false, Qle_bool_iff.
  split; [apply Qnot_le_lt | apply Qlt_not_le].
Qed.

Ltac case_Qle x y :=
  let H := fresh "H" in
  destruct (Qle_bool x y) eqn:H;
  [apply Qle_bool_iff in H | apply Qle_bool_false in H].

(** [validate] either raises, leaving the configuration as it was, or
    succeeds on the configuration with the sentinel outlet resolved. *)
Lemma validate_cases (c : TankConfig) :
  (invalid c /\ exists msg, validate c = (c, Err (InvalidConfiguration msg))) \/
  (~ invalid c /\ validate c = (set_discharge_outlet c (normalized_outlet c), Ok tt)).
Proof.
  unfold validate, invalid.
  destruct (Z.ltb_spec (n_nodes c) 2); [left; split; eauto |].
  case_Qle (height c) 0; [left; split; eauto |].
  case_Qle (volume c) 0; [left; split; eauto |].
  case_Qle (rho c) 0; [left; split; eauto 6 |].
  case_Qle (cp c) 0; [left; split; eauto 6 |]. cbn [orb].
  case_Qle (dt c) 0; [left; split; eauto 7 |].
  destruct (Z.ltb_spec (n_steps c) 1); [left; split; eauto 8 |].
  destruct (Z.leb_spec 0 (charge_inlet c)); cbn [andb negb];
    [| left; split; [do 7 right; left; lia | eauto]].
  destruct (Z.ltb_spec (charge_inlet c) (n_nodes c)); cbn [andb negb];
    [| left; split; [do 7 right; left; lia | eauto]].
  unfold normalized_outlet.
  destruct (Z.eqb_spec (discharge_outlet c) (-1)) as [He | Hne].
  - cbn [n_nodes discharge_outlet set_discharge_outlet].
    destruct (Z.leb_spec 0 (n_nodes c - 1)); [| lia].
    destruct (Z.ltb_spec (n_nodes c - 1) (n_nodes c)); [| lia]. cbn [andb negb].
    right. split; [| reflexivity].
    intros [?|[?|[?|[?|[?|[?|[?|[?|?]]]]]]]]; try lia; lra.
  - destruct (Z.leb_spec 0 (discharge_outlet c)); cbn [andb negb];
      [| left; split; [do 8 right; lia | eauto]].
    destruct (Z.ltb_spec (discharge_outlet c) (n_nodes c)); cbn [andb negb];
      [| left; split; [do 8 right; lia | eauto]].
    right. split; [| now destruct c].
    intros [?|[?|[?|[?|[?|[?|[?|[?|?]]]]]]]]; try lia; lra.
Qed.

Lemma validate_Ok_validated (c c' : TankConfig) :
  validate c = (c', Ok tt) ->
  validated c' /\ c' = set_discharge_outlet c (normalized_outlet c) /\ ~ invalid c.
Proof.
  intros Hv.
  destruct (validate_cases c) as [[_ [msg Hm]] | [Hni Hok]]; [congruence |].
  rewrite Hok in Hv. injection Hv as <-.
  split; [| split; [reflexivity | exact Hni]].
  unfold invalid in Hni.
  constructor; cbn [n_nodes height volume rho cp dt n_steps charge_inlet
                     discharge_outlet set_discharge_outlet];
    try lia; try (apply Qnot_le_lt; tauto).
Qed.

Lemma validated_valid (c : TankConfig) :
  validated c -> validate c = (c, Ok tt).
Proof.
  intros [].
  destruct (validate_cases c) as [[Hi _] | [_ Hok]].
  - exfalso. unfold invalid, normalized_outlet in Hi.
    destruct (Z.eqb_spec (discharge_outlet c) (-1)); [lia |].
    destruct Hi as [?|[?|[?|[?|[?|[?|[?|[?|?]]]]]]]]; try lia; lra.
  - rewrite Hok. f_equal. unfold normalized_outlet.
    destruct (Z.eqb_spec (discharge_outlet c) (-1)); [lia |]. now destruct c.
Qed.

(** C8.  [TankConfig.validate] raises [InvalidConfiguration] exactly when
    [n_nodes < 2], [height <= 0], [volume <= 0], [rho <= 0], [cp <= 0],
    [dt <= 0], [n_steps < 1], [charge_inlet] is outside [[0, n_nodes)] or
    the discharge outlet, after the sentinel is resolved, is outside
    [[0, n_nodes)]; it succeeds exactly otherwise.  The configuration it
    leaves behind is the original one, except that a successful call has
    replaced the sentinel [-1] by [n_nodes - 1]; a second call changes
    nothing and has the same outcome. *)
Theorem validate_spec (c : TankConfig) :
  ((exists msg, snd (validate c) = Err (InvalidConfiguration msg)) <-> invalid c) /\
  (snd (validate c) = Ok tt <-> ~ invalid c) /\
  fst (validate c) =
    (if is_Ok (snd (validate c)) && (discharge_outlet c =? -1)%Z
     then set_discharge_outlet c (n_nodes c - 1) else c) /\
  validate (fst (validate c)) = validate c.
Proof.
  destruct (validate_cases c) as [[Hi [msg Hm]] | [Hni Hok]].
  - rewrite Hm. cbn [fst snd is_Ok andb]. rewrite Hm.
    repeat split; eauto; try congruence.
  - pose proof (validate_Ok_validated _ _ Hok) as (Hv & _ & _).
    rewrite Hok. cbn [fst snd is_Ok andb].
    rewrite (validated_valid _ Hv).
    repeat split; try congruence; try tauto.
    + intros [msg Hm]. discriminate.
    + unfold normalized_outlet.
      destruct (Z.eqb_spec (discharge_outlet c) (-1)); [reflexivity | now destruct c].
Qed.

(** ** Arithmetic of the per-node constants *)

Lemma Qdiv_pos (a b : Q) : 0 < a -> 0 < b -> 0 < a / b.
Proof.
  intros Ha Hb. apply Qlt_shift_div_l; [exact Hb |]. lra.
Qed.

Lemma inject_Z_pos (n : Z) : (0 < n)%Z -> 0 < inject_Z n.
Proof. intros Hn. change 0 with (inject_Z 0). now rewrite <- Zlt_Qlt. Qed.

Section Constants.

Variable c : TankConfig.
Hypothesis Hc : validated c.

Lemma n_nodes_pos : 0 < inject_Z (n_nodes c).
Proof. apply inject_Z_pos. destruct Hc. lia. Qed.

Lemma dz_pos : 0 < dz c.
Proof. apply Qdiv_pos; [apply Hc | apply n_nodes_pos]. Qed.

Lemma area_cross_pos : 0 < area_cross c.
Proof. apply Qdiv_pos; apply Hc. Qed.

Lemma mass_node_pos : 0 < mass_node c.
Proof.
  unfold mass_node, vol_node.
  apply Qmult_lt_0_compat; [apply Hc |].
  apply Qmult_lt_0_compat; [apply area_cross_pos | apply dz_pos].
Qed.

(** The guard [ua_node > 0.0] is the guard [ua_loss > 0]. *)
Lemma ua_node_guard : Qltb 0 (ua_node c) = Qltb 0 (ua_loss c).
Proof.
  unfold ua_node. destruct (Qltb 0 (ua_loss c)) eqn:Hu; [| reflexivity].
  apply Qltb_true. apply Qltb_true in Hu.
  apply Qdiv_pos; [exact Hu | apply n_nodes_pos].
Qed.

(** The guard [G_cond > 0.0] is the guard [k_cond > 0]. *)
Lemma G_cond_guard : Qltb 0 (G_cond c) = Qltb 0 (k_cond c).
Proof.
  unfold G_cond. destruct (Qltb 0 (k_cond c)) eqn:Hk; [| reflexivity].
  apply Qltb_true. apply Qltb_true in Hk.
  apply Qdiv_pos; [| apply dz_pos].
  apply Qmult_lt_0_compat; [exact Hk | apply area_cross_pos].
Qed.

End Constants.

(** [frac = min(1, x)] is a mixing weight when [x] is not negative. *)
Lemma py_min_weight (x : Q) : 0 <= x -> 0 <= py_min 1 x <= 1.
Proof.
  intros Hx. unfold py_min.
  destruct (Qltb x 1) eqn:H; [apply Qltb_true in H | apply Qltb_false in H]; lra.
Qed.

(** [alpha = a / (m + a)] is a mixing weight below one. *)
Lemma alpha_weight (m a : Q) : 0 < m -> 0 <= a -> 0 <= a / (m + a) < 1.
Proof.
  intros Hm Ha. split.
  - apply Qle_shift_div_l; lra.
  - apply Qlt_shift_div_r; lra.
Qed.

(** A convex combination stays between the bounds of its operands. *)
Lemma mix_between (lo hi f x y : Q) :
  0 <= f <= 1 -> lo <= x <= hi -> lo <= y <= hi ->
  lo <= (1 - f) * x + f * y <= hi.
Proof.
  intros [Hf0 Hf1] [Hx0 Hx1] [Hy0 Hy1].
  assert (0 <= (1 - f) * (x - lo)) by (apply Qmult_le_0_compat; lra).
  assert (0 <= f * (y - lo)) by (apply Qmult_le_0_compat; lra).
  assert (0 <= (1 - f) * (hi - x)) by (apply Qmult_le_0_compat; lra).
  assert (0 <= f * (hi - y)) by (apply Qmult_le_0_compat; lra).
  split; lra.
Qed.

(** ** Sums *)

Lemma np_sum_nil : np_sum [] = 0.
Proof. reflexivity. Qed.

Lemma np_sum_cons (x : Q) (l : list Q) : np_sum (x :: l) = x + np_sum l.
Proof. reflexivity. Qed.

Lemma np_sum_app (a b : list Q) : np_sum (a ++ b) == np_sum a + np_sum b.
Proof.
  induction a as [| x a IH]; cbn [app].
  - rewrite np_sum_nil. lra.
  - rewrite !np_sum_cons, IH. lra.
Qed.

Lemma np_sum_zip_plus (a b : list Q) :
  length a = length b ->
  np_sum (zip_with Qplus a b) == np_sum a + np_sum b.
Proof.
  revert b. induction a as [| x a IH]; intros [| y b] Hl; try discriminate.
  - cbn [zip_with]. rewrite np_sum_nil. lra.
  - cbn [zip_with]. rewrite !np_sum_cons, IH by (cbn in Hl; lia). lra.
Qed.

Lemma np_sum_zip_minus (a b : list Q) :
  length a = length b ->
  np_sum (zip_with Qminus a b) == np_sum a - np_sum b.
Proof.
  revert b. induction a as [| x a IH]; intros [| y b] Hl; try discriminate.
  - cbn [zip_with]. rewrite np_sum_nil. lra.
  - cbn [zip_with]. rewrite !np_sum_cons, IH by (cbn in Hl; lia). lra.
Qed.

Lemma np_sum_scale (g d k : Q) (l : list Q) :
  np_sum ((fun x => (g * x * d) / k) <$> l) == (g * d / k) * np_sum l.
Proof.
  induction l as [| x l IH].
  - rewrite fmap_nil, np_sum_nil. unfold Qdiv. ring.
  - rewrite fmap_cons, !np_sum_cons, IH. unfold Qdiv. ring.
Qed.

(** A window of [k] entries and the same window moved up by one differ by
    their end points. *)
Lemma np_sum_take_shift (l : list Q) (k : nat) :
  (k < length l)%nat ->
  np_sum (take k l) + l !!! k == l !!! 0%nat + np_sum (take k (drop 1 l)).
Proof.
  intros Hk. destruct l as [| x l]; [cbn in Hk; lia |].
  cbn [drop]. cbn in Hk.
  assert (Hsnoc : np_sum (take (S k) (x :: l)) ==
                  np_sum (take k (x :: l)) + (x :: l) !!! k).
  { rewrite (take_S_r (x :: l) k ((x :: l) !!! k)).
    - rewrite np_sum_app, np_sum_cons, np_sum_nil. lra.
    - apply list_lookup_lookup_total_lt. cbn. lia. }
  rewrite <- Hsnoc. reflexivity.
Qed.

(** ** Axial conduction *)

Lemma np_zeros_len {A} (l : list A) : np_zeros (len l) = replicate (length l) 0.
Proof. unfold np_zeros, len. now rewrite Nat2Z.id. Qed.

Lemma len_replicate {A} (n : nat) (x : A) : len (replicate n x) = Z.of_nat n.
Proof. unfold len. now rewrite length_replicate. Qed.

Section Slices.

Context {A : Type}.
Variable l : list A.
Hypothesis Hl : (2 <= length l)%nat.

(** [l[0:-2]], [l[1:-1]] and [l[2:]] are three windows of one length. *)
Lemma slice_lo : slice l 0 (Some (-2)%Z) = take (length l - 2) l.
Proof.
  unfold slice, clip_index, len. cbn [from_option].
  destruct (Z.ltb_spec 0 0); [lia |].
  destruct (Z.ltb_spec (-2) 0); [| lia].
  replace (Z.to_nat (Z.min 0 (Z.of_nat (length l)))) with 0%nat by lia.
  cbn [drop]. f_equal. lia.
Qed.

Lemma slice_mid : slice l 1 (Some (-1)%Z) = take (length l - 2) (drop 1 l).
Proof.
  unfold slice, clip_index, len. cbn [from_option].
  destruct (Z.ltb_spec 1 0); [lia |].
  destruct (Z.ltb_spec (-1) 0); [| lia].
  replace (Z.to_nat (Z.min 1 (Z.of_nat (length l)))) with 1%nat by lia.
  f_equal. lia.
Qed.

Lemma slice_hi : slice l 2 None = take (length l - 2) (drop 2 l).
Proof.
  unfold slice, clip_index, len. cbn [from_option].
  destruct (Z.ltb_spec 2 0); [lia |].
  replace (Z.to_nat (Z.min 2 (Z.of_nat (length l)))) with 2%nat by lia.
  f_equal. lia.
Qed.

Lemma set_slice_interior (vs : list A) :
  length vs = (length l - 2)%nat ->
  set_slice l 1 (Some (-1)%Z) vs =
    Ok (take 1 l ++ vs ++ drop (length l - 1) l).
Proof.
  intros Hvs. unfold set_slice, clip_index, len. cbn [from_option].
  destruct (Z.ltb_spec 1 0); [lia |].
  destruct (Z.ltb_spec (-1) 0); [| lia].
  destruct (Z.eqb_spec (Z.of_nat (length vs))
    (Z.max (Z.min 1 (Z.of_nat (length l)))
           (Z.max (-1 + Z.of_nat (length l)) 0) -
     Z.min 1 (Z.of_nat (length l)))) as [_ | Hne]; [| lia].
  do 2 f_equal; [f_equal; lia | do 2 f_equal; lia].
Qed.

End Slices.

Section Conduction.

Variable cfg : TankConfig.
Variables mass_node_ G_cond_ : Q.

Lemma length_dT_cond (Tn : list Q) :
  (2 <= length Tn)%nat -> length (dT_cond cfg mass_node_ G_cond_ Tn) = length Tn.
Proof.
  intros Hl. unfold dT_cond. cbn [length].
  rewrite length_app, length_fmap, !length_zip_with, !length_take, !length_drop.
  cbn [length]. lia.
Qed.

(** With at least two nodes the conduction phase runs, and adds [dT_cond]. *)
Lemma axial_conduction_ok (Tn : list Q) :
  (2 <= length Tn)%nat ->
  axial_conduction cfg mass_node_ G_cond_ Tn =
    Ok (zip_with Qplus Tn (dT_cond cfg mass_node_ G_cond_ Tn)).
Proof.
  intros Hl. unfold axial_conduction.
  assert (HlZ : (2 <= len Tn)%Z) by (unfold len; lia).
  rewrite (getitem_ok Tn 1), bind_Ok by lia.
  rewrite (getitem_ok Tn 0), bind_Ok by lia.
  rewrite np_zeros_len.
  rewrite setitem_ok, bind_Ok by (rewrite len_replicate; lia).
  rewrite slice_lo, slice_mid, slice_hi by exact Hl.
  rewrite set_slice_interior, bind_Ok;
    [| rewrite length_insert, length_replicate; lia
     | rewrite length_fmap, !length_zip_with, !length_take, !length_drop,
         length_insert, length_replicate; lia].
  rewrite (getitem_neg_ok Tn (-2)), bind_Ok by lia.
  rewrite (getitem_neg_ok Tn (-1)), bind_Ok by lia.
  rewrite length_insert, length_replicate.
  set (interior := _ <$> _).
  assert (Hint : length interior = (length Tn - 2)%nat).
  { unfold interior.
    rewrite length_fmap, !length_zip_with, !length_take, !length_drop. lia. }
  set (d := take 1 _ ++ interior ++ drop _ _).
  assert (Hd : length d = length Tn).
  { unfold d. rewrite !length_app, length_take, length_drop, length_insert,
      length_replicate. lia. }
  rewrite setitem_neg_ok, bind_Ok by (unfold len; rewrite Hd; lia).
  do 2 f_equal. unfold dT_cond. fold (conducted cfg mass_node_ G_cond_).
  unfold len. rewrite Hd.
  replace (Z.to_nat (-1 + Z.of_nat (length Tn))) with (S (length Tn - 2)) by lia.
  replace (Z.to_nat (-2 + Z.of_nat (length Tn))) with (length Tn - 2)%nat by lia.
  replace (Z.to_nat (-1 + Z.of_nat (length Tn)))
    with (S (length Tn - 2)) by lia.
  unfold d.
  destruct (length Tn) as [| [| k]] eqn:Hn; [lia | lia |].
  change (Z.to_nat 0) with 0%nat. change (Z.to_nat 1) with 1%nat.
  change (replicate (S (S k)) 0) with (0 :: replicate (S k) 0).
  change (<[0%nat := ?v]> (0 :: ?l)) with (v :: l).
  change (take 1 (?v :: ?l)) with [v].
  change (S (S k) - 1)%nat with (S k - 0)%nat.
  change (S (S k) - 2)%nat with (k - 0)%nat in *.
  rewrite !Nat.sub_0_r in *.
  change (drop (S k) (?v :: ?l)) with (drop k l).
  rewrite drop_replicate. replace (S k - k)%nat with 1%nat by lia.
  change ([?v] ++ ?l) with (v :: l).
  change (<[S k := ?x]> (?v :: ?l)) with (v :: <[k := x]> l).
  rewrite insert_app_r_alt by lia.
  rewrite Hint. replace (k - k)%nat with 0%nat by lia.
  unfold interior. rewrite !Nat.sub_0_r. reflexivity.
Qed.

(** Conduction only moves energy between neighbours: the deltas cancel. *)
Lemma np_sum_dT_cond (Tn : list Q) :
  (2 <= length Tn)%nat -> np_sum (dT_cond cfg mass_node_ G_cond_ Tn) == 0.
Proof.
  intros Hl. unfold dT_cond.
  set (k := (length Tn - 2)%nat).
  rewrite np_sum_cons, np_sum_app, np_sum_cons, np_sum_nil.
  unfold conducted at 2. rewrite np_sum_scale.
  fold (conducted cfg mass_node_ G_cond_).
  rewrite np_sum_zip_plus, !np_sum_zip_minus
    by (rewrite ?length_zip_with, !length_take, !length_drop; lia).
  pose proof (np_sum_take_shift Tn k ltac:(lia)) as H1.
  pose proof (np_sum_take_shift (drop 1 Tn) k
                ltac:(rewrite length_drop; lia)) as H2.
  rewrite drop_drop in H2. cbn [Nat.add] in H2.
  rewrite !lookup_total_drop in H2. cbn [Nat.add] in H2.
  replace (1 + k)%nat with (S k) in H2 by lia.
  replace (1 + 0)%nat with 1%nat in H2 by lia.
  unfold conducted, Qdiv.
  set (sa := np_sum (take k Tn)) in *.
  set (sb := np_sum (take k (drop 1 Tn))) in *.
  set (sc := np_sum (take k (drop 2 Tn))) in *.
  assert (E1 : sa == Tn !!! 0%nat + sb - Tn !!! k) by lra.
  assert (E2 : sc == sb + Tn !!! S k - Tn !!! 1%nat) by lra.
  rewrite E1, E2. ring.
Qed.

(** The conduction phase conserves the sum of the node temperatures. *)
Lemma axial_conduction_sum (Tn : list Q) :
  (2 <= length Tn)%nat ->
  np_sum (zip_with Qplus Tn (dT_cond cfg mass_node_ G_cond_ Tn)) == np_sum Tn.
Proof.
  intros Hl. rewrite np_sum_zip_plus by (now rewrite length_dT_cond).
  rewrite np_sum_dT_cond by exact Hl. lra.
Qed.

End Conduction.

(** ** Mixing sweeps *)

Lemma getitem_node (l : list Q) (i : Z) :
  (0 <= i < len l)%Z -> getitem l i = Ok (node l i).
Proof. apply getitem_ok. Qed.

Lemma node_insert_eq (l : list Q) (i : Z) (v : Q) :
  (0 <= i < len l)%Z -> node (<[Z.to_nat i := v]> l) i = v.
Proof.
  intros Hi. unfold node. apply list_lookup_total_insert_eq.
  unfold len in Hi. lia.
Qed.

Lemma node_insert_ne (l : list Q) (i j : Z) (v : Q) :
  (0 <= i)%Z -> (0 <= j)%Z -> i <> j ->
  node (<[Z.to_nat i := v]> l) j = node l j.
Proof.
  intros Hi Hj Hne. unfold node. apply list_lookup_total_insert_ne. lia.
Qed.

Lemma Forall_node (P : Q -> Prop) (l : list Q) (i : Z) :
  Forall P l -> (0 <= i < len l)%Z -> P (node l i).
Proof.
  intros Hl Hi. unfold node. apply Forall_lookup_total_1; [exact Hl |].
  unfold len in Hi. lia.
Qed.

Lemma mix_item_ok (f : Q) (i j : Z) (l : list Q) :
  (0 <= i < len l)%Z -> (0 <= j < len l)%Z ->
  mix_item f i j l = Ok (<[Z.to_nat i := (1 - f) * node l i + f * node l j]> l).
Proof.
  intros Hi Hj. unfold mix_item.
  rewrite (getitem_node l i), bind_Ok by exact Hi.
  rewrite (getitem_node l j), bind_Ok by exact Hj.
  now apply setitem_ok.
Qed.

Lemma mixes_between (f lo hi : Q) : 0 <= f <= 1 -> mixes f (between lo hi).
Proof. intros Hf x y Hx Hy. now apply mix_between. Qed.

Lemma mixes_True (f : Q) : mixes f (fun _ => True).
Proof. intros x y _ _. exact I. Qed.

(** A sweep whose indices stay inside the array runs to its end, keeps the
    length of the array and every property that mixing keeps. *)
Lemma for_mix_preserves (f : Q) (P : Q -> Prop) (g h : Z -> Z) (xs : list Z) :
  mixes f P ->
  forall l : list Q,
  (forall i, i ∈ xs -> (0 <= g i < len l)%Z /\ (0 <= h i < len l)%Z) ->
  Forall P l ->
  exists l', for_ xs (fun i l => mix_item f (g i) (h i) l) l = Ok l' /\
             length l' = length l /\ Forall P l'.
Proof.
  intros Hmix. induction xs as [| x xs IH]; intros l Hidx HP.
  - exists l. split; [reflexivity | split; [reflexivity | exact HP]].
  - destruct (Hidx x ltac:(left)) as [Hg Hh].
    cbn [for_]. rewrite mix_item_ok, bind_Ok by assumption.
    set (l1 := <[_ := _]> l).
    assert (Hlen : len l1 = len l) by apply len_insert.
    destruct (IH l1) as (l' & Hrun & Hl' & HP').
    + intros i Hi. rewrite Hlen. apply Hidx. now right.
    + apply Forall_insert; [exact HP |].
      apply Hmix; now apply Forall_node.
    + exists l'. split; [exact Hrun |]. split; [| exact HP'].
      rewrite Hl'. apply length_insert.
Qed.

Lemma elem_of_range (a b i : Z) : i ∈ range a b <-> (a <= i < b)%Z.
Proof. unfold range. rewrite elem_of_seqZ. lia. Qed.

Lemma elem_of_range_down (a b i : Z) : i ∈ range_down a b <-> (b < i <= a)%Z.
Proof.
  unfold range_down. rewrite list_elem_of_fmap. split.
  - intros (k & -> & Hk). apply elem_of_seqZ in Hk. lia.
  - intros Hi. exists (a - i)%Z. split; [lia |]. apply elem_of_seqZ. lia.
Qed.

(** ** The advection phase *)

Section Advection.

Variable cfg : TankConfig.
Variable m : Q.
Hypothesis Hc : validated cfg.

(** Discharging runs on a row of [n_nodes] temperatures, and keeps its
    length and every property that mixing with [frac] keeps. *)
Lemma discharging_preserves (P : Q -> Prop) (mf : Q) (Tn : list Q) :
  len Tn = n_nodes cfg ->
  mixes (frac_of cfg m (Qabs mf)) P ->
  Forall P Tn ->
  exists Tn', discharging cfg m mf Tn = Ok Tn' /\
              length Tn' = length Tn /\ Forall P Tn'.
Proof.
  intros Hlen Hmix HP. destruct Hc as [Hn _ _ _ _ _ _ _ Hout].
  unfold discharging. fold (frac_of cfg m (Qabs mf)).
  set (f := frac_of cfg m (Qabs mf)) in *.
  destruct (Z.ltb_spec 0 (discharge_outlet cfg)) as [Hpos | Hzero].
  - rewrite (getitem_node Tn (discharge_outlet cfg)), bind_Ok by lia.
    rewrite (getitem_node Tn (discharge_outlet cfg - 1)), bind_Ok by lia.
    rewrite setitem_ok, bind_Ok by lia.
    set (l1 := <[_ := _]> Tn).
    assert (Hl1 : len l1 = len Tn) by apply len_insert.
    destruct (for_mix_preserves f P (fun i => i) (fun i => (i - 1)%Z)
                (range_down (discharge_outlet cfg - 1) 0) Hmix l1)
      as (l' & Hrun & Hl' & HP').
    + intros i Hi. apply elem_of_range_down in Hi. lia.
    + apply Forall_insert; [exact HP |].
      apply Hmix; apply Forall_node; (exact HP || lia).
    + exists l'. split; [exact Hrun |]. split; [| exact HP'].
      rewrite Hl'. apply length_insert.
  - destruct (Z.ltb_spec 1 (n_nodes cfg)) as [_ | ?]; [| lia].
    rewrite (getitem_node Tn (discharge_outlet cfg)), bind_Ok by lia.
    rewrite (getitem_node Tn (discharge_outlet cfg + 1)), bind_Ok by lia.
    rewrite setitem_ok, bind_Ok by lia.
    set (l1 := <[_ := _]> Tn).
    assert (Hl1 : len l1 = len Tn) by apply len_insert.
    destruct (for_mix_preserves f P (fun i => i) (fun i => (i + 1)%Z)
                (range 0 (n_nodes cfg - 2)) Hmix l1)
      as (l' & Hrun & Hl' & HP').
    + intros i Hi. apply elem_of_range in Hi. lia.
    + apply Forall_insert; [exact HP |].
      apply Hmix; apply Forall_node; (exact HP || lia).
    + exists l'. split; [exact Hrun |]. split; [| exact HP'].
      rewrite Hl'. apply length_insert.
Qed.

(** Charging runs as well, and keeps what mixing with [alpha] and with
    [frac] keeps, provided the inlet temperature has the property. *)
Lemma charging_preserves (P : Q -> Prop) (Tin_charge : list Q) (t : Z)
    (mf : Q) (Tn : list Q) :
  len Tn = n_nodes cfg ->
  (0 <= t < len Tin_charge)%Z ->
  mixes (alpha_of cfg m mf) P -> mixes (frac_of cfg m mf) P ->
  P (node Tin_charge t) ->
  Forall P Tn ->
  exists Tn', charging cfg m Tin_charge t mf Tn = Ok Tn' /\
              length Tn' = length Tn /\ Forall P Tn'.
Proof.
  intros Hlen Ht Hmixa Hmixf HPin HP. destruct Hc as [Hn _ _ _ _ _ _ Hin _].
  unfold charging. fold (alpha_of cfg m mf) (frac_of cfg m mf).
  rewrite (getitem_node Tn (charge_inlet cfg)), bind_Ok by lia.
  rewrite (getitem_node Tin_charge t), bind_Ok by lia.
  rewrite setitem_ok, bind_Ok by lia.
  set (l1 := <[_ := _]> Tn).
  assert (Hl1 : len l1 = len Tn) by apply len_insert.
  assert (HP1 : Forall P l1).
  { apply Forall_insert; [exact HP |].
    apply Hmixa; [apply Forall_node; (exact HP || lia) | exact HPin]. }
  destruct (Z.ltb_spec (charge_inlet cfg) (n_nodes cfg - 1)) as [Hlt | Hge].
  - destruct (for_mix_preserves (frac_of cfg m mf) P (fun i => (i + 1)%Z) (fun i => i)
                (range (charge_inlet cfg) (n_nodes cfg - 1)) Hmixf l1)
      as (l' & Hrun & Hl' & HP').
    + intros i Hi. apply elem_of_range in Hi. lia.
    + exact HP1.
    + exists l'. split; [exact Hrun |]. split; [| exact HP'].
      rewrite Hl'. apply length_insert.
  - exists l1. split; [reflexivity |]. split; [apply length_insert | exact HP1].
Qed.

(** Charging node by node: the nodes below the inlet keep their
    temperature, the inlet node is mixed with the incoming fluid, and
    every node above takes its share from the node below it {e as already
    updated}. *)
Lemma charging_nodes (Tin_charge : list Q) (t : Z) (mf : Q) (Tn : list Q) :
  len Tn = n_nodes cfg ->
  (0 <= t < len Tin_charge)%Z ->
  exists Tn', charging cfg m Tin_charge t mf Tn = Ok Tn' /\
    len Tn' = len Tn /\
    (forall j, (0 <= j < charge_inlet cfg)%Z -> node Tn' j = node Tn j) /\
    node Tn' (charge_inlet cfg) =
      (1 - alpha_of cfg m mf) * node Tn (charge_inlet cfg)
      + alpha_of cfg m mf * node Tin_charge t /\
    (forall j, (charge_inlet cfg < j < n_nodes cfg)%Z ->
       node Tn' j =
         (1 - frac_of cfg m mf) * node Tn j + frac_of cfg m mf * node Tn' (j - 1)).
Proof.
  intros Hlen Ht. destruct Hc as [Hn _ _ _ _ _ _ Hin _].
  unfold charging. fold (alpha_of cfg m mf) (frac_of cfg m mf).
  rewrite (getitem_node Tn (charge_inlet cfg)), bind_Ok by lia.
  rewrite (getitem_node Tin_charge t), bind_Ok by lia.
  rewrite setitem_ok, bind_Ok by lia.
  set (i_in := charge_inlet cfg) in *. set (f := frac_of cfg m mf).
  set (mixed := (1 - alpha_of cfg m mf) * node Tn i_in
                + alpha_of cfg m mf * node Tin_charge t).
  set (l1 := <[_ := _]> Tn).
  assert (Hl1 : len l1 = len Tn) by apply len_insert.
  assert (Hbelow : forall j, (0 <= j < i_in)%Z -> node l1 j = node Tn j).
  { intros j Hj. apply node_insert_ne; lia. }
  assert (Hmixed : node l1 i_in = mixed) by (apply node_insert_eq; lia).
  assert (Habove : forall j, (i_in < j < n_nodes cfg)%Z -> node l1 j = node Tn j).
  { intros j Hj. apply node_insert_ne; lia. }
  destruct (Z.ltb_spec i_in (n_nodes cfg - 1)) as [Hlt | Hge].
  - pose (Inv := fun (i : Z) (s : list Q) =>
      len s = n_nodes cfg /\
      (forall j, (0 <= j < i_in)%Z -> node s j = node Tn j) /\
      node s i_in = mixed /\
      (forall j, (i_in < j <= i)%Z ->
         node s j = (1 - f) * node Tn j + f * node s (j - 1)) /\
      (forall j, (i < j < n_nodes cfg)%Z -> node s j = node Tn j)).
    destruct (for_range_inv Inv
      (fun i Tn => a ← getitem Tn (i + 1); b ← getitem Tn i;
                   setitem Tn (i + 1) ((1 - f) * a + f * b))
      i_in (n_nodes cfg - 1) l1) as (l' & Hrun & HI).
    + unfold Inv. repeat split; auto; try lia.
    + intros i s Hi (Hs & H1 & H2 & H3 & H4).
      exists (<[Z.to_nat (i + 1) := (1 - f) * node s (i + 1) + f * node s i]> s).
      split; [apply (mix_item_ok f (i + 1) i s); lia |].
      unfold Inv. rewrite len_insert.
      split; [exact Hs |]. split; [| split; [| split]].
      * intros j Hj. rewrite node_insert_ne by lia. now apply H1.
      * rewrite node_insert_ne by lia. exact H2.
      * intros j Hj. destruct (Z.eq_dec j (i + 1)%Z) as [-> | Hne].
        -- rewrite node_insert_eq by lia.
           replace (i + 1 - 1)%Z with i by lia.
           rewrite node_insert_ne by lia.
           rewrite (H4 (i + 1)%Z) by lia. reflexivity.
        -- rewrite !node_insert_ne by lia. apply H3. lia.
      * intros j Hj. rewrite node_insert_ne by lia. apply H4. lia.
    + replace (Z.max i_in (n_nodes cfg - 1)) with (n_nodes cfg - 1)%Z in HI by lia.
      destruct HI as (Hs & H1 & H2 & H3 & _).
      exists l'. split; [exact Hrun |].
      split; [congruence |]. split; [exact H1 |]. split; [exact H2 |].
      intros j Hj. apply H3. lia.
  - exists l1. split; [reflexivity |].
    split; [exact Hl1 |]. split; [exact Hbelow |]. split; [exact Hmixed |].
    intros j Hj. lia.
Qed.

End Advection.

(** ** One time step as a function of the previous row *)

Section Row.

Variable cfg : TankConfig.
Variables m u G : Q.
Variables Tin_charge m_flow T_amb : list Q.

Lemma length_side_losses (Tamb : Q) (Tn : list Q) :
  length (side_losses cfg m u Tamb Tn) = length Tn.
Proof.
  unfold side_losses. rewrite length_zip_with, length_fmap. lia.
Qed.

Hypothesis Hc : validated cfg.
Hypothesis Hm_flow : len m_flow = n_steps cfg.
Hypothesis HT_amb : len T_amb = n_steps cfg.
Hypothesis HTin : len Tin_charge = n_steps cfg.

(** Every step runs on a row of [n_nodes] temperatures and yields one. *)
Lemma next_row_ok (t : Z) (row : list Q) :
  (0 <= t < n_steps cfg)%Z -> len row = n_nodes cfg ->
  exists row',
    next_row cfg m u G Tin_charge m_flow T_amb t row = Ok row' /\
    len row' = n_nodes cfg.
Proof.
  intros Ht Hrow. unfold next_row.
  assert (Hn : (2 <= n_nodes cfg)%Z) by apply Hc.
  set (Tn1 := if Qltb 0 u then side_losses cfg m u (node T_amb t) row else row).
  assert (H1 : (if Qltb 0 u then
                  Tamb ← getitem T_amb t; Ok (side_losses cfg m u Tamb row)
                else Ok row) = Ok Tn1).
  { unfold Tn1. destruct (Qltb 0 u); [| reflexivity].
    now rewrite getitem_node, bind_Ok by lia. }
  assert (Hl1 : len Tn1 = n_nodes cfg).
  { unfold Tn1, len. destruct (Qltb 0 u); [| exact Hrow].
    now rewrite length_side_losses. }
  rewrite H1, bind_Ok.
  set (Tn2 := if Qltb 0 G then zip_with Qplus Tn1 (dT_cond cfg m G Tn1) else Tn1).
  assert (H2 : (if Qltb 0 G then axial_conduction cfg m G Tn1 else Ok Tn1) = Ok Tn2).
  { unfold Tn2. destruct (Qltb 0 G); [| reflexivity].
    apply axial_conduction_ok. unfold len in Hl1. lia. }
  assert (Hl2 : len Tn2 = n_nodes cfg).
  { unfold Tn2. destruct (Qltb 0 G); [| exact Hl1].
    unfold len in *. rewrite length_zip_with, length_dT_cond; lia. }
  rewrite H2, bind_Ok.
  rewrite getitem_node, bind_Ok by lia.
  unfold advection.
  destruct (Qltb 0 (node m_flow t)).
  - destruct (charging_preserves cfg m Hc (fun _ => True) Tin_charge t
                (node m_flow t) Tn2) as (row' & Hr & Hl & _);
      auto using mixes_True; [lia | apply Forall_true; auto |].
    exists row'. split; [exact Hr |]. unfold len in *. lia.
  - destruct (Qltb (node m_flow t) 0).
    + destruct (discharging_preserves cfg m Hc (fun _ => True)
                  (node m_flow t) Tn2) as (row' & Hr & Hl & _);
        auto using mixes_True; [apply Forall_true; auto |].
      exists row'. split; [exact Hr |]. unfold len in *. lia.
    + exists Tn2. split; [reflexivity | exact Hl2].
Qed.

(** The loop body writes the next row and, when losses are on, the loss
    power of the row it started from. *)
Lemma time_step_ok (t : Z) (T : list (list Q)) (Q_loss row' : list Q) :
  (0 <= t < n_steps cfg)%Z ->
  len T = (n_steps cfg + 1)%Z ->
  len (row_at T t) = n_nodes cfg ->
  len (row_at T (t + 1)) = n_nodes cfg ->
  len Q_loss = n_steps cfg ->
  next_row cfg m u G Tin_charge m_flow T_amb t (row_at T t) = Ok row' ->
  len row' = n_nodes cfg ->
  time_step cfg m u G Tin_charge m_flow T_amb t (T, Q_loss) =
    Ok (<[Z.to_nat (t + 1) := row']> T,
        if Qltb 0 u
        then <[Z.to_nat t := recorded_loss u T_amb t (row_at T t)]> Q_loss
        else Q_loss).
Proof.
  intros Ht HT Hrow Hnext HQ Hrun Hrow'.
  unfold time_step, next_row, recorded_loss in *.
  rewrite (getitem_ok T t), bind_Ok by lia. fold (row_at T t).
  rewrite (getitem_node m_flow t) in * by lia.
  assert (Hset : forall (Tn : list Q) (Q' : list Q),
    (Tn ← advection cfg m Tin_charge t (node m_flow t) Tn;
     Ok Tn) = Ok row' ->
    (Tn ← advection cfg m Tin_charge t (node m_flow t) Tn;
     T' ← set_row T (t + 1) Tn; Ok (T', Q')) =
    Ok (<[Z.to_nat (t + 1) := row']> T, Q')).
  { intros Tn Q' Hadv.
    destruct (advection cfg m Tin_charge t (node m_flow t) Tn) as [r |];
      [| rewrite bind_Err in Hadv; discriminate].
    rewrite bind_Ok in Hadv. injection Hadv as ->. rewrite bind_Ok.
    unfold set_row. rewrite (getitem_ok T (t + 1)), bind_Ok by lia.
    fold (row_at T (t + 1)). rewrite Hnext, Hrow', Z.eqb_refl.
    now rewrite setitem_ok, bind_Ok by lia. }
  assert (Heta : forall r : result (list Q), (Tn ← r; Ok Tn) = r).
  { now intros [|]. }
  destruct (Qltb 0 u).
  - rewrite (getitem_node T_amb t), !bind_Ok in Hrun by lia.
    rewrite (getitem_node T_amb t), !bind_Ok by lia.
    rewrite setitem_ok, !bind_Ok by lia.
    destruct (Qltb 0 G).
    + revert Hrun.
      destruct (axial_conduction cfg m G _) as [Tn2 |];
        [| rewrite !bind_Err; discriminate].
      rewrite !bind_Ok. intros Hrun. apply Hset. now rewrite Heta.
    + rewrite !bind_Ok in *. apply Hset. now rewrite Heta.
  - rewrite !bind_Ok in *.
    destruct (Qltb 0 G).
    + revert Hrun.
      destruct (axial_conduction cfg m G _) as [Tn2 |];
        [| rewrite !bind_Err; discriminate].
      rewrite !bind_Ok. intros Hrun. apply Hset. now rewrite Heta.
    + rewrite !bind_Ok in *. apply Hset. now rewrite Heta.
Qed.

End Row.

(** ** The time march *)

Lemma row_at_insert_eq (T : list (list Q)) (i : Z) (v : list Q) :
  (0 <= i < len T)%Z -> row_at (<[Z.to_nat i := v]> T) i = v.
Proof.
  intros Hi. unfold row_at. apply list_lookup_total_insert_eq.
  unfold len in Hi. lia.
Qed.

Lemma row_at_insert_ne (T : list (list Q)) (i j : Z) (v : list Q) :
  (0 <= i)%Z -> (0 <= j)%Z -> i <> j ->
  row_at (<[Z.to_nat i := v]> T) j = row_at T j.
Proof.
  intros Hi Hj Hne. unfold row_at. apply list_lookup_total_insert_ne. lia.
Qed.

Lemma row_at_np_empty (rows cols t : Z) :
  (0 <= t < rows)%Z -> (0 <= cols)%Z ->
  len (row_at (np_empty rows cols) t) = cols.
Proof.
  intros Ht Hc. unfold row_at, np_empty.
  rewrite lookup_total_replicate_2 by lia.
  rewrite len_replicate. lia.
Qed.

Lemma node_np_zeros (n t : Z) : (0 <= t < n)%Z -> node (np_zeros n) t = 0.
Proof.
  intros Ht. unfold node, np_zeros. apply lookup_total_replicate_2. lia.
Qed.

Section March.

Variable cfg : TankConfig.
Variables Tin_charge m_flow T_amb T_init : list Q.
Hypothesis Hc : validated cfg.
Hypothesis Hm_flow : len m_flow = n_steps cfg.
Hypothesis HT_amb : len T_amb = n_steps cfg.
Hypothesis HTin : len Tin_charge = n_steps cfg.
Hypothesis HT_init : len T_init = n_nodes cfg.

(** On inputs of the right lengths the time march runs through all
    [n_steps] steps. *)
Lemma time_marching_ok :
  exists T Q_loss,
    time_marching cfg Tin_charge m_flow T_amb T_init = Ok (T, Q_loss) /\
    run_of cfg Tin_charge m_flow T_amb T_init T Q_loss.
Proof.
  assert (Hn : (2 <= n_nodes cfg)%Z) by apply Hc.
  assert (Hs : (1 <= n_steps cfg)%Z) by apply Hc.
  unfold time_marching.
  set (n := n_steps cfg) in *.
  set (T0 := np_empty (n + 1) (n_nodes cfg)).
  assert (HT0 : len T0 = (n + 1)%Z).
  { unfold T0, np_empty. rewrite len_replicate. lia. }
  unfold set_row. rewrite (getitem_ok T0 0), bind_Ok by lia.
  fold (row_at T0 0).
  assert (Hr0 : len (row_at T0 0) = n_nodes cfg)
    by (apply row_at_np_empty; lia).
  rewrite Hr0, HT_init, Z.eqb_refl.
  rewrite setitem_ok, bind_Ok by lia.
  set (T1 := <[Z.to_nat 0 := T_init]> T0).
  pose (Inv := fun (t : Z) (st : state) =>
    len st.1 = (n + 1)%Z /\
    (forall k, (0 <= k <= n)%Z -> len (row_at st.1 k) = n_nodes cfg) /\
    row_at st.1 0 = T_init /\
    (forall k, (0 <= k < t)%Z ->
       next_row cfg (mass_node cfg) (ua_node cfg) (G_cond cfg)
         Tin_charge m_flow T_amb k (row_at st.1 k) = Ok (row_at st.1 (k + 1))) /\
    len st.2 = n /\
    (forall k, (0 <= k < t)%Z ->
       node st.2 k = recorded_loss (ua_node cfg) T_amb k (row_at st.1 k)) /\
    (forall k, (t <= k < n)%Z -> node st.2 k = 0)).
  destruct (for_range_inv Inv
    (time_step cfg (mass_node cfg) (ua_node cfg) (G_cond cfg)
       Tin_charge m_flow T_amb) 0 n (T1, np_zeros n))
    as ([T QL] & Hrun & HI).
  - unfold Inv. cbn [fst snd].
    split; [unfold T1; now rewrite len_insert |].
    split.
    { intros k Hk. unfold T1. destruct (Z.eq_dec k 0%Z) as [-> | Hne].
      - rewrite row_at_insert_eq by lia. exact HT_init.
      - rewrite row_at_insert_ne by lia. apply row_at_np_empty; lia. }
    split; [unfold T1; apply row_at_insert_eq; lia |].
    split; [intros k Hk; lia |].
    split; [unfold np_zeros; rewrite len_replicate; lia |].
    split; [intros k Hk; lia |].
    intros k Hk. now apply node_np_zeros.
  - intros t [T QL] Ht (HlT & Hrows & Hinit & Hsteps & HlQ & Hloss & Hzero).
    cbn [fst snd] in *.
    destruct (next_row_ok cfg (mass_node cfg) (ua_node cfg) (G_cond cfg)
                Tin_charge m_flow T_amb Hc Hm_flow HT_amb HTin t (row_at T t))
      as (row' & Hnext & Hrow'); [lia | apply Hrows; lia |].
    eexists. split.
    { eapply time_step_ok; [.. | exact Hnext | exact Hrow'];
        try assumption; try lia; apply Hrows; lia. }
    unfold Inv. cbn [fst snd].
    split; [now rewrite len_insert |].
    split.
    { intros k Hk. destruct (Z.eq_dec k (t + 1)%Z) as [-> | Hne].
      - rewrite row_at_insert_eq by lia. exact Hrow'.
      - rewrite row_at_insert_ne by lia. now apply Hrows. }
    split; [rewrite row_at_insert_ne by lia; exact Hinit |].
    split.
    { intros k Hk. rewrite (row_at_insert_ne _ _ k) by lia.
      destruct (Z.eq_dec k t) as [-> | Hne].
      - rewrite row_at_insert_eq by lia. exact Hnext.
      - rewrite row_at_insert_ne by lia. apply Hsteps. lia. }
    split; [destruct (Qltb 0 (ua_node cfg)); [now rewrite len_insert | exact HlQ] |].
    split.
    { intros k Hk. rewrite (row_at_insert_ne _ _ k) by lia.
      destruct (Z.eq_dec k t) as [-> | Hne].
      - unfold recorded_loss at 2.
        destruct (Qltb 0 (ua_node cfg)) eqn:Hu.
        + rewrite node_insert_eq by lia. unfold recorded_loss. now rewrite Hu.
        + apply Hzero. lia.
      - destruct (Qltb 0 (ua_node cfg)).
        + rewrite node_insert_ne by lia. apply Hloss. lia.
        + apply Hloss. lia. }
    intros k Hk. destruct (Qltb 0 (ua_node cfg)).
    + rewrite node_insert_ne by lia. apply Hzero. lia.
    + apply Hzero. lia.
  - replace (Z.max 0 n) with n in HI by lia.
    destruct HI as (HlT & Hrows & Hinit & Hsteps & HlQ & Hloss & _).
    cbn [fst snd] in *.
    exists T, QL. split; [exact Hrun |]. now constructor.
Qed.

End March.

(** ** The whole simulation *)

Lemma mapM_Ok {A B} (f : A -> result B) (g : A -> B) (l : list A) :
  (forall x, x ∈ l -> f x = Ok (g x)) -> mapM f l = Ok (g <$> l).
Proof.
  induction l as [| x l IH]; intros Hf; [reflexivity |].
  cbn [mapM]. rewrite (Hf x) by left. rewrite bind_Ok.
  rewrite IH by (intros y Hy; apply Hf; now right). reflexivity.
Qed.

Lemma validate_fields (cfg : TankConfig) :
  n_nodes (fst (validate cfg)) = n_nodes cfg /\
  n_steps (fst (validate cfg)) = n_steps cfg /\
  ua_loss (fst (validate cfg)) = ua_loss cfg /\
  k_cond (fst (validate cfg)) = k_cond cfg /\
  charge_inlet (fst (validate cfg)) = charge_inlet cfg.
Proof.
  destruct (validate_cases cfg) as [[_ [msg ->]] | [_ ->]]; now cbn.
Qed.

Lemma check_len_ok (name : string) (arr : list Q) (n : Z) :
  len arr = n -> _check_len name arr n = Ok tt.
Proof. intros H. unfold _check_len. now rewrite H, Z.eqb_refl. Qed.

Lemma check_len_err (name : string) (arr : list Q) (n : Z) :
  len arr <> n -> _check_len name arr n = Err (DimensionMismatch name n (len arr)).
Proof.
  intros Hne. unfold _check_len.
  destruct (Z.eqb_spec (len arr) n); [contradiction | reflexivity].
Qed.

(** On well-formed inputs the simulation returns, and what it returns is
    the time march of the validated configuration with its two columns. *)
Lemma simulate_ok (cfg : TankConfig) (Tin_charge m_flow T_amb T_init : list Q) :
  well_formed cfg Tin_charge m_flow T_amb T_init ->
  exists out,
    simulate_stratified_tank cfg Tin_charge m_flow T_amb T_init = Ok out /\
    validated (fst (validate cfg)) /\
    run_of (fst (validate cfg)) Tin_charge m_flow T_amb T_init (T out) (Q_loss out) /\
    T_top out = column_top cfg (T out) /\
    T_bot out = column_bot (T out).
Proof.
  intros [Hv HTin Hm HTa HTi].
  destruct (validate_fields cfg) as (En & Es & _).
  unfold simulate_stratified_tank.
  destruct (validate cfg) as [cfg' r] eqn:Hval. cbn [fst snd] in *. subst r.
  destruct (validate_Ok_validated _ _ Hval) as (Hc & _ & _).
  rewrite bind_Ok.
  rewrite !check_len_ok, !bind_Ok by congruence.
  rewrite (proj2 (Z.eqb_eq _ _)) by congruence. cbn [negb].
  destruct (time_marching_ok cfg' Tin_charge m_flow T_amb T_init Hc)
    as (T & QL & Hrun & Hspec); try congruence.
  rewrite Hrun, bind_Ok.
  assert (Hrows : forall row, row ∈ T -> len row = n_nodes cfg).
  { intros row Hrow. apply list_elem_of_lookup in Hrow as [i Hi].
    pose proof (lookup_lt_Some _ _ _ Hi) as Hlt.
    pose proof (run_len_T _ _ _ _ _ _ _ Hspec) as HlT.
    rewrite <- En, <- (run_rows _ _ _ _ _ _ _ Hspec (Z.of_nat i))
      by (unfold len in HlT; lia).
    unfold row_at. rewrite Nat2Z.id.
    now rewrite (list_lookup_total_correct _ _ _ Hi). }
  assert (Hn : (2 <= n_nodes cfg)%Z) by (rewrite <- En; apply Hc).
  rewrite (mapM_Ok (fun row => getitem row (-1))
             (fun row => node row (n_nodes cfg - 1))), bind_Ok.
  2:{ intros row Hrow. rewrite getitem_neg_ok by (rewrite Hrows; [lia | exact Hrow]).
      unfold node. do 2 f_equal. rewrite Hrows by exact Hrow. lia. }
  rewrite (mapM_Ok (fun row => getitem row 0) (fun row => node row 0)), bind_Ok.
  2:{ intros row Hrow. apply getitem_node. rewrite Hrows by exact Hrow. lia. }
  eexists. split; [reflexivity |]. cbn.
  split; [exact Hc | split; [exact Hspec | split; reflexivity]].
Qed.

Lemma simulate_rejected (cfg : TankConfig) (Tin_charge m_flow T_amb T_init : list Q) :
  match rejected cfg (len Tin_charge) (len m_flow) (len T_amb) (len T_init) with
  | Some e => simulate_stratified_tank cfg Tin_charge m_flow T_amb T_init = Err e
  | None => well_formed cfg Tin_charge m_flow T_amb T_init
  end.
Proof.
  destruct (validate_fields cfg) as (En & Es & _).
  unfold rejected, simulate_stratified_tank, _check_len.
  destruct (validate cfg) as [cfg' [[] | e]] eqn:Hval; cbn [fst snd] in *;
    [| reflexivity].
  rewrite bind_Ok, En, Es.
  destruct (Z.eqb_spec (len Tin_charge) (n_steps cfg)); cbn [negb]; [| reflexivity].
  destruct (Z.eqb_spec (len m_flow) (n_steps cfg)); cbn [negb]; [| reflexivity].
  destruct (Z.eqb_spec (len T_amb) (n_steps cfg)); cbn [negb]; [| reflexivity].
  destruct (Z.eqb_spec (len T_init) (n_nodes cfg)); cbn [negb]; [| reflexivity].
  constructor; try assumption. now rewrite Hval.
Qed.

(** The dimension errors on lists, which have one axis by construction:
    the model raises [DimensionMismatch] exactly when the configuration
    passes validation and one of the three per-step series does not have
    [n_steps] entries or the initial profile does not have [n_nodes]
    entries, and its error is fixed by the configuration and the four
    lengths alone.  (For arrays of any shape see
    [simulate_arrays_refused] below.) *)
Theorem simulate_dimension_mismatch
    (cfg : TankConfig) (Tin_charge m_flow T_amb T_init : list Q) :
  ((exists name expected got,
      simulate_stratified_tank cfg Tin_charge m_flow T_amb T_init
      = Err (DimensionMismatch name expected got)) <->
   (snd (validate cfg) = Ok tt /\
    (len Tin_charge <> n_steps cfg \/ len m_flow <> n_steps cfg \/
     len T_amb <> n_steps cfg \/ len T_init <> n_nodes cfg))) /\
  (forall e,
     simulate_stratified_tank cfg Tin_charge m_flow T_amb T_init = Err e ->
     rejected cfg (len Tin_charge) (len m_flow) (len T_amb) (len T_init) = Some e /\
     forall Tin_charge' m_flow' T_amb' T_init' : list Q,
       len Tin_charge' = len Tin_charge -> len m_flow' = len m_flow ->
       len T_amb' = len T_amb -> len T_init' = len T_init ->
       simulate_stratified_tank cfg Tin_charge' m_flow' T_amb' T_init' = Err e).
Proof.
  pose proof (simulate_rejected cfg Tin_charge m_flow T_amb T_init) as Hrej.
  split.
  - split.
    + intros (name & expected & got & Hsim).
      destruct (rejected _ _ _ _ _) as [e |] eqn:Hr.
      * rewrite Hrej in Hsim. injection Hsim as ->. revert Hr.
        unfold rejected.
        destruct (snd (validate cfg)) as [[] | e] eqn:Hv.
        2:{ intros [= ->].
            destruct (validate_cases cfg) as [[_ [msg Hm]] | [_ Hok]];
              [rewrite Hm in Hv | rewrite Hok in Hv]; discriminate. }
        intros Hr. split; [reflexivity |].
        destruct (Z.eqb_spec (len Tin_charge) (n_steps cfg)); [| tauto].
        destruct (Z.eqb_spec (len m_flow) (n_steps cfg)); [| tauto].
        destruct (Z.eqb_spec (len T_amb) (n_steps cfg)); [| tauto].
        destruct (Z.eqb_spec (len T_init) (n_nodes cfg)); [| tauto].
        discriminate.
      * destruct (simulate_ok _ _ _ _ _ Hrej) as (out & Hout & _). congruence.
    + intros [Hv Hlen].
      destruct (rejected _ _ _ _ _) as [e |] eqn:Hr.
      * rewrite Hrej. revert Hr. unfold rejected. rewrite Hv.
        destruct (Z.eqb_spec (len Tin_charge) (n_steps cfg)); cbn [negb];
          [| intros [= <-]; eauto].
        destruct (Z.eqb_spec (len m_flow) (n_steps cfg)); cbn [negb];
          [| intros [= <-]; eauto].
        destruct (Z.eqb_spec (len T_amb) (n_steps cfg)); cbn [negb];
          [| intros [= <-]; eauto].
        destruct (Z.eqb_spec (len T_init) (n_nodes cfg)); cbn [negb];
          [| intros [= <-]; eauto].
        discriminate.
      * destruct Hrej. tauto.
  - intros e Hsim.
    destruct (rejected _ _ _ _ _) as [e' |] eqn:Hr.
    + rewrite Hrej in Hsim. injection Hsim as ->. split; [reflexivity |].
      intros Tin' m' Ta' Ti' E1 E2 E3 E4.
      pose proof (simulate_rejected cfg Tin' m' Ta' Ti') as Hrej'.
      now rewrite E1, E2, E3, E4, Hr in Hrej'.
    + destruct (simulate_ok _ _ _ _ _ Hrej) as (out & Hout & _). congruence.
Qed.

(** ** Properties of a run *)

Lemma validate_fst (cfg : TankConfig) :
  exists v, fst (validate cfg) = set_discharge_outlet cfg v.
Proof.
  destruct (validate_cases cfg) as [[_ [msg ->]] | [_ ->]]; cbn [fst].
  - exists (discharge_outlet cfg). now destruct cfg.
  - eauto.
Qed.

Lemma validate_constants (cfg : TankConfig) :
  mass_node (fst (validate cfg)) = mass_node cfg /\
  ua_node (fst (validate cfg)) = ua_node cfg /\
  G_cond (fst (validate cfg)) = G_cond cfg /\
  dt (fst (validate cfg)) = dt cfg /\
  cp (fst (validate cfg)) = cp cfg.
Proof. destruct (validate_fst cfg) as [v ->]. repeat split. Qed.

Lemma advection_idle (cfg : TankConfig) (m : Q) (Tin_charge : list Q) (t : Z)
    (mf : Q) (Tn : list Q) :
  mf == 0 -> advection cfg m Tin_charge t mf Tn = Ok Tn.
Proof.
  intros Hmf. unfold advection.
  rewrite (proj2 (Qltb_false 0 mf)) by lra.
  rewrite (proj2 (Qltb_false mf 0)) by lra. reflexivity.
Qed.

(** The guards of the two optional phases, on the validated configuration. *)
Lemma loss_guard (cfg : TankConfig) :
  snd (validate cfg) = Ok tt ->
  Qltb 0 (ua_node (fst (validate cfg))) = Qltb 0 (ua_loss cfg).
Proof.
  intros Hv. destruct (validate cfg) as [c' r] eqn:E. cbn [fst snd] in *. subst r.
  destruct (validate_Ok_validated _ _ E) as (Hc & -> & _).
  now rewrite ua_node_guard.
Qed.

Lemma conduction_guard (cfg : TankConfig) :
  snd (validate cfg) = Ok tt ->
  Qltb 0 (G_cond (fst (validate cfg))) = Qltb 0 (k_cond cfg).
Proof.
  intros Hv. destruct (validate cfg) as [c' r] eqn:E. cbn [fst snd] in *. subst r.
  destruct (validate_Ok_validated _ _ E) as (Hc & -> & _).
  now rewrite G_cond_guard.
Qed.

Lemma np_sum_scale_l (c : Q) (l : list Q) :
  np_sum (Qmult c <$> l) == c * np_sum l.
Proof.
  induction l as [| x l IH].
  - rewrite fmap_nil, np_sum_nil. ring.
  - rewrite fmap_cons, !np_sum_cons, IH. ring.
Qed.

(** C4 (idle invariance).  With [ua_loss = 0], [k_cond = 0] and a mass flow
    that is zero at every step, the simulation returns, and every row of
    the temperature field is the initial profile. *)
Theorem idle_invariance
    (cfg : TankConfig) (Tin_charge m_flow T_amb T_init : list Q) :
  well_formed cfg Tin_charge m_flow T_amb T_init ->
  ua_loss cfg == 0 -> k_cond cfg == 0 ->
  Forall (fun mf => mf == 0) m_flow ->
  exists out,
    simulate_stratified_tank cfg Tin_charge m_flow T_amb T_init = Ok out /\
    len (T out) = (n_steps cfg + 1)%Z /\
    forall t, (0 <= t <= n_steps cfg)%Z -> row_at (T out) t = T_init.
Proof.
  intros Hwf Hua Hk Hflow.
  destruct (simulate_ok _ _ _ _ _ Hwf) as (out & Hout & Hc & Hrun & _).
  destruct (validate_fields cfg) as (En & Es & _).
  destruct Hrun as [HlT Hrows Hinit Hstep _ _]. rewrite Es in *.
  exists out. split; [exact Hout |]. split; [exact HlT |].
  assert (Hall : forall k : nat, (Z.of_nat k <= n_steps cfg)%Z ->
                   row_at (T out) (Z.of_nat k) = T_init).
  { induction k as [| k IH]; intros Hk'; [exact Hinit |].
    specialize (IH ltac:(lia)).
    specialize (Hstep (Z.of_nat k) ltac:(lia)).
    replace (Z.of_nat (S k)) with (Z.of_nat k + 1)%Z by lia.
    revert Hstep. unfold next_row.
    rewrite (loss_guard cfg), (conduction_guard cfg) by apply Hwf.
    rewrite (proj2 (Qltb_false 0 (ua_loss cfg))) by lra.
    rewrite (proj2 (Qltb_false 0 (k_cond cfg))) by lra.
    rewrite !bind_Ok.
    rewrite getitem_node, bind_Ok by (destruct Hwf; lia).
    rewrite advection_idle
      by (apply (Forall_node _ _ _ Hflow); destruct Hwf; lia).
    intros [= <-]. exact IH. }
  intros t Ht. rewrite <- (Z2Nat.id t) by lia. apply Hall. lia.
Qed.

(** C3 (conduction-only energy conservation).  With [ua_loss = 0],
    [k_cond > 0] and a mass flow that is zero at every step, the simulation
    returns, and every step leaves the sum over the nodes of
    [mass_node * T[node]] as it was. *)
Theorem conduction_conserves_energy
    (cfg : TankConfig) (Tin_charge m_flow T_amb T_init : list Q) :
  well_formed cfg Tin_charge m_flow T_amb T_init ->
  ua_loss cfg == 0 -> 0 < k_cond cfg ->
  Forall (fun mf => mf == 0) m_flow ->
  exists out,
    simulate_stratified_tank cfg Tin_charge m_flow T_amb T_init = Ok out /\
    forall t, (0 <= t < n_steps cfg)%Z ->
      energy cfg (row_at (T out) (t + 1)) == energy cfg (row_at (T out) t).
Proof.
  intros Hwf Hua Hk Hflow.
  destruct (simulate_ok _ _ _ _ _ Hwf) as (out & Hout & Hc & Hrun & _).
  destruct (validate_fields cfg) as (En & Es & _).
  destruct Hrun as [HlT Hrows Hinit Hstep _ _]. rewrite Es in *.
  exists out. split; [exact Hout |].
  intros t Ht. specialize (Hstep t Ht). revert Hstep. unfold next_row.
  rewrite (loss_guard cfg), (conduction_guard cfg) by apply Hwf.
  rewrite (proj2 (Qltb_false 0 (ua_loss cfg))) by lra.
  rewrite (proj2 (Qltb_true 0 (k_cond cfg))) by exact Hk.
  rewrite bind_Ok.
  assert (Hlen : (2 <= length (row_at (T out) t))%nat).
  { pose proof (Hrows t ltac:(lia)) as Hr. pose proof (v_nodes _ Hc).
    unfold len in Hr. lia. }
  rewrite axial_conduction_ok, bind_Ok by exact Hlen.
  rewrite getitem_node, bind_Ok by (destruct Hwf; lia).
  rewrite advection_idle
    by (apply (Forall_node _ _ _ Hflow); destruct Hwf; lia).
  intros [= <-]. unfold energy.
  now rewrite !np_sum_scale_l, axial_conduction_sum.
Qed.

Lemma simulate_Ok_well_formed
    (cfg : TankConfig) (Tin_charge m_flow T_amb T_init : list Q) (out : output) :
  simulate_stratified_tank cfg Tin_charge m_flow T_amb T_init = Ok out ->
  well_formed cfg Tin_charge m_flow T_amb T_init.
Proof.
  intros Hout.
  pose proof (simulate_rejected cfg Tin_charge m_flow T_amb T_init) as Hrej.
  destruct (rejected _ _ _ _ _); [congruence | exact Hrej].
Qed.

(** C6 (loss-power series).  A run returns the field [T] with its
    [n_steps + 1] rows, the first of which is the initial profile, and a
    loss series of [n_steps] entries.  At every step [t], row [t + 1] of
    the field is row [t] taken through the three phases of the step, and
    entry [t] of the loss series is read off that same row [t], the row as
    it stood before the loss update of the step: with [ua_loss > 0] it is
    the sum over the nodes of [ua_node * (T[t][node] - T_amb[t])]; with
    [ua_loss = 0] the guard of the loss phase is false and the entry is
    zero.  Every entry is read with [getitem], which fails out of range. *)
Theorem loss_series_recorded
    (cfg : TankConfig) (Tin_charge m_flow T_amb T_init : list Q) :
  well_formed cfg Tin_charge m_flow T_amb T_init ->
  exists out,
    simulate_stratified_tank cfg Tin_charge m_flow T_amb T_init = Ok out /\
    len (T out) = (n_steps cfg + 1)%Z /\
    getitem (T out) 0 = Ok T_init /\
    len (Q_loss out) = n_steps cfg /\
    forall t, (0 <= t < n_steps cfg)%Z ->
      exists row row' Tamb q,
        getitem (T out) t = Ok row /\ len row = n_nodes cfg /\
        getitem (T out) (t + 1) = Ok row' /\ len row' = n_nodes cfg /\
        next_row (fst (validate cfg)) (mass_node cfg) (ua_node cfg) (G_cond cfg)
          Tin_charge m_flow T_amb t row = Ok row' /\
        getitem T_amb t = Ok Tamb /\
        getitem (Q_loss out) t = Ok q /\
        (0 < ua_loss cfg ->
         q = np_sum ((fun x => ua_node cfg * (x - Tamb)) <$> row)) /\
        (ua_loss cfg == 0 -> Qltb 0 (ua_node cfg) = false /\ q = 0).
Proof.
  intros Hwf.
  destruct (simulate_ok _ _ _ _ _ Hwf) as (out & Hout & Hc & Hrun & _).
  destruct (validate_fields cfg) as (En & Es & _).
  destruct (validate_constants cfg) as (Em & Eu & EG & _).
  destruct Hrun as [HlT Hrows Hinit Hstep HlQ Hloss]. rewrite Es, En in *.
  pose proof (v_steps _ Hc) as Hs. rewrite Es in Hs.
  exists out. split; [exact Hout |]. split; [exact HlT |].
  split; [rewrite getitem_ok by lia; f_equal; exact Hinit |].
  split; [exact HlQ |].
  intros t Ht.
  exists (row_at (T out) t), (row_at (T out) (t + 1)), (node T_amb t),
    (node (Q_loss out) t).
  split; [apply getitem_ok; lia |].
  split; [apply Hrows; lia |].
  split; [apply getitem_ok; lia |].
  split; [apply Hrows; lia |].
  split; [rewrite <- Em, <- Eu, <- EG; apply Hstep; lia |].
  split; [apply getitem_node; rewrite (wf_T_amb _ _ _ _ _ Hwf); lia |].
  split; [apply getitem_node; lia |].
  specialize (Hloss t Ht). unfold recorded_loss in Hloss.
  rewrite (loss_guard cfg) in Hloss by apply Hwf. rewrite Eu in Hloss.
  split; intros Hua.
  - now rewrite (proj2 (Qltb_true 0 (ua_loss cfg))) in Hloss by exact Hua.
  - rewrite (proj2 (Qltb_false 0 (ua_loss cfg))) in Hloss by lra.
    split; [| exact Hloss].
    rewrite <- Eu, (loss_guard cfg) by apply Hwf. apply Qltb_false. lra.
Qed.

(** ** Negative loss and conduction coefficients *)

Lemma validate_zeroed (c : TankConfig) :
  validate (zeroed c) = (zeroed (fst (validate c)), snd (validate c)).
Proof.
  unfold validate.
  cbn [zeroed n_nodes height volume rho cp dt n_steps charge_inlet discharge_outlet].
  repeat match goal with
         | |- context [if ?b then _ else _] =>
             lazymatch b with
             | Qltb _ _ => fail
             | _ => destruct b eqn:?; [reflexivity |]
             end
         end.
  destruct (discharge_outlet c =? -1)%Z;
    cbn [zeroed set_discharge_outlet n_nodes discharge_outlet];
    match goal with
    | |- context [if negb ?b then _ else _] => destruct b
    end; reflexivity.
Qed.

Lemma ua_node_zeroed (c : TankConfig) : ua_node (zeroed c) = ua_node c.
Proof.
  unfold ua_node. cbn [zeroed ua_loss n_nodes].
  destruct (Qltb (ua_loss c) 0) eqn:Hneg; [| reflexivity].
  apply Qltb_true in Hneg.
  rewrite (proj2 (Qltb_false 0 0)) by lra.
  now rewrite (proj2 (Qltb_false 0 (ua_loss c))) by lra.
Qed.

Lemma G_cond_zeroed (c : TankConfig) : G_cond (zeroed c) = G_cond c.
Proof.
  unfold G_cond. cbn [zeroed k_cond].
  destruct (Qltb (k_cond c) 0) eqn:Hneg; [| reflexivity].
  apply Qltb_true in Hneg.
  rewrite (proj2 (Qltb_false 0 0)) by lra.
  now rewrite (proj2 (Qltb_false 0 (k_cond c))) by lra.
Qed.

Lemma time_marching_zeroed (c : TankConfig) (Tin_charge m_flow T_amb T_init : list Q) :
  time_marching (zeroed c) Tin_charge m_flow T_amb T_init =
  time_marching c Tin_charge m_flow T_amb T_init.
Proof.
  unfold time_marching. rewrite ua_node_zeroed, G_cond_zeroed. reflexivity.
Qed.

Lemma simulate_zeroed (c : TankConfig) (Tin_charge m_flow T_amb T_init : list Q) :
  simulate_stratified_tank (zeroed c) Tin_charge m_flow T_amb T_init =
  simulate_stratified_tank c Tin_charge m_flow T_amb T_init.
Proof.
  unfold simulate_stratified_tank. rewrite validate_zeroed.
  destruct (validate c) as [c' r]. cbn [fst snd].
  destruct r as [[] | e]; [| reflexivity]. rewrite !bind_Ok.
  rewrite time_marching_zeroed. reflexivity.
Qed.

(** C9 (negative coefficients).  A configuration that meets every
    condition [validate] checks passes validation also with a negative
    [ua_loss] or [k_cond]: the per-node loss conductance, respectively the
    conductance between nodes, is then 0, the guarded phase never runs, a
    negative [ua_loss] leaves the loss series at zero, and the simulation
    returns exactly what it returns for the configuration with the
    negative fields replaced by 0. *)
Theorem negative_coefficients_ignored
    (cfg : TankConfig) (Tin_charge m_flow T_amb T_init : list Q) :
  ~ invalid cfg ->
  ua_loss cfg < 0 \/ k_cond cfg < 0 ->
  snd (validate cfg) = Ok tt /\
  (ua_loss cfg < 0 -> ua_node cfg = 0 /\ Qltb 0 (ua_node cfg) = false) /\
  (k_cond cfg < 0 -> G_cond cfg = 0 /\ Qltb 0 (G_cond cfg) = false) /\
  simulate_stratified_tank cfg Tin_charge m_flow T_amb T_init =
    simulate_stratified_tank (zeroed cfg) Tin_charge m_flow T_amb T_init /\
  (ua_loss cfg < 0 ->
   forall out,
     simulate_stratified_tank cfg Tin_charge m_flow T_amb T_init = Ok out ->
     Forall (fun q => q = 0) (Q_loss out)).
Proof.
  intros Hvalid Hneg.
  split.
  { destruct (validate_cases cfg) as [[Hi _] | [_ ->]];
      [contradiction | reflexivity]. }
  split.
  { intros Hua. unfold ua_node.
    rewrite (proj2 (Qltb_false 0 (ua_loss cfg))) by lra.
    split; [reflexivity | apply Qltb_false; lra]. }
  split.
  { intros Hk. unfold G_cond.
    rewrite (proj2 (Qltb_false 0 (k_cond cfg))) by lra.
    split; [reflexivity | apply Qltb_false; lra]. }
  split; [symmetry; apply simulate_zeroed |].
  intros Hua out Hout.
  pose proof (simulate_Ok_well_formed _ _ _ _ _ _ Hout) as Hwf.
  destruct (simulate_ok _ _ _ _ _ Hwf) as (out' & Hout' & Hc & Hrun & _).
  assert (out' = out) as -> by congruence.
  destruct (validate_fields cfg) as (_ & Es & _).
  destruct Hrun as [_ _ _ _ HlQ Hloss]. rewrite Es in *.
  apply (Forall_lookup_total_2 (fun q => q = 0)). intros i Hi.
  specialize (Hloss (Z.of_nat i) ltac:(unfold len in HlQ; lia)).
  unfold node in Hloss at 1. rewrite Nat2Z.id in Hloss. rewrite Hloss.
  unfold recorded_loss. rewrite (loss_guard cfg) by apply Hwf.
  now rewrite (proj2 (Qltb_false 0 (ua_loss cfg))) by lra.
Qed.

(** ** Bounds on a step *)

Lemma row_min_le (l : list Q) : Forall (fun x => row_min l <= x) l.
Proof.
  unfold row_min. generalize (hd 0 l) as a.
  induction l as [| x l IH]; intros a; constructor.
  - cbn [foldr]. apply Q.le_min_l.
  - eapply Forall_impl; [apply (IH a) |].
    intros y Hy. cbn [foldr]. cbn beta in Hy.
    eapply Qle_trans; [apply Q.le_min_r | exact Hy].
Qed.

Lemma row_max_ge (l : list Q) : Forall (fun x => x <= row_max l) l.
Proof.
  unfold row_max. generalize (hd 0 l) as a.
  induction l as [| x l IH]; intros a; constructor.
  - cbn [foldr]. apply Q.le_max_l.
  - eapply Forall_impl; [apply (IH a) |].
    intros y Hy. cbn [foldr]. cbn beta in Hy.
    eapply Qle_trans; [exact Hy | apply Q.le_max_r].
Qed.

Lemma row_between (l : list Q) : Forall (between (row_min l) (row_max l)) l.
Proof.
  pose proof (row_min_le l) as Hmin. pose proof (row_max_ge l) as Hmax.
  rewrite Forall_forall in *. intros x Hx. split; auto.
Qed.

Lemma Forall_between_weaken (lo hi lo' hi' : Q) (l : list Q) :
  lo' <= lo -> hi <= hi' ->
  Forall (between lo hi) l -> Forall (between lo' hi') l.
Proof.
  intros Hlo Hhi HP. eapply Forall_impl; [exact HP |].
  intros x [H1 H2]. split; eapply Qle_trans; eauto.
Qed.

Section AdvectionBounds.

Variable cfg : TankConfig.
Variable m : Q.
Hypothesis Hc : validated cfg.
Hypothesis Hm : 0 < m.

Lemma alpha_of_weight (mf : Q) : 0 < mf -> 0 <= alpha_of cfg m mf <= 1.
Proof.
  intros Hmf. pose proof (v_dt _ Hc) as Hdt.
  assert (0 < mf * dt cfg) by (apply Qmult_lt_0_compat; assumption).
  destruct (alpha_weight m (mf * dt cfg)) as [H0 H1]; [lra | lra |].
  unfold alpha_of. split; lra.
Qed.

Lemma frac_of_weight (mf : Q) : 0 <= mf -> 0 <= frac_of cfg m mf <= 1.
Proof.
  intros Hmf. pose proof (v_dt _ Hc) as Hdt.
  apply py_min_weight. apply Qle_shift_div_l; [exact Hm |].
  assert (0 <= mf * dt cfg) by (apply Qmult_le_0_compat; lra). lra.
Qed.

(** The advection phase keeps the temperatures between any two bounds
    that hold for the row and, when charging, for the inlet temperature. *)
Lemma advection_between (Tin_charge : list Q) (t : Z) (mf : Q) (Tn : list Q)
    (lo hi : Q) :
  len Tn = n_nodes cfg ->
  (0 <= t < len Tin_charge)%Z ->
  Forall (between lo hi) Tn ->
  (0 < mf -> between lo hi (node Tin_charge t)) ->
  exists Tn', advection cfg m Tin_charge t mf Tn = Ok Tn' /\
              length Tn' = length Tn /\ Forall (between lo hi) Tn'.
Proof.
  intros Hlen Ht HP Hin. unfold advection.
  destruct (Qltb 0 mf) eqn:Hpos.
  - apply Qltb_true in Hpos.
    apply charging_preserves; auto.
    + apply mixes_between, alpha_of_weight, Hpos.
    + apply mixes_between, frac_of_weight. lra.
  - destruct (Qltb mf 0) eqn:Hneg.
    + apply discharging_preserves; auto.
      apply mixes_between, frac_of_weight, Qabs_nonneg.
    + exists Tn. split; [reflexivity | split; [reflexivity | exact HP]].
Qed.

End AdvectionBounds.

(** C10, amended (no overshoot).  In exact arithmetic, with [ua_loss = 0]
    and [k_cond = 0] every step keeps every node temperature within the
    hull of the previous row, widened by the inlet temperature of the step
    when the tank is charging.  In binary64 a mix of two equal
    temperatures can be rounded away from them (see the runs in binary64
    at the end). *)
Theorem step_within_hull
    (cfg : TankConfig) (Tin_charge m_flow T_amb T_init : list Q) :
  well_formed cfg Tin_charge m_flow T_amb T_init ->
  ua_loss cfg == 0 -> k_cond cfg == 0 ->
  exists out,
    simulate_stratified_tank cfg Tin_charge m_flow T_amb T_init = Ok out /\
    forall t i, (0 <= t < n_steps cfg)%Z -> (0 <= i < n_nodes cfg)%Z ->
      let row := row_at (T out) t in
      let x := node (row_at (T out) (t + 1)) i in
      (0 < node m_flow t ->
       Qmin (row_min row) (node Tin_charge t) <= x
         <= Qmax (row_max row) (node Tin_charge t)) /\
      (node m_flow t <= 0 -> row_min row <= x <= row_max row).
Proof.
  intros Hwf Hua Hk.
  destruct (simulate_ok _ _ _ _ _ Hwf) as (out & Hout & Hc & Hrun & _).
  destruct (validate_fields cfg) as (En & Es & _).
  destruct Hrun as [HlT Hrows Hinit Hstep _ _]. rewrite Es, En in *.
  exists out. split; [exact Hout |].
  intros t i Ht Hi row x.
  specialize (Hstep t Ht). revert Hstep. unfold next_row.
  rewrite (loss_guard cfg), (conduction_guard cfg) by apply Hwf.
  rewrite (proj2 (Qltb_false 0 (ua_loss cfg))) by lra.
  rewrite (proj2 (Qltb_false 0 (k_cond cfg))) by lra.
  rewrite !bind_Ok.
  rewrite getitem_node, bind_Ok by (destruct Hwf; lia).
  fold row. intros Hadv.
  assert (Hrow : len row = n_nodes (fst (validate cfg)))
    by (rewrite En; apply Hrows; lia).
  assert (HtT : (0 <= t < len Tin_charge)%Z) by (destruct Hwf; lia).
  pose proof (mass_node_pos _ Hc) as Hm.
  assert (Hx : forall lo hi,
    Forall (between lo hi) row ->
    (0 < node m_flow t -> between lo hi (node Tin_charge t)) ->
    between lo hi x).
  { intros lo hi HP Hin.
    destruct (advection_between _ _ Hc Hm Tin_charge t (node m_flow t) row lo hi
                Hrow HtT HP Hin) as (row' & Hrun' & Hlen' & HP').
    rewrite Hrun' in Hadv. injection Hadv as Hadv. unfold x. rewrite <- Hadv.
    apply Forall_node; [exact HP' |].
    unfold len in *. rewrite Hlen'. lia. }
  split.
  - intros Hpos. apply Hx.
    + eapply Forall_between_weaken; [| | apply row_between].
      * apply Q.le_min_l.
      * apply Q.le_max_l.
    + intros _. split; [apply Q.le_min_r | apply Q.le_max_r].
  - intros Hneg. apply Hx; [apply row_between |].
    intros Hpos. lra.
Qed.

(** ** Charging, node by node *)

Lemma charging_top (cfg : TankConfig) (m : Q) (Tin_charge : list Q) (t : Z)
    (mf : Q) (Tn : list Q) :
  validated cfg ->
  len Tn = n_nodes cfg -> (0 <= t < len Tin_charge)%Z ->
  charge_inlet cfg = (n_nodes cfg - 1)%Z ->
  charging cfg m Tin_charge t mf Tn =
    Ok (<[Z.to_nat (charge_inlet cfg) :=
            (1 - alpha_of cfg m mf) * node Tn (charge_inlet cfg)
            + alpha_of cfg m mf * node Tin_charge t]> Tn).
Proof.
  intros Hc Hlen Ht Htop. pose proof (v_nodes _ Hc) as Hn.
  unfold charging. fold (alpha_of cfg m mf).
  rewrite (getitem_node Tn (charge_inlet cfg)), bind_Ok by lia.
  rewrite (getitem_node Tin_charge t), bind_Ok by lia.
  rewrite setitem_ok, bind_Ok by lia.
  destruct (Z.ltb_spec (charge_inlet cfg) (n_nodes cfg - 1)); [lia | reflexivity].
Qed.

(** C2 (charging).  On a step with [m_flow[t] > 0] the advection phase of
    a validated configuration runs on a row of [n_nodes] temperatures, and
    its result is the sequential recurrence: nodes below the inlet keep
    their temperature; the inlet node becomes
    [(1 - alpha) * T[i_in] + alpha * Tin_charge[t]]; every node [j] above
    the inlet becomes [(1 - frac) * T[j] + frac * T'[j - 1]], where
    [T'[j - 1]] is the already updated temperature of the node below.
    When the inlet is the top node, only the inlet node changes. *)
Theorem charging_recurrence
    (cfg : TankConfig) (Tin_charge : list Q) (t : Z) (mf : Q) (Tn : list Q) :
  validated cfg ->
  len Tn = n_nodes cfg ->
  (0 <= t < len Tin_charge)%Z ->
  0 < mf ->
  let i_in := charge_inlet cfg in
  let alpha := (mf * dt cfg) / (mass_node cfg + mf * dt cfg) in
  let frac := py_min 1 ((mf * dt cfg) / mass_node cfg) in
  exists Tn',
    advection cfg (mass_node cfg) Tin_charge t mf Tn = Ok Tn' /\
    len Tn' = len Tn /\
    (forall j, (0 <= j < i_in)%Z -> node Tn' j = node Tn j) /\
    node Tn' i_in = (1 - alpha) * node Tn i_in + alpha * node Tin_charge t /\
    (forall j, (i_in < j < n_nodes cfg)%Z ->
       node Tn' j = (1 - frac) * node Tn j + frac * node Tn' (j - 1)) /\
    (i_in = (n_nodes cfg - 1)%Z ->
       Tn' = <[Z.to_nat i_in :=
                 (1 - alpha) * node Tn i_in + alpha * node Tin_charge t]> Tn).
Proof.
  intros Hc Hlen Ht Hmf i_in alpha frac.
  destruct (charging_nodes cfg (mass_node cfg) Hc Tin_charge t mf Tn Hlen Ht)
    as (Tn' & Hrun & Hl & Hbelow & Hin & Habove).
  exists Tn'. unfold advection.
  rewrite (proj2 (Qltb_true 0 mf)) by exact Hmf.
  split; [exact Hrun |]. split; [exact Hl |]. split; [exact Hbelow |].
  split; [exact Hin |]. split; [exact Habove |].
  intros Htop.
  rewrite (charging_top cfg (mass_node cfg) Tin_charge t mf Tn Hc Hlen Ht Htop)
    in Hrun.
  now injection Hrun as <-.
Qed.

(** ** Discharging through an outlet above the bottom *)

Section OutletAbove.

Variable cfg : TankConfig.
Variable m : Q.
Hypothesis Hc : validated cfg.
Hypothesis Hout : (0 < discharge_outlet cfg)%Z.

(** Every node from 1 up to the outlet is mixed once, with the node below
    it as it was before the step; the other nodes keep their temperature. *)
Lemma discharging_above_nodes (mf : Q) (Tn : list Q) :
  len Tn = n_nodes cfg ->
  let f := frac_of cfg m (Qabs mf) in
  exists Tn',
    discharging cfg m mf Tn = Ok Tn' /\
    len Tn' = len Tn /\
    (forall j, (1 <= j <= discharge_outlet cfg)%Z ->
       node Tn' j = (1 - f) * node Tn j + f * node Tn (j - 1)) /\
    (forall j, (j = 0 \/ discharge_outlet cfg < j < n_nodes cfg)%Z ->
       node Tn' j = node Tn j).
Proof.
  intros Hlen f. pose proof (v_outlet _ Hc) as Hrange.
  unfold discharging. fold (frac_of cfg m (Qabs mf)). fold f.
  set (i_out := discharge_outlet cfg) in *.
  destruct (Z.ltb_spec 0 i_out) as [_ | ?]; [| lia].
  rewrite (getitem_node Tn i_out), bind_Ok by lia.
  rewrite (getitem_node Tn (i_out - 1)), bind_Ok by lia.
  rewrite setitem_ok, bind_Ok by lia.
  set (l1 := <[_ := _]> Tn).
  assert (Hl1 : len l1 = len Tn) by apply len_insert.
  pose (Inv := fun (i : Z) (s : list Q) =>
    len s = n_nodes cfg /\
    (forall j, (i < j <= i_out)%Z ->
       node s j = (1 - f) * node Tn j + f * node Tn (j - 1)) /\
    (forall j, (0 <= j <= i \/ i_out < j < n_nodes cfg)%Z ->
       node s j = node Tn j)).
  destruct (for_range_down_inv Inv
    (fun i Tn => a ← getitem Tn i; b ← getitem Tn (i - 1);
                 setitem Tn i ((1 - f) * a + f * b))
    (i_out - 1) 0 l1) as (l' & Hrun & HI).
  - unfold Inv. split; [lia |]. split.
    + intros j Hj. replace j with i_out by lia.
      unfold l1. now rewrite node_insert_eq by lia.
    + intros j Hj. unfold l1. apply node_insert_ne; lia.
  - intros i s Hi (Hs & Hdone & Htodo).
    exists (<[Z.to_nat i := (1 - f) * node s i + f * node s (i - 1)]> s).
    split; [apply (mix_item_ok f i (i - 1) s); lia |].
    unfold Inv. rewrite len_insert. split; [exact Hs |]. split.
    + intros j Hj. destruct (Z.eq_dec j i) as [-> | Hne].
      * rewrite node_insert_eq by lia.
        now rewrite (Htodo i), (Htodo (i - 1)%Z) by lia.
      * rewrite node_insert_ne by lia. apply Hdone. lia.
    + intros j Hj. rewrite node_insert_ne by lia. apply Htodo. lia.
  - replace (Z.min (i_out - 1) 0) with 0%Z in HI by lia.
    destruct HI as (Hs & Hdone & Htodo).
    exists l'. split; [exact Hrun |]. split; [congruence |]. split.
    + intros j Hj. apply Hdone. lia.
    + intros j Hj. apply Htodo. lia.
Qed.

End OutletAbove.

(** ** Discharging through a bottom outlet *)

Section BottomOutlet.

Variable cfg : TankConfig.
Variable m : Q.
Hypothesis Hc : validated cfg.
Hypothesis Hout : discharge_outlet cfg = 0%Z.
Hypothesis Hn3 : (3 <= n_nodes cfg)%Z.

(** What the source does there: node 0 is mixed with node 1 before the
    loop, and once more by the first iteration of the loop; node
    [n_nodes - 2], the mirror image of node 1 above, is never mixed. *)
Lemma discharging_bottom_nodes (mf : Q) (Tn : list Q) :
  len Tn = n_nodes cfg ->
  let f := frac_of cfg m (Qabs mf) in
  exists Tn',
    discharging cfg m mf Tn = Ok Tn' /\
    len Tn' = len Tn /\
    node Tn' 0 =
      (1 - f) * ((1 - f) * node Tn 0 + f * node Tn 1) + f * node Tn 1 /\
    (forall j, (1 <= j <= n_nodes cfg - 3)%Z ->
       node Tn' j = (1 - f) * node Tn j + f * node Tn (j + 1)) /\
    (forall j, (n_nodes cfg - 2 <= j < n_nodes cfg)%Z -> node Tn' j = node Tn j).
Proof.
  intros Hlen f. unfold discharging. fold (frac_of cfg m (Qabs mf)). fold f.
  rewrite Hout. cbn [Z.ltb Z.compare].
  destruct (Z.ltb_spec 1 (n_nodes cfg)) as [_ | ?]; [| lia].
  rewrite (getitem_node Tn 0), bind_Ok by lia.
  rewrite (getitem_node Tn (0 + 1)), bind_Ok by lia.
  rewrite setitem_ok, bind_Ok by lia.
  set (l1 := <[_ := _]> Tn).
  assert (Hl1 : len l1 = len Tn) by apply len_insert.
  assert (H10 : node l1 0 = (1 - f) * node Tn 0 + f * node Tn 1)
    by (apply node_insert_eq; lia).
  assert (H1j : forall j, (1 <= j)%Z -> node l1 j = node Tn j)
    by (intros j Hj; apply node_insert_ne; lia).
  pose (Inv := fun (i : Z) (s : list Q) =>
    len s = n_nodes cfg /\
    (forall j, (0 <= j < i)%Z ->
       node s j = (1 - f) * node l1 j + f * node l1 (j + 1)) /\
    (forall j, (i <= j < n_nodes cfg)%Z -> node s j = node l1 j)).
  destruct (for_range_inv Inv
    (fun i Tn => a ← getitem Tn i; b ← getitem Tn (i + 1);
                 setitem Tn i ((1 - f) * a + f * b))
    0 (n_nodes cfg - 2) l1) as (l' & Hrun & HI).
  - unfold Inv. split; [lia |]. split; [intros j Hj; lia | auto].
  - intros i s Hi (Hs & Hdone & Htodo).
    exists (<[Z.to_nat i := (1 - f) * node s i + f * node s (i + 1)]> s).
    split; [apply (mix_item_ok f i (i + 1) s); lia |].
    unfold Inv. rewrite len_insert. split; [exact Hs |]. split.
    + intros j Hj. destruct (Z.eq_dec j i) as [-> | Hne].
      * rewrite node_insert_eq by lia.
        now rewrite (Htodo i), (Htodo (i + 1)%Z) by lia.
      * rewrite node_insert_ne by lia. apply Hdone. lia.
    + intros j Hj. rewrite node_insert_ne by lia. apply Htodo. lia.
  - replace (Z.max 0 (n_nodes cfg - 2)) with (n_nodes cfg - 2)%Z in HI by lia.
    destruct HI as (Hs & Hdone & Htodo).
    exists l'. split; [exact Hrun |]. split; [congruence |]. split; [| split].
    + rewrite (Hdone 0%Z) by lia. rewrite H10, (H1j (0 + 1)%Z) by lia.
      reflexivity.
    + intros j Hj. rewrite (Hdone j) by lia. now rewrite !H1j by lia.
    + intros j Hj. rewrite (Htodo j) by lia. apply H1j. lia.
Qed.

End BottomOutlet.

(** ** Concrete runs *)

Ltac Forall_compute :=
  repeat first [apply Forall_nil_2 | apply Forall2_nil_2
               | apply Forall_cons_2; [vm_compute; (reflexivity || discriminate) |]
               | apply Forall2_cons_2; [vm_compute; (reflexivity || discriminate) |]].

(** C1.  Discharging the profile [20, 40, 60] through the bottom outlet
    with [frac = 1/2]: the source leaves node 0 at 35, having mixed it with
    node 1 twice (20 -> 30 -> 35); the propagation of the specification,
    which mixes every node at most once, leaves it at 30. *)
Lemma bottom_outlet_mixes_node0_twice :
  exists out,
    simulate_stratified_tank bottom_cfg [60] [-1] [20] [20; 40; 60] = Ok out /\
    Forall2 Qeq (row_at (T out) 1) [35; 40; 60] /\
    frac_of bottom_cfg (mass_node bottom_cfg) (Qabs (-1)) == 1 # 2 /\
    exists claimed,
      mirror_propagation (frac_of bottom_cfg (mass_node bottom_cfg) (Qabs (-1)))
        (n_nodes bottom_cfg) [20; 40; 60] = Ok claimed /\
      Forall2 Qeq claimed [30; 40; 60] /\
      ~ node (row_at (T out) 1) 0 == node claimed 0.
Proof.
  eexists. split; [vm_compute; reflexivity |].
  split; [Forall_compute |]. split; [vm_compute; reflexivity |].
  eexists. split; [vm_compute; reflexivity |].
  split; [Forall_compute |]. vm_compute. discriminate.
Qed.

(** ** Monotonicity of a stable step *)

Lemma combo_le (w x y a b : Q) :
  0 <= w <= 1 -> x <= y -> a <= b ->
  (1 - w) * x + w * a <= (1 - w) * y + w * b.
Proof.
  intros [Hw0 Hw1] Hxy Hab.
  assert (0 <= (1 - w) * (y - x)) by (apply Qmult_le_0_compat; lra).
  assert (0 <= w * (b - a)) by (apply Qmult_le_0_compat; lra).
  lra.
Qed.

Lemma combo3_le (c x y a b a' b' : Q) :
  0 <= c -> 2 * c <= 1 -> x <= y -> a <= b -> a' <= b' ->
  x + c * ((a - x) + (a' - x)) <= y + c * ((b - y) + (b' - y)).
Proof.
  intros Hc0 Hc1 Hxy Hab Hab'.
  assert (0 <= (1 - 2 * c) * (y - x)) by (apply Qmult_le_0_compat; lra).
  assert (0 <= c * (b - a)) by (apply Qmult_le_0_compat; lra).
  assert (0 <= c * (b' - a')) by (apply Qmult_le_0_compat; lra).
  lra.
Qed.

Lemma combo3_between (lo hi c x a a' : Q) :
  0 <= c -> 2 * c <= 1 ->
  between lo hi x -> between lo hi a -> between lo hi a' ->
  between lo hi (x + c * ((a - x) + (a' - x))).
Proof.
  intros Hc0 Hc1 [Hx0 Hx1] [Ha0 Ha1] [Hb0 Hb1].
  assert (0 <= (1 - 2 * c) * (x - lo)) by (apply Qmult_le_0_compat; lra).
  assert (0 <= c * (a - lo)) by (apply Qmult_le_0_compat; lra).
  assert (0 <= c * (a' - lo)) by (apply Qmult_le_0_compat; lra).
  assert (0 <= (1 - 2 * c) * (hi - x)) by (apply Qmult_le_0_compat; lra).
  assert (0 <= c * (hi - a)) by (apply Qmult_le_0_compat; lra).
  assert (0 <= c * (hi - a')) by (apply Qmult_le_0_compat; lra).
  split; lra.
Qed.

Lemma zip_with_total (f : Q -> Q -> Q) (l k : list Q) (i : nat) :
  (i < length l)%nat -> (i < length k)%nat ->
  zip_with f l k !!! i = f (l !!! i) (k !!! i).
Proof. apply lookup_total_zip_with. Qed.

Lemma fmap_total (f : Q -> Q) (l : list Q) (i : nat) :
  (i < length l)%nat -> (f <$> l) !!! i = f (l !!! i).
Proof. apply list_lookup_total_fmap. Qed.

Section NodeFormulas.

Variable cfg : TankConfig.
Variables m u G : Q.

(** The loss phase, node by node. *)
Lemma side_losses_node (Tamb : Q) (l : list Q) (j : Z) :
  (0 <= j < len l)%Z ->
  node (side_losses cfg m u Tamb l) j =
    node l j - (u * (node l j - Tamb) * dt cfg) / (m * cp cfg).
Proof.
  intros Hj. unfold side_losses, node. unfold len in Hj.
  rewrite zip_with_total by (rewrite ?length_fmap; lia).
  now rewrite fmap_total by lia.
Qed.

(** The conduction phase, node by node: the bottom node, an interior
    node and the top node. *)
Lemma conduction_node_bottom (l : list Q) :
  (2 <= len l)%Z ->
  node (zip_with Qplus l (dT_cond cfg m G l)) 0 =
    node l 0 + conducted cfg m G (node l 1 - node l 0).
Proof.
  intros Hl. unfold node. unfold len in Hl.
  rewrite zip_with_total by (rewrite ?length_dT_cond; lia).
  reflexivity.
Qed.

Lemma conduction_node_interior (l : list Q) (j : Z) :
  (1 <= j <= len l - 2)%Z ->
  node (zip_with Qplus l (dT_cond cfg m G l)) j =
    node l j + conducted cfg m G
                 ((node l (j - 1) - node l j) + (node l (j + 1) - node l j)).
Proof.
  intros Hj. unfold node. unfold len in Hj.
  rewrite zip_with_total by (rewrite ?length_dT_cond; lia).
  f_equal. unfold dT_cond.
  set (k := (length l - 2)%nat).
  rewrite lookup_total_cons_ne_0 by lia.
  rewrite lookup_total_app_l
    by (rewrite length_fmap, !length_zip_with, !length_take, !length_drop; lia).
  rewrite fmap_total
    by (rewrite !length_zip_with, !length_take, !length_drop; lia).
  rewrite !zip_with_total
    by (rewrite ?length_zip_with, !length_take, ?length_drop; lia).
  rewrite !lookup_total_take_lt by lia.
  rewrite !lookup_total_drop.
  replace (Z.to_nat (j - 1)) with (pred (Z.to_nat j)) by lia.
  replace (1 + pred (Z.to_nat j))%nat with (Z.to_nat j) by lia.
  replace (2 + pred (Z.to_nat j))%nat with (Z.to_nat (j + 1)) by lia.
  reflexivity.
Qed.

Lemma conduction_node_top (l : list Q) :
  (2 <= len l)%Z ->
  node (zip_with Qplus l (dT_cond cfg m G l)) (len l - 1) =
    node l (len l - 1)
    + conducted cfg m G (node l (len l - 2) - node l (len l - 1)).
Proof.
  intros Hl. unfold node. unfold len in *.
  rewrite zip_with_total by (rewrite ?length_dT_cond; lia).
  f_equal. unfold dT_cond.
  set (k := (length l - 2)%nat).
  rewrite lookup_total_cons_ne_0 by lia.
  rewrite lookup_total_app_r
    by (rewrite length_fmap, !length_zip_with, !length_take, !length_drop; lia).
  rewrite length_fmap, !length_zip_with, !length_take, !length_drop.
  replace (pred (Z.to_nat (Z.of_nat (length l) - 1)) - _)%nat with 0%nat by lia.
  replace (Z.to_nat (Z.of_nat (length l) - 2)) with k by lia.
  replace (Z.to_nat (Z.of_nat (length l) - 1)) with (S k) by lia.
  reflexivity.
Qed.

End NodeFormulas.

Section Stable.

Variable cfg : TankConfig.
Variables m u G : Q.
Hypothesis Hc : validated cfg.
Hypothesis Hm : 0 < m.
Hypothesis Hu0 : 0 <= u.
Hypothesis Hu1 : u * dt cfg <= m * cp cfg.
Hypothesis HG0 : 0 <= G.
Hypothesis HG1 : 2 * G * dt cfg <= m * cp cfg.

Lemma mcp_pos : 0 < m * cp cfg.
Proof. apply Qmult_lt_0_compat; [exact Hm | apply Hc]. Qed.

Lemma loss_weight_range : 0 <= (loss_weight cfg m u) <= 1.
Proof.
  pose proof mcp_pos. pose proof (v_dt _ Hc).
  assert (0 <= u * dt cfg) by (apply Qmult_le_0_compat; lra).
  unfold loss_weight. split.
  - apply Qle_shift_div_l; lra.
  - apply Qle_shift_div_r; lra.
Qed.

Lemma cond_weight_range : 0 <= (cond_weight cfg m G) /\ 2 * (cond_weight cfg m G) <= 1.
Proof.
  pose proof mcp_pos. pose proof (v_dt _ Hc).
  assert (0 <= G * dt cfg) by (apply Qmult_le_0_compat; lra).
  unfold cond_weight. split.
  - apply Qle_shift_div_l; lra.
  - assert (E : 2 * (G * dt cfg / (m * cp cfg)) == (2 * G * dt cfg) / (m * cp cfg))
      by (unfold Qdiv; ring).
    rewrite E. apply Qle_shift_div_r; lra.
Qed.

Lemma loss_term (x A : Q) :
  x - (u * (x - A) * dt cfg) / (m * cp cfg)
  == (1 - (loss_weight cfg m u)) * x + (loss_weight cfg m u) * A.
Proof. unfold loss_weight, Qdiv. ring. Qed.

Lemma conducted_term (x : Q) : conducted cfg m G x == (cond_weight cfg m G) * x.
Proof. unfold conducted, cond_weight, Qdiv. ring. Qed.

Lemma side_losses_le (A B : Q) (a b : list Q) :
  A <= B -> rows_le a b ->
  rows_le (side_losses cfg m u A a) (side_losses cfg m u B b).
Proof.
  intros HAB [Hlen Hle]. split.
  - unfold len in *. now rewrite !length_side_losses.
  - intros j Hj. unfold len in Hj. rewrite length_side_losses in Hj.
    rewrite !side_losses_node by (unfold len in *; lia).
    rewrite !loss_term.
    apply combo_le; [apply loss_weight_range | | exact HAB].
    apply Hle. unfold len. lia.
Qed.

Lemma side_losses_between (lo hi A : Q) (a : list Q) :
  between lo hi A -> Forall (between lo hi) a ->
  Forall (between lo hi) (side_losses cfg m u A a).
Proof.
  intros HA Ha. apply (Forall_lookup_total_2 (between lo hi)).
  intros i Hi. rewrite length_side_losses in Hi.
  pose proof (side_losses_node cfg m u A a (Z.of_nat i)) as E.
  unfold node in E. rewrite Nat2Z.id in E.
  rewrite E by (unfold len; lia).
  unfold between. rewrite loss_term.
  apply mix_between; [apply loss_weight_range | | exact HA].
  now apply (Forall_lookup_total_1 (between lo hi)).
Qed.

(** Every node of the conducted row is a combination, with weights that
    are not negative, of itself and its neighbours. *)
Lemma conduction_cases (l : list Q) (j : Z) :
  (2 <= len l)%Z -> (0 <= j < len l)%Z ->
  exists below above,
    (below = node l j \/ (1 <= j)%Z /\ below = node l (j - 1)) /\
    (above = node l j \/ (j + 1 < len l)%Z /\ above = node l (j + 1)) /\
    node (zip_with Qplus l (dT_cond cfg m G l)) j
    == node l j + (cond_weight cfg m G) * ((below - node l j) + (above - node l j)).
Proof.
  intros Hl Hj.
  destruct (Z.eq_dec j 0%Z) as [-> | Hj0].
  - exists (node l 0), (node l 1). split; [now left |].
    split; [right; split; [lia | reflexivity] |].
    rewrite conduction_node_bottom, conducted_term by lia. ring.
  - destruct (Z.eq_dec j (len l - 1)%Z) as [-> | Hjn].
    + exists (node l (len l - 2)), (node l (len l - 1)).
      split; [right; split; [lia | f_equal; lia] |]. split; [now left |].
      rewrite conduction_node_top, conducted_term by lia. ring.
    + exists (node l (j - 1)), (node l (j + 1)).
      split; [right; split; [lia | reflexivity] |].
      split; [right; split; [lia | reflexivity] |].
      rewrite conduction_node_interior, conducted_term by lia. reflexivity.
Qed.

Lemma conduction_le (a b : list Q) :
  (2 <= len a)%Z -> rows_le a b ->
  rows_le (zip_with Qplus a (dT_cond cfg m G a))
          (zip_with Qplus b (dT_cond cfg m G b)).
Proof.
  intros Hl [Hlen Hle].
  assert (Hlz : forall l : list Q, (2 <= len l)%Z ->
            len (zip_with Qplus l (dT_cond cfg m G l)) = len l).
  { intros l H. unfold len in *.
    rewrite length_zip_with, length_dT_cond; lia. }
  split; [rewrite !Hlz by lia; exact Hlen |].
  intros j Hj. rewrite Hlz in Hj by lia.
  destruct cond_weight_range as [Hc0 Hc1].
  destruct (Z.eq_dec j 0%Z) as [-> | Hj0];
    [| destruct (Z.eq_dec j (len a - 1)%Z) as [-> | Hjn]].
  - rewrite !conduction_node_bottom, !conducted_term by lia.
    pose proof (Hle 0%Z ltac:(lia)). pose proof (Hle 1%Z ltac:(lia)).
    pose proof (combo_le (cond_weight cfg m G)
                  (node a 0) (node b 0) (node a 1) (node b 1)
                  ltac:(lra) ltac:(assumption) ltac:(assumption)).
    lra.
  - rewrite conduction_node_top, conducted_term by lia.
    replace (len a - 1)%Z with (len b - 1)%Z at 3 by lia.
    rewrite conduction_node_top, conducted_term by lia.
    rewrite <- Hlen.
    pose proof (Hle (len a - 1)%Z ltac:(lia)).
    pose proof (Hle (len a - 2)%Z ltac:(lia)).
    pose proof (combo_le (cond_weight cfg m G) (node a (len a - 1)) (node b (len a - 1))
                  (node a (len a - 2)) (node b (len a - 2))
                  ltac:(lra) ltac:(assumption) ltac:(assumption)).
    lra.
  - rewrite !conduction_node_interior, !conducted_term by lia.
    apply combo3_le; try assumption; apply Hle; lia.
Qed.

Lemma conduction_between (lo hi : Q) (a : list Q) :
  (2 <= len a)%Z -> Forall (between lo hi) a ->
  Forall (between lo hi) (zip_with Qplus a (dT_cond cfg m G a)).
Proof.
  intros Hl Ha. apply (Forall_lookup_total_2 (between lo hi)).
  intros i Hi.
  assert (Hi' : (0 <= Z.of_nat i < len a)%Z).
  { unfold len in *. rewrite length_zip_with, length_dT_cond in Hi; lia. }
  destruct (conduction_cases a (Z.of_nat i) Hl Hi')
    as (below & above & Hb & Hab & E).
  unfold node in E at 1. rewrite Nat2Z.id in E.
  unfold between. rewrite E.
  destruct cond_weight_range as [Hc0 Hc1].
  apply combo3_between; try assumption.
  - apply Forall_node; assumption.
  - destruct Hb as [-> | [? ->]]; apply Forall_node; (assumption || lia).
  - destruct Hab as [-> | [? ->]]; apply Forall_node; (assumption || lia).
Qed.

End Stable.

Section StableStep.

Variable cfg : TankConfig.
Variables m u G : Q.
Variables Tin_charge m_flow T_amb : list Q.
Hypothesis Hc : validated cfg.
Hypothesis Hm : 0 < m.
Hypothesis Hu0 : 0 <= u.
Hypothesis Hu1 : u * dt cfg <= m * cp cfg.
Hypothesis HG0 : 0 <= G.
Hypothesis HG1 : 2 * G * dt cfg <= m * cp cfg.
Hypothesis Hm_flow : len m_flow = n_steps cfg.
Hypothesis HT_amb : len T_amb = n_steps cfg.
Hypothesis HTin : len Tin_charge = n_steps cfg.

(** Charging a warmer row with fluid that is no cooler gives a warmer row. *)
Lemma charging_le (t t' : Z) (mf : Q) (a b a' b' : list Q) :
  0 < mf ->
  len a = n_nodes cfg -> len b = n_nodes cfg ->
  (0 <= t < n_steps cfg)%Z -> (0 <= t' < n_steps cfg)%Z ->
  node Tin_charge t <= node Tin_charge t' ->
  charging cfg m Tin_charge t mf a = Ok a' ->
  charging cfg m Tin_charge t' mf b = Ok b' ->
  rows_le a b -> rows_le a' b'.
Proof.
  intros Hmf Ha Hb Ht Ht' Hin Hrun Hrun' [_ Hle].
  destruct (charging_nodes cfg m Hc Tin_charge t mf a Ha ltac:(lia))
    as (a1 & Ea & Hla & Ha1 & Ha2 & Ha3).
  destruct (charging_nodes cfg m Hc Tin_charge t' mf b Hb ltac:(lia))
    as (b1 & Eb & Hlb & Hb1 & Hb2 & Hb3).
  assert (a1 = a') as -> by congruence.
  assert (b1 = b') as -> by congruence.
  split; [congruence |].
  pose proof (v_inlet _ Hc) as Hinlet.
  assert (Hall : forall j, (0 <= j)%Z -> (j < n_nodes cfg)%Z ->
                   node a' j <= node b' j).
  { intros j Hj. pattern j. apply natlike_ind; [| | exact Hj]; clear j Hj.
    - intros H0. destruct (Z.eq_dec (charge_inlet cfg) 0%Z) as [E | E].
      + rewrite <- E, Ha2, Hb2.
        apply combo_le; [now apply alpha_of_weight | apply Hle; lia | exact Hin].
      + rewrite Ha1, Hb1 by lia. apply Hle. lia.
    - intros j Hj IH Hlt.
      destruct (Z_lt_le_dec (Z.succ j) (charge_inlet cfg)) as [Hbelow | Hge].
      + rewrite Ha1, Hb1 by lia. apply Hle. lia.
      + destruct (Z.eq_dec (Z.succ j) (charge_inlet cfg)) as [E | E].
        * rewrite E, Ha2, Hb2.
          apply combo_le; [now apply alpha_of_weight | apply Hle; lia | exact Hin].
        * rewrite Ha3, Hb3 by lia.
          replace (Z.succ j - 1)%Z with j by lia.
          apply combo_le; [apply frac_of_weight; (assumption || lra)
                          | apply Hle; lia | apply IH; lia]. }
  intros j Hj. apply Hall; lia.
Qed.

Lemma next_row_advection (t : Z) (row : list Q) :
  (0 <= t < n_steps cfg)%Z -> len row = n_nodes cfg ->
  next_row cfg m u G Tin_charge m_flow T_amb t row =
    advection cfg m Tin_charge t (node m_flow t)
      (before_advection cfg m u G T_amb t row) /\
  len (before_advection cfg m u G T_amb t row) = n_nodes cfg.
Proof.
  intros Ht Hrow. pose proof (v_nodes _ Hc) as Hn.
  unfold next_row, before_advection.
  assert (Hl1 : len (if Qltb 0 u then side_losses cfg m u (node T_amb t) row
                     else row) = n_nodes cfg).
  { unfold len in *. destruct (Qltb 0 u); [| exact Hrow].
    now rewrite length_side_losses. }
  split.
  - destruct (Qltb 0 u).
    + rewrite (getitem_node T_amb t), !bind_Ok by lia.
      destruct (Qltb 0 G).
      * rewrite axial_conduction_ok, bind_Ok by (unfold len in Hl1; lia).
        now rewrite (getitem_node m_flow t), bind_Ok by lia.
      * now rewrite bind_Ok, (getitem_node m_flow t), bind_Ok by lia.
    + rewrite bind_Ok. destruct (Qltb 0 G).
      * rewrite axial_conduction_ok, bind_Ok by (unfold len in Hl1; lia).
        now rewrite (getitem_node m_flow t), bind_Ok by lia.
      * now rewrite bind_Ok, (getitem_node m_flow t), bind_Ok by lia.
  - destruct (Qltb 0 G); [| exact Hl1].
    unfold len in *. rewrite length_zip_with, length_dT_cond; lia.
Qed.

Lemma before_advection_le (t t' : Z) (a b : list Q) :
  len a = n_nodes cfg ->
  (Qltb 0 u = true -> node T_amb t <= node T_amb t') ->
  rows_le a b ->
  rows_le (before_advection cfg m u G T_amb t a)
          (before_advection cfg m u G T_amb t' b).
Proof.
  intros Ha Hamb Hab. pose proof (v_nodes _ Hc) as Hn.
  unfold before_advection.
  assert (H1 : rows_le
    (if Qltb 0 u then side_losses cfg m u (node T_amb t) a else a)
    (if Qltb 0 u then side_losses cfg m u (node T_amb t') b else b)).
  { destruct (Qltb 0 u); [| exact Hab]. apply side_losses_le; auto. }
  destruct (Qltb 0 G); [| exact H1].
  apply conduction_le; auto.
  unfold len in *. destruct (Qltb 0 u); [rewrite length_side_losses |]; lia.
Qed.

Lemma before_advection_between (lo hi : Q) (t : Z) (a : list Q) :
  len a = n_nodes cfg ->
  (Qltb 0 u = true -> between lo hi (node T_amb t)) ->
  Forall (between lo hi) a ->
  Forall (between lo hi) (before_advection cfg m u G T_amb t a).
Proof.
  intros Ha Hamb Hab. pose proof (v_nodes _ Hc) as Hn.
  unfold before_advection.
  assert (H1 : Forall (between lo hi)
    (if Qltb 0 u then side_losses cfg m u (node T_amb t) a else a)).
  { destruct (Qltb 0 u); [| exact Hab]. apply side_losses_between; auto. }
  destruct (Qltb 0 G); [| exact H1].
  apply conduction_between; auto.
  unfold len in *. destruct (Qltb 0 u); [rewrite length_side_losses |]; lia.
Qed.

(** A charging step of a stable configuration is monotone: from a warmer
    row, a warmer ambient and a warmer inlet it leads to a warmer row. *)
Lemma next_row_le (t t' : Z) (a b a' b' : list Q) :
  (0 <= t < n_steps cfg)%Z -> (0 <= t' < n_steps cfg)%Z ->
  len a = n_nodes cfg -> len b = n_nodes cfg ->
  0 < node m_flow t -> node m_flow t' = node m_flow t ->
  node Tin_charge t <= node Tin_charge t' ->
  (Qltb 0 u = true -> node T_amb t <= node T_amb t') ->
  next_row cfg m u G Tin_charge m_flow T_amb t a = Ok a' ->
  next_row cfg m u G Tin_charge m_flow T_amb t' b = Ok b' ->
  rows_le a b -> rows_le a' b'.
Proof.
  intros Ht Ht' Ha Hb Hmf Emf Hin Hamb Hrun Hrun' Hab.
  destruct (next_row_advection t a Ht Ha) as [Ea Hla].
  destruct (next_row_advection t' b Ht' Hb) as [Eb Hlb].
  rewrite Ea in Hrun. rewrite Eb, Emf in Hrun'.
  unfold advection in Hrun, Hrun'.
  rewrite (proj2 (Qltb_true 0 (node m_flow t))) in Hrun, Hrun' by exact Hmf.
  apply (charging_le t t' (node m_flow t)
           (before_advection cfg m u G T_amb t a)
           (before_advection cfg m u G T_amb t' b) a' b'); auto.
  now apply before_advection_le.
Qed.

(** A step of a stable configuration keeps the temperatures between any
    two bounds that hold for the row, for the ambient temperature when
    the loss phase runs, and for the inlet temperature when charging. *)
Lemma next_row_between (lo hi : Q) (t : Z) (a a' : list Q) :
  (0 <= t < n_steps cfg)%Z -> len a = n_nodes cfg ->
  (Qltb 0 u = true -> between lo hi (node T_amb t)) ->
  (0 < node m_flow t -> between lo hi (node Tin_charge t)) ->
  next_row cfg m u G Tin_charge m_flow T_amb t a = Ok a' ->
  Forall (between lo hi) a -> Forall (between lo hi) a'.
Proof.
  intros Ht Ha Hamb Hin Hrun Hab.
  destruct (next_row_advection t a Ht Ha) as [Ea Hla]. rewrite Ea in Hrun.
  destruct (advection_between cfg m Hc Hm Tin_charge t (node m_flow t)
              (before_advection cfg m u G T_amb t a) lo hi Hla ltac:(lia))
    as (r & Hr & _ & HP); auto.
  - now apply before_advection_between.
  - congruence.
Qed.

End StableStep.

(** ** The charging front *)

Lemma ua_node_nonneg (c : TankConfig) : validated c -> 0 <= ua_node c.
Proof.
  intros Hc. pose proof (ua_node_guard c Hc) as Hg.
  destruct (Qltb 0 (ua_node c)) eqn:E.
  - apply Qltb_true in E. lra.
  - unfold ua_node. rewrite <- Hg. lra.
Qed.

Lemma G_cond_nonneg (c : TankConfig) : validated c -> 0 <= G_cond c.
Proof.
  intros Hc. pose proof (G_cond_guard c Hc) as Hg.
  destruct (Qltb 0 (G_cond c)) eqn:E.
  - apply Qltb_true in E. lra.
  - unfold G_cond. rewrite <- Hg. lra.
Qed.

(** C7, amended (charging front).  Charging a uniformly cool tank through
    the bottom node with a constant positive mass flow and a constant inlet
    temperature above the initial one, the temperature of the bottom node
    never falls from one row to the next and never exceeds [Tin_charge],
    provided the explicit scheme is stable
    ([ua_node * dt <= mass_node * cp], [2 * G_cond * dt <= mass_node * cp])
    and, when the loss phase runs, the ambient temperature never falls and
    stays between the initial and the inlet temperature.  This is a
    property of the scheme in exact arithmetic: in binary64 the bottom
    node can end one unit in the last place above [Tin_charge]
    ([charging_front_binary64]). *)
Theorem charging_front_monotone
    (cfg : TankConfig) (Tin_charge m_flow T_amb T_init : list Q)
    (T0 Th mf : Q) :
  well_formed cfg Tin_charge m_flow T_amb T_init ->
  charge_inlet cfg = 0%Z ->
  T_init = replicate (Z.to_nat (n_nodes cfg)) T0 ->
  Forall (fun x => x = mf) m_flow -> 0 < mf ->
  Forall (fun x => x = Th) Tin_charge -> T0 < Th ->
  ua_node cfg * dt cfg <= mass_node cfg * cp cfg ->
  2 * G_cond cfg * dt cfg <= mass_node cfg * cp cfg ->
  (0 < ua_loss cfg -> ambient_rising T0 Th T_amb) ->
  exists out,
    simulate_stratified_tank cfg Tin_charge m_flow T_amb T_init = Ok out /\
    (forall t, (0 <= t < n_steps cfg)%Z ->
       node (row_at (T out) t) 0 <= node (row_at (T out) (t + 1)) 0) /\
    (forall t, (0 <= t <= n_steps cfg)%Z -> node (row_at (T out) t) 0 <= Th).
Proof.
  intros Hwf Hinlet Huniform Hflow Hmf Hhot HT0 Hstab_u Hstab_G Hamb.
  destruct (simulate_ok _ _ _ _ _ Hwf) as (out & Hout & Hc & Hrun & _).
  destruct (validate_fields cfg) as (En & Es & _).
  destruct (validate_constants cfg) as (Em & Eu & EG & Edt & Ecp).
  destruct Hrun as [HlT Hrows Hinit Hstep _ _].
  set (c' := fst (validate cfg)) in *.
  pose proof (mass_node_pos _ Hc) as Hm.
  pose proof (ua_node_nonneg _ Hc) as Hu0.
  pose proof (G_cond_nonneg _ Hc) as HG0.
  assert (Hu1 : ua_node c' * dt c' <= mass_node c' * cp c')
    by (rewrite Em, Eu, Edt, Ecp; exact Hstab_u).
  assert (HG1 : 2 * G_cond c' * dt c' <= mass_node c' * cp c')
    by (rewrite Em, EG, Edt, Ecp; exact Hstab_G).
  assert (Hlm : len m_flow = n_steps c') by (rewrite Es; apply Hwf).
  assert (Hla : len T_amb = n_steps c') by (rewrite Es; apply Hwf).
  assert (Hli : len Tin_charge = n_steps c') by (rewrite Es; apply Hwf).
  assert (Hguard : Qltb 0 (ua_node c') = true -> ambient_rising T0 Th T_amb).
  { intros Hg. apply Hamb. apply Qltb_true.
    now rewrite <- (loss_guard cfg) by apply Hwf. }
  assert (Hmft : forall t, (0 <= t < n_steps c')%Z -> node m_flow t = mf)
    by (intros t Ht; apply (Forall_node _ _ _ Hflow); lia).
  assert (Htin : forall t, (0 <= t < n_steps c')%Z -> node Tin_charge t = Th)
    by (intros t Ht; apply (Forall_node _ _ _ Hhot); lia).
  pose (r := fun t => row_at (T out) t).
  (* every row lies between the initial and the inlet temperature *)
  assert (Hbounds : forall k : nat, (Z.of_nat k <= n_steps c')%Z ->
            Forall (between T0 Th) (r (Z.of_nat k))).
  { induction k as [| k IH]; intros Hk.
    - unfold r. change (Z.of_nat 0) with 0%Z. rewrite Hinit, Huniform.
      apply Forall_replicate. split; lra.
    - replace (Z.of_nat (S k)) with (Z.of_nat k + 1)%Z by lia.
      apply (next_row_between c' (mass_node c') (ua_node c') (G_cond c')
               Tin_charge m_flow T_amb Hc Hm Hu0 Hu1 HG0 HG1 Hlm Hla Hli T0 Th
               (Z.of_nat k) (r (Z.of_nat k))).
      + lia.
      + apply Hrows. lia.
      + intros Hg. apply (Hguard Hg). lia.
      + intros _. rewrite Htin by lia. split; lra.
      + apply Hstep. lia.
      + apply IH. lia. }
  (* every row is at least as warm as the row before it *)
  assert (Hrise : forall k : nat, (Z.of_nat k < n_steps c')%Z ->
            rows_le (r (Z.of_nat k)) (r (Z.of_nat k + 1)%Z)).
  { induction k as [| k IH]; intros Hk.
    - change (Z.of_nat 0) with 0%Z. unfold r. split.
      + rewrite !Hrows by lia. reflexivity.
      + intros j Hj. rewrite Hrows in Hj by lia.
        pose proof (Hbounds 1%nat ltac:(lia)) as Hb1. unfold r in Hb1.
        change (Z.of_nat 1) with (0 + 1)%Z in Hb1.
        apply (Forall_node _ _ j) in Hb1; [| rewrite Hrows; lia].
        rewrite Hinit, Huniform. unfold node at 1.
        rewrite lookup_total_replicate_2 by (rewrite <- En; lia).
        apply Hb1.
    - replace (Z.of_nat (S k)) with (Z.of_nat k + 1)%Z by lia.
      apply (next_row_le c' (mass_node c') (ua_node c') (G_cond c')
               Tin_charge m_flow T_amb Hc Hm Hu0 Hu1 HG0 HG1 Hlm Hla Hli
               (Z.of_nat k) (Z.of_nat k + 1)
               (r (Z.of_nat k)) (r (Z.of_nat k + 1)%Z)).
      + lia.
      + lia.
      + apply Hrows. lia.
      + apply Hrows. lia.
      + rewrite Hmft by lia. exact Hmf.
      + rewrite !Hmft by lia. reflexivity.
      + rewrite !Htin by lia. lra.
      + intros Hg. apply (Hguard Hg); lia.
      + apply Hstep. lia.
      + apply Hstep. lia.
      + apply IH. lia. }
  exists out. split; [exact Hout |]. rewrite Es in *. split.
  - intros t Ht. rewrite <- (Z2Nat.id t) by lia.
    apply (Hrise (Z.to_nat t) ltac:(lia)).
    unfold r. rewrite Hrows by lia. pose proof (v_nodes _ Hc). lia.
  - intros t Ht. rewrite <- (Z2Nat.id t) by lia.
    apply (Forall_node _ _ 0 (Hbounds (Z.to_nat t) ltac:(lia))).
    unfold r. rewrite Hrows by lia. pose proof (v_nodes _ Hc). lia.
Qed.

(** C7, as stated, fails.  The vessel is charged from a uniform 293 K with
    a constant flow of 1/60 kg/s at 333 K; the ambient temperature falls
    from 293 K to 253 K after the first step.  The bottom node reaches
    313 K after the first step and is cooler after the second. *)
Lemma charging_front_counterexample :
  exists out,
    simulate_stratified_tank vessel_cfg
      [333; 333] [1 # 60; 1 # 60] [293; 253] [293; 293] = Ok out /\
    node (row_at (T out) 1) 0 == 313 /\
    node (row_at (T out) 2) 0 < node (row_at (T out) 1) 0.
Proof.
  eexists. split; [vm_compute; reflexivity |].
  split; vm_compute; reflexivity.
Qed.

(** The stability conditions of the amended statement cannot be dropped
    either.  With the ambient temperature held at the initial 293 K, an
    unstable loss phase cools the bottom node between the first and the
    second step, and so does an unstable conduction phase without any
    loss. *)
Lemma unstable_loss_cools_bottom :
  exists out,
    simulate_stratified_tank lossy_cfg
      [333; 333] [1 # 120; 1 # 120] [293; 293] [293; 293] = Ok out /\
    ~ ua_node lossy_cfg * dt lossy_cfg <= mass_node lossy_cfg * cp lossy_cfg /\
    node (row_at (T out) 2) 0 < node (row_at (T out) 1) 0.
Proof.
  eexists. split; [vm_compute; reflexivity |].
  split; [intros H; vm_compute in H; now apply H | vm_compute; reflexivity].
Qed.

Lemma unstable_conduction_cools_bottom :
  exists out,
    simulate_stratified_tank conductive_cfg
      [333; 333] [1 # 120; 1 # 120] [293; 293] [293; 293] = Ok out /\
    ~ 2 * G_cond conductive_cfg * dt conductive_cfg
        <= mass_node conductive_cfg * cp conductive_cfg /\
    node (row_at (T out) 2) 0 < node (row_at (T out) 1) 0.
Proof.
  eexists. split; [vm_compute; reflexivity |].
  split; [intros H; vm_compute in H; now apply H | vm_compute; reflexivity].
Qed.

(** ** The theorems at concrete inputs *)

Ltac decide_cmp :=
  vm_compute;
  first [reflexivity | discriminate
        | (let H := fresh in intro H; discriminate H)
        | (split; decide_cmp)].

Ltac well_formed_compute := constructor; vm_compute; reflexivity.

Lemma charging_recurrence_witness :
  exists Tn',
    advection plain_cfg (mass_node plain_cfg) [60; 60] 0 1 [20; 40] = Ok Tn' /\
    len Tn' = len [20; 40] /\
    (forall j, (0 <= j < 0)%Z -> node Tn' j = node [20; 40] j) /\
    node Tn' 0 =
      (1 - (1 * dt plain_cfg) / (mass_node plain_cfg + 1 * dt plain_cfg)) * 20
      + (1 * dt plain_cfg) / (mass_node plain_cfg + 1 * dt plain_cfg) * 60 /\
    (forall j, (0 < j < 2)%Z ->
       node Tn' j =
         (1 - py_min 1 ((1 * dt plain_cfg) / mass_node plain_cfg)) * node [20; 40] j
         + py_min 1 ((1 * dt plain_cfg) / mass_node plain_cfg) * node Tn' (j - 1)) /\
    (0%Z = (2 - 1)%Z ->
       Tn' = <[Z.to_nat 0 :=
                 (1 - (1 * dt plain_cfg) / (mass_node plain_cfg + 1 * dt plain_cfg)) * 20
                 + (1 * dt plain_cfg) / (mass_node plain_cfg + 1 * dt plain_cfg) * 60]>
               [20; 40]).
Proof.
  apply (charging_recurrence plain_cfg [60; 60] 0 1 [20; 40]).
  - constructor; decide_cmp.
  - reflexivity.
  - decide_cmp.
  - reflexivity.
Defined.

Lemma conduction_conserves_energy_witness :
  exists out,
    simulate_stratified_tank conducting_cfg [60; 60] [0; 0] [20; 20] [30; 50] = Ok out /\
    forall t, (0 <= t < 2)%Z ->
      energy conducting_cfg (row_at (T out) (t + 1))
      == energy conducting_cfg (row_at (T out) t).
Proof.
  apply (conduction_conserves_energy conducting_cfg [60; 60] [0; 0] [20; 20] [30; 50]).
  - well_formed_compute.
  - reflexivity.
  - reflexivity.
  - Forall_compute.
Defined.

Lemma idle_invariance_witness :
  exists out,
    simulate_stratified_tank plain_cfg [60; 60] [0; 0] [20; 20] [30; 50] = Ok out /\
    len (T out) = (2 + 1)%Z /\
    forall t, (0 <= t <= 2)%Z -> row_at (T out) t = [30; 50].
Proof.
  apply (idle_invariance plain_cfg [60; 60] [0; 0] [20; 20] [30; 50]).
  - well_formed_compute.
  - reflexivity.
  - reflexivity.
  - Forall_compute.
Defined.

Lemma loss_series_recorded_witness :
  exists out,
    simulate_stratified_tank vessel_cfg
      [333; 333] [1 # 60; 1 # 60] [293; 253] [293; 293] = Ok out /\
    len (T out) = (2 + 1)%Z /\
    getitem (T out) 0 = Ok [293; 293] /\
    len (Q_loss out) = 2%Z /\
    forall t, (0 <= t < 2)%Z ->
      exists row row' Tamb q,
        getitem (T out) t = Ok row /\ len row = 2%Z /\
        getitem (T out) (t + 1) = Ok row' /\ len row' = 2%Z /\
        next_row (fst (validate vessel_cfg)) (mass_node vessel_cfg)
          (ua_node vessel_cfg) (G_cond vessel_cfg)
          [333; 333] [1 # 60; 1 # 60] [293; 253] t row = Ok row' /\
        getitem [293; 253] t = Ok Tamb /\
        getitem (Q_loss out) t = Ok q /\
        (0 < ua_loss vessel_cfg ->
         q = np_sum ((fun x => ua_node vessel_cfg * (x - Tamb)) <$> row)) /\
        (ua_loss vessel_cfg == 0 ->
         Qltb 0 (ua_node vessel_cfg) = false /\ q = 0).
Proof.
  apply (loss_series_recorded vessel_cfg
           [333; 333] [1 # 60; 1 # 60] [293; 253] [293; 293]).
  well_formed_compute.
Defined.

Lemma charging_front_monotone_witness :
  exists out,
    simulate_stratified_tank vessel_cfg
      [333; 333] [1 # 60; 1 # 60] [293; 293] [293; 293] = Ok out /\
    (forall t, (0 <= t < 2)%Z ->
       node (row_at (T out) t) 0 <= node (row_at (T out) (t + 1)) 0) /\
    (forall t, (0 <= t <= 2)%Z -> node (row_at (T out) t) 0 <= 333).
Proof.
  apply (charging_front_monotone vessel_cfg
           [333; 333] [1 # 60; 1 # 60] [293; 293] [293; 293] 293 333 (1 # 60)).
  - well_formed_compute.
  - reflexivity.
  - reflexivity.
  - Forall_compute.
  - reflexivity.
  - Forall_compute.
  - reflexivity.
  - decide_cmp.
  - decide_cmp.
  - intros _. split.
    + intros t Ht.
      assert (Hcases : t = 0%Z \/ t = 1%Z)
        by (change (len [293; 293]) with 2%Z in Ht; lia).
      destruct Hcases as [-> | ->]; decide_cmp.
    + intros t Ht0 Ht1.
      assert (Hcase : t = 0%Z)
        by (change (len [293; 293]) with 2%Z in Ht1; lia).
      rewrite Hcase. decide_cmp.
Defined.

Lemma negative_coefficients_ignored_witness :
  snd (validate negative_cfg) = Ok tt /\
  (ua_loss negative_cfg < 0 ->
   ua_node negative_cfg = 0 /\ Qltb 0 (ua_node negative_cfg) = false) /\
  (k_cond negative_cfg < 0 ->
   G_cond negative_cfg = 0 /\ Qltb 0 (G_cond negative_cfg) = false) /\
  simulate_stratified_tank negative_cfg [60; 60] [1; -1] [20; 20] [30; 50] =
    simulate_stratified_tank (zeroed negative_cfg) [60; 60] [1; -1] [20; 20] [30; 50] /\
  (ua_loss negative_cfg < 0 ->
   forall out,
     simulate_stratified_tank negative_cfg [60; 60] [1; -1] [20; 20] [30; 50] = Ok out ->
     Forall (fun q => q = 0) (Q_loss out)).
Proof.
  apply (negative_coefficients_ignored negative_cfg [60; 60] [1; -1] [20; 20] [30; 50]).
  - unfold invalid.
    intros [H | [H | [H | [H | [H | [H | [H | [H | H]]]]]]]];
      try (vm_compute in H; discriminate H);
      try (vm_compute in H; apply H; reflexivity);
      apply H; decide_cmp.
  - left. reflexivity.
Defined.

Lemma step_within_hull_witness :
  exists out,
    simulate_stratified_tank plain_cfg [60; 60] [1; -1] [20; 20] [30; 50] = Ok out /\
    forall t i, (0 <= t < 2)%Z -> (0 <= i < 2)%Z ->
      let row := row_at (T out) t in
      let x := node (row_at (T out) (t + 1)) i in
      (0 < node [1; -1] t ->
       Qmin (row_min row) (node [60; 60] t) <= x
         <= Qmax (row_max row) (node [60; 60] t)) /\
      (node [1; -1] t <= 0 -> row_min row <= x <= row_max row).
Proof.
  apply (step_within_hull plain_cfg [60; 60] [1; -1] [20; 20] [30; 50]).
  - well_formed_compute.
  - reflexivity.
  - reflexivity.
Defined.

(** * Further properties of the code *)

(** ** Runs as sequences of rows *)

Lemma validate_idempotent (c : TankConfig) :
  validate (fst (validate c)) = validate c.
Proof.
  destruct (validate_cases c) as [[_ [msg Hm]] | [_ Hok]].
  - now rewrite Hm.
  - rewrite Hok. cbn [fst].
    destruct (validate_Ok_validated _ _ Hok) as (Hv & _ & _).
    apply validated_valid, Hv.
Qed.

(** Two arrays of one length with the same rows are the same array. *)
Lemma rows_ext (T T' : list (list Q)) :
  len T = len T' ->
  (forall t, (0 <= t < len T)%Z -> row_at T t = row_at T' t) ->
  T = T'.
Proof.
  intros Hlen Hrows. apply list_eq_same_length with (length T);
    [unfold len in Hlen; lia | reflexivity |].
  intros i x y Hi Hx Hy.
  specialize (Hrows (Z.of_nat i) ltac:(unfold len; lia)).
  unfold row_at in Hrows. rewrite Nat2Z.id in Hrows.
  rewrite (list_lookup_total_correct _ _ _ Hx) in Hrows.
  now rewrite (list_lookup_total_correct _ _ _ Hy) in Hrows.
Qed.

Lemma nodes_ext (l l' : list Q) :
  len l = len l' ->
  (forall t, (0 <= t < len l)%Z -> node l t = node l' t) ->
  l = l'.
Proof.
  intros Hlen Hnodes. apply list_eq_same_length with (length l);
    [unfold len in Hlen; lia | reflexivity |].
  intros i x y Hi Hx Hy.
  specialize (Hnodes (Z.of_nat i) ltac:(unfold len; lia)).
  unfold node in Hnodes. rewrite Nat2Z.id in Hnodes.
  rewrite (list_lookup_total_correct _ _ _ Hx) in Hnodes.
  now rewrite (list_lookup_total_correct _ _ _ Hy) in Hnodes.
Qed.

(** Two sequences of rows that start from the same row and follow the
    same steps are the same. *)
Lemma rows_follow (step step' : Z -> list Q -> result (list Q))
    (r r' : Z -> list Q) (N : Z) :
  r 0%Z = r' 0%Z ->
  (forall t, (0 <= t < N)%Z -> step t (r t) = Ok (r (t + 1)%Z)) ->
  (forall t, (0 <= t < N)%Z -> step' t (r' t) = Ok (r' (t + 1)%Z)) ->
  (forall t row, (0 <= t < N)%Z -> step t row = step' t row) ->
  forall t, (0 <= t <= N)%Z -> r t = r' t.
Proof.
  intros H0 Hr Hr' Hstep.
  assert (Hall : forall k : nat, (Z.of_nat k <= N)%Z ->
                   r (Z.of_nat k) = r' (Z.of_nat k)).
  { induction k as [| k IH]; intros Hk; [exact H0 |].
    specialize (IH ltac:(lia)).
    replace (Z.of_nat (S k)) with (Z.of_nat k + 1)%Z by lia.
    pose proof (Hr (Z.of_nat k) ltac:(lia)) as H1.
    pose proof (Hr' (Z.of_nat k) ltac:(lia)) as H2.
    rewrite Hstep, IH, H2 in H1 by lia. now injection H1. }
  intros t Ht. rewrite <- (Z2Nat.id t) by lia. apply Hall. lia.
Qed.

(** A property of the initial profile that every step keeps holds for
    every row of the run. *)
Lemma run_rows_invariant (cfg : TankConfig)
    (Tin_charge m_flow T_amb T_init : list Q)
    (T : list (list Q)) (QL : list Q) (P : list Q -> Prop) :
  run_of cfg Tin_charge m_flow T_amb T_init T QL ->
  P T_init ->
  (forall t a a', (0 <= t < n_steps cfg)%Z -> len a = n_nodes cfg ->
     next_row cfg (mass_node cfg) (ua_node cfg) (G_cond cfg)
       Tin_charge m_flow T_amb t a = Ok a' -> P a -> P a') ->
  forall t, (0 <= t <= n_steps cfg)%Z -> P (row_at T t).
Proof.
  intros [HlT Hrows Hinit Hstep _ _] H0 Hkeep.
  assert (Hall : forall k : nat, (Z.of_nat k <= n_steps cfg)%Z ->
                   P (row_at T (Z.of_nat k))).
  { induction k as [| k IH]; intros Hk.
    - change (Z.of_nat 0) with 0%Z. now rewrite Hinit.
    - replace (Z.of_nat (S k)) with (Z.of_nat k + 1)%Z by lia.
      apply (Hkeep (Z.of_nat k) (row_at T (Z.of_nat k))).
      + lia.
      + apply Hrows. lia.
      + apply Hstep. lia.
      + apply IH. lia. }
  intros t Ht. rewrite <- (Z2Nat.id t) by lia. apply Hall. lia.
Qed.

Lemma row_at_elem (T : list (list Q)) (row : list Q) :
  row ∈ T -> exists t, (0 <= t < len T)%Z /\ row_at T t = row.
Proof.
  intros Hrow. apply list_elem_of_lookup in Hrow as [i Hi].
  pose proof (lookup_lt_Some _ _ _ Hi) as Hlt.
  exists (Z.of_nat i). split; [unfold len; lia |].
  unfold row_at. rewrite Nat2Z.id. now apply list_lookup_total_correct.
Qed.

Lemma node_fmap_row (f : list Q -> Q) (T : list (list Q)) (t : Z) :
  (0 <= t < len T)%Z -> node (f <$> T) t = f (row_at T t).
Proof.
  intros Ht. unfold node, row_at.
  apply list_lookup_total_fmap. unfold len in Ht. lia.
Qed.

Lemma len_fmap {A B} (f : A -> B) (l : list A) : len (f <$> l) = len l.
Proof. unfold len. now rewrite length_fmap. Qed.

(** The steps of a run read the series at the index of the step only. *)
Lemma next_row_series (cfg : TankConfig) (m u G : Q)
    (Tin_charge m_flow T_amb Tin_charge' m_flow' T_amb' : list Q)
    (t t' : Z) (row : list Q) :
  getitem Tin_charge t = getitem Tin_charge' t' ->
  getitem m_flow t = getitem m_flow' t' ->
  getitem T_amb t = getitem T_amb' t' ->
  next_row cfg m u G Tin_charge m_flow T_amb t row =
  next_row cfg m u G Tin_charge' m_flow' T_amb' t' row.
Proof.
  intros E1 E2 E3. unfold next_row, advection, charging.
  now rewrite E1, E2, E3.
Qed.

(** ** What a run returns *)

(** X1.  The shapes of the arrays a call returns (docstring of
    [simulate_stratified_tank]): [T] has [n_steps + 1] rows of [n_nodes]
    temperatures, the first of which is the initial profile; [T_top] and
    [T_bot] are its last and its first column; [Q_loss] has [n_steps]
    entries.  Stated for the calls that return: the shapes do not depend
    on the arithmetic. *)
Theorem simulate_output_shapes
    (cfg : TankConfig) (Tin_charge m_flow T_amb T_init : list Q) (out : output) :
  simulate_stratified_tank cfg Tin_charge m_flow T_amb T_init = Ok out ->
  len (T out) = (n_steps cfg + 1)%Z /\
  Forall (fun row => len row = n_nodes cfg) (T out) /\
  getitem (T out) 0 = Ok T_init /\
  len (T_top out) = (n_steps cfg + 1)%Z /\
  len (T_bot out) = (n_steps cfg + 1)%Z /\
  len (Q_loss out) = n_steps cfg /\
  forall t, (0 <= t <= n_steps cfg)%Z ->
    getitem (T_top out) t = getitem (row_at (T out) t) (-1) /\
    getitem (T_bot out) t = getitem (row_at (T out) t) 0.
Proof.
  intros Hret.
  pose proof (simulate_Ok_well_formed _ _ _ _ _ _ Hret) as Hwf.
  destruct (simulate_ok _ _ _ _ _ Hwf) as (out' & Hout & Hc & Hrun & Htop & Hbot).
  assert (out' = out) as -> by congruence.
  destruct (validate_fields cfg) as (En & Es & _).
  destruct Hrun as [HlT Hrows Hinit _ HlQ _]. rewrite Es, En in *.
  pose proof (v_nodes _ Hc) as Hn. pose proof (v_steps _ Hc) as Hs.
  rewrite En in Hn. rewrite Es in Hs.
  split; [exact HlT |].
  split.
  { apply Forall_forall. intros row Hrow.
    destruct (row_at_elem _ _ Hrow) as (t & Ht & <-). apply Hrows. lia. }
  split.
  { rewrite getitem_ok by lia. f_equal. exact Hinit. }
  split; [rewrite Htop; unfold column_top; now rewrite len_fmap |].
  split; [rewrite Hbot; unfold column_bot; now rewrite len_fmap |].
  split; [exact HlQ |].
  intros t Ht. specialize (Hrows t Ht). split.
  - rewrite getitem_node by (rewrite Htop; unfold column_top; rewrite len_fmap; lia).
    rewrite getitem_neg_ok by lia.
    rewrite Htop. unfold column_top. rewrite node_fmap_row by lia.
    unfold node. do 2 f_equal. lia.
  - rewrite getitem_node by (rewrite Hbot; unfold column_bot; rewrite len_fmap; lia).
    rewrite getitem_node by lia.
    rewrite Hbot. unfold column_bot. now rewrite node_fmap_row by lia.
Qed.

(** In the model with exact arithmetic, where a validated configuration
    has a positive node mass and no division can fail, the only errors of
    a call are the configuration error of [validate] and the length
    errors of the four input checks: no indexing in the time loop is out
    of bounds, and no row assignment has the wrong shape.  (For the same
    loop over binary64 see [b64_time_step_safe] below.) *)
Theorem simulate_raises_only_input_errors
    (cfg : TankConfig) (Tin_charge m_flow T_amb T_init : list Q) (e : error) :
  simulate_stratified_tank cfg Tin_charge m_flow T_amb T_init = Err e ->
  (exists msg, e = InvalidConfiguration msg) \/
  (exists name expected got, e = DimensionMismatch name expected got).
Proof.
  intros Hsim.
  pose proof (simulate_rejected cfg Tin_charge m_flow T_amb T_init) as Hrej.
  destruct (rejected _ _ _ _ _) as [e' |] eqn:Hr.
  - rewrite Hrej in Hsim. injection Hsim as ->. revert Hr. unfold rejected.
    destruct (validate_cases cfg) as [[_ [msg ->]] | [_ ->]]; cbn [snd].
    + intros [= <-]. left. eauto.
    + repeat match goal with
             | |- context [if ?b then _ else _] => destruct b
             end; intros [= <-]; right; eauto.
  - destruct (simulate_ok _ _ _ _ _ Hrej) as (out & Hout & _). congruence.
Qed.

(** X3.  [validate] has replaced the sentinel outlet in the caller's
    configuration; a later call with that configuration (as in [main])
    behaves exactly as one with the original. *)
Theorem simulate_validated_config
    (cfg : TankConfig) (Tin_charge m_flow T_amb T_init : list Q) :
  simulate_stratified_tank (fst (validate cfg)) Tin_charge m_flow T_amb T_init =
  simulate_stratified_tank cfg Tin_charge m_flow T_amb T_init.
Proof.
  unfold simulate_stratified_tank at 1.
  rewrite validate_idempotent.
  reflexivity.
Qed.

(** ** Inputs a run does not read *)

Lemma bind_ext {A B} (f g : A -> result B) (r : result A) :
  (forall a, f a = g a) -> (r ≫= f) = (r ≫= g).
Proof. intros Hfg. destruct r as [a | e]; [apply Hfg | reflexivity]. Qed.

Lemma output_ext (out out' : output) :
  T out = T out' -> T_top out = T_top out' -> T_bot out = T_bot out' ->
  Q_loss out = Q_loss out' -> out = out'.
Proof. destruct out, out'. cbn. now intros -> -> -> ->. Qed.

(** Two calls whose series have the same lengths and lead to the same
    steps and the same recorded losses return the same, or raise the
    same. *)
Lemma simulate_agree (cfg : TankConfig)
    (Tin_charge m_flow T_amb Tin_charge' m_flow' T_amb' T_init : list Q) :
  len Tin_charge' = len Tin_charge -> len m_flow' = len m_flow ->
  len T_amb' = len T_amb ->
  (well_formed cfg Tin_charge m_flow T_amb T_init ->
   forall t row, (0 <= t < n_steps cfg)%Z ->
     next_row (fst (validate cfg)) (mass_node cfg) (ua_node cfg) (G_cond cfg)
       Tin_charge' m_flow' T_amb' t row =
     next_row (fst (validate cfg)) (mass_node cfg) (ua_node cfg) (G_cond cfg)
       Tin_charge m_flow T_amb t row /\
     recorded_loss (ua_node cfg) T_amb' t row =
     recorded_loss (ua_node cfg) T_amb t row) ->
  simulate_stratified_tank cfg Tin_charge' m_flow' T_amb' T_init =
  simulate_stratified_tank cfg Tin_charge m_flow T_amb T_init.
Proof.
  intros E1 E2 E3 Hsame.
  pose proof (simulate_rejected cfg Tin_charge m_flow T_amb T_init) as Hrej.
  pose proof (simulate_rejected cfg Tin_charge' m_flow' T_amb' T_init) as Hrej'.
  rewrite E1, E2, E3 in Hrej'.
  destruct (rejected _ _ _ _ _) as [e |]; [congruence |].
  specialize (Hsame Hrej).
  destruct (simulate_ok _ _ _ _ _ Hrej) as (out & Hout & Hc & Hrun & Htop & Hbot).
  destruct (simulate_ok _ _ _ _ _ Hrej') as (out' & Hout' & _ & Hrun' & Htop' & Hbot').
  destruct (validate_fields cfg) as (En & Es & _).
  destruct (validate_constants cfg) as (Em & Eu & EG & _).
  rewrite Hout, Hout'. f_equal.
  destruct Hrun as [HlT Hrows Hinit Hstep HlQ Hloss].
  destruct Hrun' as [HlT' Hrows' Hinit' Hstep' HlQ' Hloss'].
  rewrite Es, ?En, ?Em, ?Eu, ?EG in *.
  assert (ET : T out' = T out).
  { apply rows_ext; [now rewrite HlT, HlT' |]. intros t Ht.
    apply (rows_follow
             (next_row (fst (validate cfg)) (mass_node cfg) (ua_node cfg)
                (G_cond cfg) Tin_charge' m_flow' T_amb')
             (next_row (fst (validate cfg)) (mass_node cfg) (ua_node cfg)
                (G_cond cfg) Tin_charge m_flow T_amb)
             (row_at (T out')) (row_at (T out)) (n_steps cfg));
      [now rewrite Hinit, Hinit' | exact Hstep' | exact Hstep | | lia].
    intros k row Hk. now apply Hsame. }
  apply output_ext; [exact ET | now rewrite Htop, Htop', ET
                     | now rewrite Hbot, Hbot', ET |].
  apply nodes_ext; [now rewrite HlQ, HlQ' |]. intros t Ht.
  rewrite HlQ' in Ht. rewrite Hloss', Hloss, ET by lia. now apply Hsame.
Qed.

Lemma advection_not_charging (cfg : TankConfig) (m : Q)
    (Tin_charge Tin_charge' : list Q) (t : Z) (mf : Q) (Tn : list Q) :
  mf <= 0 ->
  advection cfg m Tin_charge' t mf Tn = advection cfg m Tin_charge t mf Tn.
Proof.
  intros Hmf. unfold advection.
  now rewrite (proj2 (Qltb_false 0 mf)) by exact Hmf.
Qed.

(** X4.  The inlet temperature is read at charging steps only (``not used when
    m_flow<0; still required''): when no step charges the tank, any other
    series of the same length gives the same run. *)
Theorem inlet_temperature_unused
    (cfg : TankConfig) (Tin_charge Tin_charge' m_flow T_amb T_init : list Q) :
  len Tin_charge' = len Tin_charge ->
  Forall (fun mf => mf <= 0) m_flow ->
  simulate_stratified_tank cfg Tin_charge' m_flow T_amb T_init =
  simulate_stratified_tank cfg Tin_charge m_flow T_amb T_init.
Proof.
  intros Hlen Hflow. apply simulate_agree; try reflexivity; [exact Hlen |].
  intros Hwf t row Ht. split; [| reflexivity].
  unfold next_row. apply bind_ext. intros Tn1. apply bind_ext. intros Tn2.
  rewrite (getitem_node m_flow t), !bind_Ok by (destruct Hwf; lia).
  apply advection_not_charging.
  apply (Forall_node _ _ _ Hflow). destruct Hwf; lia.
Qed.

(** X5.  The ambient temperature is read by the loss phase only: with
    [ua_loss <= 0] any other series of the same length gives the same
    run. *)
Theorem ambient_temperature_unused
    (cfg : TankConfig) (Tin_charge m_flow T_amb T_amb' T_init : list Q) :
  len T_amb' = len T_amb ->
  ua_loss cfg <= 0 ->
  simulate_stratified_tank cfg Tin_charge m_flow T_amb' T_init =
  simulate_stratified_tank cfg Tin_charge m_flow T_amb T_init.
Proof.
  intros Hlen Hua. apply simulate_agree; try reflexivity; [exact Hlen |].
  intros Hwf t row Ht.
  assert (Hoff : Qltb 0 (ua_node cfg) = false).
  { unfold ua_node. rewrite (proj2 (Qltb_false 0 (ua_loss cfg))) by exact Hua.
    reflexivity. }
  unfold next_row, recorded_loss. rewrite Hoff. split; reflexivity.
Qed.

(** ** The run of a validated configuration *)

(** What the proofs below start from: the run of well-formed inputs, with
    the constants of the validated configuration. *)
Lemma simulate_run (cfg : TankConfig) (Tin_charge m_flow T_amb T_init : list Q) :
  well_formed cfg Tin_charge m_flow T_amb T_init ->
  exists out c,
    simulate_stratified_tank cfg Tin_charge m_flow T_amb T_init = Ok out /\
    c = fst (validate cfg) /\ validated c /\
    run_of c Tin_charge m_flow T_amb T_init (T out) (Q_loss out) /\
    T_top out = column_top cfg (T out) /\ T_bot out = column_bot (T out) /\
    (n_nodes c = n_nodes cfg /\ n_steps c = n_steps cfg) /\
    (mass_node c = mass_node cfg /\ ua_node c = ua_node cfg /\
     G_cond c = G_cond cfg /\ dt c = dt cfg /\ cp c = cp cfg) /\
    (len m_flow = n_steps c /\ len T_amb = n_steps c /\
     len Tin_charge = n_steps c) /\
    Qltb 0 (ua_node c) = Qltb 0 (ua_loss cfg) /\
    Qltb 0 (G_cond c) = Qltb 0 (k_cond cfg).
Proof.
  intros Hwf.
  destruct (simulate_ok _ _ _ _ _ Hwf) as (out & Hout & Hc & Hrun & Htop & Hbot).
  destruct (validate_fields cfg) as (En & Es & _).
  exists out, (fst (validate cfg)).
  split; [exact Hout |]. split; [reflexivity |]. split; [exact Hc |].
  split; [exact Hrun |]. split; [exact Htop |]. split; [exact Hbot |].
  split; [now split |]. split; [apply validate_constants |].
  split; [rewrite Es; split; [| split]; apply Hwf |].
  split; [apply loss_guard | apply conduction_guard]; apply Hwf.
Qed.

(** ** The energy balance of the loss phase *)

Lemma np_sum_fmap_scale (f g : Q -> Q) (k : Q) (l : list Q) :
  (forall x, f x == k * g x) ->
  np_sum (f <$> l) == k * np_sum (g <$> l).
Proof.
  intros Hfg. induction l as [| x l IH].
  - rewrite !fmap_nil, np_sum_nil. ring.
  - rewrite !fmap_cons, !np_sum_cons, IH, Hfg. ring.
Qed.

Lemma np_sum_affine (u A : Q) (l : list Q) :
  np_sum ((fun x => u * (x - A)) <$> l) == u * (np_sum l - inject_Z (len l) * A).
Proof.
  unfold len. induction l as [| x l IH].
  - rewrite fmap_nil, np_sum_nil. cbn. ring.
  - rewrite fmap_cons, !np_sum_cons, IH. cbn [length].
    rewrite Nat2Z.inj_succ, <- Z.add_1_r, inject_Z_plus. ring.
Qed.

(** The loss phase takes from the row the heat the recorded loss power
    carries away during one step. *)
Lemma side_losses_sum (cfg : TankConfig) (m u A : Q) (l : list Q) :
  0 < m -> 0 < cp cfg ->
  m * cp cfg * np_sum (side_losses cfg m u A l)
  == m * cp cfg * np_sum l - loss_power u A l * dt cfg.
Proof.
  intros Hm Hcp. unfold side_losses, loss_power.
  rewrite np_sum_zip_minus by now rewrite length_fmap.
  rewrite (np_sum_fmap_scale _ (fun x => u * (x - A)) (dt cfg / (m * cp cfg)))
    by (intros x; unfold Qdiv; ring).
  field. split; lra.
Qed.

Lemma before_advection_sum (cfg : TankConfig) (m u G : Q) (T_amb : list Q)
    (t : Z) (row : list Q) :
  0 < m -> 0 < cp cfg -> (2 <= len row)%Z ->
  m * cp cfg * np_sum (before_advection cfg m u G T_amb t row)
  == m * cp cfg * np_sum row - recorded_loss u T_amb t row * dt cfg.
Proof.
  intros Hm Hcp Hrow. unfold before_advection, recorded_loss.
  set (Tn := if Qltb 0 u then _ else _).
  assert (Hlen : (2 <= length Tn)%nat).
  { unfold Tn, len in *. destruct (Qltb 0 u);
      [rewrite length_side_losses |]; lia. }
  assert (E : np_sum (if Qltb 0 G then zip_with Qplus Tn (dT_cond cfg m G Tn)
                      else Tn) == np_sum Tn).
  { destruct (Qltb 0 G); [now apply axial_conduction_sum | reflexivity]. }
  rewrite E. unfold Tn. destruct (Qltb 0 u).
  - now apply side_losses_sum.
  - ring.
Qed.

(** X6.  The energy balance of a step without flow: the heat content
    [mass_node * cp * sum of T] falls by the recorded loss power times the
    step; conduction only moves heat between the nodes. *)
Theorem idle_step_energy_balance
    (cfg : TankConfig) (Tin_charge m_flow T_amb T_init : list Q) :
  well_formed cfg Tin_charge m_flow T_amb T_init ->
  exists out,
    simulate_stratified_tank cfg Tin_charge m_flow T_amb T_init = Ok out /\
    forall t, (0 <= t < n_steps cfg)%Z -> node m_flow t == 0 ->
      cp cfg * energy cfg (row_at (T out) (t + 1))
      == cp cfg * energy cfg (row_at (T out) t) - node (Q_loss out) t * dt cfg.
Proof.
  intros Hwf.
  destruct (simulate_run _ _ _ _ _ Hwf)
    as (out & c & Hout & Ec & Hc & Hrun & Htop & Hbot & [En Es]
        & (Em & Eu & EG & Edt & Ecp) & (Hlm & Hla & Hli) & Hgu & HgG).
  exists out. split; [exact Hout |]. intros t Ht Hidle. rewrite <- Es in Ht.
  pose proof (mass_node_pos _ Hc) as Hm. pose proof (v_cp _ Hc) as Hcp.
  pose proof (v_nodes _ Hc) as Hn.
  pose proof (run_rows _ _ _ _ _ _ _ Hrun t ltac:(lia)) as Hrow.
  pose proof (run_step _ _ _ _ _ _ _ Hrun t Ht) as Hstep.
  pose proof (run_loss _ _ _ _ _ _ _ Hrun t Ht) as Hloss.
  destruct (next_row_advection c (mass_node c) (ua_node c) (G_cond c)
              Tin_charge m_flow T_amb Hc Hlm Hla t (row_at (T out) t) Ht Hrow)
    as [Eadv _].
  rewrite Eadv, advection_idle in Hstep by exact Hidle.
  injection Hstep as Hstep. rewrite <- Hstep, Hloss. unfold energy.
  rewrite !np_sum_scale_l, <- Em, <- Edt, <- Ecp.
  pose proof (before_advection_sum c (mass_node c) (ua_node c) (G_cond c)
                T_amb t (row_at (T out) t) Hm Hcp ltac:(lia)) as E.
  lra.
Qed.

(** X7.  The recorded loss power is the overall loss coefficient times the
    difference between the mean temperature of the tank and the ambient
    temperature. *)
Theorem loss_power_of_mean
    (cfg : TankConfig) (Tin_charge m_flow T_amb T_init : list Q) :
  well_formed cfg Tin_charge m_flow T_amb T_init ->
  0 < ua_loss cfg ->
  exists out,
    simulate_stratified_tank cfg Tin_charge m_flow T_amb T_init = Ok out /\
    forall t, (0 <= t < n_steps cfg)%Z ->
      node (Q_loss out) t
      == ua_loss cfg * (np_sum (row_at (T out) t) / inject_Z (n_nodes cfg)
                        - node T_amb t).
Proof.
  intros Hwf Hua.
  destruct (simulate_run _ _ _ _ _ Hwf)
    as (out & c & Hout & Ec & Hc & Hrun & Htop & Hbot & [En Es]
        & (Em & Eu & EG & Edt & Ecp) & (Hlm & Hla & Hli) & Hgu & HgG).
  exists out. split; [exact Hout |]. intros t Ht. rewrite <- Es in Ht.
  pose proof (run_rows _ _ _ _ _ _ _ Hrun t ltac:(lia)) as Hrow.
  rewrite (run_loss _ _ _ _ _ _ _ Hrun t Ht). unfold recorded_loss.
  rewrite Hgu, (proj2 (Qltb_true 0 (ua_loss cfg))) by exact Hua.
  unfold loss_power. rewrite np_sum_affine, Hrow, En, Eu.
  unfold ua_node. rewrite (proj2 (Qltb_true 0 (ua_loss cfg))) by exact Hua.
  pose proof (n_nodes_pos _ Hc) as Hn. rewrite En in Hn.
  field. lra.
Qed.

(** ** Two runs side by side *)

Lemma Forall2_total {A} `{!Inhabited A} (P : A -> A -> Prop) (l k : list A) :
  length l = length k ->
  (forall i, (i < length l)%nat -> P (l !!! i) (k !!! i)) ->
  Forall2 P l k.
Proof.
  intros Hlen HP. apply Forall2_same_length_lookup_2; [exact Hlen |].
  intros i x y Hx Hy. pose proof (lookup_lt_Some _ _ _ Hx) as Hi.
  specialize (HP i Hi).
  now rewrite (list_lookup_total_correct _ _ _ Hx),
    (list_lookup_total_correct _ _ _ Hy) in HP.
Qed.

Lemma Forall2_total_1 {A} `{!Inhabited A} (P : A -> A -> Prop) (l k : list A)
    (i : nat) :
  Forall2 P l k -> (i < length l)%nat -> P (l !!! i) (k !!! i).
Proof.
  intros HP Hi. pose proof (Forall2_length _ _ _ HP) as Hlen.
  apply (Forall2_lookup_lr _ _ _ i _ _ HP);
    apply list_lookup_lookup_total_lt; lia.
Qed.

Lemma Forall2_nodes (P : Q -> Q -> Prop) (a b : list Q) :
  len a = len b ->
  (forall j, (0 <= j < len a)%Z -> P (node a j) (node b j)) ->
  Forall2 P a b.
Proof.
  intros Hlen HP. apply Forall2_total; [unfold len in Hlen; lia |].
  intros i Hi. specialize (HP (Z.of_nat i) ltac:(unfold len; lia)).
  unfold node in HP. now rewrite Nat2Z.id in HP.
Qed.

Lemma Forall2_node (P : Q -> Q -> Prop) (a b : list Q) (j : Z) :
  Forall2 P a b -> (0 <= j < len a)%Z -> P (node a j) (node b j).
Proof.
  intros HP Hj. unfold node. apply Forall2_total_1; [exact HP |].
  unfold len in Hj. lia.
Qed.

Lemma Forall2_len {A} (P : A -> A -> Prop) (a b : list A) :
  Forall2 P a b -> len a = len b.
Proof. intros HP. unfold len. now rewrite (Forall2_length _ _ _ HP). Qed.

Lemma Forall2_rows (P : list Q -> list Q -> Prop) (T T' : list (list Q)) :
  len T = len T' ->
  (forall t, (0 <= t < len T)%Z -> P (row_at T t) (row_at T' t)) ->
  Forall2 P T T'.
Proof.
  intros Hlen HP. apply Forall2_total; [unfold len in Hlen; lia |].
  intros i Hi. specialize (HP (Z.of_nat i) ltac:(unfold len; lia)).
  unfold row_at in HP. now rewrite Nat2Z.id in HP.
Qed.

(** A relation between temperatures that every update of a step keeps:
    the loss update, the conduction update of an end node and of an
    interior node, and mixing with a weight between 0 and 1. *)
Section Related.

Variable cfg : TankConfig.
Variables m u G : Q.
Variable R : Q -> Q -> Prop.
Hypothesis Hc : validated cfg.
Hypothesis Hm : 0 < m.
Hypothesis R_loss : forall x x' A A', R x x' -> R A A' ->
  R (x - (u * (x - A) * dt cfg) / (m * cp cfg))
    (x' - (u * (x' - A') * dt cfg) / (m * cp cfg)).
Hypothesis R_end : forall x x' a a', R x x' -> R a a' ->
  R (x + conducted cfg m G (a - x)) (x' + conducted cfg m G (a' - x')).
Hypothesis R_mid : forall x x' a a' b b', R x x' -> R a a' -> R b b' ->
  R (x + conducted cfg m G ((a - x) + (b - x)))
    (x' + conducted cfg m G ((a' - x') + (b' - x'))).
Hypothesis R_mix : forall f x x' y y', 0 <= f <= 1 -> R x x' -> R y y' ->
  R ((1 - f) * x + f * y) ((1 - f) * x' + f * y').

Lemma side_losses_rel (A A' : Q) (a b : list Q) :
  R A A' -> Forall2 R a b ->
  Forall2 R (side_losses cfg m u A a) (side_losses cfg m u A' b).
Proof.
  intros HA Hab. pose proof (Forall2_len _ _ _ Hab) as Hlen.
  apply Forall2_nodes.
  - unfold len in *. rewrite !length_side_losses. exact Hlen.
  - intros j Hj. unfold len in Hj. rewrite length_side_losses in Hj.
    rewrite !side_losses_node by (unfold len in *; lia).
    apply R_loss; [| exact HA]. apply Forall2_node; [exact Hab |].
    unfold len. lia.
Qed.

Lemma conduction_rel (a b : list Q) :
  (2 <= len a)%Z -> Forall2 R a b ->
  Forall2 R (zip_with Qplus a (dT_cond cfg m G a))
            (zip_with Qplus b (dT_cond cfg m G b)).
Proof.
  intros Hl Hab. pose proof (Forall2_len _ _ _ Hab) as Hlen.
  assert (Hlz : forall l : list Q, (2 <= len l)%Z ->
            len (zip_with Qplus l (dT_cond cfg m G l)) = len l).
  { intros l H. unfold len in *.
    rewrite length_zip_with, length_dT_cond; lia. }
  assert (Hn : forall j, (0 <= j < len a)%Z -> R (node a j) (node b j))
    by (intros j Hj; now apply Forall2_node).
  apply Forall2_nodes; [rewrite !Hlz by lia; exact Hlen |].
  intros j Hj. rewrite Hlz in Hj by lia.
  destruct (Z.eq_dec j 0%Z) as [-> | Hj0];
    [| destruct (Z.eq_dec j (len a - 1)%Z) as [-> | Hjn]].
  - rewrite !conduction_node_bottom by lia. apply R_end; apply Hn; lia.
  - rewrite conduction_node_top by lia.
    replace (len a - 1)%Z with (len b - 1)%Z at 3 by lia.
    rewrite conduction_node_top by lia. rewrite <- Hlen.
    apply R_end; apply Hn; lia.
  - rewrite !conduction_node_interior by lia. apply R_mid; apply Hn; lia.
Qed.

Lemma before_advection_rel (T_amb T_amb' : list Q) (t t' : Z) (a b : list Q) :
  len a = n_nodes cfg ->
  (Qltb 0 u = true -> R (node T_amb t) (node T_amb' t')) ->
  Forall2 R a b ->
  Forall2 R (before_advection cfg m u G T_amb t a)
            (before_advection cfg m u G T_amb' t' b).
Proof.
  intros Ha Hamb Hab. pose proof (v_nodes _ Hc) as Hn.
  unfold before_advection.
  assert (H1 : Forall2 R
    (if Qltb 0 u then side_losses cfg m u (node T_amb t) a else a)
    (if Qltb 0 u then side_losses cfg m u (node T_amb' t') b else b)).
  { destruct (Qltb 0 u); [| exact Hab]. apply side_losses_rel; auto. }
  destruct (Qltb 0 G); [| exact H1].
  apply conduction_rel; [| exact H1].
  unfold len in *. destruct (Qltb 0 u); [rewrite length_side_losses |]; lia.
Qed.

(** A sweep of mixing assignments over two related rows. *)
Lemma for_mix_rel (f : Q) (g h : Z -> Z) (xs : list Z) :
  0 <= f <= 1 ->
  forall l l' : list Q,
  Forall2 R l l' ->
  (forall i, i ∈ xs -> (0 <= g i < len l)%Z /\ (0 <= h i < len l)%Z) ->
  exists r r',
    for_ xs (fun i l => mix_item f (g i) (h i) l) l = Ok r /\
    for_ xs (fun i l => mix_item f (g i) (h i) l) l' = Ok r' /\
    Forall2 R r r'.
Proof.
  intros Hf. induction xs as [| x xs IH]; intros l l' Hll Hidx.
  - exists l, l'. repeat split; [exact Hll].
  - pose proof (Forall2_len _ _ _ Hll) as Hlen.
    destruct (Hidx x ltac:(left)) as [Hg Hh].
    cbn [for_]. rewrite !mix_item_ok, !bind_Ok by (rewrite <- ?Hlen; assumption).
    apply IH.
    + apply Forall2_insert; [exact Hll |].
      apply R_mix; [exact Hf | |]; now apply Forall2_node.
    + intros i Hi. rewrite len_insert. apply Hidx. now right.
Qed.

Lemma charging_rel (Tin_charge Tin_charge' : list Q) (t t' : Z) (mf : Q)
    (a b : list Q) :
  0 < mf -> len a = n_nodes cfg ->
  (0 <= t < len Tin_charge)%Z -> (0 <= t' < len Tin_charge')%Z ->
  R (node Tin_charge t) (node Tin_charge' t') ->
  Forall2 R a b ->
  exists a' b',
    charging cfg m Tin_charge t mf a = Ok a' /\
    charging cfg m Tin_charge' t' mf b = Ok b' /\
    Forall2 R a' b'.
Proof.
  intros Hmf Ha Ht Ht' Hin Hab. pose proof (Forall2_len _ _ _ Hab) as Hlen.
  pose proof (v_nodes _ Hc) as Hn. pose proof (v_inlet _ Hc) as Hinlet.
  unfold charging. fold (alpha_of cfg m mf) (frac_of cfg m mf).
  rewrite (getitem_node a (charge_inlet cfg)), bind_Ok by lia.
  rewrite (getitem_node b (charge_inlet cfg)), bind_Ok by lia.
  rewrite (getitem_node Tin_charge t), bind_Ok by lia.
  rewrite (getitem_node Tin_charge' t'), bind_Ok by lia.
  rewrite !setitem_ok, !bind_Ok by lia.
  assert (H1 : Forall2 R
    (<[Z.to_nat (charge_inlet cfg) :=
         (1 - alpha_of cfg m mf) * node a (charge_inlet cfg)
         + alpha_of cfg m mf * node Tin_charge t]> a)
    (<[Z.to_nat (charge_inlet cfg) :=
         (1 - alpha_of cfg m mf) * node b (charge_inlet cfg)
         + alpha_of cfg m mf * node Tin_charge' t']> b)).
  { apply Forall2_insert; [exact Hab |].
    apply R_mix; [now apply alpha_of_weight | | exact Hin].
    apply Forall2_node; [exact Hab | lia]. }
  destruct (Z.ltb_spec (charge_inlet cfg) (n_nodes cfg - 1)) as [Hlt | Hge].
  - apply (for_mix_rel (frac_of cfg m mf) (fun i => (i + 1)%Z) (fun i => i)).
    + apply frac_of_weight; (assumption || lra).
    + exact H1.
    + intros i Hi. apply elem_of_range in Hi. rewrite len_insert. lia.
  - eexists _, _. split; [reflexivity |]. split; [reflexivity | exact H1].
Qed.

Lemma discharging_rel (mf : Q) (a b : list Q) :
  len a = n_nodes cfg -> Forall2 R a b ->
  exists a' b',
    discharging cfg m mf a = Ok a' /\ discharging cfg m mf b = Ok b' /\
    Forall2 R a' b'.
Proof.
  intros Ha Hab. pose proof (Forall2_len _ _ _ Hab) as Hlen.
  pose proof (v_nodes _ Hc) as Hn. pose proof (v_outlet _ Hc) as Hout.
  assert (Hf : 0 <= frac_of cfg m (Qabs mf) <= 1)
    by (apply frac_of_weight; auto using Qabs_nonneg).
  unfold discharging. fold (frac_of cfg m (Qabs mf)).
  set (f := frac_of cfg m (Qabs mf)) in *.
  destruct (Z.ltb_spec 0 (discharge_outlet cfg)) as [Hpos | Hzero].
  - rewrite (getitem_node a (discharge_outlet cfg)), bind_Ok by lia.
    rewrite (getitem_node a (discharge_outlet cfg - 1)), bind_Ok by lia.
    rewrite (getitem_node b (discharge_outlet cfg)), bind_Ok by lia.
    rewrite (getitem_node b (discharge_outlet cfg - 1)), bind_Ok by lia.
    rewrite !setitem_ok, !bind_Ok by lia.
    apply (for_mix_rel f (fun i => i) (fun i => (i - 1)%Z)); [exact Hf | |].
    + apply Forall2_insert; [exact Hab |].
      apply R_mix; [exact Hf | |]; apply Forall2_node; (exact Hab || lia).
    + intros i Hi. apply elem_of_range_down in Hi. rewrite len_insert. lia.
  - destruct (Z.ltb_spec 1 (n_nodes cfg)) as [_ | ?]; [| lia].
    rewrite (getitem_node a (discharge_outlet cfg)), bind_Ok by lia.
    rewrite (getitem_node a (discharge_outlet cfg + 1)), bind_Ok by lia.
    rewrite (getitem_node b (discharge_outlet cfg)), bind_Ok by lia.
    rewrite (getitem_node b (discharge_outlet cfg + 1)), bind_Ok by lia.
    rewrite !setitem_ok, !bind_Ok by lia.
    apply (for_mix_rel f (fun i => i) (fun i => (i + 1)%Z)); [exact Hf | |].
    + apply Forall2_insert; [exact Hab |].
      apply R_mix; [exact Hf | |]; apply Forall2_node; (exact Hab || lia).
    + intros i Hi. apply elem_of_range in Hi. rewrite len_insert. lia.
Qed.

Lemma advection_rel (Tin_charge Tin_charge' : list Q) (t t' : Z) (mf : Q)
    (a b : list Q) :
  len a = n_nodes cfg ->
  (0 <= t < len Tin_charge)%Z -> (0 <= t' < len Tin_charge')%Z ->
  (0 < mf -> R (node Tin_charge t) (node Tin_charge' t')) ->
  Forall2 R a b ->
  exists a' b',
    advection cfg m Tin_charge t mf a = Ok a' /\
    advection cfg m Tin_charge' t' mf b = Ok b' /\
    Forall2 R a' b'.
Proof.
  intros Ha Ht Ht' Hin Hab. unfold advection.
  destruct (Qltb 0 mf) eqn:Hpos.
  - apply Qltb_true in Hpos. apply charging_rel; auto.
  - destruct (Qltb mf 0).
    + now apply discharging_rel.
    + eexists _, _. split; [reflexivity |]. split; [reflexivity | exact Hab].
Qed.

(** One step of two runs with the same mass flow. *)
Lemma next_row_rel (Tin_charge Tin_charge' m_flow T_amb T_amb' : list Q)
    (t : Z) (a b a' b' : list Q) :
  len m_flow = n_steps cfg ->
  len T_amb = n_steps cfg -> len T_amb' = n_steps cfg ->
  len Tin_charge = n_steps cfg -> len Tin_charge' = n_steps cfg ->
  (0 <= t < n_steps cfg)%Z ->
  len a = n_nodes cfg ->
  (Qltb 0 u = true -> R (node T_amb t) (node T_amb' t)) ->
  (0 < node m_flow t -> R (node Tin_charge t) (node Tin_charge' t)) ->
  next_row cfg m u G Tin_charge m_flow T_amb t a = Ok a' ->
  next_row cfg m u G Tin_charge' m_flow T_amb' t b = Ok b' ->
  Forall2 R a b -> Forall2 R a' b'.
Proof.
  intros Hlm Hla Hla' Hli Hli' Ht Ha Hamb Hin Hrun Hrun' Hab.
  pose proof (Forall2_len _ _ _ Hab) as Hlen.
  destruct (next_row_advection cfg m u G Tin_charge m_flow T_amb Hc Hlm Hla
              t a Ht Ha) as [Ea Hla1].
  destruct (next_row_advection cfg m u G Tin_charge' m_flow T_amb' Hc Hlm Hla'
              t b Ht ltac:(lia)) as [Eb Hlb1].
  rewrite Ea in Hrun. rewrite Eb in Hrun'.
  destruct (advection_rel Tin_charge Tin_charge' t t (node m_flow t)
              (before_advection cfg m u G T_amb t a)
              (before_advection cfg m u G T_amb' t b))
    as (r & r' & Hr & Hr' & HR); auto; try lia.
  - now apply before_advection_rel.
  - rewrite Hr in Hrun. rewrite Hr' in Hrun'.
    injection Hrun as <-. injection Hrun' as <-. exact HR.
Qed.

End Related.

(** Two runs of one configuration with the same mass flow: a relation
    that every update keeps and that holds between the initial profiles,
    between the ambient temperatures if the tank loses heat, and between
    the inlet temperatures at the charging steps, holds between the rows of
    the two runs. *)
Lemma runs_related (R : Q -> Q -> Prop) (cfg : TankConfig)
    (Tin_charge Tin_charge' m_flow T_amb T_amb' T_init T_init' : list Q) :
  well_formed cfg Tin_charge m_flow T_amb T_init ->
  len Tin_charge' = n_steps cfg -> len T_amb' = n_steps cfg ->
  (forall x x' A A', R x x' -> R A A' ->
     R (x - (ua_node cfg * (x - A) * dt cfg) / (mass_node cfg * cp cfg))
       (x' - (ua_node cfg * (x' - A') * dt cfg) / (mass_node cfg * cp cfg))) ->
  (forall x x' a a', R x x' -> R a a' ->
     R (x + conducted cfg (mass_node cfg) (G_cond cfg) (a - x))
       (x' + conducted cfg (mass_node cfg) (G_cond cfg) (a' - x'))) ->
  (forall x x' a a' b b', R x x' -> R a a' -> R b b' ->
     R (x + conducted cfg (mass_node cfg) (G_cond cfg) ((a - x) + (b - x)))
       (x' + conducted cfg (mass_node cfg) (G_cond cfg) ((a' - x') + (b' - x')))) ->
  (forall f x x' y y', 0 <= f <= 1 -> R x x' -> R y y' ->
     R ((1 - f) * x + f * y) ((1 - f) * x' + f * y')) ->
  Forall2 R T_init T_init' ->
  (0 < ua_loss cfg -> Forall2 R T_amb T_amb') ->
  (forall t, (0 <= t < n_steps cfg)%Z -> 0 < node m_flow t ->
     R (node Tin_charge t) (node Tin_charge' t)) ->
  exists out out',
    simulate_stratified_tank cfg Tin_charge m_flow T_amb T_init = Ok out /\
    simulate_stratified_tank cfg Tin_charge' m_flow T_amb' T_init' = Ok out' /\
    run_of (fst (validate cfg)) Tin_charge m_flow T_amb T_init
      (T out) (Q_loss out) /\
    run_of (fst (validate cfg)) Tin_charge' m_flow T_amb' T_init'
      (T out') (Q_loss out') /\
    T_top out = column_top cfg (T out) /\ T_bot out = column_bot (T out) /\
    T_top out' = column_top cfg (T out') /\ T_bot out' = column_bot (T out') /\
    forall t, (0 <= t <= n_steps cfg)%Z ->
      Forall2 R (row_at (T out) t) (row_at (T out') t).
Proof.
  intros Hwf Hli' Hla' R_loss R_end R_mid R_mix Hinit Hamb Hin.
  assert (Hwf' : well_formed cfg Tin_charge' m_flow T_amb' T_init').
  { destruct Hwf as [Hv H1 H2 H3 H4]. constructor; auto.
    now rewrite <- (Forall2_len _ _ _ Hinit). }
  destruct (simulate_run _ _ _ _ _ Hwf)
    as (out & c & Hout & Ec & Hc & Hrun & Htop & Hbot & [En Es]
        & (Em & Eu & EG & Edt & Ecp) & (Hlm & Hla & Hli) & Hgu & HgG).
  destruct (simulate_run _ _ _ _ _ Hwf')
    as (out' & c0 & Hout' & Ec0 & _ & Hrun' & Htop' & Hbot' & _).
  assert (c0 = c) as -> by congruence. subst c.
  set (c := fst (validate cfg)) in *.
  exists out, out'.
  split; [exact Hout |]. split; [exact Hout' |]. split; [exact Hrun |].
  split; [exact Hrun' |]. split; [exact Htop |]. split; [exact Hbot |].
  split; [exact Htop' |]. split; [exact Hbot' |].
  pose proof (mass_node_pos _ Hc) as Hm.
  assert (Hall : forall k : nat, (Z.of_nat k <= n_steps c)%Z ->
            Forall2 R (row_at (T out) (Z.of_nat k)) (row_at (T out') (Z.of_nat k))).
  { induction k as [| k IH]; intros Hk.
    - change (Z.of_nat 0) with 0%Z.
      rewrite (run_init _ _ _ _ _ _ _ Hrun), (run_init _ _ _ _ _ _ _ Hrun').
      exact Hinit.
    - replace (Z.of_nat (S k)) with (Z.of_nat k + 1)%Z by lia.
      apply (next_row_rel c (mass_node c) (ua_node c) (G_cond c) R Hc Hm)
        with (Tin_charge := Tin_charge) (Tin_charge' := Tin_charge')
             (m_flow := m_flow) (T_amb := T_amb) (T_amb' := T_amb')
             (t := Z.of_nat k)
             (a := row_at (T out) (Z.of_nat k))
             (b := row_at (T out') (Z.of_nat k)); try assumption; try lia.
      + unfold conducted in *. rewrite Em, Eu, Edt, Ecp. exact R_loss.
      + rewrite Em, EG. unfold conducted in *. rewrite Edt, Ecp. exact R_end.
      + rewrite Em, EG. unfold conducted in *. rewrite Edt, Ecp. exact R_mid.
      + apply (run_rows _ _ _ _ _ _ _ Hrun). lia.
      + intros Hg. rewrite Hgu in Hg. apply Qltb_true in Hg.
        apply Forall2_node; [now apply Hamb | lia].
      + apply Hin. lia.
      + apply (run_step _ _ _ _ _ _ _ Hrun). lia.
      + apply (run_step _ _ _ _ _ _ _ Hrun'). lia.
      + apply IH. lia. }
  intros t Ht. rewrite <- (Z2Nat.id t) by lia. apply Hall. lia.
Qed.

Lemma run_columns_related (R : Q -> Q -> Prop) (cfg c : TankConfig)
    (Tin_charge Tin_charge' m_flow T_amb T_amb' T_init T_init' : list Q)
    (out out' : output) :
  validated c -> n_nodes c = n_nodes cfg ->
  run_of c Tin_charge m_flow T_amb T_init (T out) (Q_loss out) ->
  run_of c Tin_charge' m_flow T_amb' T_init' (T out') (Q_loss out') ->
  T_top out = column_top cfg (T out) -> T_bot out = column_bot (T out) ->
  T_top out' = column_top cfg (T out') -> T_bot out' = column_bot (T out') ->
  (forall t, (0 <= t <= n_steps c)%Z ->
     Forall2 R (row_at (T out) t) (row_at (T out') t)) ->
  Forall2 (Forall2 R) (T out) (T out') /\
  Forall2 R (T_top out) (T_top out') /\
  Forall2 R (T_bot out) (T_bot out').
Proof.
  intros Hc En Hrun Hrun' Htop Hbot Htop' Hbot' Hrows.
  pose proof (v_nodes _ Hc) as Hn.
  pose proof (run_len_T _ _ _ _ _ _ _ Hrun) as HlT.
  pose proof (run_len_T _ _ _ _ _ _ _ Hrun') as HlT'.
  pose proof (run_rows _ _ _ _ _ _ _ Hrun) as Hlen.
  assert (Hcol : forall j, (0 <= j < n_nodes c)%Z ->
            Forall2 R ((fun row => node row j) <$> T out)
                      ((fun row => node row j) <$> T out')).
  { intros j Hj. apply Forall2_fmap, Forall2_rows; [now rewrite HlT, HlT' |].
    intros t Ht. cbn. apply Forall2_node; [apply Hrows; lia |].
    rewrite Hlen by lia. exact Hj. }
  split; [| split].
  - apply Forall2_rows; [now rewrite HlT, HlT' |].
    intros t Ht. apply Hrows. lia.
  - rewrite Htop, Htop'. unfold column_top. apply Hcol. lia.
  - rewrite Hbot, Hbot'. unfold column_bot. apply Hcol. lia.
Qed.

(** ** Warmer inputs give a warmer tank *)

Lemma weight_range (a b : Q) : 0 <= a -> a <= b -> 0 < b -> 0 <= a / b <= 1.
Proof.
  intros Ha Hab Hb. split.
  - apply Qle_shift_div_l; lra.
  - apply Qle_shift_div_r; lra.
Qed.

Lemma loss_update_le (u d mc x x' A A' : Q) :
  0 <= u * d -> u * d <= mc -> 0 < mc -> x <= x' -> A <= A' ->
  x - (u * (x - A) * d) / mc <= x' - (u * (x' - A') * d) / mc.
Proof.
  intros H0 H1 Hmc Hx HA.
  pose proof (weight_range _ _ H0 H1 Hmc) as Hw.
  assert (E : forall y B, y - (u * (y - B) * d) / mc
                          == (1 - u * d / mc) * y + (u * d / mc) * B)
    by (intros; unfold Qdiv; ring).
  rewrite !E. now apply combo_le.
Qed.

Lemma end_update_le (g d mc x x' a a' : Q) :
  0 <= g * d -> 2 * g * d <= mc -> 0 < mc -> x <= x' -> a <= a' ->
  x + (g * (a - x) * d) / mc <= x' + (g * (a' - x') * d) / mc.
Proof.
  intros H0 H1 Hmc Hx Ha.
  pose proof (weight_range (g * d) mc H0 ltac:(lra) Hmc) as Hw.
  assert (E : forall y b, y + (g * (b - y) * d) / mc
                          == (1 - g * d / mc) * y + (g * d / mc) * b)
    by (intros; unfold Qdiv; ring).
  rewrite !E. now apply combo_le.
Qed.

Lemma mid_update_le (g d mc x x' a a' b b' : Q) :
  0 <= g * d -> 2 * g * d <= mc -> 0 < mc ->
  x <= x' -> a <= a' -> b <= b' ->
  x + (g * ((a - x) + (b - x)) * d) / mc
  <= x' + (g * ((a' - x') + (b' - x')) * d) / mc.
Proof.
  intros H0 H1 Hmc Hx Ha Hb.
  pose proof (weight_range (g * d) mc H0 ltac:(lra) Hmc) as Hw.
  assert (H2 : 2 * (g * d / mc) <= 1).
  { assert (E2 : 2 * (g * d / mc) == (2 * g * d) / mc) by (unfold Qdiv; ring).
    rewrite E2. apply Qle_shift_div_r; lra. }
  assert (E : forall y p q, y + (g * ((p - y) + (q - y)) * d) / mc
                            == y + (g * d / mc) * ((p - y) + (q - y)))
    by (intros; unfold Qdiv; ring).
  rewrite !E. apply combo3_le; (assumption || apply Hw).
Qed.

(** X8.  The comparison principle, in exact arithmetic.  When the explicit
    scheme is stable, a run that starts from a profile that is nowhere
    cooler, and sees an ambient and an inlet temperature that are never
    cooler, returns temperatures that are nowhere cooler.  (In binary64
    the order can flip in the last place, [loss_phase_order_binary64].) *)
Theorem stable_run_monotone
    (cfg : TankConfig)
    (Tin_charge Tin_charge' m_flow T_amb T_amb' T_init T_init' : list Q) :
  well_formed cfg Tin_charge m_flow T_amb T_init ->
  len Tin_charge' = n_steps cfg -> len T_amb' = n_steps cfg ->
  ua_node cfg * dt cfg <= mass_node cfg * cp cfg ->
  2 * G_cond cfg * dt cfg <= mass_node cfg * cp cfg ->
  Forall2 Qle T_init T_init' ->
  (0 < ua_loss cfg -> Forall2 Qle T_amb T_amb') ->
  (forall t, (0 <= t < n_steps cfg)%Z -> 0 < node m_flow t ->
     node Tin_charge t <= node Tin_charge' t) ->
  exists out out',
    simulate_stratified_tank cfg Tin_charge m_flow T_amb T_init = Ok out /\
    simulate_stratified_tank cfg Tin_charge' m_flow T_amb' T_init' = Ok out' /\
    Forall2 (Forall2 Qle) (T out) (T out') /\
    Forall2 Qle (T_top out) (T_top out') /\
    Forall2 Qle (T_bot out) (T_bot out').
Proof.
  intros Hwf Hli' Hla' Hstab_u Hstab_G Hinit Hamb Hin.
  destruct (simulate_run _ _ _ _ _ Hwf)
    as (out0 & c & _ & Ec & Hc & _ & _ & _ & [En Es]
        & (Em & Eu & EG & Edt & Ecp) & _).
  pose proof (mass_node_pos _ Hc) as Hm. rewrite Em in Hm.
  pose proof (v_cp _ Hc) as Hcp. rewrite Ecp in Hcp.
  pose proof (v_dt _ Hc) as Hdt. rewrite Edt in Hdt.
  pose proof (ua_node_nonneg _ Hc) as Hu0. rewrite Eu in Hu0.
  pose proof (G_cond_nonneg _ Hc) as HG0. rewrite EG in HG0.
  assert (Hmc : 0 < mass_node cfg * cp cfg) by now apply Qmult_lt_0_compat.
  assert (Hud : 0 <= ua_node cfg * dt cfg) by (apply Qmult_le_0_compat; lra).
  assert (HGd : 0 <= G_cond cfg * dt cfg) by (apply Qmult_le_0_compat; lra).
  destruct (runs_related Qle cfg Tin_charge Tin_charge' m_flow T_amb T_amb'
              T_init T_init' Hwf Hli' Hla')
    as (out & out' & Hout & Hout' & Hrun & Hrun' & Htop & Hbot & Htop' & Hbot'
        & Hrows); auto.
  - intros. now apply loss_update_le.
  - intros. unfold conducted. now apply end_update_le.
  - intros. unfold conducted. now apply mid_update_le.
  - intros. now apply combo_le.
  - exists out, out'. split; [exact Hout |]. split; [exact Hout' |].
    subst c.
    apply (run_columns_related Qle cfg (fst (validate cfg))
             Tin_charge Tin_charge' m_flow T_amb T_amb' T_init T_init');
      auto.
    intros t Ht. apply Hrows. lia.
Qed.

(** ** The temperature scale *)

Lemma rescaled_fmap (k d : Q) (l : list Q) :
  Forall2 (rescaled k d) l ((fun x => k * x + d) <$> l).
Proof.
  apply Forall2_fmap_r, Forall_Forall2_diag, Forall_forall.
  intros x _. unfold rescaled. reflexivity.
Qed.

Lemma loss_power_rescaled (u k d A A' : Q) (a b : list Q) :
  rescaled k d A A' -> Forall2 (rescaled k d) a b ->
  loss_power u A' b == k * loss_power u A a.
Proof.
  unfold rescaled, loss_power. intros HA Hab.
  induction Hab as [| x y a b Hxy Hab IH].
  - rewrite !fmap_nil, np_sum_nil. ring.
  - rewrite !fmap_cons, !np_sum_cons, IH, Hxy, HA. ring.
Qed.

(** X9.  The model does not depend on the temperature scale.  Converting the
    initial profile, the ambient and the inlet temperatures to another
    scale (Kelvin instead of degrees Celsius, as the example script does
    with [+ 273.15], or degrees Fahrenheit) converts every temperature the
    run returns in the same way, and multiplies the loss powers by the
    factor of the conversion. *)
Theorem temperature_scale
    (cfg : TankConfig) (Tin_charge m_flow T_amb T_init : list Q) (k d : Q) :
  well_formed cfg Tin_charge m_flow T_amb T_init ->
  exists out out',
    simulate_stratified_tank cfg Tin_charge m_flow T_amb T_init = Ok out /\
    simulate_stratified_tank cfg
      ((fun x => k * x + d) <$> Tin_charge) m_flow
      ((fun x => k * x + d) <$> T_amb)
      ((fun x => k * x + d) <$> T_init) = Ok out' /\
    Forall2 (Forall2 (rescaled k d)) (T out) (T out') /\
    Forall2 (rescaled k d) (T_top out) (T_top out') /\
    Forall2 (rescaled k d) (T_bot out) (T_bot out') /\
    Forall2 (fun q q' => q' == k * q) (Q_loss out) (Q_loss out').
Proof.
  intros Hwf.
  destruct (simulate_run _ _ _ _ _ Hwf)
    as (out0 & c & _ & Ec & Hc & _ & _ & _ & [En Es]
        & (Em & Eu & EG & Edt & Ecp) & (Hlm & Hla & Hli) & Hgu & HgG).
  destruct (runs_related (rescaled k d) cfg
              Tin_charge ((fun x => k * x + d) <$> Tin_charge)
              m_flow T_amb ((fun x => k * x + d) <$> T_amb)
              T_init ((fun x => k * x + d) <$> T_init) Hwf)
    as (out & out' & Hout & Hout' & Hrun & Hrun' & Htop & Hbot & Htop' & Hbot'
        & Hrows).
  - rewrite len_fmap. apply Hwf.
  - rewrite len_fmap. apply Hwf.
  - unfold rescaled. intros x x' A A' Hx HA. rewrite Hx, HA. unfold Qdiv. ring.
  - unfold rescaled, conducted. intros x x' a a' Hx Ha. rewrite Hx, Ha.
    unfold Qdiv. ring.
  - unfold rescaled, conducted. intros x x' a a' b b' Hx Ha Hb.
    rewrite Hx, Ha, Hb. unfold Qdiv. ring.
  - unfold rescaled. intros f x x' y y' _ Hx Hy. rewrite Hx, Hy. ring.
  - apply rescaled_fmap.
  - intros _. apply rescaled_fmap.
  - intros t Ht _. apply Forall2_node; [apply rescaled_fmap |].
    rewrite Hli, Es. exact Ht.
  - exists out, out'. split; [exact Hout |]. split; [exact Hout' |].
    subst c.
    destruct (run_columns_related (rescaled k d) cfg (fst (validate cfg))
                Tin_charge ((fun x => k * x + d) <$> Tin_charge) m_flow
                T_amb ((fun x => k * x + d) <$> T_amb)
                T_init ((fun x => k * x + d) <$> T_init) out out')
      as (HT & HTtop & HTbot); auto.
    { intros t Ht. apply Hrows. lia. }
    split; [exact HT |]. split; [exact HTtop |]. split; [exact HTbot |].
    pose proof (run_len_Q _ _ _ _ _ _ _ Hrun) as HlQ.
    pose proof (run_len_Q _ _ _ _ _ _ _ Hrun') as HlQ'.
    apply Forall2_nodes; [now rewrite HlQ, HlQ' |].
    intros t Ht. rewrite HlQ in Ht.
    rewrite (run_loss _ _ _ _ _ _ _ Hrun t Ht),
      (run_loss _ _ _ _ _ _ _ Hrun' t Ht).
    unfold recorded_loss. destruct (Qltb 0 (ua_node (fst (validate cfg))));
      [| ring].
    apply (loss_power_rescaled _ k d).
    + apply Forall2_node; [apply rescaled_fmap | lia].
    + apply Hrows. lia.
Qed.

(** ** Discharging through the bottom outlet of a two-node tank *)

(** With two nodes the loop [range(0, n_nodes - 2)] is empty: node 0 is
    mixed once. *)
Lemma discharging_bottom_two (cfg : TankConfig) (m mf : Q) (Tn : list Q) :
  discharge_outlet cfg = 0%Z -> n_nodes cfg = 2%Z -> len Tn = n_nodes cfg ->
  let f := frac_of cfg m (Qabs mf) in
  discharging cfg m mf Tn =
    Ok (<[Z.to_nat 0 := (1 - f) * node Tn 0 + f * node Tn 1]> Tn).
Proof.
  intros Hout Hn Hlen f. unfold discharging.
  fold (frac_of cfg m (Qabs mf)). fold f.
  rewrite Hout, Hn. cbn [Z.ltb Z.compare Pos.compare Pos.compare_cont].
  rewrite (getitem_node Tn 0), bind_Ok by lia.
  rewrite (getitem_node Tn (0 + 1)), bind_Ok by lia.
  rewrite setitem_ok, bind_Ok by lia. reflexivity.
Qed.

(** ** Stratification *)

Lemma mix_le_r (f x y : Q) : 0 <= f <= 1 -> x <= y -> (1 - f) * x + f * y <= y.
Proof.
  intros [H0 H1] Hxy.
  assert (0 <= (1 - f) * (y - x)) by (apply Qmult_le_0_compat; lra). lra.
Qed.

Lemma mix_ge_l (f x y : Q) : 0 <= f <= 1 -> x <= y -> x <= (1 - f) * x + f * y.
Proof.
  intros [H0 H1] Hxy.
  assert (0 <= f * (y - x)) by (apply Qmult_le_0_compat; lra). lra.
Qed.

Lemma mix_le_l (f x y : Q) : 0 <= f <= 1 -> y <= x -> (1 - f) * x + f * y <= x.
Proof.
  intros [H0 H1] Hxy.
  assert (0 <= f * (x - y)) by (apply Qmult_le_0_compat; lra). lra.
Qed.

Lemma mix_ge_r (f x y : Q) : 0 <= f <= 1 -> y <= x -> y <= (1 - f) * x + f * y.
Proof.
  intros [H0 H1] Hxy.
  assert (0 <= (1 - f) * (x - y)) by (apply Qmult_le_0_compat; lra). lra.
Qed.

Lemma stratified_ends (l : list Q) (i j : Z) :
  stratified l -> (0 <= i <= j)%Z -> (j < len l)%Z -> node l i <= node l j.
Proof.
  intros Hs Hij Hj.
  assert (Hall : forall k : nat, (i + Z.of_nat k < len l)%Z ->
                   node l i <= node l (i + Z.of_nat k)).
  { induction k as [| k IH]; intros Hk.
    - replace (i + Z.of_nat 0)%Z with i by lia. apply Qle_refl.
    - eapply Qle_trans; [apply IH; lia |].
      replace (i + Z.of_nat (S k))%Z with (i + Z.of_nat k + 1)%Z by lia.
      apply Hs; lia. }
  replace j with (i + Z.of_nat (Z.to_nat (j - i)))%Z by lia.
  apply Hall. lia.
Qed.

Section Stratified.

Variable cfg : TankConfig.
Variables m u G : Q.
Hypothesis Hc : validated cfg.
Hypothesis Hm : 0 < m.
Hypothesis Hu0 : 0 <= u.
Hypothesis Hu1 : u * dt cfg <= m * cp cfg.
Hypothesis HG0 : 0 <= G.
Hypothesis HG1 : 2 * G * dt cfg <= m * cp cfg.

Lemma side_losses_stratified (A : Q) (a : list Q) :
  stratified a -> stratified (side_losses cfg m u A a).
Proof.
  intros Ha j Hj0 Hj. unfold len in Hj. rewrite length_side_losses in Hj.
  rewrite !side_losses_node by (unfold len; lia).
  pose proof (v_dt _ Hc) as Hdt.
  apply loss_update_le; try lra.
  - apply Qmult_le_0_compat; lra.
  - now apply (mcp_pos cfg m).
  - apply Ha; [lia | unfold len; lia].
Qed.

Lemma conduction_stratified (a : list Q) :
  (2 <= len a)%Z -> stratified a ->
  stratified (zip_with Qplus a (dT_cond cfg m G a)).
Proof.
  intros Hl Ha j Hj0 Hj.
  assert (Hlz : len (zip_with Qplus a (dT_cond cfg m G a)) = len a).
  { unfold len in *. rewrite length_zip_with, length_dT_cond; lia. }
  rewrite Hlz in Hj.
  destruct (cond_weight_range cfg m G Hc Hm HG0 HG1) as [Hc0 Hc1].
  set (c := cond_weight cfg m G) in *.
  assert (Hd : forall i, (0 <= i)%Z -> (i + 1 < len a)%Z ->
                 0 <= node a (i + 1) - node a i).
  { intros i Hi0 Hi. specialize (Ha i Hi0 Hi). lra. }
  assert (Hp : forall i, (0 <= i)%Z -> (i + 1 < len a)%Z ->
                 0 <= c * (node a (i + 1) - node a i))
    by (intros; apply Qmult_le_0_compat; auto).
  assert (Hq : forall i, (0 <= i)%Z -> (i + 1 < len a)%Z ->
                 0 <= (1 - 2 * c) * (node a (i + 1) - node a i))
    by (intros; apply Qmult_le_0_compat; [lra | auto]).
  pose proof (Hq j Hj0 Hj) as Hqj.
  (* the lower node of the pair *)
  assert (Elo : node (zip_with Qplus a (dT_cond cfg m G a)) j ==
    if Z.eq_dec j 0%Z then node a j + c * (node a (j + 1) - node a j)
    else node a j + c * ((node a (j - 1) - node a j) + (node a (j + 1) - node a j))).
  { destruct (Z.eq_dec j 0%Z) as [-> | Hne].
    - rewrite conduction_node_bottom, conducted_term by lia. reflexivity.
    - rewrite conduction_node_interior, conducted_term by lia. reflexivity. }
  (* the upper node of the pair *)
  assert (Ehi : node (zip_with Qplus a (dT_cond cfg m G a)) (j + 1) ==
    if Z.eq_dec (j + 1)%Z (len a - 1)%Z
    then node a (j + 1) + c * (node a j - node a (j + 1))
    else node a (j + 1)
         + c * ((node a j - node a (j + 1)) + (node a (j + 2) - node a (j + 1)))).
  { destruct (Z.eq_dec (j + 1)%Z (len a - 1)%Z) as [E | Hne].
    - rewrite E, conduction_node_top, conducted_term by lia.
      replace (len a - 2)%Z with j by lia. rewrite <- E. reflexivity.
    - rewrite conduction_node_interior, conducted_term by lia.
      replace (j + 1 - 1)%Z with j by lia.
      replace (j + 1 + 1)%Z with (j + 2)%Z by lia. reflexivity. }
  rewrite Elo, Ehi.
  destruct (Z.eq_dec j 0%Z) as [-> | Hlo];
    destruct (Z.eq_dec _ (len a - 1)%Z) as [Ehi' | Hhi].
  - lra.
  - pose proof (Hp (0 + 1)%Z ltac:(lia) ltac:(lia)) as Hup.
    replace (0 + 1 + 1)%Z with (0 + 2)%Z in Hup by lia. lra.
  - pose proof (Hp (j - 1)%Z ltac:(lia) ltac:(lia)) as Hdn.
    replace (j - 1 + 1)%Z with j in Hdn by lia. lra.
  - pose proof (Hp (j - 1)%Z ltac:(lia) ltac:(lia)) as Hdn.
    replace (j - 1 + 1)%Z with j in Hdn by lia.
    pose proof (Hp (j + 1)%Z ltac:(lia) ltac:(lia)) as Hup.
    replace (j + 1 + 1)%Z with (j + 2)%Z in Hup by lia. lra.
Qed.

Lemma before_advection_stratified (T_amb : list Q) (t : Z) (a : list Q) :
  len a = n_nodes cfg -> stratified a ->
  stratified (before_advection cfg m u G T_amb t a).
Proof.
  intros Hlen Ha. pose proof (v_nodes _ Hc) as Hn. unfold before_advection.
  assert (H1 : stratified
    (if Qltb 0 u then side_losses cfg m u (node T_amb t) a else a)).
  { destruct (Qltb 0 u); [| exact Ha]. now apply side_losses_stratified. }
  destruct (Qltb 0 G); [| exact H1].
  apply conduction_stratified; [| exact H1].
  unfold len in *. destruct (Qltb 0 u); [rewrite length_side_losses |]; lia.
Qed.

(** Discharging pulls from the side the flow comes from ``to preserve
    stratification'': it does, through either outlet. *)
Lemma discharging_stratified (mf : Q) (a a' : list Q) :
  len a = n_nodes cfg -> stratified a ->
  discharging cfg m mf a = Ok a' -> stratified a'.
Proof.
  intros Hlen Ha Hrun. pose proof (v_nodes _ Hc) as Hn.
  pose proof (v_outlet _ Hc) as Hout.
  assert (Hf : 0 <= frac_of cfg m (Qabs mf) <= 1)
    by (apply frac_of_weight; auto using Qabs_nonneg).
  assert (Hs : forall i, (0 <= i)%Z -> (i + 1 < n_nodes cfg)%Z ->
                 node a i <= node a (i + 1))
    by (intros i Hi0 Hi; apply Ha; lia).
  destruct (Z_lt_le_dec 0 (discharge_outlet cfg)) as [Hpos | Hzero].
  - destruct (discharging_above_nodes cfg m Hc Hpos mf a Hlen)
      as (r & Hr & Hlr & Hmix & Hkeep).
    assert (r = a') as -> by congruence.
    set (f := frac_of cfg m (Qabs mf)) in *.
    intros j Hj0 Hj. rewrite Hlr, Hlen in Hj.
    destruct (Z_le_gt_dec (j + 1) (discharge_outlet cfg)) as [Hin | Habove].
    + rewrite (Hmix (j + 1)%Z) by lia. replace (j + 1 - 1)%Z with j by lia.
      destruct (Z.eq_dec j 0%Z) as [-> | Hne].
      * rewrite (Hkeep 0%Z) by lia.
        apply mix_ge_r; [exact Hf |]. apply Hs; lia.
      * rewrite (Hmix j) by lia.
        apply combo_le; [exact Hf | apply Hs; lia |].
        pose proof (Hs (j - 1)%Z ltac:(lia) ltac:(lia)) as H.
        now replace (j - 1 + 1)%Z with j in H by lia.
    + rewrite (Hkeep (j + 1)%Z) by lia.
      destruct (Z.eq_dec j (discharge_outlet cfg)) as [E | Hne].
      * rewrite (Hmix j) by lia.
        eapply Qle_trans; [| apply Hs; lia].
        apply mix_le_l; [exact Hf |].
        pose proof (Hs (j - 1)%Z ltac:(lia) ltac:(lia)) as H.
        now replace (j - 1 + 1)%Z with j in H by lia.
      * rewrite (Hkeep j) by lia. apply Hs; lia.
  - assert (Hz : discharge_outlet cfg = 0%Z) by lia.
    destruct (Z.eq_dec (n_nodes cfg) 2%Z) as [H2 | H3].
    + rewrite (discharging_bottom_two cfg m mf a Hz H2 Hlen) in Hrun.
      injection Hrun as <-.
      intros j Hj0 Hj. rewrite len_insert, Hlen in Hj.
      assert (j = 0%Z) as -> by lia.
      rewrite node_insert_eq, node_insert_ne by lia.
      apply mix_le_r; [exact Hf | apply Hs; lia].
    + destruct (discharging_bottom_nodes cfg m Hz ltac:(lia) mf a Hlen)
        as (r & Hr & Hlr & H0 & Hmix & Hkeep).
      assert (r = a') as -> by congruence.
      set (f := frac_of cfg m (Qabs mf)) in *.
      assert (H0le : node a' 0 <= node a 1).
      { rewrite H0. apply mix_le_r; [exact Hf |].
        apply mix_le_r; [exact Hf |]. apply (Hs 0%Z); lia. }
      intros j Hj0 Hj. rewrite Hlr, Hlen in Hj.
      destruct (Z.eq_dec j 0%Z) as [-> | Hne].
      * destruct (Z_le_gt_dec (0 + 1) (n_nodes cfg - 3)) as [Hin | Hend].
        -- rewrite (Hmix (0 + 1)%Z) by lia.
           eapply Qle_trans; [exact H0le |].
           apply mix_ge_l; [exact Hf |]. apply (Hs (0 + 1)%Z); lia.
        -- rewrite (Hkeep (0 + 1)%Z) by lia. exact H0le.
      * destruct (Z_le_gt_dec (j + 1) (n_nodes cfg - 3)) as [Hin | Hend].
        -- rewrite (Hmix j), (Hmix (j + 1)%Z) by lia.
           apply combo_le; [exact Hf | apply Hs; lia | apply Hs; lia].
        -- rewrite (Hkeep (j + 1)%Z) by lia.
           destruct (Z_le_gt_dec j (n_nodes cfg - 3)) as [Hin' | Hend'].
           ++ rewrite (Hmix j) by lia.
              apply mix_le_r; [exact Hf | apply Hs; lia].
           ++ rewrite (Hkeep j) by lia. apply Hs; lia.
Qed.

End Stratified.

(** ** Runs of a stable scheme *)

Section StableRun.

Variable c : TankConfig.
Variables Tin_charge m_flow T_amb T_init : list Q.
Variable T : list (list Q).
Variable QL : list Q.
Hypothesis Hc : validated c.
Hypothesis Hu1 : ua_node c * dt c <= mass_node c * cp c.
Hypothesis HG1 : 2 * G_cond c * dt c <= mass_node c * cp c.
Hypothesis Hlm : len m_flow = n_steps c.
Hypothesis Hla : len T_amb = n_steps c.
Hypothesis Hli : len Tin_charge = n_steps c.
Hypothesis Hrun : run_of c Tin_charge m_flow T_amb T_init T QL.

Lemma run_bounded (lo hi : Q) :
  Forall (between lo hi) T_init ->
  (Qltb 0 (ua_node c) = true -> Forall (between lo hi) T_amb) ->
  (forall t, (0 <= t < n_steps c)%Z -> 0 < node m_flow t ->
     between lo hi (node Tin_charge t)) ->
  forall t, (0 <= t <= n_steps c)%Z -> Forall (between lo hi) (row_at T t).
Proof.
  intros Hinit Hamb Hin.
  pose proof (mass_node_pos _ Hc) as Hm.
  pose proof (ua_node_nonneg _ Hc) as Hu0.
  pose proof (G_cond_nonneg _ Hc) as HG0.
  apply (run_rows_invariant c Tin_charge m_flow T_amb T_init T QL);
    [exact Hrun | exact Hinit |].
  intros t a a' Ht Ha Hnext HP.
  apply (next_row_between c (mass_node c) (ua_node c) (G_cond c)
           Tin_charge m_flow T_amb Hc Hm Hu0 Hu1 HG0 HG1 Hlm Hla Hli
           lo hi t a a'); auto.
  intros Hg. apply (Forall_node _ _ _ (Hamb Hg)). lia.
Qed.

Lemma run_stratified :
  Forall (fun mf => mf <= 0) m_flow -> stratified T_init ->
  forall t, (0 <= t <= n_steps c)%Z -> stratified (row_at T t).
Proof.
  intros Hflow Hinit.
  pose proof (mass_node_pos _ Hc) as Hm.
  pose proof (ua_node_nonneg _ Hc) as Hu0.
  pose proof (G_cond_nonneg _ Hc) as HG0.
  apply (run_rows_invariant c Tin_charge m_flow T_amb T_init T QL);
    [exact Hrun | exact Hinit |].
  intros t a a' Ht Ha Hnext HP.
  destruct (next_row_advection c (mass_node c) (ua_node c) (G_cond c)
              Tin_charge m_flow T_amb Hc Hlm Hla t a Ht Ha) as [Eadv Hlb].
  rewrite Eadv in Hnext. unfold advection in Hnext.
  assert (Hmf : node m_flow t <= 0)
    by (apply (Forall_node _ _ _ Hflow); lia).
  rewrite (proj2 (Qltb_false 0 (node m_flow t))) in Hnext by exact Hmf.
  pose proof (before_advection_stratified c (mass_node c) (ua_node c)
                (G_cond c) Hc Hm Hu0 Hu1 HG0 HG1 T_amb t a Ha HP) as Hb.
  destruct (Qltb (node m_flow t) 0).
  - now apply (discharging_stratified c (mass_node c) Hc Hm (node m_flow t)
                 (before_advection c (mass_node c) (ua_node c) (G_cond c)
                    T_amb t a) a').
  - now injection Hnext as <-.
Qed.

(** One step from two rows of which the second is nowhere cooler. *)
Lemma next_row_monotone (t : Z) (a b a' b' : list Q) :
  (0 <= t < n_steps c)%Z -> len a = n_nodes c ->
  next_row c (mass_node c) (ua_node c) (G_cond c)
    Tin_charge m_flow T_amb t a = Ok a' ->
  next_row c (mass_node c) (ua_node c) (G_cond c)
    Tin_charge m_flow T_amb t b = Ok b' ->
  Forall2 Qle a b -> Forall2 Qle a' b'.
Proof.
  intros Ht Ha Hnext Hnext' Hab.
  pose proof (mass_node_pos _ Hc) as Hm. pose proof (v_cp _ Hc) as Hcp.
  pose proof (v_dt _ Hc) as Hdt.
  pose proof (ua_node_nonneg _ Hc) as Hu0.
  pose proof (G_cond_nonneg _ Hc) as HG0.
  assert (Hmc : 0 < mass_node c * cp c) by now apply Qmult_lt_0_compat.
  assert (Hud : 0 <= ua_node c * dt c) by (apply Qmult_le_0_compat; lra).
  assert (HGd : 0 <= G_cond c * dt c) by (apply Qmult_le_0_compat; lra).
  apply (next_row_rel c (mass_node c) (ua_node c) (G_cond c) Qle Hc Hm)
    with (Tin_charge := Tin_charge) (Tin_charge' := Tin_charge)
         (m_flow := m_flow) (T_amb := T_amb) (T_amb' := T_amb)
         (t := t) (a := a) (b := b); auto.
  - intros. now apply loss_update_le.
  - intros. unfold conducted. now apply end_update_le.
  - intros. unfold conducted. now apply mid_update_le.
  - intros. now apply combo_le.
  - intros _. apply Qle_refl.
  - intros _. apply Qle_refl.
Qed.

(** With inputs that do not change from step to step, every step is the
    same function of the row. *)
Lemma constant_steps (t t' : Z) (row : list Q) :
  (forall s s', (0 <= s < n_steps c)%Z -> (0 <= s' < n_steps c)%Z ->
     node Tin_charge s = node Tin_charge s' /\
     node m_flow s = node m_flow s' /\ node T_amb s = node T_amb s') ->
  (0 <= t < n_steps c)%Z -> (0 <= t' < n_steps c)%Z ->
  next_row c (mass_node c) (ua_node c) (G_cond c)
    Tin_charge m_flow T_amb t row =
  next_row c (mass_node c) (ua_node c) (G_cond c)
    Tin_charge m_flow T_amb t' row.
Proof.
  intros Hconst Ht Ht'. destruct (Hconst t t' Ht Ht') as (E1 & E2 & E3).
  apply next_row_series; rewrite !getitem_node by lia; congruence.
Qed.

Lemma run_rising :
  (forall s s', (0 <= s < n_steps c)%Z -> (0 <= s' < n_steps c)%Z ->
     node Tin_charge s = node Tin_charge s' /\
     node m_flow s = node m_flow s' /\ node T_amb s = node T_amb s') ->
  Forall2 Qle (row_at T 0) (row_at T 1) ->
  forall t, (0 <= t < n_steps c)%Z ->
    Forall2 Qle (row_at T t) (row_at T (t + 1)).
Proof.
  intros Hconst H01.
  destruct Hrun as [HlT Hrows Hinit Hstep _ _].
  assert (Hall : forall k : nat, (Z.of_nat k < n_steps c)%Z ->
            Forall2 Qle (row_at T (Z.of_nat k)) (row_at T (Z.of_nat k + 1))).
  { induction k as [| k IH]; intros Hk; [exact H01 |].
    replace (Z.of_nat (S k)) with (Z.of_nat k + 1)%Z by lia.
    apply (next_row_monotone (Z.of_nat k) (row_at T (Z.of_nat k))
             (row_at T (Z.of_nat k + 1))).
    - lia.
    - apply Hrows. lia.
    - apply Hstep. lia.
    - rewrite (constant_steps (Z.of_nat k) (Z.of_nat k + 1)) by (auto; lia).
      apply Hstep. lia.
    - apply IH. lia. }
  intros t Ht. rewrite <- (Z2Nat.id t) by lia. apply Hall. lia.
Qed.

Lemma run_falling :
  (forall s s', (0 <= s < n_steps c)%Z -> (0 <= s' < n_steps c)%Z ->
     node Tin_charge s = node Tin_charge s' /\
     node m_flow s = node m_flow s' /\ node T_amb s = node T_amb s') ->
  Forall2 Qle (row_at T 1) (row_at T 0) ->
  forall t, (0 <= t < n_steps c)%Z ->
    Forall2 Qle (row_at T (t + 1)) (row_at T t).
Proof.
  intros Hconst H10.
  destruct Hrun as [HlT Hrows Hinit Hstep _ _].
  assert (Hall : forall k : nat, (Z.of_nat k < n_steps c)%Z ->
            Forall2 Qle (row_at T (Z.of_nat k + 1)) (row_at T (Z.of_nat k))).
  { induction k as [| k IH]; intros Hk; [exact H10 |].
    replace (Z.of_nat (S k)) with (Z.of_nat k + 1)%Z by lia.
    apply (next_row_monotone (Z.of_nat k) (row_at T (Z.of_nat k + 1))
             (row_at T (Z.of_nat k))).
    - lia.
    - apply Hrows. lia.
    - rewrite (constant_steps (Z.of_nat k) (Z.of_nat k + 1)) by (auto; lia).
      apply Hstep. lia.
    - apply Hstep. lia.
    - apply IH. lia. }
  intros t Ht. rewrite <- (Z2Nat.id t) by lia. apply Hall. lia.
Qed.

End StableRun.

(** The stability conditions, stated for the configuration, hold for the
    configuration [validate] leaves behind. *)
Lemma stable_validated (cfg : TankConfig) :
  ua_node cfg * dt cfg <= mass_node cfg * cp cfg ->
  2 * G_cond cfg * dt cfg <= mass_node cfg * cp cfg ->
  let c := fst (validate cfg) in
  ua_node c * dt c <= mass_node c * cp c /\
  2 * G_cond c * dt c <= mass_node c * cp c.
Proof.
  intros Hu HG c.
  destruct (validate_constants cfg) as (Em & Eu & EG & Edt & Ecp).
  unfold c. rewrite Em, Eu, EG, Edt, Ecp. now split.
Qed.

(** ** Bounds on a stable run *)

(** X10.  The discrete maximum principle, in exact arithmetic.  When the
    explicit scheme is stable ([ua_node * dt <= mass_node * cp] and
    [2 * G_cond * dt <= mass_node * cp]), bounds that hold for the initial
    profile, for the ambient temperature if the tank loses heat, and for
    the inlet temperature at every charging step hold for every
    temperature the run returns.  (In binary64 a bound can be missed by
    one unit in the last place, [charging_front_binary64].) *)
Theorem stable_run_bounded
    (cfg : TankConfig) (Tin_charge m_flow T_amb T_init : list Q) (lo hi : Q) :
  well_formed cfg Tin_charge m_flow T_amb T_init ->
  ua_node cfg * dt cfg <= mass_node cfg * cp cfg ->
  2 * G_cond cfg * dt cfg <= mass_node cfg * cp cfg ->
  Forall (between lo hi) T_init ->
  (0 < ua_loss cfg -> Forall (between lo hi) T_amb) ->
  (forall t, (0 <= t < n_steps cfg)%Z -> 0 < node m_flow t ->
     between lo hi (node Tin_charge t)) ->
  exists out,
    simulate_stratified_tank cfg Tin_charge m_flow T_amb T_init = Ok out /\
    Forall (Forall (between lo hi)) (T out) /\
    Forall (between lo hi) (T_top out) /\
    Forall (between lo hi) (T_bot out).
Proof.
  intros Hwf Hstab_u Hstab_G Hinit Hamb Hin.
  destruct (simulate_run _ _ _ _ _ Hwf)
    as (out & c & Hout & Ec & Hc & Hrun & Htop & Hbot & [En Es]
        & (Em & Eu & EG & Edt & Ecp) & (Hlm & Hla & Hli) & Hgu & HgG).
  destruct (stable_validated cfg Hstab_u Hstab_G) as [Hu1 HG1].
  rewrite <- Ec in Hu1, HG1.
  assert (Hrows : forall t, (0 <= t <= n_steps c)%Z ->
                    Forall (between lo hi) (row_at (T out) t)).
  { apply (run_bounded c Tin_charge m_flow T_amb T_init (T out) (Q_loss out));
      auto.
    - intros Hg. rewrite Hgu in Hg. apply Qltb_true in Hg. auto.
    - intros t Ht. apply Hin. lia. }
  pose proof (run_len_T _ _ _ _ _ _ _ Hrun) as HlT.
  pose proof (run_rows _ _ _ _ _ _ _ Hrun) as Hlen.
  pose proof (v_nodes _ Hc) as Hn.
  assert (Hall : Forall (Forall (between lo hi)) (T out)).
  { apply Forall_forall. intros row Hrow.
    destruct (row_at_elem _ _ Hrow) as (t & Ht & <-). apply Hrows. lia. }
  exists out. split; [exact Hout |]. split; [exact Hall |].
  assert (Hcol : forall j, (0 <= j < n_nodes c)%Z ->
            Forall (between lo hi) ((fun row => node row j) <$> T out)).
  { intros j Hj. apply Forall_fmap, Forall_forall. intros row Hrow.
    destruct (row_at_elem _ _ Hrow) as (t & Ht & <-). cbn.
    apply Forall_node; [apply Hrows; lia | rewrite Hlen by lia; exact Hj]. }
  split.
  - rewrite Htop. unfold column_top. apply Hcol. lia.
  - rewrite Hbot. unfold column_bot. apply Hcol. lia.
Qed.

(** ** Stratification of a run *)

(** X11.  In exact arithmetic, a run that never charges keeps a stratified
    tank stratified, provided the explicit scheme is stable: every row the
    run returns is warmer towards the top, and [T_bot] never exceeds
    [T_top].  (In binary64 two nodes within rounding of each other can
    change places, [discharge_stratification_binary64].) *)
Theorem stratification_preserved
    (cfg : TankConfig) (Tin_charge m_flow T_amb T_init : list Q) :
  well_formed cfg Tin_charge m_flow T_amb T_init ->
  ua_node cfg * dt cfg <= mass_node cfg * cp cfg ->
  2 * G_cond cfg * dt cfg <= mass_node cfg * cp cfg ->
  Forall (fun mf => mf <= 0) m_flow ->
  stratified T_init ->
  exists out,
    simulate_stratified_tank cfg Tin_charge m_flow T_amb T_init = Ok out /\
    forall t, (0 <= t <= n_steps cfg)%Z ->
      stratified (row_at (T out) t) /\ node (T_bot out) t <= node (T_top out) t.
Proof.
  intros Hwf Hstab_u Hstab_G Hflow Hinit.
  destruct (simulate_run _ _ _ _ _ Hwf)
    as (out & c & Hout & Ec & Hc & Hrun & Htop & Hbot & [En Es]
        & (Em & Eu & EG & Edt & Ecp) & (Hlm & Hla & Hli) & Hgu & HgG).
  destruct (stable_validated cfg Hstab_u Hstab_G) as [Hu1 HG1].
  rewrite <- Ec in Hu1, HG1.
  pose proof (run_stratified c Tin_charge m_flow T_amb T_init (T out)
                (Q_loss out) Hc Hu1 HG1 Hlm Hla Hrun Hflow Hinit) as Hrows.
  exists out. split; [exact Hout |]. intros t Ht. rewrite <- Es in Ht.
  split; [now apply Hrows |].
  pose proof (run_len_T _ _ _ _ _ _ _ Hrun) as HlT.
  pose proof (run_rows _ _ _ _ _ _ _ Hrun t Ht) as Hlen.
  pose proof (v_nodes _ Hc) as Hn.
  rewrite Htop, Hbot. unfold column_top, column_bot.
  rewrite !node_fmap_row by lia.
  apply stratified_ends; [now apply Hrows | lia | lia].
Qed.

(** ** Constant inputs *)

(** X12.  In exact arithmetic, with a mass flow, an inlet and an ambient
    temperature that do not change from step to step, a stable run is
    monotone from its first step on: if no node is cooler after the first
    step than before, no node ever cools from one row to the next; if none
    is warmer, none ever warms.  (In binary64 a run that has all but
    reached its limit can move against its direction in the last place,
    [constant_inputs_binary64].) *)
Theorem constant_inputs_monotone
    (cfg : TankConfig) (Tin_charge m_flow T_amb T_init : list Q)
    (Tin mf Tamb : Q) :
  well_formed cfg Tin_charge m_flow T_amb T_init ->
  ua_node cfg * dt cfg <= mass_node cfg * cp cfg ->
  2 * G_cond cfg * dt cfg <= mass_node cfg * cp cfg ->
  Forall (fun x => x = Tin) Tin_charge ->
  Forall (fun x => x = mf) m_flow ->
  Forall (fun x => x = Tamb) T_amb ->
  exists out,
    simulate_stratified_tank cfg Tin_charge m_flow T_amb T_init = Ok out /\
    (Forall2 Qle (row_at (T out) 0) (row_at (T out) 1) ->
     forall t, (0 <= t < n_steps cfg)%Z ->
       Forall2 Qle (row_at (T out) t) (row_at (T out) (t + 1))) /\
    (Forall2 Qle (row_at (T out) 1) (row_at (T out) 0) ->
     forall t, (0 <= t < n_steps cfg)%Z ->
       Forall2 Qle (row_at (T out) (t + 1)) (row_at (T out) t)).
Proof.
  intros Hwf Hstab_u Hstab_G HTin Hmf HTamb.
  destruct (simulate_run _ _ _ _ _ Hwf)
    as (out & c & Hout & Ec & Hc & Hrun & Htop & Hbot & [En Es]
        & (Em & Eu & EG & Edt & Ecp) & (Hlm & Hla & Hli) & Hgu & HgG).
  destruct (stable_validated cfg Hstab_u Hstab_G) as [Hu1 HG1].
  rewrite <- Ec in Hu1, HG1.
  assert (Hconst : forall s s', (0 <= s < n_steps c)%Z -> (0 <= s' < n_steps c)%Z ->
     node Tin_charge s = node Tin_charge s' /\
     node m_flow s = node m_flow s' /\ node T_amb s = node T_amb s').
  { intros s s' Hs Hs'.
    rewrite (Forall_node _ _ s HTin), (Forall_node _ _ s' HTin) by lia.
    rewrite (Forall_node _ _ s Hmf), (Forall_node _ _ s' Hmf) by lia.
    rewrite (Forall_node _ _ s HTamb), (Forall_node _ _ s' HTamb) by lia.
    repeat split. }
  exists out. split; [exact Hout |]. rewrite <- Es. split; intros H01.
  - now apply (run_rising c Tin_charge m_flow T_amb T_init (T out) (Q_loss out)).
  - now apply (run_falling c Tin_charge m_flow T_amb T_init (T out) (Q_loss out)).
Qed.

(** ** Discharging, node by node *)

Lemma advection_discharging (cfg : TankConfig) (m : Q) (Tin_charge : list Q)
    (t : Z) (mf : Q) (Tn : list Q) :
  mf < 0 -> advection cfg m Tin_charge t mf Tn = discharging cfg m mf Tn.
Proof.
  intros Hmf. unfold advection.
  rewrite (proj2 (Qltb_false 0 mf)) by lra.
  now rewrite (proj2 (Qltb_true mf 0)) by exact Hmf.
Qed.


(** X14.  Discharging through the bottom outlet, for every profile.  In a tank
    of two nodes node 0 is mixed once with node 1.  With three nodes or
    more node 0 is mixed with node 1 twice, the nodes from 1 to
    [n_nodes - 3] once with the node above as it was before the step, and
    the two top nodes keep their temperature. *)
Theorem discharge_at_bottom
    (cfg : TankConfig) (Tin_charge : list Q) (t : Z) (mf : Q) (Tn : list Q) :
  validated cfg ->
  discharge_outlet cfg = 0%Z ->
  len Tn = n_nodes cfg ->
  mf < 0 ->
  let frac := py_min 1 ((Qabs mf * dt cfg) / mass_node cfg) in
  exists Tn',
    advection cfg (mass_node cfg) Tin_charge t mf Tn = Ok Tn' /\
    len Tn' = len Tn /\
    (n_nodes cfg = 2%Z ->
       node Tn' 0 = (1 - frac) * node Tn 0 + frac * node Tn 1 /\
       node Tn' 1 = node Tn 1) /\
    ((3 <= n_nodes cfg)%Z ->
       node Tn' 0 =
         (1 - frac) * ((1 - frac) * node Tn 0 + frac * node Tn 1)
         + frac * node Tn 1 /\
       (forall j, (1 <= j <= n_nodes cfg - 3)%Z ->
          node Tn' j = (1 - frac) * node Tn j + frac * node Tn (j + 1)) /\
       (forall j, (n_nodes cfg - 2 <= j < n_nodes cfg)%Z ->
          node Tn' j = node Tn j)).
Proof.
  intros Hc Hout Hlen Hmf frac. pose proof (v_nodes _ Hc) as Hn.
  rewrite advection_discharging by exact Hmf.
  destruct (Z.eq_dec (n_nodes cfg) 2%Z) as [H2 | H3].
  - rewrite (discharging_bottom_two cfg (mass_node cfg) mf Tn Hout H2 Hlen).
    eexists. split; [reflexivity |]. split; [apply len_insert |].
    split; [| lia]. intros _.
    split; [apply node_insert_eq | apply node_insert_ne]; lia.
  - destruct (discharging_bottom_nodes cfg (mass_node cfg) Hout ltac:(lia)
                mf Tn Hlen) as (Tn' & Hrun & Hl & H0 & Hmix & Hkeep).
    exists Tn'. split; [exact Hrun |]. split; [exact Hl |].
    split; [lia |]. intros _. split; [exact H0 |]. split; assumption.
Qed.

(** ** Charging faster than one node per step *)

Lemma py_min_saturated (x : Q) : 1 <= x -> py_min 1 x = 1.
Proof.
  intros Hx. unfold py_min.
  now rewrite (proj2 (Qltb_false x 1)) by exact Hx.
Qed.

(** X15.  When the fluid charged in one step is at least the mass of a node
    ([m_flow * dt >= mass_node], so that [frac] is cut at 1), the step
    copies the temperature of the inlet node, mixed with the incoming
    fluid, to every node above the inlet: whatever the profile was, the
    tank is uniform from the inlet upwards after one step. *)
Theorem saturated_charging_floods
    (cfg : TankConfig) (Tin_charge : list Q) (t : Z) (mf : Q) (Tn : list Q) :
  validated cfg ->
  len Tn = n_nodes cfg ->
  (0 <= t < len Tin_charge)%Z ->
  mass_node cfg <= mf * dt cfg ->
  exists Tn',
    advection cfg (mass_node cfg) Tin_charge t mf Tn = Ok Tn' /\
    1 # 2 <= alpha_of cfg (mass_node cfg) mf /\
    node Tn' (charge_inlet cfg) =
      (1 - alpha_of cfg (mass_node cfg) mf) * node Tn (charge_inlet cfg)
      + alpha_of cfg (mass_node cfg) mf * node Tin_charge t /\
    forall j, (charge_inlet cfg <= j < n_nodes cfg)%Z ->
      node Tn' j == node Tn' (charge_inlet cfg).
Proof.
  intros Hc Hlen Ht Hsat.
  pose proof (mass_node_pos _ Hc) as Hm. pose proof (v_dt _ Hc) as Hdt.
  assert (Hmf : 0 < mf).
  { destruct (Qlt_le_dec 0 mf) as [H | H]; [exact H | exfalso].
    assert (0 <= (- mf) * dt cfg) by (apply Qmult_le_0_compat; lra). lra. }
  destruct (charging_nodes cfg (mass_node cfg) Hc Tin_charge t mf Tn Hlen Ht)
    as (Tn' & Hrun & Hl & _ & Hin & Habove).
  exists Tn'. unfold advection.
  rewrite (proj2 (Qltb_true 0 mf)) by exact Hmf.
  split; [exact Hrun |]. split; [| split; [exact Hin |]].
  { unfold alpha_of. apply Qle_shift_div_l; lra. }
  assert (Hfrac : frac_of cfg (mass_node cfg) mf = 1).
  { unfold frac_of. apply py_min_saturated. apply Qle_shift_div_l; lra. }
  rewrite Hfrac in Habove.
  assert (Hall : forall k : nat,
            (charge_inlet cfg + Z.of_nat k < n_nodes cfg)%Z ->
            node Tn' (charge_inlet cfg + Z.of_nat k) == node Tn' (charge_inlet cfg)).
  { induction k as [| k IH]; intros Hk.
    - now replace (charge_inlet cfg + Z.of_nat 0)%Z with (charge_inlet cfg) by lia.
    - rewrite Habove by lia.
      replace (charge_inlet cfg + Z.of_nat (S k) - 1)%Z
        with (charge_inlet cfg + Z.of_nat k)%Z by lia.
      rewrite IH by lia. ring. }
  intros j Hj.
  replace j with (charge_inlet cfg + Z.of_nat (Z.to_nat (j - charge_inlet cfg)))%Z
    by lia.
  apply Hall. lia.
Qed.

(** ** Continuing a run from its final state *)

Lemma next_row_with_n_steps (c : TankConfig) (n : Z) (m u G : Q)
    (Tin_charge m_flow T_amb : list Q) (t : Z) (row : list Q) :
  next_row (with_n_steps c n) m u G Tin_charge m_flow T_amb t row =
  next_row c m u G Tin_charge m_flow T_amb t row.
Proof. reflexivity. Qed.

Lemma constants_with_n_steps (c : TankConfig) (n : Z) :
  mass_node (with_n_steps c n) = mass_node c /\
  ua_node (with_n_steps c n) = ua_node c /\
  G_cond (with_n_steps c n) = G_cond c.
Proof. repeat split. Qed.

(** Validation looks at [n_steps] only to check that it is positive. *)
Lemma validate_with_n_steps (c : TankConfig) (n n' : Z) :
  snd (validate (with_n_steps c n)) = Ok tt -> (1 <= n')%Z ->
  validate (with_n_steps c n') =
    (with_n_steps (fst (validate (with_n_steps c n))) n', Ok tt).
Proof.
  intros Hv Hn'.
  destruct (validate_cases (with_n_steps c n)) as [[_ [msg Hm]] | [Hni Hok]];
    [rewrite Hm in Hv; discriminate |].
  destruct (validate_cases (with_n_steps c n')) as [[Hi _] | [_ Hok']].
  - exfalso. apply Hni. unfold invalid, normalized_outlet in *.
    cbn [with_n_steps n_nodes height volume rho cp dt n_steps charge_inlet
         discharge_outlet] in *.
    destruct Hi as [?|[?|[?|[?|[?|[?|[?|[?|?]]]]]]]]; try tauto. lia.
  - rewrite Hok', Hok. reflexivity.
Qed.

Lemma getitem_app_l {A} (l k : list A) (t : Z) :
  (0 <= t < len l)%Z -> getitem (l ++ k) t = getitem l t.
Proof.
  intros Ht. unfold getitem, norm_index, in_bounds, len in *.
  rewrite length_app.
  destruct (Z.ltb_spec t 0); [lia |].
  destruct (Z.leb_spec 0 t); [| lia].
  destruct (Z.ltb_spec t (Z.of_nat (length l + length k))); [| lia].
  destruct (Z.ltb_spec t (Z.of_nat (length l))); [| lia]. cbn.
  now rewrite lookup_app_l by lia.
Qed.

Lemma getitem_app_r {A} (l k : list A) (t : Z) :
  (0 <= t < len k)%Z -> getitem (l ++ k) (len l + t) = getitem k t.
Proof.
  intros Ht. unfold getitem, norm_index, in_bounds, len in *.
  rewrite length_app.
  destruct (Z.ltb_spec (Z.of_nat (length l) + t) 0); [lia |].
  destruct (Z.ltb_spec t 0); [lia |].
  destruct (Z.leb_spec 0 (Z.of_nat (length l) + t)); [| lia].
  destruct (Z.leb_spec 0 t); [| lia].
  destruct (Z.ltb_spec (Z.of_nat (length l) + t)
              (Z.of_nat (length l + length k))); [| lia].
  destruct (Z.ltb_spec t (Z.of_nat (length k))); [| lia]. cbn.
  rewrite lookup_app_r by lia.
  now replace (Z.to_nat (Z.of_nat (length l) + t) - length l)%nat
    with (Z.to_nat t) by lia.
Qed.

Lemma node_app_l (l k : list Q) (t : Z) :
  (0 <= t < len l)%Z -> node (l ++ k) t = node l t.
Proof.
  intros Ht. unfold node. apply lookup_total_app_l. unfold len in Ht. lia.
Qed.

Lemma node_app_r (l k : list Q) (t : Z) :
  (0 <= t)%Z -> node (l ++ k) (len l + t) = node k t.
Proof.
  intros Ht. unfold node, len. rewrite lookup_total_app_r by lia.
  f_equal. lia.
Qed.

Lemma len_app {A} (l k : list A) : len (l ++ k) = (len l + len k)%Z.
Proof. unfold len. rewrite length_app. lia. Qed.

(** Rows [0 .. a] of the first run followed by rows [1 .. b] of the
    second. *)
Lemma row_at_joined (T1 T2 : list (list Q)) (a t : Z) :
  len T1 = (a + 1)%Z -> (0 <= t)%Z ->
  row_at (T1 ++ drop 1 T2) t =
    if (t <=? a)%Z then row_at T1 t else row_at T2 (t - a).
Proof.
  intros H1 Ht. unfold row_at, len in *.
  destruct (Z.leb_spec t a).
  - apply lookup_total_app_l. lia.
  - rewrite lookup_total_app_r by lia. rewrite lookup_total_drop.
    f_equal. lia.
Qed.

(** X16.  A run of [a + b] steps is a run of [a] steps followed by a run of [b]
    steps that starts from the final row of the first and reads the rest
    of the series (as [main] chains its scenarios): the second run
    continues the temperature field and the loss series of the first. *)
Theorem simulate_restart
    (cfg : TankConfig) (a b : Z)
    (Tin1 Tin2 m_flow1 m_flow2 T_amb1 T_amb2 T_init : list Q) :
  well_formed (with_n_steps cfg a) Tin1 m_flow1 T_amb1 T_init ->
  (1 <= b)%Z -> len Tin2 = b -> len m_flow2 = b -> len T_amb2 = b ->
  exists out1 out2 out,
    simulate_stratified_tank (with_n_steps cfg a)
      Tin1 m_flow1 T_amb1 T_init = Ok out1 /\
    simulate_stratified_tank (with_n_steps cfg b)
      Tin2 m_flow2 T_amb2 (row_at (T out1) a) = Ok out2 /\
    simulate_stratified_tank (with_n_steps cfg (a + b))
      (Tin1 ++ Tin2) (m_flow1 ++ m_flow2) (T_amb1 ++ T_amb2) T_init = Ok out /\
    T out = T out1 ++ drop 1 (T out2) /\
    T_top out = T_top out1 ++ drop 1 (T_top out2) /\
    T_bot out = T_bot out1 ++ drop 1 (T_bot out2) /\
    Q_loss out = Q_loss out1 ++ Q_loss out2.
Proof.
  intros Hwf1 Hb HTin2 Hm2 HTa2.
  pose proof (wf_valid _ _ _ _ _ Hwf1) as Hv1.
  destruct (simulate_run _ _ _ _ _ Hwf1)
    as (out1 & c & Hout1 & Ec & Hc & Hrun1 & Htop1 & Hbot1 & [En Es]
        & (Em & Eu & EG & Edt & Ecp) & (Hlm1 & Hla1 & Hli1) & _).
  cbn [with_n_steps n_steps n_nodes] in En, Es.
  pose proof (v_steps _ Hc) as Ha. rewrite Es in Ha, Hlm1, Hla1, Hli1.
  pose proof (validate_with_n_steps cfg a b Hv1 Hb) as Hvb.
  pose proof (validate_with_n_steps cfg a (a + b) Hv1 ltac:(lia)) as Hvab.
  rewrite <- Ec in Hvb, Hvab.
  destruct Hrun1 as [HlT1 Hrows1 Hinit1 Hstep1 HlQ1 Hloss1]. rewrite Es in *.
  (* the second run *)
  assert (Hwf2 : well_formed (with_n_steps cfg b) Tin2 m_flow2 T_amb2
                   (row_at (T out1) a)).
  { constructor; cbn [with_n_steps n_steps n_nodes]; try assumption.
    - now rewrite Hvb.
    - rewrite Hrows1 by lia. exact En. }
  destruct (simulate_run _ _ _ _ _ Hwf2)
    as (out2 & c2 & Hout2 & Ec2 & _ & Hrun2 & Htop2 & Hbot2 & _).
  rewrite Hvb in Ec2. cbn [fst] in Ec2. subst c2.
  destruct Hrun2 as [HlT2 Hrows2 Hinit2 Hstep2 HlQ2 Hloss2].
  cbn [with_n_steps n_steps n_nodes] in HlT2, Hrows2, Hstep2, HlQ2, Hloss2.
  (* the whole run *)
  assert (Hwf : well_formed (with_n_steps cfg (a + b))
                  (Tin1 ++ Tin2) (m_flow1 ++ m_flow2) (T_amb1 ++ T_amb2) T_init).
  { constructor; cbn [with_n_steps n_steps n_nodes]; rewrite ?len_app; try lia.
    - now rewrite Hvab.
    - apply (wf_T_init _ _ _ _ _ Hwf1). }
  destruct (simulate_run _ _ _ _ _ Hwf)
    as (out & c3 & Hout & Ec3 & _ & Hrun & Htop & Hbot & _).
  rewrite Hvab in Ec3. cbn [fst] in Ec3. subst c3.
  destruct Hrun as [HlT Hrows Hinit Hstep HlQ Hloss].
  cbn [with_n_steps n_steps n_nodes] in HlT, Hrows, Hstep, HlQ, Hloss.
  destruct (constants_with_n_steps c b) as (Em2 & Eu2 & EG2).
  destruct (constants_with_n_steps c (a + b)) as (Em3 & Eu3 & EG3).
  rewrite Em2, Eu2, EG2 in Hstep2. rewrite Eu2 in Hloss2.
  rewrite Em3, Eu3, EG3 in Hstep. rewrite Eu3 in Hloss.
  (* the rows of the whole run are those of the two runs *)
  assert (HA : forall t, (0 <= t <= a)%Z -> row_at (T out) t = row_at (T out1) t).
  { apply (rows_follow
             (next_row (with_n_steps c (a + b)) (mass_node c) (ua_node c) (G_cond c)
                (Tin1 ++ Tin2) (m_flow1 ++ m_flow2) (T_amb1 ++ T_amb2))
             (next_row c (mass_node c) (ua_node c) (G_cond c)
                Tin1 m_flow1 T_amb1)).
    - now rewrite Hinit, Hinit1.
    - intros t Ht. apply Hstep. lia.
    - intros t Ht. apply Hstep1. lia.
    - intros t row Ht. rewrite next_row_with_n_steps.
      apply next_row_series; apply getitem_app_l; lia. }
  assert (HB : forall t, (0 <= t <= b)%Z ->
                 row_at (T out) (a + t) = row_at (T out2) t).
  { apply (rows_follow
             (fun t => next_row (with_n_steps c (a + b)) (mass_node c) (ua_node c)
                         (G_cond c) (Tin1 ++ Tin2) (m_flow1 ++ m_flow2)
                         (T_amb1 ++ T_amb2) (a + t))
             (next_row (with_n_steps c b) (mass_node c) (ua_node c) (G_cond c)
                Tin2 m_flow2 T_amb2)
             (fun t => row_at (T out) (a + t)) (row_at (T out2))).
    - rewrite Hinit2. replace (a + 0)%Z with a by lia. apply HA. lia.
    - intros t Ht. replace (a + (t + 1))%Z with (a + t + 1)%Z by lia.
      apply Hstep. lia.
    - intros t Ht. apply Hstep2. lia.
    - intros t row Ht. rewrite !next_row_with_n_steps.
      apply next_row_series.
      + rewrite <- Hli1 at 1. apply getitem_app_r. lia.
      + rewrite <- Hlm1 at 1. apply getitem_app_r. lia.
      + rewrite <- Hla1 at 1. apply getitem_app_r. lia. }
  assert (ET : T out = T out1 ++ drop 1 (T out2)).
  { apply rows_ext.
    - rewrite len_app. unfold len at 3. rewrite length_drop.
      unfold len in *. lia.
    - intros t Ht. rewrite (row_at_joined _ _ a) by lia.
      destruct (Z.leb_spec t a); [apply HA; lia |].
      replace t with (a + (t - a))%Z at 1 by lia. apply HB. lia. }
  exists out1, out2, out.
  split; [exact Hout1 |]. split; [exact Hout2 |]. split; [exact Hout |].
  split; [exact ET |].
  split; [| split].
  - rewrite Htop, Htop1, Htop2, ET. unfold column_top.
    cbn [with_n_steps n_nodes]. now rewrite fmap_app, fmap_drop.
  - rewrite Hbot, Hbot1, Hbot2, ET. unfold column_bot.
    now rewrite fmap_app, fmap_drop.
  - apply nodes_ext; [rewrite len_app; lia |].
    intros t Ht. rewrite HlQ in Ht. rewrite Hloss by lia.
    destruct (Z_lt_le_dec t a) as [Hlt | Hge].
    + assert (E : node (Q_loss out1 ++ Q_loss out2) t = node (Q_loss out1) t)
        by (apply node_app_l; lia).
      rewrite E, Hloss1 by lia. unfold recorded_loss.
      now rewrite (node_app_l T_amb1), HA by lia.
    + assert (E : node (Q_loss out1 ++ Q_loss out2) t
                  = node (Q_loss out2) (t - a)).
      { replace t with (len (Q_loss out1) + (t - a))%Z at 1 by lia.
        apply node_app_r. lia. }
      assert (E2 : node (T_amb1 ++ T_amb2) t = node T_amb2 (t - a)).
      { replace t with (len T_amb1 + (t - a))%Z at 1 by lia.
        apply node_app_r. lia. }
      assert (E3 : row_at (T out) t = row_at (T out2) (t - a)).
      { replace t with (a + (t - a))%Z at 1 by lia. apply HB. lia. }
      rewrite E, Hloss2 by lia. unfold recorded_loss. now rewrite E2, E3.
Qed.

(** ** The heat a discharging step draws *)

Lemma np_sum_take_snoc (l : list Q) (k : nat) :
  (k < length l)%nat -> np_sum (take (S k) l) == np_sum (take k l) + l !!! k.
Proof.
  intros Hk. rewrite (take_S_r l k (l !!! k)).
  - rewrite np_sum_app, np_sum_cons, np_sum_nil. lra.
  - now apply list_lookup_lookup_total_lt.
Qed.

(** X17.  Discharging through an outlet above the bottom node lowers the heat
    content of the tank by what a share [frac] of one node gives up when
    fluid at the temperature of the outlet node is replaced by fluid at the
    temperature of the bottom node. *)
Theorem discharge_heat_drawn
    (cfg : TankConfig) (Tin_charge : list Q) (t : Z) (mf : Q) (Tn : list Q) :
  validated cfg ->
  (0 < discharge_outlet cfg)%Z ->
  len Tn = n_nodes cfg ->
  mf < 0 ->
  let frac := py_min 1 ((Qabs mf * dt cfg) / mass_node cfg) in
  exists Tn',
    advection cfg (mass_node cfg) Tin_charge t mf Tn = Ok Tn' /\
    energy cfg Tn' ==
      energy cfg Tn
      - frac * mass_node cfg * (node Tn (discharge_outlet cfg) - node Tn 0).
Proof.
  intros Hc Hout Hlen Hmf frac. pose proof (v_outlet _ Hc) as Hrange.
  destruct (discharging_above_nodes cfg (mass_node cfg) Hc Hout mf Tn Hlen)
    as (Tn' & Hrun & Hl & Hmix & Hkeep).
  fold (frac_of cfg (mass_node cfg) (Qabs mf)) in frac.
  change (frac_of cfg (mass_node cfg) (Qabs mf)) with frac in Hmix.
  exists Tn'. rewrite advection_discharging by exact Hmf.
  split; [exact Hrun |].
  set (i_out := discharge_outlet cfg) in *.
  assert (Hsum : forall k : nat, (Z.of_nat k <= n_nodes cfg)%Z ->
    np_sum (take k Tn') ==
      np_sum (take k Tn)
      - frac * (node Tn (Z.min (Z.of_nat k - 1) i_out) - node Tn 0)).
  { induction k as [| k IH]; intros Hk.
    - rewrite !take_0, np_sum_nil.
      replace (Z.min (Z.of_nat 0 - 1) i_out) with (-1)%Z by lia.
      change (node Tn (-1)) with (node Tn 0). ring.
    - rewrite !np_sum_take_snoc by (unfold len in *; lia).
      rewrite IH by lia.
      pose proof (eq_refl (node Tn' (Z.of_nat k))) as E.
      unfold node at 1 in E. rewrite Nat2Z.id in E. rewrite E.
      pose proof (eq_refl (node Tn (Z.of_nat k))) as E'.
      unfold node at 1 in E'. rewrite Nat2Z.id in E'. rewrite E'.
      replace (Z.of_nat (S k) - 1)%Z with (Z.of_nat k) by lia.
      destruct k as [| k].
      + rewrite (Hkeep (Z.of_nat 0)) by (left; reflexivity).
        replace (Z.min (Z.of_nat 0 - 1) i_out) with (-1)%Z by lia.
        replace (Z.min (Z.of_nat 0) i_out) with 0%Z by lia.
        change (node Tn (-1)) with (node Tn 0).
        change (Z.of_nat 0) with 0%Z. ring.
      + destruct (Z_le_gt_dec (Z.of_nat (S k)) i_out) as [Hin | Habove].
        * rewrite (Hmix (Z.of_nat (S k))) by lia.
          replace (Z.min (Z.of_nat (S k) - 1) i_out)
            with (Z.of_nat (S k) - 1)%Z by lia.
          replace (Z.min (Z.of_nat (S k)) i_out) with (Z.of_nat (S k)) by lia.
          ring.
        * rewrite (Hkeep (Z.of_nat (S k))) by lia.
          replace (Z.min (Z.of_nat (S k) - 1) i_out) with i_out by lia.
          replace (Z.min (Z.of_nat (S k)) i_out) with i_out by lia.
          ring. }
  specialize (Hsum (length Tn) ltac:(unfold len in Hlen; lia)).
  rewrite firstn_all in Hsum.
  replace (length Tn) with (length Tn') in Hsum at 1
    by (unfold len in Hl; lia).
  rewrite firstn_all in Hsum.
  replace (Z.min (Z.of_nat (length Tn) - 1) i_out) with i_out in Hsum
    by (unfold len in Hlen; lia).
  unfold energy. rewrite !np_sum_scale_l, Hsum. ring.
Qed.

(** * The example script *)

(** ** Arrays the scenarios build *)

Lemma bind_Returned {A B} (f : A -> outcome B) (a : A) :
  (Returned a ≫= f) = f a.
Proof. reflexivity. Qed.

Lemma np_full_ok (n : Z) (v : Q) :
  (0 <= n)%Z -> np_full n v = Returned (replicate (Z.to_nat n) v).
Proof.
  intros Hn. unfold np_full. destruct (Z.ltb_spec n 0); [lia | reflexivity].
Qed.

Lemma np_zeros_of_ok (n : Z) :
  (0 <= n)%Z -> np_zeros_of n = Returned (replicate (Z.to_nat n) 0).
Proof.
  intros Hn. unfold np_zeros_of. destruct (Z.ltb_spec n 0); [lia | reflexivity].
Qed.

Lemma len_replicate_Z {A} (n : Z) (x : A) :
  (0 <= n)%Z -> len (replicate (Z.to_nat n) x) = n.
Proof. intros Hn. rewrite len_replicate. lia. Qed.

Lemma node_replicate (n t : Z) (x : Q) :
  (0 <= t < n)%Z -> node (replicate (Z.to_nat n) x) t = x.
Proof. intros Ht. unfold node. apply lookup_total_replicate_2. lia. Qed.

Lemma len_np_arange (n : Z) : (0 <= n)%Z -> len (np_arange n) = n.
Proof.
  intros Hn. unfold np_arange, len. rewrite length_fmap, length_seqZ. lia.
Qed.

Lemma node_np_arange (n t : Z) :
  (0 <= t < n)%Z -> node (np_arange n) t = inject_Z t.
Proof.
  intros Ht. unfold node, np_arange.
  rewrite (list_lookup_total_fmap inject_Z (seqZ 0 n))
    by (rewrite length_seqZ; lia).
  rewrite lookup_total_seqZ_lt by lia. f_equal. lia.
Qed.

(** [np.linspace] for at least two samples: sample [i] is
    [start + i * (stop - start) / (num - 1)]. *)
Lemma np_linspace_ok (start stop : Q) (num : Z) :
  (2 <= num)%Z ->
  exists l, np_linspace start stop num = Returned l /\ len l = num /\
    forall i, (0 <= i < num)%Z ->
      node l i == start + inject_Z i * ((stop - start) / inject_Z (num - 1)).
Proof.
  intros Hnum. unfold np_linspace.
  destruct (Z.ltb_spec num 0); [lia |].
  destruct (Z.ltb_spec 0 (num - 1)); [| lia].
  destruct (Z.ltb_spec 1 num); [| lia].
  set (div := inject_Z (num - 1)).
  assert (Hdiv : 0 < div) by (apply inject_Z_pos; lia).
  set (y := (fun v => v + start) <$> _).
  assert (Hly : len y = num).
  { unfold y. rewrite len_fmap.
    destruct (Qeq_bool _ 0); rewrite len_fmap; apply len_np_arange; lia. }
  assert (Hy : forall i, (0 <= i < num)%Z ->
            node y i == start + inject_Z i * ((stop - start) / div)).
  { intros i Hi. unfold y, node.
    rewrite fmap_total
      by (destruct (Qeq_bool _ 0); rewrite length_fmap;
          pose proof (len_np_arange num ltac:(lia)) as E; unfold len in E; lia).
    pose proof (node_np_arange num i Hi) as Ei. unfold node in Ei.
    assert (Hla : (Z.to_nat i < length (np_arange num))%nat)
      by (pose proof (len_np_arange num ltac:(lia)) as E; unfold len in E; lia).
    destruct (Qeq_bool ((stop - start) / div) 0) eqn:Hz.
    - apply Qeq_bool_eq in Hz.
      rewrite fmap_total by exact Hla. rewrite Ei.
      assert (Hd : stop - start == 0).
      { assert (E : stop - start == (stop - start) / div * div)
          by (field; lra).
        rewrite E, Hz. ring. }
      rewrite Hd. unfold Qdiv. ring.
    - rewrite fmap_total by exact Hla. rewrite Ei. ring. }
  eexists. split; [reflexivity |]. split; [now rewrite len_insert |].
  intros i Hi. destruct (Z.eq_dec i (num - 1)%Z) as [-> | Hne].
  - rewrite node_insert_eq by lia. fold div. field. lra.
  - rewrite node_insert_ne by lia. now apply Hy.
Qed.

(** The profile [np.linspace(lo, hi, n_nodes) + 273.15] of the scenarios:
    stratified, and between its end points. *)
Lemma linspace_profile (lo hi : Q) (num : Z) :
  (2 <= num)%Z -> lo <= hi ->
  exists l, np_linspace lo hi num = Returned l /\
    len ((fun x => x + 273.15) <$> l) = num /\
    stratified ((fun x => x + 273.15) <$> l) /\
    Forall (between (lo + 273.15) (hi + 273.15)) ((fun x => x + 273.15) <$> l).
Proof.
  intros Hnum Hlohi.
  destruct (np_linspace_ok lo hi num Hnum) as (l & Hl & Hlen & Hnode).
  exists l. split; [exact Hl |]. split; [now rewrite len_fmap |].
  set (div := inject_Z (num - 1)) in *.
  assert (Hdiv : 0 < div) by (apply inject_Z_pos; lia).
  assert (Hstep : 0 <= (hi - lo) / div) by (apply Qle_shift_div_l; lra).
  assert (Hf : forall i, (0 <= i < num)%Z ->
            node ((fun x => x + 273.15) <$> l) i
            == lo + inject_Z i * ((hi - lo) / div) + 273.15).
  { intros i Hi. unfold node. rewrite fmap_total
      by (unfold len in Hlen; lia).
    pose proof (Hnode i Hi) as E. unfold node in E. now rewrite E. }
  split.
  - intros j Hj0 Hj. rewrite len_fmap, Hlen in Hj.
    rewrite !Hf by lia. rewrite inject_Z_plus.
    assert (0 <= inject_Z 1 * ((hi - lo) / div))
      by (apply Qmult_le_0_compat; [discriminate | exact Hstep]).
    lra.
  - apply (Forall_lookup_total_2 (between (lo + 273.15) (hi + 273.15))).
    intros i Hi. rewrite length_fmap in Hi.
    pose proof (Hf (Z.of_nat i) ltac:(unfold len in Hlen; lia)) as E.
    unfold node in E. rewrite Nat2Z.id in E. unfold between. rewrite E.
    assert (H0 : 0 <= inject_Z (Z.of_nat i)).
    { change 0 with (inject_Z 0). rewrite <- Zle_Qle. lia. }
    assert (H1 : inject_Z (Z.of_nat i) <= div).
    { unfold div. rewrite <- Zle_Qle. unfold len in Hlen. lia. }
    assert (0 <= inject_Z (Z.of_nat i) * ((hi - lo) / div))
      by (apply Qmult_le_0_compat; assumption).
    assert (0 <= (div - inject_Z (Z.of_nat i)) * ((hi - lo) / div))
      by (apply Qmult_le_0_compat; lra).
    assert (div * ((hi - lo) / div) == hi - lo) by (field; lra).
    split; lra.
Qed.

(** What [validate] has checked, in terms of the original configuration. *)
Lemma valid_sizes (cfg : TankConfig) :
  snd (validate cfg) = Ok tt ->
  (1 <= n_steps cfg)%Z /\ (2 <= n_nodes cfg)%Z /\ 0 < dt cfg.
Proof.
  intros Hv. destruct (validate cfg) as [c r] eqn:E. cbn [snd] in Hv. subst r.
  destruct (validate_Ok_validated _ _ E) as (Hc & -> & _).
  destruct Hc as [Hn _ _ _ _ Hdt Hs _ _].
  cbn [set_discharge_outlet n_nodes n_steps dt] in *. auto.
Qed.

(** ** The top of a tank that is not charged *)

(** In a stable step without charging, no node ends warmer than the top
    node of a stratified row was, provided the ambient is not warmer than
    that node while the tank loses heat. *)
Lemma step_below_top (c : TankConfig) (Tin_charge m_flow T_amb : list Q)
    (t : Z) (a a' : list Q) :
  validated c ->
  ua_node c * dt c <= mass_node c * cp c ->
  2 * G_cond c * dt c <= mass_node c * cp c ->
  len m_flow = n_steps c -> len T_amb = n_steps c ->
  len Tin_charge = n_steps c ->
  (0 <= t < n_steps c)%Z -> len a = n_nodes c ->
  node m_flow t <= 0 ->
  (Qltb 0 (ua_node c) = true -> node T_amb t <= node a (n_nodes c - 1)) ->
  stratified a ->
  next_row c (mass_node c) (ua_node c) (G_cond c)
    Tin_charge m_flow T_amb t a = Ok a' ->
  Forall (fun x => x <= node a (n_nodes c - 1)) a'.
Proof.
  intros Hc Hu1 HG1 Hlm Hla Hli Ht Ha Hmf Hamb Hs Hnext.
  pose proof (mass_node_pos _ Hc) as Hm.
  pose proof (ua_node_nonneg _ Hc) as Hu0.
  pose proof (G_cond_nonneg _ Hc) as HG0.
  pose proof (v_nodes _ Hc) as Hn.
  set (hi := node a (n_nodes c - 1)) in *.
  set (lo := Qmin (row_min a) (node T_amb t)).
  assert (Hbetween : Forall (between lo hi) a').
  { apply (next_row_between c (mass_node c) (ua_node c) (G_cond c)
             Tin_charge m_flow T_amb Hc Hm Hu0 Hu1 HG0 HG1 Hlm Hla Hli
             lo hi t a a'); auto.
    - intros Hg. split; [apply Q.le_min_r | now apply Hamb].
    - intros Hpos. lra.
    - apply (Forall_lookup_total_2 (between lo hi)). intros i Hi. split.
      + eapply Qle_trans; [apply Q.le_min_l |].
        now apply (Forall_lookup_total_1 _ _ _ (row_min_le a)).
      + pose proof (stratified_ends a (Z.of_nat i) (n_nodes c - 1) Hs
                      ltac:(unfold len in Ha; lia) ltac:(lia)) as H.
        unfold node in H at 1. now rewrite Nat2Z.id in H. }
  eapply Forall_impl; [exact Hbetween |]. intros x Hx. apply Hx.
Qed.

(** The top temperature of a run that never charges, from a stratified
    profile no cooler than the ambient, never rises. *)
Lemma run_top_falls (c : TankConfig) (Tin_charge m_flow T_amb T_init : list Q)
    (T : list (list Q)) (QL : list Q) (lo : Q) :
  validated c ->
  ua_node c * dt c <= mass_node c * cp c ->
  2 * G_cond c * dt c <= mass_node c * cp c ->
  len m_flow = n_steps c -> len T_amb = n_steps c ->
  len Tin_charge = n_steps c ->
  run_of c Tin_charge m_flow T_amb T_init T QL ->
  Forall (fun mf => mf <= 0) m_flow ->
  stratified T_init ->
  Forall (fun x => lo <= x) T_init ->
  (Qltb 0 (ua_node c) = true -> Forall (fun x => x == lo) T_amb) ->
  forall t, (0 <= t < n_steps c)%Z ->
    node (row_at T (t + 1)) (n_nodes c - 1) <= node (row_at T t) (n_nodes c - 1).
Proof.
  intros Hc Hu1 HG1 Hlm Hla Hli Hrun Hflow Hs Hinit Hamb' t Ht.
  pose proof (v_nodes _ Hc) as Hn.
  pose proof (run_stratified c Tin_charge m_flow T_amb T_init T QL
                Hc Hu1 HG1 Hlm Hla Hrun Hflow Hs) as Hstrat.
  assert (Hlow : forall k, (0 <= k <= n_steps c)%Z ->
            Forall (fun x => lo <= x) (row_at T k)).
  { intros k Hk.
    pose proof (run_bounded c Tin_charge m_flow T_amb T_init T QL
                  Hc Hu1 HG1 Hlm Hla Hli Hrun lo (Qmax lo (row_max T_init)))
      as Hb.
    eapply Forall_impl; [apply Hb; auto |].
    - apply (Forall_lookup_total_2 (between lo (Qmax lo (row_max T_init)))).
      intros i Hi. split.
      + now apply (Forall_lookup_total_1 _ _ _ Hinit).
      + eapply Qle_trans; [| apply Q.le_max_r].
        now apply (Forall_lookup_total_1 _ _ _ (row_max_ge T_init)).
    - intros Hg. specialize (Hamb' Hg).
      eapply Forall_impl; [exact Hamb' |]. intros x Hx. cbn in Hx.
      split; [lra |]. rewrite Hx. apply Q.le_max_l.
    - intros s Hs' Hpos.
      pose proof (Forall_node _ _ s Hflow ltac:(lia)) as H. cbn in H. lra.
    - intros x Hx. apply Hx. }
  pose proof (run_rows _ _ _ _ _ _ _ Hrun) as Hrows.
  pose proof (step_below_top c Tin_charge m_flow T_amb t (row_at T t)
                (row_at T (t + 1)) Hc Hu1 HG1 Hlm Hla Hli Ht
                (Hrows t ltac:(lia))) as Hstep.
  apply (Forall_node _ _ (n_nodes c - 1)) in Hstep.
  - exact Hstep.
  - apply (Forall_node _ _ _ Hflow). lia.
  - intros Hg.
    pose proof (Forall_node _ _ t (Hamb' Hg) ltac:(lia)) as E. cbn in E.
    rewrite E.
    apply (Forall_node _ _ (n_nodes c - 1) (Hlow t ltac:(lia))).
    rewrite Hrows by lia. lia.
  - apply Hstrat. lia.
  - apply (run_step _ _ _ _ _ _ _ Hrun). lia.
  - rewrite Hrows by lia. lia.
Qed.

(** ** The four scenarios *)

(** X18.  Scenario 1 in exact arithmetic, for a configuration that passes
    validation and whose explicit scheme is stable.  The call returns with
    the constant charging flow, every temperature stays between the
    initial 20 and the inlet's 60 degrees Celsius, and no node ever cools
    from one row to the next.  (In binary64 both can fail in the last
    place, [charging_front_binary64] and [charging_far_node_binary64].) *)
Theorem scenario_full_charge_warms (cfg : TankConfig) :
  snd (validate cfg) = Ok tt ->
  ua_node cfg * dt cfg <= mass_node cfg * cp cfg ->
  2 * G_cond cfg * dt cfg <= mass_node cfg * cp cfg ->
  exists out title,
    scenario_full_charge cfg =
      Returned (out, replicate (Z.to_nat (n_steps cfg)) 0.10, title) /\
    (forall t, (0 <= t <= n_steps cfg)%Z ->
       Forall (between (20.0 + 273.15) (60.0 + 273.15)) (row_at (T out) t)) /\
    (forall t, (0 <= t < n_steps cfg)%Z ->
       Forall2 Qle (row_at (T out) t) (row_at (T out) (t + 1))).
Proof.
  intros Hv Hstab_u Hstab_G. destruct (valid_sizes cfg Hv) as (Hs & Hn & Hdt).
  unfold scenario_full_charge.
  rewrite !np_full_ok, !bind_Returned by lia.
  set (n := n_steps cfg) in *.
  set (Tin_charge := replicate (Z.to_nat n) (60.0 + 273.15)).
  set (T_amb := replicate (Z.to_nat n) (20.0 + 273.15)).
  set (T_init := replicate (Z.to_nat (n_nodes cfg)) (20.0 + 273.15)).
  set (m_flow := replicate (Z.to_nat n) 0.10).
  assert (Hwf : well_formed cfg Tin_charge m_flow T_amb T_init)
    by (constructor; [exact Hv | ..]; apply len_replicate_Z; lia).
  destruct (simulate_run _ _ _ _ _ Hwf)
    as (out & c & Hout & Ec & Hc & Hrun & Htop & Hbot & [En Es]
        & (Em & Eu & EG & Edt & Ecp) & (Hlm & Hla & Hli) & Hgu & HgG).
  destruct (stable_validated cfg Hstab_u Hstab_G) as [Hu1 HG1].
  rewrite <- Ec in Hu1, HG1.
  rewrite Hout. cbn [called]. rewrite bind_Returned.
  eexists _, _. split; [reflexivity |]. fold n in Es. rewrite <- Es.
  assert (Hbounds : forall t, (0 <= t <= n_steps c)%Z ->
            Forall (between (20.0 + 273.15) (60.0 + 273.15)) (row_at (T out) t)).
  { apply (run_bounded c Tin_charge m_flow T_amb T_init (T out) (Q_loss out));
      auto.
    - apply Forall_replicate. split; [apply Qle_refl | discriminate].
    - intros _. apply Forall_replicate. split; [apply Qle_refl | discriminate].
    - intros t Ht _. unfold Tin_charge. rewrite node_replicate by lia.
      split; [discriminate | apply Qle_refl]. }
  split; [exact Hbounds |].
  apply (run_rising c Tin_charge m_flow T_amb T_init (T out) (Q_loss out));
    auto.
  - intros s s' H1 H2. unfold Tin_charge, m_flow, T_amb.
    rewrite !node_replicate by lia. repeat split.
  - pose proof (run_rows _ _ _ _ _ _ _ Hrun) as Hrows.
    apply Forall2_nodes; [rewrite !Hrows by lia; reflexivity |].
    intros j Hj. rewrite Hrows in Hj by lia.
    rewrite (run_init _ _ _ _ _ _ _ Hrun). unfold T_init.
    rewrite node_replicate by lia.
    apply (Forall_node _ _ j (Hbounds 1%Z ltac:(lia))).
    rewrite Hrows by lia. exact Hj.
Qed.

(** A run without charging from a stratified profile between the ambient
    temperature [lo] and [hi]: what scenarios 2 and 3 have in common. *)
Lemma uncharged_run (cfg : TankConfig) (Tin_charge m_flow T_init : list Q)
    (lo hi : Q) :
  snd (validate cfg) = Ok tt ->
  ua_node cfg * dt cfg <= mass_node cfg * cp cfg ->
  2 * G_cond cfg * dt cfg <= mass_node cfg * cp cfg ->
  len Tin_charge = n_steps cfg -> len m_flow = n_steps cfg ->
  len T_init = n_nodes cfg ->
  Forall (fun mf => mf <= 0) m_flow ->
  stratified T_init -> Forall (between lo hi) T_init ->
  exists out,
    simulate_stratified_tank cfg Tin_charge m_flow
      (replicate (Z.to_nat (n_steps cfg)) lo) T_init = Ok out /\
    (forall t, (0 <= t <= n_steps cfg)%Z ->
       stratified (row_at (T out) t) /\
       Forall (between lo hi) (row_at (T out) t)) /\
    (forall t, (0 <= t < n_steps cfg)%Z ->
       node (T_top out) (t + 1) <= node (T_top out) t).
Proof.
  intros Hv Hstab_u Hstab_G HlTin Hlmf HlTi Hflow Hs Hinit.
  destruct (valid_sizes cfg Hv) as (Hsteps & Hn & Hdt).
  set (T_amb := replicate (Z.to_nat (n_steps cfg)) lo).
  assert (Hlohi : lo <= hi).
  { pose proof (Forall_node _ _ 0 Hinit ltac:(lia)) as [H1 H2].
    eapply Qle_trans; eassumption. }
  assert (Hwf : well_formed cfg Tin_charge m_flow T_amb T_init)
    by (constructor; auto; apply len_replicate_Z; lia).
  destruct (simulate_run _ _ _ _ _ Hwf)
    as (out & c & Hout & Ec & Hc & Hrun & Htop & Hbot & [En Es]
        & (Em & Eu & EG & Edt & Ecp) & (Hlm & Hla & Hli) & Hgu & HgG).
  destruct (stable_validated cfg Hstab_u Hstab_G) as [Hu1 HG1].
  rewrite <- Ec in Hu1, HG1.
  exists out. split; [exact Hout |]. rewrite <- Es, <- En in *.
  pose proof (run_rows _ _ _ _ _ _ _ Hrun) as Hrows.
  pose proof (run_len_T _ _ _ _ _ _ _ Hrun) as HlT.
  split.
  - intros t Ht. split.
    + now apply (run_stratified c Tin_charge m_flow T_amb T_init (T out)
                   (Q_loss out)).
    + apply (run_bounded c Tin_charge m_flow T_amb T_init (T out) (Q_loss out));
        auto.
      * intros _. apply Forall_replicate. split; [apply Qle_refl | exact Hlohi].
      * intros s Hs' Hpos.
        pose proof (Forall_node _ _ s Hflow ltac:(lia)) as H. cbn in H. lra.
  - intros t Ht. rewrite Htop. unfold column_top.
    rewrite !node_fmap_row by lia. rewrite <- En.
    apply (run_top_falls c Tin_charge m_flow T_amb T_init (T out) (Q_loss out) lo);
      auto.
    + eapply Forall_impl; [exact Hinit |]. intros x Hx. apply Hx.
    + intros _. apply Forall_replicate. reflexivity.
Qed.

(** X19.  Scenario 2 in exact arithmetic, with its default profile (55 to 65
    degrees Celsius from bottom to top), for a configuration that passes
    validation and whose explicit scheme is stable.  The call returns with
    the constant discharging flow; the tank stays stratified, between the
    ambient 20 and the initial 65 degrees Celsius, and its top temperature
    never rises.  (In binary64 the stratification can fail in the last
    place, [discharge_stratification_binary64].) *)
Theorem scenario_discharge_stays_stratified (cfg : TankConfig) :
  snd (validate cfg) = Ok tt ->
  ua_node cfg * dt cfg <= mass_node cfg * cp cfg ->
  2 * G_cond cfg * dt cfg <= mass_node cfg * cp cfg ->
  exists out title,
    scenario_discharge_from_charged cfg None =
      Returned (out, replicate (Z.to_nat (n_steps cfg)) (-0.08), title) /\
    (forall t, (0 <= t <= n_steps cfg)%Z ->
       stratified (row_at (T out) t) /\
       Forall (between (20.0 + 273.15) (65.0 + 273.15)) (row_at (T out) t)) /\
    (forall t, (0 <= t < n_steps cfg)%Z ->
       node (T_top out) (t + 1) <= node (T_top out) t).
Proof.
  intros Hv Hstab_u Hstab_G. destruct (valid_sizes cfg Hv) as (Hs & Hn & Hdt).
  unfold scenario_discharge_from_charged.
  rewrite !np_full_ok, !bind_Returned by lia.
  destruct (linspace_profile 55.0 65.0 (n_nodes cfg) Hn ltac:(discriminate))
    as (l & Hl & Hlen & Hstrat & Hbetween).
  rewrite Hl, !bind_Returned.
  destruct (uncharged_run cfg
              (replicate (Z.to_nat (n_steps cfg)) (60.0 + 273.15))
              (replicate (Z.to_nat (n_steps cfg)) (-0.08))
              ((fun x => x + 273.15) <$> l)
              (20.0 + 273.15) (65.0 + 273.15) Hv Hstab_u Hstab_G)
    as (out & Hout & Hrows & Htop);
    try (apply len_replicate_Z; lia); auto.
  - apply Forall_replicate. discriminate.
  - eapply Forall_between_weaken; [| | exact Hbetween];
      [discriminate | apply Qle_refl].
  - rewrite Hout. cbn [called]. rewrite bind_Returned.
    eexists _, _. split; [reflexivity |]. split; assumption.
Qed.

(** X20.  Scenario 3 in exact arithmetic, for a configuration that passes
    validation and whose explicit scheme is stable.  The call returns with
    a mass flow of zero; the tank stays stratified, between the ambient 20
    and the initial 50 degrees Celsius, and its top temperature never
    rises.  (In binary64 the stratification can fail in the last place,
    [conduction_stratification_binary64].) *)
Theorem scenario_idle_stays_stratified (cfg : TankConfig) :
  snd (validate cfg) = Ok tt ->
  ua_node cfg * dt cfg <= mass_node cfg * cp cfg ->
  2 * G_cond cfg * dt cfg <= mass_node cfg * cp cfg ->
  exists out title,
    scenario_idle_stratified cfg =
      Returned (out, replicate (Z.to_nat (n_steps cfg)) 0, title) /\
    (forall t, (0 <= t <= n_steps cfg)%Z ->
       stratified (row_at (T out) t) /\
       Forall (between (20.0 + 273.15) (50.0 + 273.15)) (row_at (T out) t)) /\
    (forall t, (0 <= t < n_steps cfg)%Z ->
       node (T_top out) (t + 1) <= node (T_top out) t).
Proof.
  intros Hv Hstab_u Hstab_G. destruct (valid_sizes cfg Hv) as (Hs & Hn & Hdt).
  unfold scenario_idle_stratified.
  rewrite !np_full_ok, !bind_Returned by lia.
  destruct (linspace_profile 30.0 50.0 (n_nodes cfg) Hn ltac:(discriminate))
    as (l & Hl & Hlen & Hstrat & Hbetween).
  rewrite Hl, !bind_Returned.
  rewrite np_zeros_of_ok, bind_Returned by lia.
  destruct (uncharged_run cfg
              (replicate (Z.to_nat (n_steps cfg)) (60.0 + 273.15))
              (replicate (Z.to_nat (n_steps cfg)) 0)
              ((fun x => x + 273.15) <$> l)
              (20.0 + 273.15) (50.0 + 273.15) Hv Hstab_u Hstab_G)
    as (out & Hout & Hrows & Htop);
    try (apply len_replicate_Z; lia); auto.
  - apply Forall_replicate. apply Qle_refl.
  - eapply Forall_between_weaken; [| | exact Hbetween];
      [discriminate | apply Qle_refl].
  - rewrite Hout. cbn [called]. rewrite bind_Returned.
    eexists _, _. split; [reflexivity |]. split; assumption.
Qed.

Lemma called_Returned {A} (r : result A) (a : A) :
  called r = Returned a -> r = Ok a.
Proof. destruct r; cbn; congruence. Qed.

(** A scenario returns only if the configuration passes validation. *)
Lemma scenario_full_charge_returned (cfg : TankConfig) (r : output * list Q * string) :
  scenario_full_charge cfg = Returned r -> snd (validate cfg) = Ok tt.
Proof.
  unfold scenario_full_charge, np_full.
  destruct (Z.ltb_spec (n_steps cfg) 0); [discriminate |].
  destruct (Z.ltb_spec (n_nodes cfg) 0); [discriminate |].
  rewrite !bind_Returned.
  destruct (simulate_stratified_tank _ _ _ _ _) as [out | e] eqn:Hsim;
    [| discriminate].
  intros _. exact (wf_valid _ _ _ _ _ (simulate_Ok_well_formed _ _ _ _ _ _ Hsim)).
Qed.

(** In the model every configuration that passes validation takes both
    calls to their end. *)
Lemma scenarios_chain_run (cfg : TankConfig) :
  snd (validate cfg) = Ok tt ->
  exists out1 m_flow1 title1 last out2 m_flow2 title2,
    scenario_full_charge cfg = Returned (out1, m_flow1, title1) /\
    getitem (T out1) (-1) = Ok last /\
    len last = n_nodes cfg /\
    scenario_discharge_from_charged (fst (validate cfg)) (Some last) =
      Returned (out2, m_flow2, title2) /\
    getitem (T out2) 0 = Ok last.
Proof.
  intros Hv. destruct (valid_sizes cfg Hv) as (Hs & Hn & Hdt).
  destruct (validate_fields cfg) as (En' & Es' & _).
  set (n := n_steps cfg) in *.
  assert (Hwf : well_formed cfg (replicate (Z.to_nat n) (60.0 + 273.15))
                  (replicate (Z.to_nat n) 0.10)
                  (replicate (Z.to_nat n) (20.0 + 273.15))
                  (replicate (Z.to_nat (n_nodes cfg)) (20.0 + 273.15)))
    by (constructor; [exact Hv | ..]; apply len_replicate_Z; lia).
  destruct (simulate_run _ _ _ _ _ Hwf)
    as (out1 & c & Hout1 & Ec & Hc & Hrun1 & _ & _ & [En Es] & _).
  pose proof (run_len_T _ _ _ _ _ _ _ Hrun1) as HlT1.
  pose proof (run_rows _ _ _ _ _ _ _ Hrun1 n ltac:(lia)) as Hlast.
  set (last := row_at (T out1) n) in *.
  assert (Hwf2 : well_formed (fst (validate cfg))
                   (replicate (Z.to_nat n) (60.0 + 273.15))
                   (replicate (Z.to_nat n) (-0.08))
                   (replicate (Z.to_nat n) (20.0 + 273.15)) last).
  { constructor; rewrite ?Es'; try (apply len_replicate_Z; lia).
    - now rewrite validate_idempotent.
    - rewrite <- Ec. exact Hlast. }
  destruct (simulate_run _ _ _ _ _ Hwf2)
    as (out2 & c2 & Hout2 & Ec2 & _ & Hrun2 & _).
  pose proof (run_len_T _ _ _ _ _ _ _ Hrun2) as HlT2.
  pose proof (v_steps _ Hc) as Hsc.
  exists out1, (replicate (Z.to_nat n) 0.10). eexists.
  exists last, out2, (replicate (Z.to_nat n) (-0.08)). eexists.
  split; [| split; [| split; [| split]]].
  - unfold scenario_full_charge. fold n.
    rewrite !np_full_ok, !bind_Returned by lia.
    rewrite Hout1. reflexivity.
  - rewrite getitem_neg_ok by lia. unfold last, row_at. do 2 f_equal.
    rewrite HlT1, Es. lia.
  - rewrite <- En. exact Hlast.
  - unfold scenario_discharge_from_charged. rewrite Es'.
    rewrite !np_full_ok, !bind_Returned by lia.
    rewrite Hout2. reflexivity.
  - rewrite getitem_ok by (rewrite HlT2; subst c2; rewrite validate_idempotent,
                             <- Ec; lia).
    f_equal. apply (run_init _ _ _ _ _ _ _ Hrun2).
Qed.

(** X21.  [main] starts scenario 2 from the final row of scenario 1, with the
    configuration as the first call has left it.  Whenever the first call
    returns, its field has a last row of [n_nodes] temperatures; the second
    call, given that row, raises none of the errors of the simulation
    (the configuration passes validation again and the profile has the
    right shape), and what it returns starts from that row. *)
Theorem scenarios_chain
    (cfg : TankConfig) (out1 : output) (m_flow1 : list Q) (title1 : string) :
  scenario_full_charge cfg = Returned (out1, m_flow1, title1) ->
  exists last,
    getitem (T out1) (-1) = Ok last /\
    len last = n_nodes cfg /\
    (forall e,
       scenario_discharge_from_charged (fst (validate cfg)) (Some last)
       <> Raised (Simulation e)) /\
    (forall out2 m_flow2 title2,
       scenario_discharge_from_charged (fst (validate cfg)) (Some last)
       = Returned (out2, m_flow2, title2) ->
       getitem (T out2) 0 = Ok last /\
       m_flow2 = replicate (Z.to_nat (n_steps cfg)) (-0.08)).
Proof.
  intros Hret.
  pose proof (scenario_full_charge_returned _ _ Hret) as Hv.
  destruct (valid_sizes cfg Hv) as (Hs & _).
  destruct (validate_fields cfg) as (_ & Es' & _).
  destruct (scenarios_chain_run cfg Hv)
    as (out1' & m1 & t1 & last & out2 & m2 & t2 & H1 & Hlast & Hlen & H2 & H0).
  rewrite Hret in H1. injection H1 as <- _ _.
  exists last. split; [exact Hlast |]. split; [exact Hlen |]. split.
  - intros e He. rewrite H2 in He. discriminate.
  - intros out2' m2' t2' H2'. rewrite H2 in H2'. injection H2' as <- <- _.
    split; [exact H0 |].
    revert H2. unfold scenario_discharge_from_charged. rewrite Es'.
    rewrite !np_full_ok, !bind_Returned by lia.
    destruct (called _) as [o | e]; cbn; [| discriminate].
    now intros [= _ <- _].
Qed.

(** ** The schedule of scenario 4 *)









(** ** The time axes of the plots *)

(** X23.  [build_time_axes] returns one time for each of the [n_steps + 1] rows
    and one for each of the [n_steps] steps of a run: row [i] and step [i]
    are [i * dt / 60] minutes after the start, and with a negative
    [n_steps] both axes are empty.  After a run the axes have the lengths
    of the returned arrays, which is what plotting them against each other
    requires. *)
Theorem time_axes_match_run
    (cfg : TankConfig) (Tin_charge m_flow T_amb T_init : list Q) :
  well_formed cfg Tin_charge m_flow T_amb T_init ->
  exists out time_edges time_steps,
    simulate_stratified_tank cfg Tin_charge m_flow T_amb T_init = Ok out /\
    build_time_axes (n_steps cfg) (dt cfg) = (time_edges, time_steps) /\
    len time_edges = len (T_top out) /\ len time_edges = len (T_bot out) /\
    len time_edges = len (T out) /\
    len time_steps = len m_flow /\ len time_steps = len (Q_loss out) /\
    (forall i, (0 <= i <= n_steps cfg)%Z ->
       node time_edges i == inject_Z i * dt cfg / 60) /\
    (forall i, (0 <= i < n_steps cfg)%Z ->
       node time_steps i == inject_Z i * dt cfg / 60) /\
    (forall n d, (n < 0)%Z -> build_time_axes n d = ([], [])).
Proof.
  intros Hwf.
  destruct (simulate_run _ _ _ _ _ Hwf)
    as (out & c & Hout & Ec & Hc & Hrun & Htop & Hbot & [En Es]
        & _ & (Hlm & Hla & Hli) & _).
  pose proof (v_steps _ Hc) as Hs. rewrite Es in *.
  pose proof (run_len_T _ _ _ _ _ _ _ Hrun) as HlT.
  pose proof (run_len_Q _ _ _ _ _ _ _ Hrun) as HlQ. rewrite Es in *.
  exists out. eexists _, _. split; [exact Hout |].
  split; [reflexivity |].
  assert (Hle : len ((fun i => i * (dt cfg / 60.0)) <$> np_arange (n_steps cfg + 1))
                = (n_steps cfg + 1)%Z)
    by (rewrite len_fmap; apply len_np_arange; lia).
  assert (Hls : len ((fun i => i * (dt cfg / 60.0)) <$> np_arange (n_steps cfg))
                = n_steps cfg)
    by (rewrite len_fmap; apply len_np_arange; lia).
  rewrite Hle, Hls.
  split; [rewrite Htop; unfold column_top; now rewrite len_fmap |].
  split; [rewrite Hbot; unfold column_bot; now rewrite len_fmap |].
  split; [now rewrite HlT |]. split; [now rewrite Hlm |].
  split; [now rewrite HlQ |].
  split; [| split].
  - intros i Hi. unfold node.
    rewrite fmap_total
      by (pose proof (len_np_arange (n_steps cfg + 1) ltac:(lia)) as E;
          unfold len in E; lia).
    pose proof (node_np_arange (n_steps cfg + 1) i ltac:(lia)) as E.
    unfold node in E. rewrite E.
    assert (E60 : 60.0 == 60) by reflexivity. rewrite E60. unfold Qdiv. ring.
  - intros i Hi. unfold node.
    rewrite fmap_total
      by (pose proof (len_np_arange (n_steps cfg) ltac:(lia)) as E;
          unfold len in E; lia).
    pose proof (node_np_arange (n_steps cfg) i ltac:(lia)) as E.
    unfold node in E. rewrite E.
    assert (E60 : 60.0 == 60) by reflexivity. rewrite E60. unfold Qdiv. ring.
  - intros n d Hn. unfold build_time_axes, np_arange.
    now rewrite !seqZ_nil by lia.
Qed.

(** * The utilities and the arguments as arrays *)

Lemma bind_Accepted {A B} (f : A -> accepted B) (a : A) :
  (Accepted a ≫= f) = f a.
Proof. reflexivity. Qed.

Lemma one_entry {A} (l : list A) : len l = 1%Z -> exists x, l = [x].
Proof.
  unfold len. destruct l as [| x [| y l]]; cbn; intros H; try lia. eauto.
Qed.

(** X24.  [_as_scalar] accepts exactly the arrays that hold one entry, whatever
    their shape (no axis, one axis, a 1 x 1 matrix ...), and returns that
    entry; every other array is refused with the error of its last line,
    and [item] is never called on an array it would refuse. *)
Theorem as_scalar_single_entry (arr : ndarray) :
  well_shaped arr ->
  (forall v, _as_scalar (Array arr) = Accepted v <-> data arr = [v]) /\
  (_as_scalar (Array arr) = Rejected ScalarExpected <-> len (data arr) <> 1%Z) /\
  _as_scalar (Array arr) <> Rejected ItemOfSeveral.
Proof.
  intros [Hshape Hsize]. unfold _as_scalar, ndim, item.
  destruct (Z.eqb_spec (len (shape arr)) 0) as [H0 | H0].
  - assert (Hs : shape arr = []).
    { unfold len in H0. destruct (shape arr); [reflexivity | cbn in H0; lia]. }
    unfold array_size in Hsize. rewrite Hs in Hsize. cbn [foldr] in Hsize.
    destruct (one_entry _ Hsize) as [x Hx]. rewrite Hx.
    split; [| split].
    + intros v. split; congruence.
    + split; [discriminate |]. intros H. exfalso. apply H. reflexivity.
    + discriminate.
  - destruct (Z.eqb_spec (array_size arr) 1) as [H1 | H1].
    + rewrite H1 in Hsize. destruct (one_entry _ Hsize) as [x Hx].
      cbn [reshape_scalar data]. rewrite Hx.
      split; [| split].
      * intros v. split; congruence.
      * split; [discriminate |]. intros H. exfalso. apply H. reflexivity.
      * discriminate.
    + split; [| split].
      * intros v. split; [discriminate |].
        intros Hv. exfalso. apply H1. rewrite <- Hsize, Hv. reflexivity.
      * split; [intros _; congruence | reflexivity].
      * discriminate.
Qed.

(** ** The call on arrays *)

Lemma one_axis (arr : ndarray) :
  well_shaped arr -> ndim arr = 1%Z ->
  shape arr = [len (data arr)] /\ array_len arr = len (data arr).
Proof.
  intros [_ Hsize] Hdim. unfold ndim, len in Hdim. unfold array_len.
  unfold array_size in Hsize.
  destruct (shape arr) as [| k [| k' s]]; cbn [length] in Hdim; try lia.
  cbn [foldr] in Hsize. rewrite Hsize. cbn [hd]. split; [f_equal |]; lia.
Qed.

(** X25.  On one-dimensional arrays the call returns what the model on lists
    returns for their entries, and raises what that raises. *)
Theorem arrays_agree_with_lists
    (cfg : TankConfig) (Tin_charge m_flow T_amb T_init : ndarray) :
  well_shaped Tin_charge -> well_shaped m_flow ->
  well_shaped T_amb -> well_shaped T_init ->
  ndim Tin_charge = 1%Z -> ndim m_flow = 1%Z ->
  ndim T_amb = 1%Z -> ndim T_init = 1%Z ->
  simulate_arrays cfg Tin_charge m_flow T_amb T_init =
    match simulate_stratified_tank cfg (data Tin_charge) (data m_flow)
            (data T_amb) (data T_init) with
    | Ok out => Accepted out
    | Err e => Rejected (input_error_of e)
    end.
Proof.
  intros W1 W2 W3 W4 D1 D2 D3 D4.
  destruct (one_axis _ W1 D1) as [S1 L1]. destruct (one_axis _ W2 D2) as [S2 L2].
  destruct (one_axis _ W3 D3) as [S3 L3]. destruct (one_axis _ W4 D4) as [S4 L4].
  pose proof (simulate_rejected cfg (data Tin_charge) (data m_flow)
                (data T_amb) (data T_init)) as Hrej.
  destruct (validate_fields cfg) as (En & Es & _).
  unfold rejected in Hrej. unfold simulate_arrays.
  unfold _ensure_1d. rewrite D1, D2, D3.
  destruct (validate cfg) as [c [[] | e]] eqn:Hval; cbn [fst snd checked] in *.
  2:{ rewrite Hrej. destruct (validate_cases cfg) as [[_ [msg Hm]] | [_ Hok]];
        [| rewrite Hok in Hval; discriminate].
      rewrite Hm in Hval. injection Hval as _ <-. reflexivity. }
  cbn [negb Z.eqb Pos.eqb].
  rewrite ?bind_Accepted.
  unfold _check_len_array, shape_is. rewrite L1, L2, L3, S4, En, Es.
  destruct (Z.eqb_spec (len (data Tin_charge)) (n_steps cfg)); cbn [negb checked];
    [| now rewrite Hrej].
  destruct (Z.eqb_spec (len (data m_flow)) (n_steps cfg)); cbn [negb checked];
    [| now rewrite Hrej].
  destruct (Z.eqb_spec (len (data T_amb)) (n_steps cfg)); cbn [negb checked];
    [| now rewrite Hrej].
  rewrite ?bind_Accepted.
  destruct (Z.eqb_spec (len (data T_init)) (n_nodes cfg)); cbn [negb];
    [| now rewrite Hrej].
  destruct (simulate_ok _ _ _ _ _ Hrej) as (out & Hout & _).
  rewrite Hout. revert Hout. unfold simulate_stratified_tank.
  rewrite Hval, bind_Ok, !check_len_ok, !bind_Ok by congruence.
  rewrite (proj2 (Z.eqb_eq _ _)) by congruence. cbn [negb].
  now intros ->.
Qed.

(** X26.  The checks of the arguments in the order the source makes them.  An
    invalid configuration is reported first, whatever the arrays are.
    Then a series that is not one-dimensional is refused before any length
    is compared; and an initial profile whose shape is not [(n_nodes,)] is
    refused even if it holds [n_nodes] entries (a column vector). *)
Theorem dimensions_checked_first
    (cfg : TankConfig) (Tin_charge m_flow T_amb T_init : ndarray) :
  (forall e, snd (validate cfg) = Err e ->
     simulate_arrays cfg Tin_charge m_flow T_amb T_init = Rejected (Checked e)) /\
  (snd (validate cfg) = Ok tt ->
   (ndim Tin_charge <> 1%Z ->
      simulate_arrays cfg Tin_charge m_flow T_amb T_init =
        Rejected (NotOneDimensional "Tin_charge" (shape Tin_charge))) /\
   (ndim Tin_charge = 1%Z -> ndim m_flow <> 1%Z ->
      simulate_arrays cfg Tin_charge m_flow T_amb T_init =
        Rejected (NotOneDimensional "m_flow" (shape m_flow))) /\
   (ndim Tin_charge = 1%Z -> ndim m_flow = 1%Z -> ndim T_amb <> 1%Z ->
      simulate_arrays cfg Tin_charge m_flow T_amb T_init =
        Rejected (NotOneDimensional "T_amb" (shape T_amb))) /\
   (shape Tin_charge = [n_steps cfg] -> shape m_flow = [n_steps cfg] ->
    shape T_amb = [n_steps cfg] -> shape T_init <> [n_nodes cfg] ->
      simulate_arrays cfg Tin_charge m_flow T_amb T_init =
        Rejected (InitialShape (n_nodes cfg) (shape T_init)))).
Proof.
  destruct (validate_fields cfg) as (En & Es & _).
  unfold simulate_arrays, _ensure_1d.
  destruct (validate cfg) as [c [[] | e]] eqn:Hval; cbn [fst snd checked] in *.
  2:{ split; [| discriminate]. now intros e' [= <-]. }
  split; [discriminate |]. intros _. rewrite <- En, <- Es.
  rewrite ?bind_Accepted.
  split; [| split; [| split]].
  - intros H1. now destruct (Z.eqb_spec (ndim Tin_charge) 1).
  - intros H1 H2. rewrite H1. cbn [negb Z.eqb Pos.eqb].
    rewrite ?bind_Accepted.
    now destruct (Z.eqb_spec (ndim m_flow) 1).
  - intros H1 H2 H3. rewrite H1, H2. cbn [negb Z.eqb Pos.eqb].
    rewrite ?bind_Accepted.
    now destruct (Z.eqb_spec (ndim T_amb) 1).
  - intros S1 S2 S3 S4. unfold ndim. rewrite S1, S2, S3.
    change (len [n_steps c]) with 1%Z. cbn [negb Z.eqb Pos.eqb].
    rewrite ?bind_Accepted.
    unfold _check_len_array, array_len, shape_is. rewrite S1, S2, S3.
    cbn [hd]. rewrite Z.eqb_refl. cbn [negb checked].
    rewrite ?bind_Accepted.
    destruct (shape T_init) as [| k [| k' s]]; cbn [negb]; try reflexivity.
    destruct (Z.eqb_spec k (n_nodes c)) as [-> | Hne]; cbn [negb];
      [contradiction | reflexivity].
Qed.

(** ** The dimension errors of the call on arrays *)

Lemma shape_is_decide (arr : ndarray) (n : Z) :
  shape_is arr n = bool_decide (shape arr = [n]).
Proof.
  unfold shape_is. destruct (shape arr) as [| k [| k' s]].
  - now rewrite bool_decide_eq_false_2.
  - destruct (Z.eqb_spec k n) as [-> | Hne].
    + now rewrite bool_decide_eq_true_2.
    + rewrite bool_decide_eq_false_2; [reflexivity | congruence].
  - now rewrite bool_decide_eq_false_2.
Qed.

Lemma one_axis_shape (s : list Z) (n : Z) :
  s = [n] <-> len s = 1%Z /\ hd 0%Z s = n.
Proof.
  split.
  - now intros ->.
  - unfold len. destruct s as [| k [| k' s]]; cbn; intros [H1 H2];
      [lia | now subst | lia].
Qed.

(** The call with the checks it makes before the time march. *)
Lemma simulate_arrays_refused
    (cfg : TankConfig) (Tin_charge m_flow T_amb T_init : ndarray) :
  match refused cfg (shape Tin_charge) (shape m_flow) (shape T_amb)
          (shape T_init) with
  | Some e => simulate_arrays cfg Tin_charge m_flow T_amb T_init = Rejected e
  | None =>
      snd (validate cfg) = Ok tt /\
      shape Tin_charge = [n_steps cfg] /\ shape m_flow = [n_steps cfg] /\
      shape T_amb = [n_steps cfg] /\ shape T_init = [n_nodes cfg] /\
      (well_shaped Tin_charge -> well_shaped m_flow ->
       well_shaped T_amb -> well_shaped T_init ->
       exists out,
         simulate_stratified_tank cfg (data Tin_charge) (data m_flow)
           (data T_amb) (data T_init) = Ok out /\
         simulate_arrays cfg Tin_charge m_flow T_amb T_init = Accepted out)
  end.
Proof.
  destruct (validate_fields cfg) as (En & Es & _).
  unfold refused, simulate_arrays, _ensure_1d, _check_len_array, array_len, ndim.
  destruct (validate cfg) as [c [[] | e]] eqn:Hval; cbn [fst snd checked] in *;
    [| reflexivity].
  rewrite ?bind_Accepted, En, Es.
  destruct (Z.eqb_spec (len (shape Tin_charge)) 1) as [D1 | D1]; cbn [negb];
    [| reflexivity].
  rewrite ?bind_Accepted.
  destruct (Z.eqb_spec (len (shape m_flow)) 1) as [D2 | D2]; cbn [negb];
    [| reflexivity].
  rewrite ?bind_Accepted.
  destruct (Z.eqb_spec (len (shape T_amb)) 1) as [D3 | D3]; cbn [negb];
    [| reflexivity].
  rewrite ?bind_Accepted.
  destruct (Z.eqb_spec (hd 0%Z (shape Tin_charge)) (n_steps cfg)) as [L1 | L1];
    cbn [negb checked]; [| reflexivity].
  rewrite ?bind_Accepted.
  destruct (Z.eqb_spec (hd 0%Z (shape m_flow)) (n_steps cfg)) as [L2 | L2];
    cbn [negb checked]; [| reflexivity].
  rewrite ?bind_Accepted.
  destruct (Z.eqb_spec (hd 0%Z (shape T_amb)) (n_steps cfg)) as [L3 | L3];
    cbn [negb checked]; [| reflexivity].
  rewrite ?bind_Accepted, shape_is_decide, ?En.
  destruct (bool_decide (shape T_init = [n_nodes cfg])) eqn:L4; cbn [negb];
    [| reflexivity].
  apply bool_decide_eq_true_1 in L4.
  pose proof (proj2 (one_axis_shape _ _) (conj D1 L1)) as S1.
  pose proof (proj2 (one_axis_shape _ _) (conj D2 L2)) as S2.
  pose proof (proj2 (one_axis_shape _ _) (conj D3 L3)) as S3.
  do 5 (split; [assumption || reflexivity |]).
  intros [_ W1] [_ W2] [_ W3] [_ W4].
  unfold array_size in *. rewrite S1 in W1. rewrite S2 in W2. rewrite S3 in W3.
  rewrite L4 in W4. cbn [foldr] in *.
  assert (Hwf : well_formed cfg (data Tin_charge) (data m_flow) (data T_amb)
                  (data T_init)).
  { constructor; [now rewrite Hval | lia | lia | lia | lia]. }
  destruct (simulate_ok _ _ _ _ _ Hwf) as (out & Hout & _).
  exists out. split; [exact Hout |].
  revert Hout. unfold simulate_stratified_tank.
  rewrite Hval, bind_Ok, !check_len_ok, !bind_Ok by lia.
  rewrite (proj2 (Z.eqb_eq _ _)) by lia. cbn [negb].
  now intros ->.
Qed.

(** C5.  On arrays of any shape, [simulate_stratified_tank] raises one of
    its dimension errors exactly when the configuration passes validation
    and one of the three per-step series does not have the shape
    [(n_steps,)] or the initial profile does not have the shape
    [(n_nodes,)].  Such an error is fixed by the configuration and the four
    shapes alone, so the call fails in the same way whatever the arrays
    contain: it fails before the time march and returns no output. *)
Theorem simulate_shape_mismatch
    (cfg : TankConfig) (Tin_charge m_flow T_amb T_init : ndarray) :
  well_shaped Tin_charge -> well_shaped m_flow ->
  well_shaped T_amb -> well_shaped T_init ->
  ((exists e, dimension_mismatch e /\
      simulate_arrays cfg Tin_charge m_flow T_amb T_init = Rejected e) <->
   (snd (validate cfg) = Ok tt /\
    (shape Tin_charge <> [n_steps cfg] \/ shape m_flow <> [n_steps cfg] \/
     shape T_amb <> [n_steps cfg] \/ shape T_init <> [n_nodes cfg]))) /\
  (forall e,
     dimension_mismatch e ->
     simulate_arrays cfg Tin_charge m_flow T_amb T_init = Rejected e ->
     refused cfg (shape Tin_charge) (shape m_flow) (shape T_amb) (shape T_init)
       = Some e /\
     forall Tin_charge' m_flow' T_amb' T_init' : ndarray,
       shape Tin_charge' = shape Tin_charge -> shape m_flow' = shape m_flow ->
       shape T_amb' = shape T_amb -> shape T_init' = shape T_init ->
       simulate_arrays cfg Tin_charge' m_flow' T_amb' T_init' = Rejected e).
Proof.
  intros W1 W2 W3 W4.
  pose proof (simulate_arrays_refused cfg Tin_charge m_flow T_amb T_init) as Hc.
  assert (Hshapes :
    forall e, refused cfg (shape Tin_charge) (shape m_flow) (shape T_amb)
                (shape T_init) = Some e ->
      dimension_mismatch e <->
      (snd (validate cfg) = Ok tt /\
       (shape Tin_charge <> [n_steps cfg] \/ shape m_flow <> [n_steps cfg] \/
        shape T_amb <> [n_steps cfg] \/ shape T_init <> [n_nodes cfg]))).
  { intros e. unfold refused.
    destruct (snd (validate cfg)) as [[] | e0] eqn:Hv.
    2:{ intros [= <-]. cbn. split; [| intros [[=] _]].
        destruct (validate_cases cfg) as [[_ [msg Hm]] | [_ Hok]];
          [rewrite Hm in Hv | rewrite Hok in Hv]; cbn in Hv; [| discriminate].
        injection Hv as <-. intros []. }
    assert (Hne : forall (s : list Z) n, len s <> 1%Z \/ hd 0%Z s <> n -> s <> [n]).
    { intros s n H ->. cbn in H. destruct H as [H | H]; now apply H. }
    destruct (Z.eqb_spec (len (shape Tin_charge)) 1); cbn [negb];
      [| intros [= <-]; cbn; split; [intros _ | easy]; split; [reflexivity |];
         left; apply Hne; tauto].
    destruct (Z.eqb_spec (len (shape m_flow)) 1); cbn [negb];
      [| intros [= <-]; cbn; split; [intros _ | easy]; split; [reflexivity |];
         right; left; apply Hne; tauto].
    destruct (Z.eqb_spec (len (shape T_amb)) 1); cbn [negb];
      [| intros [= <-]; cbn; split; [intros _ | easy]; split; [reflexivity |];
         right; right; left; apply Hne; tauto].
    destruct (Z.eqb_spec (hd 0%Z (shape Tin_charge)) (n_steps cfg)); cbn [negb];
      [| intros [= <-]; cbn; split; [intros _ | easy]; split; [reflexivity |];
         left; apply Hne; tauto].
    destruct (Z.eqb_spec (hd 0%Z (shape m_flow)) (n_steps cfg)); cbn [negb];
      [| intros [= <-]; cbn; split; [intros _ | easy]; split; [reflexivity |];
         right; left; apply Hne; tauto].
    destruct (Z.eqb_spec (hd 0%Z (shape T_amb)) (n_steps cfg)); cbn [negb];
      [| intros [= <-]; cbn; split; [intros _ | easy]; split; [reflexivity |];
         right; right; left; apply Hne; tauto].
    destruct (bool_decide (shape T_init = [n_nodes cfg])) eqn:L4; [discriminate |].
    apply bool_decide_eq_false_1 in L4.
    intros [= <-]; cbn; split; [intros _ | easy]; split; [reflexivity |].
    now do 3 right. }
  destruct (refused cfg (shape Tin_charge) (shape m_flow) (shape T_amb)
              (shape T_init)) as [e0 |] eqn:Hr.
  - split.
    + split.
      * intros (e & He & Hsim). rewrite Hc in Hsim. injection Hsim as <-.
        now apply (Hshapes e0).
      * intros H. exists e0. split; [now apply (Hshapes e0) | exact Hc].
    + intros e _ Hsim. rewrite Hc in Hsim. injection Hsim as <-.
      split; [reflexivity |].
      intros Tin' m' Ta' Ti' E1 E2 E3 E4.
      pose proof (simulate_arrays_refused cfg Tin' m' Ta' Ti') as Hc'.
      rewrite E1, E2, E3, E4, Hr in Hc'. exact Hc'.
  - destruct Hc as (Hv & S1 & S2 & S3 & S4 & Hrun).
    destruct (Hrun W1 W2 W3 W4) as (out & _ & Hout).
    split.
    + split.
      * intros (e & _ & Hsim). congruence.
      * intros [_ [H | [H | [H | H]]]]; contradiction.
    + intros e _ Hsim. congruence.
Qed.

(** * The same runs in binary64 *)

(** The properties above that bound or order temperatures, or say that a
    call returns, are properties of the scheme in exact arithmetic.  The
    program computes in binary64, where every operation rounds; the runs
    below, evaluated in [Binary64], show what rounding does to them. *)

Section Binary64Runs.

Import PrimFloat.
Local Open Scope float_scope.

(** C10, as stated, fails on the code.  The tank of the example script
    without losses and conduction, uniform at 60 degrees Celsius, is
    charged with water at 60 degrees Celsius: the hull of the row and of
    the inlet temperature is the single value [333.15], the mix
    [(1 - alpha) * 333.15 + alpha * 333.15] is rounded upwards, and the
    bottom node of the next row lies above the hull. *)
Lemma step_leaves_hull_binary64 :
  snd (Binary64.validate (Binary64.default_cfg 60.0 1)) = Ok tt /\
  Binary64.ua_loss (Binary64.default_cfg 60.0 1) = 0 /\
  Binary64.k_cond (Binary64.default_cfg 60.0 1) = 0 /\
  (0 <? 0.10) = true /\
  exists T,
    Binary64.time_marching (fst (Binary64.validate (Binary64.default_cfg 60.0 1)))
      [333.15] [0.10] [293.15] (Binary64.np_full 20 333.15) = Returned T /\
    getitem T 0 = Ok (Binary64.np_full 20 333.15) /\
    Binary64.entry T 1 0 = Returned 333.15000000000003 /\
    (333.15 <? 333.15000000000003) = true.
Proof.
  do 4 (split; [vm_compute; reflexivity |]).
  eexists. split; [vm_compute; reflexivity |].
  repeat split; vm_compute; reflexivity.
Qed.

(** The charging front of C7 in binary64: scenario 1 in the tank of the
    example script without losses and conduction meets every hypothesis of
    the amended claim, and after 287 steps the bottom node, within
    rounding of the inlet temperature, lies above it. *)
Lemma charging_front_binary64 :
  (T ← Binary64.time_marching
         (fst (Binary64.validate (Binary64.default_cfg 60.0 288)))
         (Binary64.np_full 288 (60.0 + 273.15)) (Binary64.np_full 288 0.10)
         (Binary64.np_full 288 (20.0 + 273.15))
         (Binary64.np_full 20 (20.0 + 273.15));
   a ← Binary64.entry T 286 0; b ← Binary64.entry T 287 0;
   Returned (a, b, 60.0 + 273.15 <? b))
  = Returned (333.14999999999998, 333.15000000000003, true).
Proof. vm_compute. reflexivity. Qed.

(** Scenario 1 with steps of 11 s: after the first step the tenth node
    from the bottom, which the front has not reached, is cooler than the
    20 degrees Celsius it started from. *)
Lemma charging_far_node_binary64 :
  (T ← Binary64.time_marching
         (fst (Binary64.validate (Binary64.default_cfg 11.0 1)))
         (Binary64.np_full 1 (60.0 + 273.15)) (Binary64.np_full 1 0.10)
         (Binary64.np_full 1 (20.0 + 273.15))
         (Binary64.np_full 20 (20.0 + 273.15));
   a ← Binary64.entry T 0 9; b ← Binary64.entry T 1 9;
   Returned (a, b, b <? a, b <? 20.0 + 273.15))
  = Returned (293.14999999999998, 293.14999999999992, true, true).
Proof. vm_compute. reflexivity. Qed.

(** Constant inputs: a run that warms from its first step on, and whose
    bottom node cools between rows 7 and 8. *)
Lemma constant_inputs_binary64 :
  (T ← Binary64.time_marching (fst (Binary64.validate Binary64.warming_cfg))
         (Binary64.np_full 8 333.15) (Binary64.np_full 8 3.0)
         (Binary64.np_full 8 310.0) (Binary64.np_full 5 308.07926561003075);
   r0 ← Binary64.entry T 0 0; r1 ← Binary64.entry T 1 0;
   a ← Binary64.entry T 7 0; b ← Binary64.entry T 8 0;
   Returned (r0 <? r1, a, b, b <? a))
  = Returned (true, 330.88290538495306, 330.88290538495301, true).
Proof. vm_compute. reflexivity. Qed.

(** A configuration that passes validation and whose node mass is rounded
    to zero: the first charging step divides by it and raises
    [ZeroDivisionError], which the exact model never does. *)
Lemma zero_mass_node_binary64 :
  snd (Binary64.validate Binary64.underflow_cfg) = Ok tt /\
  Binary64.constants (fst (Binary64.validate Binary64.underflow_cfg))
    = Returned (0, 0, 0) /\
  Binary64.time_marching (fst (Binary64.validate Binary64.underflow_cfg))
    [333.15] [0.10] [293.15] [293.15; 293.15] = Raised ZeroDivisionError.
Proof. repeat split; vm_compute; reflexivity. Qed.

(** The loss phase does not keep the order of two temperatures: at a loss
    weight of 0.95, a bottom node that starts one unit in the last place
    warmer ends the step cooler. *)
Lemma loss_phase_order_binary64 :
  (T ← Binary64.time_marching (fst (Binary64.validate Binary64.losing_cfg))
         [333.15; 333.15] [0.1; -0.08] [293.15; 293.15]
         (Binary64.np_full 3 320.47046292582706);
   T' ← Binary64.time_marching (fst (Binary64.validate Binary64.losing_cfg))
         [333.15; 333.15] [0.1; -0.08] [293.15; 293.15]
         [320.47046292582712; 320.47046292582706; 320.47046292582706];
   a ← Binary64.entry T 1 0; a' ← Binary64.entry T' 1 0;
   Returned (320.47046292582706 <? 320.47046292582712, a, a', a' <? a))
  = Returned (true, 295.20115127177991, 295.20115127177985, true).
Proof. vm_compute. reflexivity. Qed.

(** Conduction at the edge of stability does not keep a tank stratified:
    scenario 3 in a tank of five nodes, after 152 idle steps. *)
Lemma conduction_stratification_binary64 :
  (l ← Binary64.np_linspace 30.0 50.0 5;
   T ← Binary64.time_marching
         (fst (Binary64.validate Binary64.conducting_cfg))
         (Binary64.np_full 152 (60.0 + 273.15)) (Binary64.np_full 152 0)
         (Binary64.np_full 152 (20.0 + 273.15)) ((fun x => x + 273.15) <$> l);
   a ← Binary64.entry T 152 0; b ← Binary64.entry T 152 1;
   Returned (a, b, b <? a))
  = Returned (313.14999999999998, 313.14999999999992, true).
Proof. vm_compute. reflexivity. Qed.

(** Nor does discharging: scenario 2 in the tank of the example script
    without losses and conduction, with steps of 12 s, after 1361 steps. *)
Lemma discharge_stratification_binary64 :
  (l ← Binary64.np_linspace 55.0 65.0 20;
   T ← Binary64.time_marching
         (fst (Binary64.validate (Binary64.default_cfg 12.0 1361)))
         (Binary64.np_full 1361 (60.0 + 273.15)) (Binary64.np_full 1361 (-0.08))
         (Binary64.np_full 1361 (20.0 + 273.15)) ((fun x => x + 273.15) <$> l);
   a ← Binary64.entry T 1361 0; b ← Binary64.entry T 1361 1;
   Returned (a, b, b <? a))
  = Returned (328.14999999999998, 328.14999999999992, true).
Proof. vm_compute. reflexivity. Qed.

End Binary64Runs.

(** ** No array access fails, whatever the floats are *)

Lemma no_index_error_bind {A B} (Q : A -> Prop) (P : B -> Prop)
    (m : outcome A) (f : A -> outcome B) :
  no_index_error Q m -> (forall a, Q a -> no_index_error P (f a)) ->
  no_index_error P (m ≫= f).
Proof.
  destruct m as [a | e].
  - rewrite bind_Returned. intros Ha Hf. apply Hf. exact Ha.
  - change (Raised e ≫= f) with (@Raised B e). intros H _. exact H.
Qed.

Lemma no_index_error_truediv (a b : PrimFloat.float) :
  no_index_error (fun _ => True) (Binary64.truediv a b).
Proof. unfold Binary64.truediv. now destruct (PrimFloat.eqb b _). Qed.

Lemma no_index_error_called {A} (P : A -> Prop) (r : result A) (a : A) :
  r = Ok a -> P a -> no_index_error P (called r).
Proof. now intros -> Ha. Qed.

Lemma no_index_error_weaken {A} (P Q : A -> Prop) (r : outcome A) :
  (forall a, P a -> Q a) -> no_index_error P r -> no_index_error Q r.
Proof. intros H. destruct r as [a | []]; cbn; auto. Qed.

(** A loop of mixing assignments over indices in range keeps the length. *)
Lemma for_mixing_len (n : Z) (g h : Z -> Z)
    (v : PrimFloat.float -> PrimFloat.float -> PrimFloat.float) (xs : list Z) :
  (forall i, i ∈ xs -> (0 <= g i < n)%Z /\ (0 <= h i < n)%Z) ->
  forall l : list PrimFloat.float, len l = n ->
  exists l',
    for_ xs (fun i Tn => a ← getitem Tn (g i); b ← getitem Tn (h i);
                         setitem Tn (g i) (v a b)) l = Ok l' /\
    len l' = n.
Proof.
  intros Hidx. induction xs as [| x xs IH]; intros l Hl.
  - exists l. split; [reflexivity | exact Hl].
  - destruct (Hidx x ltac:(left)) as [Hg Hh].
    cbn [for_].
    rewrite (getitem_ok l (g x)), bind_Ok by lia.
    rewrite (getitem_ok l (h x)), bind_Ok by lia.
    rewrite setitem_ok, bind_Ok by lia.
    apply IH; [intros i Hi; apply Hidx; now right | now rewrite len_insert].
Qed.

Section Binary64Step.

Variable cfg : Binary64.TankConfig.
Variables mass_node ua_node G_cond : PrimFloat.float.
Hypothesis Hn : (2 <= Binary64.n_nodes cfg)%Z.
Hypothesis Hin : (0 <= Binary64.charge_inlet cfg < Binary64.n_nodes cfg)%Z.
Hypothesis Hout : (0 <= Binary64.discharge_outlet cfg < Binary64.n_nodes cfg)%Z.

Lemma b64_side_losses_len (Tamb : PrimFloat.float) (Tn : list PrimFloat.float) :
  len (Binary64.side_losses cfg mass_node ua_node Tamb Tn) = len Tn.
Proof.
  unfold Binary64.side_losses, len.
  rewrite length_zip_with, length_fmap. lia.
Qed.

Lemma b64_axial_conduction_len (Tn : list PrimFloat.float) :
  len Tn = Binary64.n_nodes cfg ->
  exists Tn', Binary64.axial_conduction cfg mass_node G_cond Tn = Ok Tn' /\
              len Tn' = len Tn.
Proof.
  intros HlZ. unfold Binary64.axial_conduction.
  assert (Hl : (2 <= length Tn)%nat) by (unfold len in HlZ; lia).
  rewrite (getitem_ok Tn 1), bind_Ok by lia.
  rewrite (getitem_ok Tn 0), bind_Ok by lia.
  unfold Binary64.np_zeros.
  rewrite setitem_ok, bind_Ok by (rewrite len_replicate; lia).
  rewrite slice_lo, slice_mid, slice_hi by exact Hl.
  rewrite set_slice_interior, bind_Ok;
    [| rewrite length_insert, length_replicate; unfold len; lia
     | rewrite length_fmap, !length_zip_with, !length_take, !length_drop,
         length_insert, length_replicate; unfold len; lia].
  rewrite (getitem_neg_ok Tn (-2)), bind_Ok by lia.
  rewrite (getitem_neg_ok Tn (-1)), bind_Ok by lia.
  set (d := take 1 _ ++ _ ++ drop _ _).
  assert (Hd : length d = length Tn).
  { unfold d. rewrite !length_app, length_take, length_drop, length_fmap,
      !length_zip_with, !length_take, !length_drop, length_insert,
      length_replicate. unfold len. lia. }
  rewrite setitem_neg_ok, bind_Ok by (unfold len; lia).
  eexists. split; [reflexivity |].
  unfold len. rewrite length_zip_with, length_insert, Hd. lia.
Qed.

Lemma b64_charging_safe (Tin_charge : list PrimFloat.float) (t : Z)
    (mf : PrimFloat.float) (Tn : list PrimFloat.float) :
  (0 <= t < len Tin_charge)%Z -> len Tn = Binary64.n_nodes cfg ->
  no_index_error (fun Tn' => len Tn' = Binary64.n_nodes cfg)
    (Binary64.charging cfg mass_node Tin_charge t mf Tn).
Proof.
  intros Ht Hl. unfold Binary64.charging.
  eapply no_index_error_bind; [apply no_index_error_truediv |].
  intros alpha _.
  rewrite (getitem_ok Tn), (getitem_ok Tin_charge) by lia.
  cbn [called]. rewrite !bind_Returned.
  rewrite setitem_ok by lia. cbn [called]. rewrite bind_Returned.
  destruct (Z.ltb_spec (Binary64.charge_inlet cfg) (Binary64.n_nodes cfg - 1));
    [| cbn; now rewrite len_insert].
  eapply no_index_error_bind; [apply no_index_error_truediv |].
  intros q _.
  destruct (for_mixing_len (Binary64.n_nodes cfg) (fun i => (i + 1)%Z) (fun i => i)
              (fun a b =>
                 PrimFloat.add
                   (PrimFloat.mul (PrimFloat.sub PrimFloat.one (Binary64.py_min PrimFloat.one q)) a)
                   (PrimFloat.mul (Binary64.py_min PrimFloat.one q) b))
              (range (Binary64.charge_inlet cfg) (Binary64.n_nodes cfg - 1)))
    with (l := <[Z.to_nat (Binary64.charge_inlet cfg) :=
                  PrimFloat.add
                    (PrimFloat.mul (PrimFloat.sub PrimFloat.one alpha) (Tn !!! Z.to_nat (Binary64.charge_inlet cfg)))
                    (PrimFloat.mul alpha (Tin_charge !!! Z.to_nat t))]> Tn)
    as (l' & Hrun & Hl').
  - intros i Hi. apply elem_of_range in Hi. lia.
  - now rewrite len_insert.
  - eapply no_index_error_called; [exact Hrun | exact Hl'].
Qed.

Lemma b64_discharging_safe (mf : PrimFloat.float) (Tn : list PrimFloat.float) :
  len Tn = Binary64.n_nodes cfg ->
  no_index_error (fun Tn' => len Tn' = Binary64.n_nodes cfg)
    (Binary64.discharging cfg mass_node mf Tn).
Proof.
  intros Hl. unfold Binary64.discharging.
  eapply no_index_error_bind; [apply no_index_error_truediv |].
  intros q _.
  set (frac := Binary64.py_min _ q).
  set (v := fun a b : PrimFloat.float =>
              PrimFloat.add (PrimFloat.mul (PrimFloat.sub PrimFloat.one frac) a)
                            (PrimFloat.mul frac b)).
  destruct (Z.ltb_spec 0 (Binary64.discharge_outlet cfg)) as [Hpos | Hzero].
  - rewrite (getitem_ok Tn (Binary64.discharge_outlet cfg)), bind_Ok by lia.
    rewrite (getitem_ok Tn (Binary64.discharge_outlet cfg - 1)), bind_Ok by lia.
    rewrite setitem_ok, bind_Ok by lia.
    destruct (for_mixing_len (Binary64.n_nodes cfg) (fun i => i) (fun i => (i - 1)%Z) v
                (range_down (Binary64.discharge_outlet cfg - 1) 0))
      with (l := <[Z.to_nat (Binary64.discharge_outlet cfg) :=
                    v (Tn !!! Z.to_nat (Binary64.discharge_outlet cfg))
                      (Tn !!! Z.to_nat (Binary64.discharge_outlet cfg - 1))]> Tn)
      as (l' & Hrun & Hl').
    + intros i Hi. apply elem_of_range_down in Hi. lia.
    + now rewrite len_insert.
    + eapply no_index_error_called; [exact Hrun | exact Hl'].
  - destruct (Z.ltb_spec 1 (Binary64.n_nodes cfg)); [| lia].
    rewrite (getitem_ok Tn (Binary64.discharge_outlet cfg)), bind_Ok by lia.
    rewrite (getitem_ok Tn (Binary64.discharge_outlet cfg + 1)), bind_Ok by lia.
    rewrite setitem_ok, bind_Ok by lia.
    destruct (for_mixing_len (Binary64.n_nodes cfg) (fun i => i) (fun i => (i + 1)%Z) v
                (range 0 (Binary64.n_nodes cfg - 2)))
      with (l := <[Z.to_nat (Binary64.discharge_outlet cfg) :=
                    v (Tn !!! Z.to_nat (Binary64.discharge_outlet cfg))
                      (Tn !!! Z.to_nat (Binary64.discharge_outlet cfg + 1))]> Tn)
      as (l' & Hrun & Hl').
    + intros i Hi. apply elem_of_range in Hi. lia.
    + now rewrite len_insert.
    + eapply no_index_error_called; [exact Hrun | exact Hl'].
Qed.

Lemma b64_advection_safe (Tin_charge : list PrimFloat.float) (t : Z)
    (mf : PrimFloat.float) (Tn : list PrimFloat.float) :
  (0 <= t < len Tin_charge)%Z -> len Tn = Binary64.n_nodes cfg ->
  no_index_error (fun Tn' => len Tn' = Binary64.n_nodes cfg)
    (Binary64.advection cfg mass_node Tin_charge t mf Tn).
Proof.
  intros Ht Hl. unfold Binary64.advection.
  destruct (PrimFloat.ltb _ mf); [now apply b64_charging_safe |].
  destruct (PrimFloat.ltb mf _); [now apply b64_discharging_safe | exact Hl].
Qed.

Lemma b64_time_step_safe (n : Z) (Tin_charge m_flow T_amb T_init : list PrimFloat.float)
    (t : Z) (T : list (list PrimFloat.float)) :
  len Tin_charge = n -> len m_flow = n -> len T_amb = n ->
  (0 <= t < n)%Z -> b64_field cfg n T_init T ->
  no_index_error (b64_field cfg n T_init)
    (Binary64.time_step cfg mass_node ua_node G_cond Tin_charge m_flow T_amb t T).
Proof.
  intros HTin Hm HTa Ht (HlT & Hrows & H0). unfold Binary64.time_step.
  assert (Hrow : forall k, (0 <= k < n + 1)%Z ->
            len (T !!! Z.to_nat k) = Binary64.n_nodes cfg).
  { intros k Hk.
    apply (Forall_lookup_1 _ _ (Z.to_nat k) (T !!! Z.to_nat k) Hrows).
    apply list_lookup_lookup_total_lt. unfold len in HlT. lia. }
  rewrite (getitem_ok T t) by lia. cbn [called]. rewrite bind_Returned.
  set (row := T !!! Z.to_nat t).
  assert (Hl0 : len row = Binary64.n_nodes cfg) by (apply Hrow; lia).
  eapply (no_index_error_bind (fun Tn => len Tn = Binary64.n_nodes cfg)).
  { destruct (PrimFloat.ltb _ ua_node); [| exact Hl0].
    rewrite (getitem_ok T_amb t) by lia. cbn [called]. rewrite bind_Returned.
    cbn. now rewrite b64_side_losses_len. }
  intros Tn1 Hl1.
  eapply (no_index_error_bind (fun Tn => len Tn = Binary64.n_nodes cfg)).
  { destruct (PrimFloat.ltb _ G_cond); [| exact Hl1].
    destruct (b64_axial_conduction_len Tn1 Hl1) as (Tn' & -> & Hl').
    cbn. lia. }
  intros Tn2 Hl2.
  rewrite (getitem_ok m_flow t) by lia. cbn [called]. rewrite bind_Returned.
  eapply no_index_error_bind; [apply b64_advection_safe; [lia | exact Hl2] |].
  intros Tn3 Hl3. unfold Binary64.set_row.
  rewrite (getitem_ok T (t + 1)), bind_Ok by lia.
  rewrite Hl3, (Hrow (t + 1)%Z), Z.eqb_refl by lia.
  rewrite setitem_ok by lia. cbn [called no_index_error].
  split; [now rewrite len_insert |]. split.
  - apply Forall_insert; assumption.
  - revert H0. rewrite !(getitem_ok _ 0) by (rewrite ?len_insert; lia).
    intros [= <-]. f_equal.
    apply list_lookup_total_insert_ne. lia.
Qed.

Lemma b64_for_steps_safe (n : Z) (Tin_charge m_flow T_amb T_init : list PrimFloat.float)
    (ts : list Z) :
  len Tin_charge = n -> len m_flow = n -> len T_amb = n ->
  (forall t, t ∈ ts -> (0 <= t < n)%Z) ->
  forall T, b64_field cfg n T_init T ->
  no_index_error (b64_field cfg n T_init)
    (Binary64.for_steps ts
       (Binary64.time_step cfg mass_node ua_node G_cond Tin_charge m_flow T_amb) T).
Proof.
  intros HTin Hm HTa. induction ts as [| t ts IH]; intros Hts T HT.
  - exact HT.
  - cbn [Binary64.for_steps].
    eapply (no_index_error_bind (b64_field cfg n T_init)).
    + apply (b64_time_step_safe n); try assumption. apply Hts. now left.
    + intros T' HT'. apply IH; [| exact HT']. intros t' Ht'. apply Hts. now right.
Qed.

End Binary64Step.

Lemma b64_validate_indices (cfg : Binary64.TankConfig) :
  snd (Binary64.validate cfg) = Ok tt ->
  let c := fst (Binary64.validate cfg) in
  (2 <= Binary64.n_nodes c)%Z /\ (1 <= Binary64.n_steps c)%Z /\
  (0 <= Binary64.charge_inlet c < Binary64.n_nodes c)%Z /\
  (0 <= Binary64.discharge_outlet c < Binary64.n_nodes c)%Z /\
  Binary64.n_nodes c = Binary64.n_nodes cfg /\
  Binary64.n_steps c = Binary64.n_steps cfg.
Proof.
  unfold Binary64.validate.
  destruct (Z.ltb_spec (Binary64.n_nodes cfg) 2); [discriminate |].
  destruct (PrimFloat.leb (Binary64.height cfg) _); [discriminate |].
  destruct (PrimFloat.leb (Binary64.volume cfg) _); [discriminate |].
  destruct (PrimFloat.leb (Binary64.rho cfg) _ || PrimFloat.leb (Binary64.cp cfg) _);
    [discriminate |].
  destruct (PrimFloat.leb (Binary64.dt cfg) _); [discriminate |].
  destruct (Z.ltb_spec (Binary64.n_steps cfg) 1); [discriminate |].
  destruct (Z.leb_spec 0 (Binary64.charge_inlet cfg)); cbn [andb negb];
    [| discriminate].
  destruct (Z.ltb_spec (Binary64.charge_inlet cfg) (Binary64.n_nodes cfg));
    cbn [negb]; [| discriminate].
  destruct (Z.eqb_spec (Binary64.discharge_outlet cfg) (-1)) as [E | E].
  - cbn [Binary64.set_discharge_outlet Binary64.discharge_outlet Binary64.n_nodes].
    destruct (Z.leb_spec 0 (Binary64.n_nodes cfg - 1)); cbn [andb negb];
      [| discriminate].
    destruct (Z.ltb_spec (Binary64.n_nodes cfg - 1) (Binary64.n_nodes cfg));
      cbn [negb]; [| discriminate].
    intros _. cbn. lia.
  - destruct (Z.leb_spec 0 (Binary64.discharge_outlet cfg)); cbn [andb negb];
      [| discriminate].
    destruct (Z.ltb_spec (Binary64.discharge_outlet cfg) (Binary64.n_nodes cfg));
      cbn [negb]; [| discriminate].
    intros _. cbn. lia.
Qed.

(** X2.  In binary64 no array access of the time march can fail.  For every
    configuration that passes validation and for series and a profile of
    the right lengths, whatever the floats are (infinities and NaN
    included), the march returns a field of [n_steps + 1] rows of
    [n_nodes] entries that starts with the initial profile, or it raises
    the [ZeroDivisionError] of a division of Python floats (by a zero
    [dz], node mass or mixing denominator): no index is ever out of
    bounds and no assignment to a row or a slice has the wrong shape. *)
Theorem march_raises_no_index_error
    (cfg : Binary64.TankConfig)
    (Tin_charge m_flow T_amb T_init : list PrimFloat.float) :
  snd (Binary64.validate cfg) = Ok tt ->
  len Tin_charge = Binary64.n_steps cfg ->
  len m_flow = Binary64.n_steps cfg ->
  len T_amb = Binary64.n_steps cfg ->
  len T_init = Binary64.n_nodes cfg ->
  no_index_error
    (fun T =>
       len T = (Binary64.n_steps cfg + 1)%Z /\
       Forall (fun row => len row = Binary64.n_nodes cfg) T /\
       getitem T 0 = Ok T_init)
    (Binary64.time_marching (fst (Binary64.validate cfg))
       Tin_charge m_flow T_amb T_init).
Proof.
  intros Hv HTin Hm HTa HTi.
  destruct (b64_validate_indices cfg Hv) as (Hn & Hs & Hin & Hout & En & Es).
  set (c := fst (Binary64.validate cfg)) in *. cbv zeta in *.
  rewrite <- En, <- Es in *.
  unfold Binary64.time_marching.
  eapply (no_index_error_bind (fun _ => True)).
  { unfold Binary64.constants.
    eapply no_index_error_bind; [apply no_index_error_truediv |]. intros dz _.
    eapply no_index_error_bind; [apply no_index_error_truediv |]. intros area _.
    eapply (no_index_error_bind (fun _ => True)).
    { destruct (PrimFloat.ltb _ _); [apply no_index_error_truediv | exact I]. }
    intros ua _.
    eapply (no_index_error_bind (fun _ => True)).
    { destruct (PrimFloat.ltb _ _); [apply no_index_error_truediv | exact I]. }
    intros G _. exact I. }
  intros [[mass ua] G] _.
  set (n := Binary64.n_steps c) in *.
  set (T0 := Binary64.np_empty (n + 1) (Binary64.n_nodes c)).
  assert (HT0 : len T0 = (n + 1)%Z).
  { unfold T0, Binary64.np_empty. rewrite len_replicate. lia. }
  assert (Hrows0 : Forall (fun row => len row = Binary64.n_nodes c) T0).
  { unfold T0, Binary64.np_empty. apply Forall_replicate.
    rewrite len_replicate. lia. }
  unfold Binary64.set_row.
  rewrite (getitem_ok T0 0), bind_Ok by lia.
  assert (Hr0 : len (T0 !!! Z.to_nat 0) = Binary64.n_nodes c).
  { apply (Forall_lookup_1 _ _ (Z.to_nat 0) (T0 !!! Z.to_nat 0) Hrows0).
    apply list_lookup_lookup_total_lt. unfold len in HT0. lia. }
  rewrite HTi, Hr0, Z.eqb_refl.
  rewrite setitem_ok by lia. cbn [called]. rewrite bind_Returned.
  apply (b64_for_steps_safe c mass ua G Hn Hin Hout n); try assumption.
  - intros t Ht. apply elem_of_range in Ht. lia.
  - split; [now rewrite len_insert |]. split.
    + apply Forall_insert; [exact Hrows0 | exact HTi].
    + rewrite getitem_ok by (rewrite len_insert; lia). f_equal.
      apply list_lookup_total_insert_eq. unfold len in HT0. lia.
Qed.

(** ** The further properties at concrete inputs *)

Ltac Forall_cmp :=
  repeat (apply Forall_cons_2; [decide_cmp |]); apply Forall_nil_2.

Ltac Forall2_cmp :=
  repeat (apply Forall2_cons_2; [decide_cmp |]); apply Forall2_nil_2.

Ltac well_shaped_compute :=
  split; [repeat (apply Forall_cons_2; [vm_compute; discriminate |]);
          apply Forall_nil_2
         | reflexivity].

Lemma simulate_output_shapes_witness :
  exists out,
    simulate_stratified_tank plain_cfg [60; 60] [1; -1] [20; 20] [30; 50] = Ok out /\
    len (T out) = (2 + 1)%Z /\
    Forall (fun row => len row = 2%Z) (T out) /\
    getitem (T out) 0 = Ok [30; 50] /\
    len (T_top out) = (2 + 1)%Z /\
    len (T_bot out) = (2 + 1)%Z /\
    len (Q_loss out) = 2%Z /\
    forall t, (0 <= t <= 2)%Z ->
      getitem (T_top out) t = getitem (row_at (T out) t) (-1) /\
      getitem (T_bot out) t = getitem (row_at (T out) t) 0.
Proof.
  eexists. split; [vm_compute; reflexivity |].
  apply (simulate_output_shapes plain_cfg [60; 60] [1; -1] [20; 20] [30; 50]).
  vm_compute. reflexivity.
Defined.

Lemma inlet_temperature_unused_witness :
  simulate_stratified_tank plain_cfg [0; 0] [-1; 0] [20; 20] [30; 50] =
  simulate_stratified_tank plain_cfg [60; 60] [-1; 0] [20; 20] [30; 50].
Proof.
  apply (inlet_temperature_unused plain_cfg [60; 60] [0; 0] [-1; 0] [20; 20] [30; 50]).
  - reflexivity.
  - Forall_cmp.
Defined.

Lemma ambient_temperature_unused_witness :
  simulate_stratified_tank conducting_cfg [60; 60] [1; -1] [0; 0] [30; 50] =
  simulate_stratified_tank conducting_cfg [60; 60] [1; -1] [20; 20] [30; 50].
Proof.
  apply (ambient_temperature_unused conducting_cfg [60; 60] [1; -1] [20; 20] [0; 0] [30; 50]).
  - reflexivity.
  - decide_cmp.
Defined.

Lemma stable_run_bounded_witness :
  exists out,
    simulate_stratified_tank vessel_cfg
      [333; 333] [1 # 60; 1 # 60] [293; 293] [293; 293] = Ok out /\
    Forall (Forall (between 293 333)) (T out) /\
    Forall (between 293 333) (T_top out) /\
    Forall (between 293 333) (T_bot out).
Proof.
  apply (stable_run_bounded vessel_cfg
           [333; 333] [1 # 60; 1 # 60] [293; 293] [293; 293] 293 333).
  - well_formed_compute.
  - decide_cmp.
  - decide_cmp.
  - Forall_cmp.
  - intros _. Forall_cmp.
  - intros t Ht _.
    assert (t = 0 \/ t = 1)%Z as [-> | ->]
      by (change (n_steps vessel_cfg) with 2%Z in Ht; lia); decide_cmp.
Defined.

Lemma idle_step_energy_balance_witness :
  exists out,
    simulate_stratified_tank vessel_cfg [333; 333] [0; 0] [293; 293] [300; 310]
      = Ok out /\
    forall t, (0 <= t < 2)%Z -> node [0; 0] t == 0 ->
      cp vessel_cfg * energy vessel_cfg (row_at (T out) (t + 1))
      == cp vessel_cfg * energy vessel_cfg (row_at (T out) t)
         - node (Q_loss out) t * dt vessel_cfg.
Proof.
  apply (idle_step_energy_balance vessel_cfg [333; 333] [0; 0] [293; 293] [300; 310]).
  well_formed_compute.
Defined.

Lemma loss_power_of_mean_witness :
  exists out,
    simulate_stratified_tank vessel_cfg
      [333; 333] [1 # 60; 1 # 60] [293; 293] [300; 310] = Ok out /\
    forall t, (0 <= t < 2)%Z ->
      node (Q_loss out) t
      == 50 * (np_sum (row_at (T out) t) / inject_Z 2 - node [293; 293] t).
Proof.
  apply (loss_power_of_mean vessel_cfg
           [333; 333] [1 # 60; 1 # 60] [293; 293] [300; 310]).
  - well_formed_compute.
  - reflexivity.
Defined.

Lemma stable_run_monotone_witness :
  exists out out',
    simulate_stratified_tank vessel_cfg
      [333; 333] [1 # 60; 1 # 60] [293; 293] [293; 293] = Ok out /\
    simulate_stratified_tank vessel_cfg
      [343; 333] [1 # 60; 1 # 60] [293; 303] [300; 310] = Ok out' /\
    Forall2 (Forall2 Qle) (T out) (T out') /\
    Forall2 Qle (T_top out) (T_top out') /\
    Forall2 Qle (T_bot out) (T_bot out').
Proof.
  apply (stable_run_monotone vessel_cfg
           [333; 333] [343; 333] [1 # 60; 1 # 60] [293; 293] [293; 303]
           [293; 293] [300; 310]).
  - well_formed_compute.
  - reflexivity.
  - reflexivity.
  - decide_cmp.
  - decide_cmp.
  - Forall2_cmp.
  - intros _. Forall2_cmp.
  - intros t Ht _.
    assert (t = 0 \/ t = 1)%Z as [-> | ->]
      by (change (n_steps vessel_cfg) with 2%Z in Ht; lia); decide_cmp.
Defined.

Lemma temperature_scale_witness :
  exists out out',
    simulate_stratified_tank vessel_cfg
      [60; 60] [1 # 60; - (1 # 60)] [20; 20] [30; 50] = Ok out /\
    simulate_stratified_tank vessel_cfg
      ((fun x => 1 * x + 273.15) <$> [60; 60]) [1 # 60; - (1 # 60)]
      ((fun x => 1 * x + 273.15) <$> [20; 20])
      ((fun x => 1 * x + 273.15) <$> [30; 50]) = Ok out' /\
    Forall2 (Forall2 (rescaled 1 273.15)) (T out) (T out') /\
    Forall2 (rescaled 1 273.15) (T_top out) (T_top out') /\
    Forall2 (rescaled 1 273.15) (T_bot out) (T_bot out') /\
    Forall2 (fun q q' => q' == 1 * q) (Q_loss out) (Q_loss out').
Proof.
  apply (temperature_scale vessel_cfg
           [60; 60] [1 # 60; - (1 # 60)] [20; 20] [30; 50] 1 273.15).
  well_formed_compute.
Defined.

Lemma stratification_preserved_witness :
  exists out,
    simulate_stratified_tank vessel_cfg
      [333; 333] [- (1 # 60); 0] [293; 293] [300; 310] = Ok out /\
    forall t, (0 <= t <= 2)%Z ->
      stratified (row_at (T out) t) /\ node (T_bot out) t <= node (T_top out) t.
Proof.
  apply (stratification_preserved vessel_cfg
           [333; 333] [- (1 # 60); 0] [293; 293] [300; 310]).
  - well_formed_compute.
  - decide_cmp.
  - decide_cmp.
  - Forall_cmp.
  - intros j Hj0 Hj. change (len [300; 310]) with 2%Z in Hj.
    assert (j = 0)%Z as -> by lia. decide_cmp.
Defined.

Lemma constant_inputs_monotone_witness :
  exists out,
    simulate_stratified_tank vessel_cfg
      [333; 333] [1 # 60; 1 # 60] [293; 293] [293; 293] = Ok out /\
    (Forall2 Qle (row_at (T out) 0) (row_at (T out) 1) ->
     forall t, (0 <= t < 2)%Z ->
       Forall2 Qle (row_at (T out) t) (row_at (T out) (t + 1))) /\
    (Forall2 Qle (row_at (T out) 1) (row_at (T out) 0) ->
     forall t, (0 <= t < 2)%Z ->
       Forall2 Qle (row_at (T out) (t + 1)) (row_at (T out) t)).
Proof.
  apply (constant_inputs_monotone vessel_cfg
           [333; 333] [1 # 60; 1 # 60] [293; 293] [293; 293] 333 (1 # 60) 293).
  - well_formed_compute.
  - decide_cmp.
  - decide_cmp.
  - repeat constructor.
  - repeat constructor.
  - repeat constructor.
Defined.


Lemma discharge_at_bottom_witness :
  exists Tn',
    advection bottom_cfg (mass_node bottom_cfg) [60] 0 (-1) [20; 40; 60] = Ok Tn' /\
    len Tn' = len [20; 40; 60] /\
    (3%Z = 2%Z ->
       node Tn' 0 =
         (1 - py_min 1 ((Qabs (-1) * dt bottom_cfg) / mass_node bottom_cfg)) * 20
         + py_min 1 ((Qabs (-1) * dt bottom_cfg) / mass_node bottom_cfg) * 40 /\
       node Tn' 1 = 40) /\
    ((3 <= 3)%Z ->
       node Tn' 0 =
         (1 - py_min 1 ((Qabs (-1) * dt bottom_cfg) / mass_node bottom_cfg))
           * ((1 - py_min 1 ((Qabs (-1) * dt bottom_cfg) / mass_node bottom_cfg)) * 20
              + py_min 1 ((Qabs (-1) * dt bottom_cfg) / mass_node bottom_cfg) * 40)
         + py_min 1 ((Qabs (-1) * dt bottom_cfg) / mass_node bottom_cfg) * 40 /\
       (forall j, (1 <= j <= 3 - 3)%Z ->
          node Tn' j =
            (1 - py_min 1 ((Qabs (-1) * dt bottom_cfg) / mass_node bottom_cfg))
              * node [20; 40; 60] j
            + py_min 1 ((Qabs (-1) * dt bottom_cfg) / mass_node bottom_cfg)
              * node [20; 40; 60] (j + 1)) /\
       (forall j, (3 - 2 <= j < 3)%Z -> node Tn' j = node [20; 40; 60] j)).
Proof.
  apply (discharge_at_bottom bottom_cfg [60] 0 (-1) [20; 40; 60]).
  - constructor; decide_cmp.
  - reflexivity.
  - reflexivity.
  - reflexivity.
Defined.

Lemma saturated_charging_floods_witness :
  exists Tn',
    advection plain_cfg (mass_node plain_cfg) [60; 60] 0 2 [20; 40] = Ok Tn' /\
    1 # 2 <= alpha_of plain_cfg (mass_node plain_cfg) 2 /\
    node Tn' 0 =
      (1 - alpha_of plain_cfg (mass_node plain_cfg) 2) * 20
      + alpha_of plain_cfg (mass_node plain_cfg) 2 * 60 /\
    forall j, (0 <= j < 2)%Z -> node Tn' j == node Tn' 0.
Proof.
  apply (saturated_charging_floods plain_cfg [60; 60] 0 2 [20; 40]).
  - constructor; decide_cmp.
  - reflexivity.
  - vm_compute. split; [discriminate | reflexivity].
  - decide_cmp.
Defined.

Lemma simulate_restart_witness :
  exists out1 out2 out,
    simulate_stratified_tank (with_n_steps plain_cfg 1)
      [60] [1] [20] [30; 50] = Ok out1 /\
    simulate_stratified_tank (with_n_steps plain_cfg 1)
      [40] [-1] [10] (row_at (T out1) 1) = Ok out2 /\
    simulate_stratified_tank (with_n_steps plain_cfg (1 + 1))
      ([60] ++ [40]) ([1] ++ [-1]) ([20] ++ [10]) [30; 50] = Ok out /\
    T out = T out1 ++ drop 1 (T out2) /\
    T_top out = T_top out1 ++ drop 1 (T_top out2) /\
    T_bot out = T_bot out1 ++ drop 1 (T_bot out2) /\
    Q_loss out = Q_loss out1 ++ Q_loss out2.
Proof.
  apply (simulate_restart plain_cfg 1 1 [60] [40] [1] [-1] [20] [10] [30; 50]).
  - well_formed_compute.
  - lia.
  - reflexivity.
  - reflexivity.
  - reflexivity.
Defined.

Lemma discharge_heat_drawn_witness :
  exists Tn',
    advection plain_cfg (mass_node plain_cfg) [60; 60] 0 (-1) [20; 40] = Ok Tn' /\
    energy plain_cfg Tn' ==
      energy plain_cfg [20; 40]
      - py_min 1 ((Qabs (-1) * dt plain_cfg) / mass_node plain_cfg)
        * mass_node plain_cfg * (node [20; 40] 1 - node [20; 40] 0).
Proof.
  apply (discharge_heat_drawn plain_cfg [60; 60] 0 (-1) [20; 40]).
  - constructor; decide_cmp.
  - reflexivity.
  - reflexivity.
  - reflexivity.
Defined.

Lemma scenario_full_charge_warms_witness :
  exists out title,
    scenario_full_charge main_cfg =
      Returned (out, replicate (Z.to_nat 120) 0.10, title) /\
    (forall t, (0 <= t <= 120)%Z ->
       Forall (between (20.0 + 273.15) (60.0 + 273.15)) (row_at (T out) t)) /\
    (forall t, (0 <= t < 120)%Z ->
       Forall2 Qle (row_at (T out) t) (row_at (T out) (t + 1))).
Proof.
  apply (scenario_full_charge_warms main_cfg).
  - vm_compute. reflexivity.
  - decide_cmp.
  - decide_cmp.
Defined.

Lemma scenario_discharge_stays_stratified_witness :
  exists out title,
    scenario_discharge_from_charged main_cfg None =
      Returned (out, replicate (Z.to_nat 120) (-0.08), title) /\
    (forall t, (0 <= t <= 120)%Z ->
       stratified (row_at (T out) t) /\
       Forall (between (20.0 + 273.15) (65.0 + 273.15)) (row_at (T out) t)) /\
    (forall t, (0 <= t < 120)%Z ->
       node (T_top out) (t + 1) <= node (T_top out) t).
Proof.
  apply (scenario_discharge_stays_stratified main_cfg).
  - vm_compute. reflexivity.
  - decide_cmp.
  - decide_cmp.
Defined.

Lemma scenario_idle_stays_stratified_witness :
  exists out title,
    scenario_idle_stratified main_cfg =
      Returned (out, replicate (Z.to_nat 120) 0, title) /\
    (forall t, (0 <= t <= 120)%Z ->
       stratified (row_at (T out) t) /\
       Forall (between (20.0 + 273.15) (50.0 + 273.15)) (row_at (T out) t)) /\
    (forall t, (0 <= t < 120)%Z ->
       node (T_top out) (t + 1) <= node (T_top out) t).
Proof.
  apply (scenario_idle_stays_stratified main_cfg).
  - vm_compute. reflexivity.
  - decide_cmp.
  - decide_cmp.
Defined.

Lemma scenarios_chain_witness :
  exists out1 m_flow1 title1,
    scenario_full_charge plain_cfg = Returned (out1, m_flow1, title1) /\
    exists last,
      getitem (T out1) (-1) = Ok last /\
      len last = n_nodes plain_cfg /\
      (forall e,
         scenario_discharge_from_charged (fst (validate plain_cfg)) (Some last)
         <> Raised (Simulation e)) /\
      (forall out2 m_flow2 title2,
         scenario_discharge_from_charged (fst (validate plain_cfg)) (Some last)
         = Returned (out2, m_flow2, title2) ->
         getitem (T out2) 0 = Ok last /\
         m_flow2 = replicate (Z.to_nat (n_steps plain_cfg)) (-0.08)).
Proof.
  eexists _, _, _. split; [vm_compute; reflexivity |].
  eapply (scenarios_chain plain_cfg). vm_compute. reflexivity.
Defined.


Lemma time_axes_match_run_witness :
  exists out time_edges time_steps,
    simulate_stratified_tank plain_cfg [60; 60] [1; -1] [20; 20] [30; 50] = Ok out /\
    build_time_axes 2 1 = (time_edges, time_steps) /\
    len time_edges = len (T_top out) /\ len time_edges = len (T_bot out) /\
    len time_edges = len (T out) /\
    len time_steps = len [1; -1] /\ len time_steps = len (Q_loss out) /\
    (forall i, (0 <= i <= 2)%Z -> node time_edges i == inject_Z i * 1 / 60) /\
    (forall i, (0 <= i < 2)%Z -> node time_steps i == inject_Z i * 1 / 60) /\
    (forall n d, (n < 0)%Z -> build_time_axes n d = ([], [])).
Proof.
  apply (time_axes_match_run plain_cfg [60; 60] [1; -1] [20; 20] [30; 50]).
  well_formed_compute.
Defined.

Lemma as_scalar_single_entry_witness :
  (forall v, _as_scalar (Array {| shape := [1; 1]%Z; data := [5] |}) = Accepted v
             <-> [5] = [v]) /\
  (_as_scalar (Array {| shape := [1; 1]%Z; data := [5] |}) = Rejected ScalarExpected
   <-> len [5] <> 1%Z) /\
  _as_scalar (Array {| shape := [1; 1]%Z; data := [5] |}) <> Rejected ItemOfSeveral.
Proof.
  apply (as_scalar_single_entry {| shape := [1; 1]%Z; data := [5] |}).
  well_shaped_compute.
Defined.

Lemma arrays_agree_with_lists_witness :
  simulate_arrays plain_cfg (array_of [60; 60]) (array_of [1; -1])
    (array_of [20; 20]) row2 =
    match simulate_stratified_tank plain_cfg [60; 60] [1; -1] [20; 20] [30; 50] with
    | Ok out => Accepted out
    | Err e => Rejected (input_error_of e)
    end.
Proof.
  apply (arrays_agree_with_lists plain_cfg (array_of [60; 60]) (array_of [1; -1])
           (array_of [20; 20]) row2);
    first [reflexivity | well_shaped_compute].
Defined.

Lemma dimensions_checked_first_witness :
  simulate_arrays bottom_cfg (array_of [60]) (array_of [-1]) (array_of [20])
    column3 = Rejected (InitialShape 3 [3; 1]%Z).
Proof.
  apply (dimensions_checked_first bottom_cfg (array_of [60]) (array_of [-1])
           (array_of [20]) column3).
  - vm_compute. reflexivity.
  - reflexivity.
  - reflexivity.
  - reflexivity.
  - discriminate.
Defined.

Lemma simulate_shape_mismatch_witness :
  ((exists e, dimension_mismatch e /\
      simulate_arrays bottom_cfg (array_of [60]) (array_of [-1])
        (array_of [20]) column3 = Rejected e) <->
   (snd (validate bottom_cfg) = Ok tt /\
    (shape (array_of [60]) <> [n_steps bottom_cfg] \/
     shape (array_of [-1]) <> [n_steps bottom_cfg] \/
     shape (array_of [20]) <> [n_steps bottom_cfg] \/
     shape column3 <> [n_nodes bottom_cfg]))) /\
  (forall e,
     dimension_mismatch e ->
     simulate_arrays bottom_cfg (array_of [60]) (array_of [-1])
       (array_of [20]) column3 = Rejected e ->
     refused bottom_cfg (shape (array_of [60])) (shape (array_of [-1]))
       (shape (array_of [20])) (shape column3) = Some e /\
     forall Tin_charge' m_flow' T_amb' T_init' : ndarray,
       shape Tin_charge' = shape (array_of [60]) ->
       shape m_flow' = shape (array_of [-1]) ->
       shape T_amb' = shape (array_of [20]) -> shape T_init' = shape column3 ->
       simulate_arrays bottom_cfg Tin_charge' m_flow' T_amb' T_init' = Rejected e).
Proof.
  apply (simulate_shape_mismatch bottom_cfg (array_of [60]) (array_of [-1])
           (array_of [20]) column3); well_shaped_compute.
Defined.

(** A column of [n_nodes] temperatures as the initial profile: every
    series has [n_steps] entries and the profile has exactly [n_nodes]
    entries (and length), yet the call raises the dimension error of the
    shape test. *)
Lemma column_profile_refused :
  snd (validate bottom_cfg) = Ok tt /\
  len (data (array_of [60])) = n_steps bottom_cfg /\
  len (data (array_of [-1])) = n_steps bottom_cfg /\
  len (data (array_of [20])) = n_steps bottom_cfg /\
  len (data column3) = n_nodes bottom_cfg /\
  array_len column3 = n_nodes bottom_cfg /\
  simulate_arrays bottom_cfg (array_of [60]) (array_of [-1]) (array_of [20])
    column3 = Rejected (InitialShape 3 [3; 1]%Z) /\
  dimension_mismatch (InitialShape 3 [3; 1]%Z).
Proof. vm_compute. repeat split. Qed.

Section Binary64Witness.

Import PrimFloat.
Local Open Scope float_scope.

Lemma march_raises_no_index_error_witness :
  no_index_error
    (fun T =>
       len T = (1 + 1)%Z /\
       Forall (fun row => len row = 20%Z) T /\
       getitem T 0 = Ok (Binary64.np_full 20 293.15))
    (Binary64.time_marching
       (fst (Binary64.validate (Binary64.default_cfg 60.0 1)))
       [333.15] [0.10] [293.15] (Binary64.np_full 20 293.15)).
Proof.
  apply (march_raises_no_index_error (Binary64.default_cfg 60.0 1));
    vm_compute; reflexivity.
Defined.

End Binary64Witness.
